(* ===== verification/_CoqProject ===== *)
-Q . S2P
Prelude.v
Outcome.v
Result.v
Kernel.v
SimKernel.v
ScopedFd.v
TimerQueue.v
EventLoop.v
Recorder.v
EventLoopFacts.v
TimerFacts.v
SourceFacts.v
DispatchFacts.v
Deferred.v
TurnRule.v
ReactorWitness.v
Waking.v
TimerService.v
TimerWitness.v
TimerUsageApp.v
TimerUsageWitness.v
AppKernel.v
Float64.v
FloatRounding.v
PcapFormat.v
PacketReceiver.v
PcapReceiver.v
PcapDispatch.v
PcapFrames.v
PcapReplay.v
PcapOpen.v
PcapNg.v
PcapNgReplay.v
PacketFacts.v
PcapControl.v
PcapSpeed.v
Playback.v
ClassicPlayback.v
NgPlayback.v
FloodRun.v
PacedRun.v
ReplayBeside.v
UDPReceiver.v
UDPFacts.v
UDPBeside.v
Unchanged.v
PcapTypes.v
UDPService.v
ServerApp.v
EchoApp.v
GatewayApp.v
UDPWitness.v
ServerWitness.v
PcapWitness.v
BesideWitness.v
PcapSpeedWitness.v
PcapTypesWitness.v
PcapNgWitness.v
ReplayApp.v
ReplayCapture.v
ReplayFacts.v
TimedFacts.v
ReplayWitness.v
