(* ===== verification/Prelude.v ===== *)
(** * AtuReactor: a verification of the reactor, the UDP receiver and the
      capture replay

    ** The program

    AtuReactor is a C++17 library for Linux.  An [EventLoop]
    (src/src/EventLoop.cc) waits on epoll, calls the handler stored for each
    ready descriptor, fires timers through a timerfd and runs deferred tasks.
    A [PacketReceiver] (src/src/PacketReceiver.cc) owns a packet buffer and a
    map from ports to sockets; it is the base of the [UDPReceiver]
    (src/src/UDPReceiver.cc), which reads datagrams in batches with recvmmsg
    when the loop calls it, and of the [PcapReceiver]
    (src/src/PcapReceiver.cc), which replays a capture file: at once
    (FLOOD), at the pace of its time stamps (TIMED) or on demand (STEP), the
    batches being timers and deferred tasks of the loop.  Expected failures are
    [Result] values (Result.h), descriptors are owned by [ScopedFd] objects
    (ScopedFd.h).
    Four example programs (src/examples/) are built on it: [pcap_replay]
    replays a file from the command line, [simple_echo] and
    [multi_port_gateway] serve UDP ports, [TimerUsage] prints from timers.

    ** How it is modelled

    An operation is a function of the state monad of [Outcome]: it returns,
    throws a C++ exception, or crashes.  A crash stands for undefined
    behaviour (an access out of bounds, a dangling iterator or source, a
    signed overflow, a division by zero, a bad shift or conversion), for a
    failed assertion and for std::terminate; so a theorem that gives the
    outcome of an operation is total: no crash is possible where it says
    [Ret] or [Throw].  The state is a [world]: the loop, the receiver object,
    and the kernel.  Integers are [Z], wrapped where the C++ type is unsigned,
    checked where it is signed; [double] is binary64 ([Float64]).  Pointers
    into the packet buffer and the mapped file are addresses, and a load
    outside the mapping is a crash.

    The operating system is not part of the repository: it is a parameter, the
    type classes of [Kernel], one per group of calls, with the documented
    behaviour the proofs rely on in the [...Laws] classes.  [SimKernel] is an
    executable kernel that satisfies them; the witnesses run on it.  Code of
    the application (tasks, packet handlers) is a parameter too; the theorems
    about the loop hold for every application whose callbacks are themselves
    [safe] (they call the operations of the loop in any way, but do not remove
    a descriptor of 1024 or more, see [removed_source_in_batch]).  What else
    such an application keeps, a property of its object and of the kernel, is
    a parameter of the development of the loop (the class [AppInvariant]): a
    replay in the middle of a file, or a receiver in order, is one.  The round
    trips are stated for an application that records its calls ([Recorder]).  Whether assertions are compiled in is the parameter
    [ndebug].

    ** The files

    - [Prelude]: words, byte orders, tactics, hint databases, list lemmas.
      [Outcome]: the monad, its laws, weakest preconditions.  [Result]:
      Result.h.  [Kernel], [SimKernel]: the system calls.
    - [ScopedFd]: ScopedFd.h, as functions on values and as a transition
      system over a store of objects.
    - [TimerQueue], [EventLoop]: EventLoop.h and EventLoop.cc.  The ordered
      set of timers is a sorted list, an iterator is the key of its element;
      the hash map of slow sources keeps the identity of its nodes, so that a
      pointer epoll returns may dangle.
    - [EventLoopFacts], [TimerFacts], [SourceFacts], [DispatchFacts]: the
      properties of the loop; [Deferred]: its deferred tasks, in a turn with any
      events; [ReactorWitness]: runs of it.  [TurnRule]: a rule for programs that
      only react to events, which says what they did for each of them.
    - [Waking]: what progress needs of the kernel ([WakingKernel], [AppMemory],
      [StartupLaws]); what the loop leaves unchanged up to a relation on kernel
      states ([TimerFrame] for its timer, [ReactorFrame] with its waits); the
      record of the calls the packet handlers have seen, each with its instant
      ([CallTrace]), and the table of open descriptors ([DescriptorTable]).  The
      kernel also records what its waits and receives returned ([KernelLog], in
      [Kernel]): the theorems on the servers are stated against that record.
      [AppKernel]: a program's memory on top of a kernel; the laws carry over.
    - [TimerService]: an abstract timer service, and the proof that the loop
      implements it; [TimerWitness]: a client.
    - [PacketReceiver], [PacketFacts]: PacketReceiver.h and .cc, Types.h,
      PacketMetadata.h.  The class [HasBase] gives the members of the base
      class access to the base part of a derived object.  [Recorder]: an
      application that records the calls of its handlers.
    - [UDPReceiver], [UDPFacts], [UDPWitness]: UDPReceiver.h and .cc.
      [UDPBeside]: the receiver beside an application, the operations of both
      called from each other's callbacks.
      [Unchanged]: which parts of the state the operations keep, by the shape
      of their code.  [UDPService]: a program that serves sockets through the
      loop, from the subscription to the handlers: turn by turn, every socket
      the wait reported is read once, and every message handed over.
    - [PcapFormat], [Float64], [PcapReceiver]: PcapReceiver.h and .cc.
      [FloatRounding]: the [double] operations as rounding of rationals.
      [PcapDispatch], [PcapFrames]: from a captured packet to its handler.
      [PcapOpen]: opening.  [PcapReplay]: the pcap reader.  [PcapNg],
      [PcapNgReplay]: the pcapng reader.  [PcapControl]: subscription, pacing
      and scheduling; [PcapSpeed]: pacing at any speed.  [PcapTypes]: the ranges of the members and of the
      arguments of the handlers.  [PcapWitness], [PcapNgWitness],
      [PcapSpeedWitness], [PcapTypesWitness]: runs on encoded files.
    - [Playback]: the interface between a reader and the batches that play its
      file: one call of the reader (class [Reader]), the same where packets are
      never early ([Playable]), and a file that can be played again
      ([Rewindable]).  [ClassicPlayback], [NgPlayback]: the two readers
      implement it.  [FloodRun], [PacedRun]: the replay in FLOOD and in TIMED
      mode, through the loop, against it.  [ReplayBeside], [BesideWitness]: a
      replay in any mode that shares the loop with an application.
    - [ReplayApp]: examples/pcap_replay.cc; [ReplayCapture]: the captures it
      plays, in either format; [ReplayFacts]: what surrounds the passes, and
      the FLOOD mode; [TimedFacts]: the TIMED mode; [ReplayWitness]: runs.
      [ServerApp]: what the two servers share; [EchoApp]: simple_echo.cc;
      [GatewayApp]: multi_port_gateway.cc; [ServerWitness]: runs of both.
      [TimerUsageApp], [TimerUsageWitness]: TimerUsage.cc.

    ** What is proved

    - Ownership: in every execution each open descriptor has one owner and is
      closed once ([scoped_fd_safe]); a subscription that fails closes its
      socket ([udp_subscribe_spec]); unsubscribing and destruction leave no
      source behind ([base_unsubscribe_spec], [PacketReceiver_delete_spec]).
    - The loop: [runOnce] keeps the invariant of the loop and never faults,
      whatever safe callbacks do, and leaves the timer armed ([runOnce_safe]);
      what each operation on timers and sources does on every branch
      ([runAfter_spec], [runEvery_spec], [cancelTimer_spec], [addSource_spec],
      [removeSource_spec], [EventLoop_new_spec]); which timers expire, in
      which order ([handleTimerRead_expires]); that events and tasks reach
      what they were registered for ([registered_event_dispatched],
      [runOnce_runs_tasks]).
    - Refinement: the operations on timers and a turn of the loop implement
      an abstract service that has a map of timers and no queue, index or
      descriptor ([timer_operations_refine], [runOnce_refines]).
    - UDP: the rows of the buffer are disjoint and inside it
      ([PacketReceiver_new_spec]), and a read hands every datagram to the
      handler with its row, length, status and time ([handleRead_spec]).
    - Composition: a receiver and an application that share a loop, in any
      interleaving of their timers, tasks, sockets and callbacks.  The handlers of
      a UDP server may subscribe, unsubscribe and work with the loop; they are
      only called with data inside the buffer, and nothing faults
      ([udp_beside_application]).  A replay beside an application makes its calls
      in the order of the file, each no earlier than its time stamp allows, at
      any speed, and all of them before it says that it is finished ([replay_beside_application]).
    - The programs, from [main] on: pcap_replay, with a capture in either
      format, ends in FLOOD mode with the totals of its file
      ([replay_flood_ends]); in TIMED mode every pass makes the same calls and
      takes the time its time stamps span ([replay_timed_paced]), and the program
      ends once the clock has passed them ([replay_timed_ends]); it refuses other
      arguments and files it cannot open ([replay_refuses]); the servers never fault ([gateway_main_runs],
      [echo_main_runs]) and print one line for every datagram the kernel gave
      them that is not empty, for the right stream ([gateway_serves],
      [echo_serves]); TimerUsage prints its
      lines no earlier than it promises ([usage_main_prints]).
    - Replay: the dispatcher refines a specification by offsets
      ([parseAndDispatch_delivers]); the fast path is the slow path
      ([fast_path_is_slow_path]); encoded packets and files, in both formats,
      come back as the calls of the handlers ([encoded_packet_delivered],
      [pcap_file_replayed], [pcapng_file_replayed], [rewind_replays]);
      time stamps and target times are exact within stated bounds
      ([pcapng_timespec_exact], [target_time_exact], [timed_never_early]), and at
      any other speed the target times are less than a nanosecond off, in
      spite of the roundings in [double] ([speed_never_early]);
      the search for a packet block ends on every file
      ([pcapng_search_ends]); the members of the replay stay in the ranges
      of their types for any file and any calls ([replay_types]).
    - What the code does where it departs from its intention, as theorems
      too: [resetTimerFd_spins], [cancel_in_callback_fails],
      [removed_source_in_batch], [swapped_nano_misread],
      [cut_record_reads_outside], [unknown_interface_divides_by_zero],
      [pcap_unsubscribe_fails], [resubscribe_keeps_hot],
      [flood_schedules_twice].

    ** Bounds and fuel

    Two loops of the library have fuel.  [next_packet_block] gets one more than
    the size of the file: every turn but the last advances the cursor by at
    least 8 bytes inside it.  [parse_options] gets one more than the length of
    its block: every turn advances by at least 4.  [pcapng_search_ends] proves
    that neither runs out.  The loops of the programs take the number of their
    turns: [OutOfFuel] says that the program is still running after them.
    For pcap_replay in FLOOD mode a turn per record and two more are enough
    ([replay_flood_ends]); in TIMED mode a turn per packet that is left, once the
    clock has passed the target times, and one more ([replay_timed_ends]: the
    loop spins while it waits, see [resetTimerFd_spins], so how many turns pass
    until then is up to the clock).  The interfaces of a pcapng file are entered
    again in every pass; their number in all the passes is below 2^32
    ([capture_given]).  Time stamps are in the range of the files
    ([file_time]); at a speed other than 1, differences and their quotients by
    the speed are below 2^53 ns (104 days).  The servers run for ever, and
    TimerUsage for as long as the clock takes ([usage_run]: 6000 turns of a millisecond).

    Delays of timers are bounded by [max_delay] (146 years) and the clock by
    [clock_limit] (2^62 ns after boot), which is what 64-bit nanoseconds need.
    The counter of TimerUsage is an [int]: its theorem is for an uptime below
    [horizon] (68 years).

    ** What is not modelled

    The tests, Export.h and the build files.  The contents of the
    packet buffer behind recvmmsg (the kernel writes them; only lengths,
    flags, times and addresses are the library's).  Prefetches and madvise
    have no effect.  Copying a [std::function] may throw bad_alloc; allocation
    is taken to succeed.  getopt is a parameter
    (the options it finds, and the diagnostics it writes on the error stream for
    those it refuses), and so are the texts of error codes.
    The theorems on pcap_replay in TIMED mode are for the speed 1, the only one
    it uses; those on a single packet, and on a replay beside an application,
    are for every positive speed.  The build allows the compiler to contract a product and a sum
    (-march=native): for the times of files that changes nothing, because the
    product is exact ([total_value]).

    Two statements are left out.  That several passes in TIMED mode end: the
    clock is bounded by [clock_limit], so that a law that it always advances
    would be contradictory, and the hypothesis has to be about the run, as it
    is in [replay_timed_ends] for one pass.  And that a replay beside an
    application ends: the application may cancel the timer of the replay or
    throw for ever; what is proved is that nothing goes wrong.
    *)
From Stdlib Require Export ZArith Lia.
From stdpp Require Export base numbers list gmap sorting strings.

#[global] Open Scope Z_scope.

(** ** Machine integers

    A C++ integer is a [Z]; the conversions to the unsigned types of the
    program wrap, signed arithmetic is checked (see [Outcome.s64]). *)

Definition u8 (z : Z) : Z := z mod 2 ^ 8.
Definition u16 (z : Z) : Z := z mod 2 ^ 16.
Definition u32 (z : Z) : Z := z mod 2 ^ 32.
Definition u64 (z : Z) : Z := z mod 2 ^ 64.

(** Conversion of an unsigned 64-bit value to a signed 64-bit type. *)
Definition to_s64 (z : Z) : Z := if u64 z <? 2 ^ 63 then u64 z else u64 z - 2 ^ 64.

Definition is_u8 (z : Z) : Prop := 0 <= z < 2 ^ 8.
Definition is_u16 (z : Z) : Prop := 0 <= z < 2 ^ 16.
Definition is_u32 (z : Z) : Prop := 0 <= z < 2 ^ 32.
Definition is_u64 (z : Z) : Prop := 0 <= z < 2 ^ 64.
Definition is_s32 (z : Z) : Prop := - 2 ^ 31 <= z < 2 ^ 31.
Definition is_s64 (z : Z) : Prop := - 2 ^ 63 <= z < 2 ^ 63.

Definition in_s32 (z : Z) : bool := (- 2 ^ 31 <=? z) && (z <? 2 ^ 31).
Definition in_s64 (z : Z) : bool := (- 2 ^ 63 <=? z) && (z <? 2 ^ 63).

(** The [n]-th byte of a word, least significant first. *)
Definition byte_of (n x : Z) : Z := Z.land (Z.shiftr x (8 * n)) 255.

(** Little-endian composition, the order in which the host loads a word. *)
Definition le16 (b0 b1 : Z) : Z := Z.lor b0 (Z.shiftl b1 8).
Definition le32 (b0 b1 b2 b3 : Z) : Z := Z.lor (le16 b0 b1) (Z.shiftl (le16 b2 b3) 16).

(** [__builtin_bswap16], [__builtin_bswap32]; on a little-endian host also
    [htons] and [ntohs]. *)
Definition bswap16 (x : Z) : Z := le16 (byte_of 1 x) (byte_of 0 x).
Definition bswap32 (x : Z) : Z :=
  le32 (byte_of 3 x) (byte_of 2 x) (byte_of 1 x) (byte_of 0 x).
Definition htons (x : Z) : Z := bswap16 x.
Definition ntohs (x : Z) : Z := bswap16 x.

(** ** Hint databases and tactics *)

Create HintDb words.
Create HintDb reactor.
Create Rewrite HintDb run.

(** Linear arithmetic with division and modulo by constants. *)
Ltac zlia := Z.div_mod_to_equations; lia.

(** Case analysis on the integer comparisons of the goal. *)
Ltac zbool :=
  repeat match goal with
  | |- context [(?a =? ?b)%Z] => destruct (Z.eqb_spec a b)
  | |- context [(?a <? ?b)%Z] => destruct (Z.ltb_spec a b)
  | |- context [(?a <=? ?b)%Z] => destruct (Z.leb_spec a b)
  end.

(** Turns a comparison hypothesis of the program into the proposition. *)
Ltac zprop :=
  repeat match goal with
  | H : (_ =? _)%Z = true |- _ => apply Z.eqb_eq in H
  | H : (_ =? _)%Z = false |- _ => apply Z.eqb_neq in H
  | H : (_ <? _)%Z = true |- _ => apply Z.ltb_lt in H
  | H : (_ <? _)%Z = false |- _ => apply Z.ltb_ge in H
  | H : (_ <=? _)%Z = true |- _ => apply Z.leb_le in H
  | H : (_ <=? _)%Z = false |- _ => apply Z.leb_gt in H
  | H : _ && _ = true |- _ => apply andb_true_iff in H as [? ?]
  | H : _ || _ = false |- _ => apply orb_false_iff in H as [? ?]
  | H : negb _ = true |- _ => apply negb_true_iff in H
  | H : negb _ = false |- _ => apply negb_false_iff in H
  end.

(** ** Lemmas on words *)

Lemma land_shiftl_disjoint (a b n : Z) :
  0 <= n -> 0 <= a < 2 ^ n -> Z.land a (Z.shiftl b n) = 0.
Proof.
  intros Hn Ha. apply Z.bits_inj'. intros i Hi.
  rewrite Z.land_spec, Z.bits_0.
  destruct (Z.ltb_spec i n).
  - rewrite Z.shiftl_spec_low by lia. apply andb_false_r.
  - rewrite <- (Z.mod_small a (2 ^ n)), Z.mod_pow2_bits_high by lia. done.
Qed.

Lemma lor_shiftl_add (a b n : Z) :
  0 <= n -> 0 <= a < 2 ^ n -> Z.lor a (Z.shiftl b n) = a + b * 2 ^ n.
Proof.
  intros Hn Ha. pose proof (Z.add_lor_land a (Z.shiftl b n)) as E.
  rewrite land_shiftl_disjoint in E by done.
  rewrite Z.shiftl_mul_pow2 in * by done. lia.
Qed.

Lemma land_255 (x : Z) : Z.land x 255 = x mod 2 ^ 8.
Proof. change 255 with (Z.ones 8). by rewrite Z.land_ones. Qed.

Lemma byte_of_spec (n x : Z) : 0 <= n -> byte_of n x = x / 2 ^ (8 * n) mod 256.
Proof. intros. unfold byte_of. rewrite land_255, Z.shiftr_div_pow2 by lia. done. Qed.

Lemma byte_of_u8 (n x : Z) : is_u8 (byte_of n x).
Proof. unfold byte_of, is_u8. rewrite land_255. apply Z.mod_pos_bound. lia. Qed.

Lemma le16_spec (b0 b1 : Z) : is_u8 b0 -> le16 b0 b1 = b0 + b1 * 256.
Proof. unfold is_u8, le16. intros. by rewrite lor_shiftl_add. Qed.

Lemma le16_u16 (b0 b1 : Z) : is_u8 b0 -> is_u8 b1 -> is_u16 (le16 b0 b1).
Proof. intros. rewrite le16_spec by done. unfold is_u8, is_u16 in *. lia. Qed.

Lemma le32_spec (b0 b1 b2 b3 : Z) :
  is_u8 b0 -> is_u8 b1 -> is_u8 b2 -> is_u8 b3 ->
  le32 b0 b1 b2 b3 = b0 + b1 * 2 ^ 8 + b2 * 2 ^ 16 + b3 * 2 ^ 24.
Proof.
  intros. unfold le32. rewrite lor_shiftl_add; [|done|by apply le16_u16].
  rewrite !le16_spec by done. lia.
Qed.

Lemma le32_u32 (b0 b1 b2 b3 : Z) :
  is_u8 b0 -> is_u8 b1 -> is_u8 b2 -> is_u8 b3 -> is_u32 (le32 b0 b1 b2 b3).
Proof. intros. rewrite le32_spec by done. unfold is_u8, is_u32 in *. lia. Qed.

Lemma mod256_u8 (x : Z) : is_u8 (x mod 256).
Proof. unfold is_u8. zlia. Qed.

#[export] Hint Resolve byte_of_u8 le16_u16 le32_u32 mod256_u8 : words.

Lemma bswap16_u16 (x : Z) : is_u16 (bswap16 x).
Proof. unfold bswap16. auto with words. Qed.

Lemma bswap32_u32 (x : Z) : is_u32 (bswap32 x).
Proof. unfold bswap32. auto with words. Qed.

#[export] Hint Resolve bswap16_u16 bswap32_u32 : words.

(** The swap of a word composed of bytes is the word of the reversed bytes. *)
Lemma bswap16_le16 (b0 b1 : Z) : is_u8 b0 -> is_u8 b1 -> bswap16 (le16 b0 b1) = le16 b1 b0.
Proof.
  intros. unfold bswap16. rewrite !byte_of_spec by lia. rewrite !le16_spec by auto with words.
  unfold is_u8 in *. cbn. zlia.
Qed.

Lemma bswap32_le32 (b0 b1 b2 b3 : Z) :
  is_u8 b0 -> is_u8 b1 -> is_u8 b2 -> is_u8 b3 ->
  bswap32 (le32 b0 b1 b2 b3) = le32 b3 b2 b1 b0.
Proof.
  intros. unfold bswap32. rewrite !byte_of_spec by lia.
  rewrite !le32_spec by auto with words. unfold is_u8 in *. cbn [Z.mul]. zlia.
Qed.

Lemma le16_bytes (x : Z) : is_u16 x -> le16 (byte_of 0 x) (byte_of 1 x) = x.
Proof.
  intros. rewrite le16_spec by auto with words. rewrite !byte_of_spec by lia.
  unfold is_u16 in *. cbn. zlia.
Qed.

Lemma le32_bytes (x : Z) :
  is_u32 x -> le32 (byte_of 0 x) (byte_of 1 x) (byte_of 2 x) (byte_of 3 x) = x.
Proof.
  intros. rewrite le32_spec by auto with words. rewrite !byte_of_spec by lia.
  unfold is_u32 in *. cbn [Z.mul]. zlia.
Qed.

Lemma bswap16_involutive (x : Z) : is_u16 x -> bswap16 (bswap16 x) = x.
Proof.
  intros. unfold bswap16 at 2. rewrite bswap16_le16 by auto with words. by apply le16_bytes.
Qed.

Lemma bswap32_involutive (x : Z) : is_u32 x -> bswap32 (bswap32 x) = x.
Proof.
  intros. unfold bswap32 at 2. rewrite bswap32_le32 by auto with words. by apply le32_bytes.
Qed.

Lemma u16_small (x : Z) : is_u16 x -> u16 x = x.
Proof. unfold is_u16, u16. intros. by apply Z.mod_small. Qed.

Lemma u32_small (x : Z) : is_u32 x -> u32 x = x.
Proof. unfold is_u32, u32. intros. by apply Z.mod_small. Qed.

Lemma u64_small (x : Z) : is_u64 x -> u64 x = x.
Proof. unfold is_u64, u64. intros. by apply Z.mod_small. Qed.

Lemma in_s64_spec (z : Z) : in_s64 z = true <-> is_s64 z.
Proof. unfold in_s64, is_s64. rewrite andb_true_iff, Z.leb_le, Z.ltb_lt. done. Qed.

Lemma in_s32_spec (z : Z) : in_s32 z = true <-> is_s32 z.
Proof. unfold in_s32, is_s32. rewrite andb_true_iff, Z.leb_le, Z.ltb_lt. done. Qed.

(** Clearing the low bits rounds down. *)
Lemma land_lnot_ones x k : 0 <= k -> Z.land x (Z.lnot (2 ^ k - 1)) = 2 ^ k * (x / 2 ^ k).
Proof.
  intros Hk. rewrite <- Z.ldiff_land. replace (2 ^ k - 1) with (Z.ones k) by (rewrite Z.ones_equiv; lia).
  rewrite Z.ldiff_ones_r, Z.shiftl_mul_pow2, Z.shiftr_div_pow2 by done. lia.
Qed.

(** ** Lemmas on lists *)

Section Filter.
Context {A : Type} (P : A -> Prop) `{!forall x, Decision (P x)}.

Lemma filter_all (l : list A) : Forall P l -> filter P l = l.
Proof. induction 1; [done|]. rewrite filter_cons, decide_True by done. by f_equal. Qed.

Lemma filter_none (l : list A) : Forall (fun x => ~ P x) l -> filter P l = [].
Proof. induction 1; [done|]. by rewrite filter_cons, decide_False. Qed.
End Filter.
