(* ===== verification/Outcome.v ===== *)
(** The effects of the program: a state monad whose computations return a
    value, throw a C++ exception, or crash.  A crash is an execution the
    language gives no meaning to (or that kills the process); it carries the
    reason, so that a theorem can say which fault is reached, and every
    "the operation is safe" theorem of the development is total correctness:
    a weakest precondition that no crash satisfies. *)
From S2P Require Import Prelude.

(** ** Errors and exceptions *)

(** [std::error_code]: a value and its category. *)
Inductive error_category := generic_category | system_category.

#[export] Instance error_category_eq_dec : EqDecision error_category.
Proof. solve_decision. Defined.

Record error_code := ErrorCode { ec_value : Z; ec_category : error_category }.

#[export] Instance error_code_eq_dec : EqDecision error_code.
Proof. solve_decision. Defined.

(** A default-constructed code is "no error" in the system category. *)
Definition no_error : error_code := ErrorCode 0 system_category.

(** [error_code::operator bool]. *)
Definition ec_bool (ec : error_code) : bool := negb (ec_value ec =? 0).

Inductive exn :=
| RuntimeError (what : string)
| BadResultAccess (ec : error_code)
| LengthError
| BadFunctionCall
| UserException (n : Z).

(** Executions without a meaning, or that end the process. *)
Inductive fault :=
| OutOfBounds
| SignedOverflow
| DivisionByZero
| BadShift
| BadConversion
| DanglingIterator
| DanglingSource
| AssertionFailed
| TerminateCalled
| OutOfFuel.

(** ** The monad *)

Inductive outcome (S A : Type) :=
| Ret (a : A) (s : S)
| Throw (e : exn) (s : S)
| Crash (f : fault).
Arguments Ret {S A} a s.
Arguments Throw {S A} e s.
Arguments Crash {S A} f.

Definition M (S A : Type) : Type := S -> outcome S A.

#[export] Instance M_ret {S} : MRet (M S) := fun A a s => Ret a s.
#[export] Instance M_bind {S} : MBind (M S) := fun A B k m s =>
  match m s with
  | Ret a s' => k a s'
  | Throw e s' => Throw e s'
  | Crash f => Crash f
  end.

Definition throw {S A} (e : exn) : M S A := fun s => Throw e s.
Definition crash {S A} (f : fault) : M S A := fun _ => Crash f.
Definition gets {S A} (f : S -> A) : M S A := fun s => Ret (f s) s.
Definition modify {S} (f : S -> S) : M S unit := fun s => Ret tt (f s).

(** A function declared [noexcept]: an exception that leaves it terminates. *)
Definition noexcept {S A} (m : M S A) : M S A := fun s =>
  match m s with
  | Throw _ _ => Crash TerminateCalled
  | o => o
  end.

(** Clean-up run by destructors when the computation throws. *)
Definition on_throw {S A} (m : M S A) (cleanup : M S unit) : M S A := fun s =>
  match m s with
  | Throw e s' =>
      match cleanup s' with
      | Ret _ s'' => Throw e s''
      | Throw _ _ => Crash TerminateCalled
      | Crash f => Crash f
      end
  | o => o
  end.

(** Checked arithmetic: overflow of a signed type has no meaning. *)
Definition s32 {S} (z : Z) : M S Z := if in_s32 z then mret z else crash SignedOverflow.
Definition s64 {S} (z : Z) : M S Z := if in_s64 z then mret z else crash SignedOverflow.

(** [for (auto& x : l) f(x);] *)
Fixpoint for_each {S A} (l : list A) (f : A -> M S unit) : M S unit :=
  match l with
  | [] => mret tt
  | x :: l' => f x ;; for_each l' f
  end.

(** [for (int i = 0; i < n; ++i) f(i);] *)
Definition for_n {S} (n : Z) (f : Z -> M S unit) : M S unit := for_each (seqZ 0 n) f.

(** Short-circuit conjunction of effectful tests. *)
Definition mand {S} (m1 m2 : M S bool) : M S bool :=
  b ← m1; if (b : bool) then m2 else mret false.

(** ** Weakest preconditions *)

Definition wp {S A} (m : M S A) (Q : A -> S -> Prop) (E : exn -> S -> Prop) (s : S) : Prop :=
  match m s with
  | Ret a s' => Q a s'
  | Throw e s' => E e s'
  | Crash _ => False
  end.

(** [m] never crashes from a state of [I] and ends in a state of [I],
    whether it returns or throws. *)
Definition preserves {S A} (I : S -> Prop) (m : M S A) : Prop :=
  forall s, I s -> wp m (fun _ => I) (fun _ => I) s.

(** [m] is total: it returns, in a state of [I]. *)
Definition total {S A} (I : S -> Prop) (m : M S A) : Prop :=
  forall s, I s -> wp m (fun _ => I) (fun _ _ => False) s.

(** ** Equations of the monad *)

Section Laws.
Context {S : Type}.

Lemma bind_run {A B} (m : M S A) (k : A -> M S B) s :
  (m ≫= k) s = match m s with
               | Ret a s' => k a s' | Throw e s' => Throw e s' | Crash f => Crash f end.
Proof. done. Qed.

Lemma bind_Ret {A B} (m : M S A) (k : A -> M S B) s a s' :
  m s = Ret a s' -> (m ≫= k) s = k a s'.
Proof. intros E. by rewrite bind_run, E. Qed.

Lemma bind_Ret_inv {A B} (m : M S A) (k : A -> M S B) s b s' :
  (m ≫= k) s = Ret b s' -> exists a s1, m s = Ret a s1 /\ k a s1 = Ret b s'.
Proof. rewrite bind_run. destruct (m s) as [a s1| |]; [|done..]. intros E. by exists a, s1. Qed.

Lemma Ret_inj {A} (a a' : A) (s s' : S) : Ret a s = Ret a' s' -> a = a' /\ s = s'.
Proof. intros E. by injection E. Qed.

Lemma bind_Crash {A B} (m : M S A) (k : A -> M S B) s f :
  m s = Crash f -> (m ≫= k) s = Crash f.
Proof. intros E. by rewrite bind_run, E. Qed.

Lemma bind_mret {A B} (a : A) (k : A -> M S B) s : (mret a ≫= k) s = k a s.
Proof. done. Qed.

Lemma bind_gets {A B} (f : S -> A) (k : A -> M S B) s : (gets f ≫= k) s = k (f s) s.
Proof. done. Qed.

Lemma bind_modify {B} f (k : unit -> M S B) s : (modify f ≫= k) s = k tt (f s).
Proof. done. Qed.

Lemma bind_throw {A B} e (k : A -> M S B) s : (throw e ≫= k) s = Throw e s.
Proof. done. Qed.

Lemma bind_assoc {A B C} (m : M S A) (k : A -> M S B) (h : B -> M S C) s :
  ((m ≫= k) ≫= h) s = (m ≫= (fun a => k a ≫= h)) s.
Proof. rewrite !bind_run. by destruct (m s). Qed.

Lemma bind_ext {A B} (m : M S A) (k k' : A -> M S B) s :
  (forall a s', m s = Ret a s' -> k a s' = k' a s') -> (m ≫= k) s = (m ≫= k') s.
Proof. intros E. rewrite !bind_run. destruct (m s) eqn:?; auto. Qed.

Lemma for_each_app {A} (l1 l2 : list A) (f : A -> M S unit) s :
  for_each (l1 ++ l2) f s = (for_each l1 f ;; for_each l2 f) s.
Proof.
  revert s. induction l1 as [|x l1 IH]; intros s; [done|].
  cbn [app for_each]. rewrite bind_assoc. apply bind_ext. intros [] s' _. apply IH.
Qed.

Lemma s64_in (z : Z) (s : S) : is_s64 z -> s64 z s = Ret z s.
Proof. intros H. unfold s64. apply in_s64_spec in H. by rewrite H. Qed.

Lemma s64_Ret (z a : Z) (s s' : S) : s64 z s = Ret a s' -> a = z /\ s' = s /\ is_s64 z.
Proof. unfold s64. destruct (in_s64 z) eqn:E; [|done]. intros H. injection H as <- <-. by apply in_s64_spec in E. Qed.

Lemma s32_in (z : Z) (s : S) : is_s32 z -> s32 z s = Ret z s.
Proof. intros H. unfold s32. apply in_s32_spec in H. by rewrite H. Qed.
End Laws.

#[export] Hint Rewrite @bind_mret @bind_gets @bind_modify @bind_throw @bind_assoc : run.

(** Runs the steps of a computation that need no case analysis. *)
Ltac run_steps := repeat (progress (autorewrite with run; cbn beta iota)).
Ltac run_steps_in H := repeat (progress (autorewrite with run in H; cbn beta iota in H)).

(** Checked arithmetic that stays in range. *)
Ltac s64_step := erewrite bind_Ret; [|apply s64_in; unfold is_s64; lia].

(** ** Rules for [wp] *)

Section Wp.
Context {S : Type}.

Lemma wp_mret {A} (a : A) Q E (s : S) : Q a s -> wp (mret a) Q E s.
Proof. done. Qed.

Lemma wp_throw {A} e (Q : A -> S -> Prop) (E : exn -> S -> Prop) s :
  E e s -> wp (throw e) Q E s.
Proof. done. Qed.

Lemma wp_gets {A} (f : S -> A) (Q : A -> S -> Prop) E s : Q (f s) s -> wp (gets f) Q E s.
Proof. done. Qed.

Lemma wp_modify f (Q : unit -> S -> Prop) E (s : S) : Q tt (f s) -> wp (modify f) Q E s.
Proof. done. Qed.

Lemma wp_bind {A B} (m : M S A) (k : A -> M S B) Q E s :
  wp m (fun a => wp (k a) Q E) E s -> wp (m ≫= k) Q E s.
Proof. unfold wp. rewrite bind_run. by destruct (m s). Qed.

Lemma wp_bind_inv {A B} (m : M S A) (k : A -> M S B) Q E s :
  wp (m ≫= k) Q E s -> wp m (fun a => wp (k a) Q E) E s.
Proof. unfold wp. rewrite bind_run. by destruct (m s). Qed.

Lemma wp_conseq {A} (m : M S A) (Q Q' : A -> S -> Prop) (E E' : exn -> S -> Prop) s :
  wp m Q E s -> (forall a s', Q a s' -> Q' a s') -> (forall e s', E e s' -> E' e s') ->
  wp m Q' E' s.
Proof. unfold wp. destruct (m s); auto. Qed.

Lemma wp_s64 (z : Z) Q E (s : S) : is_s64 z -> Q z s -> wp (s64 z) Q E s.
Proof. intros H HQ. unfold wp. by rewrite s64_in. Qed.

Lemma wp_Ret {A} (m : M S A) (Q : A -> S -> Prop) E s a s' :
  m s = Ret a s' -> Q a s' -> wp m Q E s.
Proof. unfold wp. by intros ->. Qed.

(** The rule of the [for] loops: the body keeps the invariant. *)
Lemma wp_for_each {A} (l : list A) (f : A -> M S unit) (I : S -> Prop) (E : exn -> S -> Prop) s :
  (forall x s, x ∈ l -> I s -> wp (f x) (fun _ => I) E s) ->
  I s -> wp (for_each l f) (fun _ => I) E s.
Proof.
  revert s. induction l as [|x l IH]; intros s Hf Hs; [by apply wp_mret|].
  cbn [for_each]. apply wp_bind.
  eapply wp_conseq; [apply Hf; [set_solver|done]| |done].
  intros [] s' Hs'. apply IH; [|done]. intros; apply Hf; set_solver.
Qed.

Lemma preserves_bind {A B} I (m : M S A) (k : A -> M S B) :
  preserves I m -> (forall a, preserves I (k a)) -> preserves I (m ≫= k).
Proof.
  intros Hm Hk s Hs. apply wp_bind. eapply wp_conseq; [by apply Hm| |done].
  intros a s' Hs'. by apply Hk.
Qed.

Lemma preserves_mret {A} I (a : A) : preserves I (mret a : M S A).
Proof. intros s Hs. done. Qed.

Lemma preserves_for_each {A} I (l : list A) (f : A -> M S unit) :
  (forall x, preserves I (f x)) -> preserves I (for_each l f).
Proof. intros Hf s Hs. apply wp_for_each; [|done]. intros. by apply Hf. Qed.

Lemma total_preserves {A} I (m : M S A) : total I m -> preserves I m.
Proof. intros H s Hs. eapply wp_conseq; [by apply H|done|done]. Qed.
End Wp.

#[export] Hint Resolve preserves_mret total_preserves : reactor.

(** One step of symbolic execution of a [wp] goal. *)
Ltac wp_step :=
  lazymatch goal with
  | |- wp (_ ≫= _) _ _ _ => apply wp_bind
  | |- wp (mret _) _ _ _ => apply wp_mret
  | |- wp (gets _) _ _ _ => apply wp_gets
  | |- wp (modify _) _ _ _ => apply wp_modify
  | |- wp (throw _) _ _ _ => apply wp_throw
  end; cbn beta.
Ltac wp_steps := repeat wp_step.
