(* ===== verification/Result.v ===== *)
(** Component [Result.h]: the value-or-error wrapper that replaces exceptions
    for expected failures, and its [void] specialisation. *)
From S2P Require Import Prelude Outcome.

(** [Result<T>]: [std::variant<T, std::error_code>]. *)
Inductive Result (T : Type) := Value (value : T) | Error (ec : error_code).
Arguments Value {T} value.
Arguments Error {T} ec.

Module Result.
Section Ops.
Context {S T : Type}.

Definition has_value (r : Result T) : bool :=
  match r with Value _ => true | Error _ => false end.

Definition value (r : Result T) : M S T :=
  match r with Value t => mret t | Error ec => throw (BadResultAccess ec) end.

Definition error (r : Result T) : error_code :=
  match r with Value _ => no_error | Error ec => ec end.

Definition value_or (r : Result T) (default_value : T) : T :=
  match r with Value t => t | Error _ => default_value end.
End Ops.
End Result.

(** [Result<void>]: only the error code, "success" being the zero code. *)
Record ResultVoid := MkResultVoid { m_ec : error_code }.

Module ResultVoid.
Definition success : ResultVoid := MkResultVoid no_error.
Definition fail (ec : error_code) : ResultVoid := MkResultVoid ec.
Definition has_value (r : ResultVoid) : bool := negb (ec_bool (m_ec r)).
Definition error (r : ResultVoid) : error_code := m_ec r.

Section Ops.
Context {S : Type}.
Definition value (r : ResultVoid) : M S unit :=
  if ec_bool (m_ec r) then throw (BadResultAccess (m_ec r)) else mret tt.
End Ops.
End ResultVoid.

(** A result that does not claim success while carrying a code. *)
Lemma void_has_value_spec (r : ResultVoid) :
  ResultVoid.has_value r = true <-> ec_value (ResultVoid.error r) = 0.
Proof.
  unfold ResultVoid.has_value, ResultVoid.error, ec_bool.
  rewrite negb_involutive, Z.eqb_eq. done.
Qed.
