(* ===== verification/Kernel.v ===== *)
(** The interface to the operating system and to the language run time: the
    system calls the program makes, as type classes over an abstract kernel
    state, one class per group of calls.  A call takes its arguments and the
    kernel state and returns its result with the new state; a failing call
    returns [-1] (or [None], for a call with a structured result) and leaves
    the reason in [errno], as in C.  What the program relies on is stated in
    the [...Laws] classes; [SimKernel] is a concrete kernel that satisfies
    them. *)
From S2P Require Import Prelude.

(** ** Constants of the system headers (Linux, x86-64) *)

Definition EINTR : Z := 4.
Definition EBADF : Z := 9.
Definition EINVAL : Z := 22.
Definition EMFILE : Z := 24.
Definition ENOENT : Z := 2.
Definition EEXIST : Z := 17.
Definition EADDRINUSE : Z := 98.
Definition EAFNOSUPPORT : Z := 97.
Definition EAGAIN : Z := 11.
Definition ENOMEM : Z := 12.

Definition EPOLLIN : Z := 1.
Definition CLOCK_MONOTONIC : Z := 1.
Definition TFD_NONBLOCK : Z := 2048.
Definition TFD_CLOEXEC : Z := 524288.
Definition TFD_TIMER_ABSTIME : Z := 1.
Definition MAP_FAILED : Z := -1.
Definition MAP_HUGETLB : Z := 262144.
Definition AF_INET : Z := 2.
Definition AF_INET6 : Z := 10.
Definition SOL_SOCKET : Z := 1.
Definition SO_REUSEADDR : Z := 2.
Definition SO_REUSEPORT : Z := 15.
Definition SO_TIMESTAMPNS : Z := 35.
Definition SCM_TIMESTAMPNS : Z := 35.
Definition SCM_TIMESTAMPING : Z := 37.
Definition IPPROTO_IPV6 : Z := 41.
Definition IPV6_V6ONLY : Z := 26.
Definition MSG_TRUNC : Z := 32.
Definition MSG_DONTWAIT : Z := 64.

(** ** Values exchanged with the kernel *)

Record timespec := TimeSpec { tv_sec : Z; tv_nsec : Z }.

#[export] Instance timespec_eq_dec : EqDecision timespec.
Proof. solve_decision. Defined.

(** The instant a [timespec] denotes, in nanoseconds. *)
Definition ns_of (ts : timespec) : Z := tv_sec ts * 1000000000 + tv_nsec ts.

(** The [void*] the loop hands to epoll: the address of a slot of the fast
    array, or of a node of the slow hash map (a node is identified by the
    allocation that made it, so that a freed node is told from a new one). *)
Inductive source_ptr := FastPtr (fd : Z) | SlowPtr (fd node : Z).

#[export] Instance source_ptr_eq_dec : EqDecision source_ptr.
Proof. solve_decision. Defined.

(** One ancillary record of a received message. *)
Record cmsg := CMsg { cmsg_level : Z; cmsg_type : Z; cmsg_data : timespec }.

(** What [recvmmsg] is given for one message: the buffer of its I/O vector,
    the room for the source address and for ancillary data. *)
Record rbuf := RBuf { rb_base : Z; rb_len : Z; rb_namelen : Z; rb_controllen : Z }.

(** What it writes back: the length received, the flags, the lengths of the
    address and of the ancillary data, and the ancillary data. *)
Record rmsg := RMsg {
  rm_len : Z; rm_flags : Z; rm_namelen : Z; rm_controllen : Z; rm_cmsgs : list cmsg
}.

(** What the kernel tells a program that serves sockets: the result of a wait,
    and of a read of the socket [f]. *)
Inductive sys_event :=
  | Waited (evs : option (list source_ptr))
  | Received (f : Z) (ms : option (list rmsg)).

(** ** The calls *)

Class ReactorKernel (Y : Type) := {
  errno : Y -> Z;
  steady_now : Y -> Z * Y;
  epoll_create1 : Z -> Y -> Z * Y;
  timerfd_create : Z -> Z -> Y -> Z * Y;
  epoll_ctl_add : Z -> Z -> Z -> source_ptr -> Y -> Z * Y;
  epoll_ctl_del : Z -> Z -> Y -> Z * Y;
  epoll_wait : Z -> Z -> Z -> Y -> option (list source_ptr) * Y;
  timerfd_settime : Z -> Z -> timespec -> Y -> Z * Y;
  timerfd_read : Z -> Y -> Z * Y;
  close : Z -> Y -> Z * Y
}.

Class MemoryKernel (Y : Type) := {
  this_thread_id : Y -> Z;
  mmap_anon : Z -> Z -> Y -> Z * Y;
  munmap : Z -> Z -> Y -> Z * Y
}.

Class SocketKernel (Y : Type) := {
  socket : Z -> Y -> Z * Y;
  setsockopt : Z -> Z -> Z -> Z -> Y -> Z * Y;
  bind : Z -> Z -> Z -> Y -> Z * Y;
  getsockname : Z -> Y -> option (Z * Z) * Y;
  recvmmsg : Z -> list rbuf -> Z -> Z -> Y -> option (list rmsg) * Y
}.

Class FileKernel (Y : Type) := {
  open_rdonly : string -> Y -> Z * Y;
  fstat_size : Z -> Y -> option Z * Y;
  mmap_file : Z -> Z -> Y -> option (Z * list Z) * Y;
  madvise : Z -> Z -> Y -> Z * Y
}.

(** ** What the program relies on *)

(** The steady clock stays below [clock_limit] (2^62 ns, about 146 years of
    uptime), which keeps [now + delay] inside a 64-bit time point. *)
Definition clock_limit : Z := 2 ^ 62.

(** Laws of the reactor's calls, over three observations of the kernel
    state.  [clock] is the value of CLOCK_MONOTONIC; [deadline] the instant
    (on the same clock) from which the timer descriptor is readable, [None]
    when it is disarmed; [registered] the interest list of the epoll instance
    with the pointer stored for each descriptor.
    - the clock never goes back, and reading it changes nothing else;
    - [timerfd_settime] with TFD_TIMER_ABSTIME arms at the given instant, a
      zero value disarms (timerfd_settime(2));
    - a successful read of the timer consumes the expiration, a failed one
      leaves the timer armed;
    - [epoll_ctl] adds the descriptor or fails and changes nothing; after a
      deletion, successful or not, the descriptor is not registered;
    - [epoll_wait] reports at most [maxevents] events, each with the pointer
      of a registered descriptor;
    - closing a descriptor can only remove it from the interest list;
    - a new epoll instance has an empty interest list;
    - a failing call sets a non-zero [errno]. *)
Class ReactorLaws (Y : Type) `{ReactorKernel Y} := {
  clock : Y -> Z;
  deadline : Y -> option Z;
  registered : Y -> gmap Z source_ptr;

  clock_range y : 0 <= clock y < clock_limit;
  steady_now_clock y :
    clock y <= fst (steady_now y) /\ clock (snd (steady_now y)) = fst (steady_now y);
  steady_now_frame y :
    deadline (snd (steady_now y)) = deadline y /\ registered (snd (steady_now y)) = registered y;

  settime_abs fd v y :
    ns_of v <> 0 -> deadline (snd (timerfd_settime fd TFD_TIMER_ABSTIME v y)) = Some (ns_of v);
  settime_disarm fd flags y :
    deadline (snd (timerfd_settime fd flags (TimeSpec 0 0) y)) = None;
  settime_frame fd flags v y :
    clock y <= clock (snd (timerfd_settime fd flags v y)) /\
    registered (snd (timerfd_settime fd flags v y)) = registered y;
  read_consumes fd y :
    fst (timerfd_read fd y) = 8 -> deadline (snd (timerfd_read fd y)) = None;
  read_fails fd y :
    fst (timerfd_read fd y) <> 8 -> deadline (snd (timerfd_read fd y)) = deadline y;
  read_frame fd y :
    clock y <= clock (snd (timerfd_read fd y)) /\
    registered (snd (timerfd_read fd y)) = registered y;

  epoll_add_ok e fd m p y :
    fst (epoll_ctl_add e fd m p y) <> -1 ->
    registered (snd (epoll_ctl_add e fd m p y)) = <[fd := p]> (registered y);
  epoll_add_fail e fd m p y :
    fst (epoll_ctl_add e fd m p y) = -1 ->
    registered (snd (epoll_ctl_add e fd m p y)) = registered y /\
    errno (snd (epoll_ctl_add e fd m p y)) <> 0;
  epoll_add_deadline e fd m p y : deadline (snd (epoll_ctl_add e fd m p y)) = deadline y;
  epoll_del_ok e fd y :
    registered (snd (epoll_ctl_del e fd y)) = delete fd (registered y);
  epoll_del_fail e fd y :
    fst (epoll_ctl_del e fd y) = -1 -> errno (snd (epoll_ctl_del e fd y)) <> 0;
  epoll_del_deadline e fd y : deadline (snd (epoll_ctl_del e fd y)) = deadline y;
  epoll_wait_ok e n t y evs :
    fst (epoll_wait e n t y) = Some evs ->
    Z.of_nat (length evs) <= n /\ forall p, p ∈ evs -> exists fd, registered y !! fd = Some p;
  epoll_wait_frame e n t y :
    deadline (snd (epoll_wait e n t y)) = deadline y /\
    registered (snd (epoll_wait e n t y)) = registered y;

  epoll_create_empty flags y :
    0 <= fst (epoll_create1 flags y) -> registered (snd (epoll_create1 flags y)) = ∅;
  timerfd_create_frame c flags y :
    registered (snd (timerfd_create c flags y)) = registered y;
  close_registered fd y : registered (snd (close fd y)) ⊆ registered y
}.

(** Laws of the socket calls: they do not touch the interest list, a new
    descriptor is not in it, and [recvmmsg] reports at most [vlen] messages
    and at most as many as it was given buffers. *)
Class SocketLaws (Y : Type) `{ReactorLaws Y} `{SocketKernel Y} := {
  socket_registered fam y :
    registered (snd (socket fam y)) = registered y /\
    (0 <= fst (socket fam y) -> registered y !! fst (socket fam y) = None);
  setsockopt_registered fd l o v y : registered (snd (setsockopt fd l o v y)) = registered y;
  bind_registered fd fam port y : registered (snd (bind fd fam port y)) = registered y;
  getsockname_registered fd y : registered (snd (getsockname fd y)) = registered y;
  close_unregisters fd y : registered (snd (close fd y)) !! fd = None;
  recvmmsg_registered fd bufs vlen flags y :
    registered (snd (recvmmsg fd bufs vlen flags y)) = registered y;
  recvmmsg_bound fd bufs vlen flags y ms :
    fst (recvmmsg fd bufs vlen flags y) = Some ms ->
    Z.of_nat (length ms) <= vlen /\ (length ms <= length bufs)%nat
}.

(** A kernel that keeps a record of what it tells the program: the result of
    every [epoll_wait] and of every [recvmmsg], oldest first. *)
Class KernelLog (Y : Type) `{ReactorKernel Y} `{SocketKernel Y} := {
  kernel_log : Y -> list sys_event;
  log_wait e n t y : kernel_log (snd (epoll_wait e n t y)) = kernel_log y ++ [Waited (fst (epoll_wait e n t y))];
  log_recv fd bufs vlen flags y :
    kernel_log (snd (recvmmsg fd bufs vlen flags y)) = kernel_log y ++ [Received fd (fst (recvmmsg fd bufs vlen flags y))];
  log_now y : kernel_log (snd (steady_now y)) = kernel_log y;
  log_settime fd flags v y : kernel_log (snd (timerfd_settime fd flags v y)) = kernel_log y;
  log_read fd y : kernel_log (snd (timerfd_read fd y)) = kernel_log y
}.

Lemma steady_now_range {Y} `{ReactorLaws Y} (y : Y) : 0 <= fst (steady_now y) < clock_limit.
Proof. destruct (steady_now_clock y) as [_ <-]. apply clock_range. Qed.
