(* ===== verification/SimKernel.v ===== *)
(** A concrete kernel: executable definitions of every call of [Kernel], with
    the laws proved.  It is used by the witnesses, and shows that the
    hypotheses on the kernel can be met; it is not a model of a file under
    src/. *)
From S2P Require Import Prelude Kernel.

(** A datagram waiting in a socket, with its receive time. *)
Record datagram := Datagram { d_payload : list Z; d_time : timespec }.

(** One call of a packet handler, as the application would log it. *)
Record delivery := Delivery {
  dl_handler : Z; dl_context : Z; dl_data : Z; dl_len : Z; dl_status : Z; dl_ts : timespec
}.

Record sim := MkSim {
  s_errno : Z;
  s_clock : Z;
  s_deadline : option Z;
  s_timer_fd : Z;
  s_epoll_fd : Z;
  s_registered : gmap Z source_ptr;
  s_open : gset Z;
  s_next_fd : Z;
  s_next_addr : Z;
  s_huge : bool;
  s_ipv6 : bool;
  s_files : list (string * list Z);
  s_fd_file : gmap Z (list Z);
  s_bound : gmap Z (Z * Z);
  s_queue : gmap Z (list datagram);
  s_closed : list Z;
  s_calls : list (Z * delivery);
  s_tasks : list Z;
  s_trace : list sys_event
}.

(** The calls of the handlers, and the instant each was made. *)
Definition s_log (s : sim) : list delivery := (s_calls s).*2.

(** Start: no descriptor is open but the standard ones. *)
Definition sim_boot (clk : Z) : sim :=
  MkSim 0 clk None (-1) (-1) ∅ ∅ 3 4194304 true true [] ∅ ∅ ∅ [] [] [] [].

Module Sim.
(** The clock, inside the range of the law: 2^60 ns are 36 years. *)
Definition clk (s : sim) : Z := Z.max 0 (Z.min (s_clock s) (2 ^ 60)).

Definition set_errno e s := MkSim e (s_clock s) (s_deadline s) (s_timer_fd s) (s_epoll_fd s) (s_registered s)
  (s_open s) (s_next_fd s) (s_next_addr s) (s_huge s) (s_ipv6 s) (s_files s) (s_fd_file s)
  (s_bound s) (s_queue s) (s_closed s) (s_calls s) (s_tasks s) (s_trace s).
Definition set_clock c s := MkSim (s_errno s) c (s_deadline s) (s_timer_fd s) (s_epoll_fd s) (s_registered s)
  (s_open s) (s_next_fd s) (s_next_addr s) (s_huge s) (s_ipv6 s) (s_files s) (s_fd_file s)
  (s_bound s) (s_queue s) (s_closed s) (s_calls s) (s_tasks s) (s_trace s).
Definition set_deadline d s := MkSim (s_errno s) (s_clock s) d (s_timer_fd s) (s_epoll_fd s) (s_registered s)
  (s_open s) (s_next_fd s) (s_next_addr s) (s_huge s) (s_ipv6 s) (s_files s) (s_fd_file s)
  (s_bound s) (s_queue s) (s_closed s) (s_calls s) (s_tasks s) (s_trace s).
Definition set_registered r s := MkSim (s_errno s) (s_clock s) (s_deadline s) (s_timer_fd s) (s_epoll_fd s) r
  (s_open s) (s_next_fd s) (s_next_addr s) (s_huge s) (s_ipv6 s) (s_files s) (s_fd_file s)
  (s_bound s) (s_queue s) (s_closed s) (s_calls s) (s_tasks s) (s_trace s).
Definition set_fds o n t s := MkSim (s_errno s) (s_clock s) (s_deadline s) t (s_epoll_fd s) (s_registered s)
  o n (s_next_addr s) (s_huge s) (s_ipv6 s) (s_files s) (s_fd_file s)
  (s_bound s) (s_queue s) (s_closed s) (s_calls s) (s_tasks s) (s_trace s).
Definition set_addr a s := MkSim (s_errno s) (s_clock s) (s_deadline s) (s_timer_fd s) (s_epoll_fd s)
  (s_registered s) (s_open s) (s_next_fd s) a (s_huge s) (s_ipv6 s) (s_files s) (s_fd_file s)
  (s_bound s) (s_queue s) (s_closed s) (s_calls s) (s_tasks s) (s_trace s).
Definition set_files fs ff s := MkSim (s_errno s) (s_clock s) (s_deadline s) (s_timer_fd s) (s_epoll_fd s)
  (s_registered s) (s_open s) (s_next_fd s) (s_next_addr s) (s_huge s) (s_ipv6 s) fs ff
  (s_bound s) (s_queue s) (s_closed s) (s_calls s) (s_tasks s) (s_trace s).
Definition set_sockets b q s := MkSim (s_errno s) (s_clock s) (s_deadline s) (s_timer_fd s) (s_epoll_fd s)
  (s_registered s) (s_open s) (s_next_fd s) (s_next_addr s) (s_huge s) (s_ipv6 s) (s_files s)
  (s_fd_file s) b q (s_closed s) (s_calls s) (s_tasks s) (s_trace s).
Definition add_closed f s := MkSim (s_errno s) (s_clock s) (s_deadline s) (s_timer_fd s) (s_epoll_fd s)
  (s_registered s) (s_open s) (s_next_fd s) (s_next_addr s) (s_huge s) (s_ipv6 s) (s_files s)
  (s_fd_file s) (s_bound s) (s_queue s) (s_closed s ++ [f]) (s_calls s) (s_tasks s) (s_trace s).
Definition add_log d s := MkSim (s_errno s) (s_clock s) (s_deadline s) (s_timer_fd s) (s_epoll_fd s)
  (s_registered s) (s_open s) (s_next_fd s) (s_next_addr s) (s_huge s) (s_ipv6 s) (s_files s)
  (s_fd_file s) (s_bound s) (s_queue s) (s_closed s) (s_calls s ++ [(clk s, d)]) (s_tasks s) (s_trace s).
Definition add_task t s := MkSim (s_errno s) (s_clock s) (s_deadline s) (s_timer_fd s) (s_epoll_fd s)
  (s_registered s) (s_open s) (s_next_fd s) (s_next_addr s) (s_huge s) (s_ipv6 s) (s_files s)
  (s_fd_file s) (s_bound s) (s_queue s) (s_closed s) (s_calls s) (s_tasks s ++ [t]) (s_trace s).

Definition set_epoll f s := MkSim (s_errno s) (s_clock s) (s_deadline s) (s_timer_fd s) f
  (s_registered s) (s_open s) (s_next_fd s) (s_next_addr s) (s_huge s) (s_ipv6 s) (s_files s)
  (s_fd_file s) (s_bound s) (s_queue s) (s_closed s) (s_calls s) (s_tasks s) (s_trace s).
Definition add_event e s := MkSim (s_errno s) (s_clock s) (s_deadline s) (s_timer_fd s) (s_epoll_fd s)
  (s_registered s) (s_open s) (s_next_fd s) (s_next_addr s) (s_huge s) (s_ipv6 s) (s_files s)
  (s_fd_file s) (s_bound s) (s_queue s) (s_closed s) (s_calls s) (s_tasks s) (s_trace s ++ [e]).

(** A call of the kernel that it keeps a record of. *)
Definition traced {A} (event : A -> sys_event) (r : A * sim) : A * sim :=
  (fst r, add_event (event (fst r)) (snd r)).

(** Opens the next descriptor, above every open or registered one and the
    timer. *)
Definition above (fds : list Z) (low : Z) : Z := foldr (fun f m => Z.max (f + 1) m) low fds.
Definition fresh_fd (s : sim) : Z :=
  above (elements (s_open s) ++ (map_to_list (s_registered s)).*1) (Z.max 3 (Z.max (s_next_fd s) (s_timer_fd s + 1))).
Definition new_fd (s : sim) : Z * sim :=
  let f := fresh_fd s in (f, set_fds ({[f]} ∪ s_open s) (f + 1) (s_timer_fd s) s).

Definition fail {A} (r : A) (e : Z) (s : sim) : A * sim := (r, set_errno e s).

(** A new socket: a process has at most 1024 descriptors. *)
Definition new_socket (s : sim) : Z * sim :=
  if fresh_fd s <? 1024 then new_fd s else fail (-1) EMFILE s.

Definition timer_due (s : sim) : bool :=
  match s_deadline s with Some d => d <=? clk s | None => false end.

Definition fd_ready (s : sim) (f : Z) : bool :=
  if f =? s_timer_fd s then timer_due s
  else match s_queue s !! f with Some (_ :: _) => true | _ => false end.

Definition ready_events (s : sim) : list source_ptr :=
  (filter (fun p => fd_ready s (fst p) = true) (map_to_list (s_registered s))).*2.

Definition ctl_add (fd : Z) (p : source_ptr) (s : sim) : Z * sim :=
  match s_registered s !! fd with
  | Some _ => fail (-1) EEXIST s
  | None => (0, set_registered (<[fd := p]> (s_registered s)) s)
  end.

Definition ctl_del (fd : Z) (s : sim) : Z * sim :=
  match s_registered s !! fd with
  | None => fail (-1) ENOENT (set_registered (delete fd (s_registered s)) s)
  | Some _ => (0, set_registered (delete fd (s_registered s)) s)
  end.

(** A turn of the program takes a millisecond, and a wait that finds no event
    its whole timeout. *)
Definition pass_time (timeout : Z) (s : sim) : sim :=
  let idle := match ready_events s with [] => Z.max 0 timeout | _ => 0 end in
  set_clock (s_clock s + (1 + idle) * 1000000) s.

Definition wait (maxevents timeout : Z) (s : sim) : option (list source_ptr) * sim :=
  if maxevents <=? 0 then fail None EINVAL s
  else let s' := pass_time timeout s in (Some (take (Z.to_nat maxevents) (ready_events s')), s').

Definition settime (flags : Z) (v : timespec) (s : sim) : Z * sim :=
  if ns_of v =? 0 then (0, set_deadline None s)
  else (0, set_deadline (Some (if flags =? TFD_TIMER_ABSTIME then ns_of v else clk s + ns_of v)) s).

Definition read_timer (s : sim) : Z * sim :=
  if timer_due s then (8, set_deadline None s) else fail (-1) EAGAIN s.

Definition do_close (fd : Z) (s : sim) : Z * sim :=
  (0, add_closed fd (set_registered (delete fd (s_registered s))
     (set_fds (s_open s ∖ {[fd]}) (s_next_fd s) (s_timer_fd s) s))).

Definition do_mmap (len : Z) (s : sim) : Z * sim :=
  if len <=? 0 then fail (-1) EINVAL s
  else (s_next_addr s, set_addr (s_next_addr s + len + 4096) s).

Definition do_bind (fd fam port : Z) (s : sim) : Z * sim :=
  let port' := if port =? 0 then htons (40000 + fd) else port in
  (0, set_sockets (<[fd := (fam, port')]> (s_bound s)) (s_queue s) s).

(** One message: cut to the buffer, with its time stamp if the ancillary
    data has room for it. *)
Definition receive (b : rbuf) (d : datagram) : rmsg :=
  let n := Z.of_nat (length (d_payload d)) in
  let stamped := 32 <=? rb_controllen b in
  RMsg (Z.min n (rb_len b)) (if rb_len b <? n then MSG_TRUNC else 0) 16
    (if stamped then 32 else 0)
    (if stamped then [CMsg SOL_SOCKET SCM_TIMESTAMPNS (d_time d)] else []).

Definition do_recv (fd : Z) (bufs : list rbuf) (vlen : Z) (s : sim) : option (list rmsg) * sim :=
  match default [] (s_queue s !! fd) with
  | [] => fail None EAGAIN s
  | q =>
      let n := (length q `min` Z.to_nat (Z.max 0 vlen) `min` length bufs)%nat in
      if vlen <? 0 then fail None EINVAL s
      else (Some (zip_with receive (take n bufs) (take n q)),
            set_sockets (s_bound s) (<[fd := drop n q]> (s_queue s)) s)
  end.

Definition do_open (path : string) (s : sim) : Z * sim :=
  match list_find (fun p => fst p = path) (s_files s) with
  | None => fail (-1) ENOENT s
  | Some (_, (_, bytes)) =>
      let '(fd, s') := new_fd s in (fd, set_files (s_files s') (<[fd := bytes]> (s_fd_file s')) s')
  end.

Definition do_mmap_file (len fd : Z) (s : sim) : option (Z * list Z) * sim :=
  match s_fd_file s !! fd with
  | None => fail None EBADF s
  | Some bytes =>
      if len <=? 0 then fail None EINVAL s
      else (Some (s_next_addr s, bytes), set_addr (s_next_addr s + len + 4096) s)
  end.
End Sim.

Lemma sim_pass_time (t : Z) (s : sim) : Sim.clk s <= Sim.clk (Sim.pass_time t s).
Proof.
  unfold Sim.pass_time. set (idle := match _ with [] => _ | _ => _ end).
  assert (0 <= idle) by (unfold idle; destruct (Sim.ready_events s); lia). unfold Sim.clk. cbn. lia.
Qed.

#[export] Instance sim_reactor : ReactorKernel sim := {
  errno := s_errno;
  steady_now s := (Sim.clk s, s);
  epoll_create1 _ s :=
    let '(f, s') := Sim.new_fd (Sim.set_registered ∅ s) in (f, Sim.set_epoll f s');
  timerfd_create _ _ s :=
    let '(f, s') := Sim.new_fd s in (f, Sim.set_fds (s_open s') (s_next_fd s') f s');
  epoll_ctl_add _ fd _ p s := Sim.ctl_add fd p s;
  epoll_ctl_del _ fd s := Sim.ctl_del fd s;
  epoll_wait _ n t s := Sim.traced Waited (Sim.wait n t s);
  timerfd_settime _ flags v s := Sim.settime flags v s;
  timerfd_read _ s := Sim.read_timer s;
  close fd s := Sim.do_close fd s
}.

#[export] Instance sim_memory : MemoryKernel sim := {
  this_thread_id _ := 1;
  mmap_anon len flags s :=
    if (Z.land flags MAP_HUGETLB =? MAP_HUGETLB) && negb (s_huge s) then Sim.fail (-1) ENOMEM s
    else Sim.do_mmap len s;
  munmap _ _ s := (0, s)
}.

#[export] Instance sim_socket : SocketKernel sim := {
  socket fam s :=
    if (fam =? AF_INET6) && negb (s_ipv6 s) then Sim.fail (-1) EAFNOSUPPORT s else Sim.new_socket s;
  setsockopt _ _ _ _ s := (0, s);
  bind fd fam port s := Sim.do_bind fd fam port s;
  getsockname fd s := (s_bound s !! fd, s);
  recvmmsg fd bufs vlen _ s := Sim.traced (Received fd) (Sim.do_recv fd bufs vlen s)
}.

#[export] Instance sim_file : FileKernel sim := {
  open_rdonly path s := Sim.do_open path s;
  fstat_size fd s :=
    match s_fd_file s !! fd with
    | Some bytes => (Some (Z.of_nat (length bytes)), s)
    | None => Sim.fail None EBADF s
    end;
  mmap_file len fd s := Sim.do_mmap_file len fd s;
  madvise _ _ s := (0, s)
}.

(** ** The laws *)

#[export] Program Instance sim_laws : ReactorLaws sim := {
  clock := Sim.clk;
  deadline := s_deadline;
  registered := s_registered
}.
Next Obligation. intros y. unfold Sim.clk, clock_limit. lia. Qed.
Next Obligation. intros y. cbn. lia. Qed.
Next Obligation. done. Qed.
Next Obligation. intros fd v y Hv. cbn. unfold Sim.settime. apply Z.eqb_neq in Hv. by rewrite Hv. Qed.
Next Obligation. done. Qed.
Next Obligation.
  intros fd flags v y. cbn. unfold Sim.settime. destruct (ns_of v =? 0); split; done || (unfold Sim.clk; cbn; lia).
Qed.
Next Obligation. intros fd y. cbn. unfold Sim.read_timer. by destruct (Sim.timer_due y). Qed.
Next Obligation. intros fd y. cbn. unfold Sim.read_timer. by destruct (Sim.timer_due y). Qed.
Next Obligation.
  intros fd y. cbn. unfold Sim.read_timer. destruct (Sim.timer_due y); split; done || (unfold Sim.clk; cbn; lia).
Qed.
Next Obligation. intros e fd m p y. cbn. unfold Sim.ctl_add. by destruct (s_registered y !! fd). Qed.
Next Obligation. intros e fd m p y. cbn. unfold Sim.ctl_add. by destruct (s_registered y !! fd). Qed.
Next Obligation. intros e fd m p y. cbn. unfold Sim.ctl_add. by destruct (s_registered y !! fd). Qed.
Next Obligation. intros e fd y. cbn. unfold Sim.ctl_del. by destruct (s_registered y !! fd). Qed.
Next Obligation. intros e fd y. cbn. unfold Sim.ctl_del. by destruct (s_registered y !! fd). Qed.
Next Obligation. intros e fd y. cbn. unfold Sim.ctl_del. by destruct (s_registered y !! fd). Qed.
Next Obligation.
  intros e n t y evs. cbn. unfold Sim.wait. destruct (Z.leb_spec n 0); cbn; intros E; simplify_eq.
  split; [rewrite length_take; lia|].
  intros p Hp%elem_of_take. destruct Hp as (i & Hp & _).
  apply list_elem_of_lookup_2 in Hp. unfold Sim.ready_events in Hp.
  apply list_elem_of_fmap in Hp as ([fd q] & -> & [_ Hp]%list_elem_of_filter).
  exists fd. by apply elem_of_map_to_list.
Qed.
Next Obligation. intros e n t y. cbn. unfold Sim.wait. by destruct (n <=? 0). Qed.
Next Obligation. done. Qed.
Next Obligation. done. Qed.
Next Obligation. intros fd y. cbn. apply delete_subseteq. Qed.

Lemma above_spec fds low : low <= Sim.above fds low /\ forall f, f ∈ fds -> f < Sim.above fds low.
Proof.
  induction fds as [|g fds [Hl IH]]; [split; [reflexivity|intros f Hf; by apply elem_of_nil in Hf]|].
  cbn [Sim.above foldr]. fold (Sim.above fds low). split; [lia|].
  intros f [->|Hf]%elem_of_cons; [lia|]. specialize (IH f Hf). lia.
Qed.

Lemma fresh_fd_above (s : sim) :
  s_timer_fd s < Sim.fresh_fd s /\ 3 <= Sim.fresh_fd s /\ (forall f, f ∈ s_open s -> f < Sim.fresh_fd s) /\
  forall f p, s_registered s !! f = Some p -> f < Sim.fresh_fd s.
Proof.
  unfold Sim.fresh_fd. set (fds := elements _ ++ _). set (low := Z.max _ _). destruct (above_spec fds low) as [Hl Ha].
  split; [lia|]. split; [lia|]. split.
  - intros f Hf. apply Ha, elem_of_app. left. by apply elem_of_elements.
  - intros f p Hf. apply Ha, elem_of_app. right. apply list_elem_of_fmap. exists (f, p). split; [done|].
    by apply elem_of_map_to_list.
Qed.

Lemma fresh_fd_unregistered (s : sim) : s_registered s !! Sim.fresh_fd s = None.
Proof.
  apply eq_None_not_Some. intros [p Hp]. destruct (fresh_fd_above s) as (_ & _ & _ & H). specialize (H _ _ Hp). lia.
Qed.

Lemma fresh_fd_closed (s : sim) : Sim.fresh_fd s ∉ s_open s.
Proof. intros Hin. destruct (fresh_fd_above s) as (_ & _ & H & _). specialize (H _ Hin). lia. Qed.

#[export] Program Instance sim_socket_laws : SocketLaws sim.
Next Obligation.
  intros fam y. cbn. destruct (_ && _); cbn; [split; [done|lia]|]. unfold Sim.new_socket.
  destruct (_ <? _); cbn; [|split; [done|lia]]. split; [done|]. intros _. apply fresh_fd_unregistered.
Qed.
Next Obligation. done. Qed.
Next Obligation. done. Qed.
Next Obligation. done. Qed.
Next Obligation. intros fd y. cbn. apply lookup_delete_eq. Qed.
Next Obligation.
  intros fd bufs vlen flags y. cbn. unfold Sim.do_recv. destruct (default [] (s_queue y !! fd)); [done|].
  by destruct (vlen <? 0).
Qed.
Next Obligation.
  intros fd bufs vlen flags y ms. cbn [recvmmsg sim_socket]. unfold Sim.do_recv.
  destruct (default [] (s_queue y !! fd)) as [|d q]; [done|]. destruct (Z.ltb_spec vlen 0); [done|].
  set (n := (_ `min` Z.to_nat (Z.max 0 vlen) `min` length bufs)%nat).
  assert (Hn : (n <= Z.to_nat (Z.max 0 vlen))%nat /\ (n <= length bufs)%nat) by lia. clearbody n.
  cbn [fst]. intros E. apply (inj Some) in E as <-. rewrite length_zip_with, !length_take. lia.
Qed.

(** ** The record of waits and reads *)

#[export] Program Instance sim_kernel_log : KernelLog sim := {
  kernel_log := s_trace
}.
Next Obligation. intros e n t y. cbn. unfold Sim.wait. by destruct (n <=? 0). Qed.
Next Obligation.
  intros fd bufs vlen flags y. cbn. unfold Sim.do_recv. destruct (default [] (s_queue y !! fd)); [done|].
  by destruct (vlen <? 0).
Qed.
Next Obligation. done. Qed.
Next Obligation. intros fd flags v y. cbn. unfold Sim.settime. by destruct (ns_of v =? 0). Qed.
Next Obligation. intros fd y. cbn. unfold Sim.read_timer. by destruct (Sim.timer_due y). Qed.
