(* ===== verification/ScopedFd.v ===== *)
(** Component [ScopedFd.h]: the owner of a file descriptor.  The objects live
    in a store indexed by their address; each member function is the code's,
    with [::close] as the only effect outside the store. *)
From S2P Require Import Prelude Outcome.

(** The owning wrapper: [-1] owns nothing. *)
Record ScopedFd := MkScopedFd { fd : Z }.

Module ScopedFd.
(** ** Members on values, used by the components that embed a [ScopedFd] *)
Section Members.
Context {S : Type} (close : Z -> M S unit).

(** [~ScopedFd()] *)
Definition destroy (s : ScopedFd) : M S unit :=
  if 0 <=? fd s then close (fd s) else mret tt.

(** [reset(new_fd)] *)
Definition reset (s : ScopedFd) (new_fd : Z) : M S ScopedFd :=
  (if 0 <=? fd s then close (fd s) else mret tt) ;;
  mret (MkScopedFd new_fd).

(** [ScopedFd(ScopedFd&&)]: the new object and what is left of [other]. *)
Definition move (other : ScopedFd) : ScopedFd * ScopedFd :=
  (MkScopedFd (fd other), MkScopedFd (-1)).
End Members.

(** ** The store of objects *)

Definition loc : Type := Z.

(** Live objects, and the descriptors the process has open. *)
Record store := MkStore { objs : gmap loc ScopedFd; open_fds : gset Z }.

(** [::close]: closing a descriptor that is not open is the double close
    the class exists to prevent; it is made visible as a fault. *)
Definition close_fd (f : Z) : M store unit := fun s =>
  if decide (f ∈ open_fds s)
  then Ret tt (MkStore (objs s) (open_fds s ∖ {[f]}))
  else Crash AssertionFailed.

Definition get_obj (l : loc) : M store ScopedFd := fun s =>
  match objs s !! l with Some o => Ret o s | None => Crash OutOfBounds end.
Definition put_obj (l : loc) (o : ScopedFd) : M store unit :=
  modify (fun s => MkStore (<[l := o]> (objs s)) (open_fds s)).
Definition drop_obj (l : loc) : M store unit :=
  modify (fun s => MkStore (delete l (objs s)) (open_fds s)).

(** The operations of a program that uses the class.  A descriptor given
    to a constructor or to [reset] is one the process has just opened. *)
Inductive op :=
| Construct (l : loc) (f : Z)          (* ScopedFd x(f) with f just opened *)
| ConstructEmpty (l : loc)             (* ScopedFd x *)
| MoveConstruct (l other : loc)        (* ScopedFd x(std::move(y)) *)
| MoveAssign (l other : loc)           (* x = std::move(y) *)
| Reset (l : loc) (f : Z)              (* x.reset(f) with f just opened *)
| ResetEmpty (l : loc)                 (* x.reset() *)
| Destroy (l : loc).                   (* end of the scope of x *)

(** The system call that opens [f]. *)
Definition open_fd (f : Z) : M store unit :=
  modify (fun s => MkStore (objs s) ({[f]} ∪ open_fds s)).

(** [operator=(ScopedFd&&)] *)
Definition move_assign (l other : loc) : M store unit :=
  if l =? other then mret tt
  else
    o ← get_obj other;
    this ← get_obj l;
    this' ← reset close_fd this (fd o);
    put_obj l this' ;;
    put_obj other (MkScopedFd (-1)).

Definition exec (o : op) : M store unit :=
  match o with
  | Construct l f => open_fd f ;; put_obj l (MkScopedFd f)
  | ConstructEmpty l => put_obj l (MkScopedFd (-1))
  | MoveConstruct l other =>
      o ← get_obj other;
      put_obj l (fst (move o)) ;; put_obj other (snd (move o))
  | MoveAssign l other => move_assign l other
  | Reset l f =>
      open_fd f ;; o ← get_obj l; o' ← reset close_fd o f; put_obj l o'
  | ResetEmpty l => o ← get_obj l; o' ← reset close_fd o (-1); put_obj l o'
  | Destroy l => o ← get_obj l; destroy close_fd o ;; drop_obj l
  end.

(** A program the compiler accepts: an object is constructed where none
    lives and used only while it lives, copies do not exist, and the
    kernel hands out descriptors that are not open. *)
Definition valid_op (s : store) (o : op) : Prop :=
  match o with
  | Construct l f => objs s !! l = None /\ 0 <= f /\ f ∉ open_fds s
  | ConstructEmpty l => objs s !! l = None
  | MoveConstruct l other => objs s !! l = None /\ is_Some (objs s !! other)
  | MoveAssign l other => is_Some (objs s !! l) /\ is_Some (objs s !! other)
  | Reset l f => is_Some (objs s !! l) /\ 0 <= f /\ f ∉ open_fds s
  | ResetEmpty l | Destroy l => is_Some (objs s !! l)
  end.

#[export] Instance valid_op_dec s o : Decision (valid_op s o).
Proof. destruct o; cbn; apply _. Defined.

(** Executions: any sequence of valid operations. *)
Inductive reachable : store -> Prop :=
| reach_start : reachable (MkStore ∅ ∅)
| reach_step s o s' :
    reachable s -> valid_op s o -> exec o s = Ret tt s' -> reachable s'.

(** ** Single ownership *)

(** The open descriptors are exactly the ones owned, each by one object. *)
Record owned (s : store) : Prop := {
  owned_open : forall l o, objs s !! l = Some o -> 0 <= fd o -> fd o ∈ open_fds s;
  owned_unique : forall l1 l2 o1 o2,
    objs s !! l1 = Some o1 -> objs s !! l2 = Some o2 ->
    0 <= fd o1 -> fd o1 = fd o2 -> l1 = l2;
  owned_all : forall f, f ∈ open_fds s -> exists l o, objs s !! l = Some o /\ fd o = f /\ 0 <= f
}.

Lemma owned_start : owned (MkStore ∅ ∅).
Proof. split; cbn; set_solver. Qed.

(** [l] owns nothing: no object lives there, or an empty one. *)
Definition vacant (s : store) (l : loc) : Prop := forall o, objs s !! l = Some o -> fd o < 0.

Ltac own :=
  repeat match goal with
  | H : <[_ := _]> _ !! _ = Some _ |- _ =>
      rewrite lookup_insert in H; case_decide; simplify_eq/=
  | H : delete _ _ !! _ = Some _ |- _ => rewrite lookup_delete in H; case_decide; simplify_eq/=
  end.

(** Two entries with the same open descriptor are the same entry. *)
Ltac same_owner Hu :=
  match goal with
  | Ha : ?m !! ?a = Some ?oa, Hb : ?m !! ?b = Some ?ob, E : fd ?oa = fd ?ob, Hp : 0 <= fd ?oa |- _ =>
      pose proof (Hu a b oa ob Ha Hb Hp E)
  end.

Lemma owned_acquire s l f :
  owned s -> vacant s l -> 0 <= f -> f ∉ open_fds s ->
  owned (MkStore (<[l := MkScopedFd f]> (objs s)) ({[f]} ∪ open_fds s)).
Proof.
  intros [Ho Hu Ha] Hv Hf Hn. split; cbn.
  - intros; own; [set_solver|]. apply elem_of_union_r. eauto.
  - intros l1 l2 o1 o2 H1 H2 Hp Heq; own; eauto.
    all: exfalso; apply Hn; eauto.
  - intros g [->%elem_of_singleton|Hg]%elem_of_union.
    + exists l, (MkScopedFd f). by rewrite lookup_insert_eq.
    + destruct (Ha g Hg) as (l' & o & E & <- & ?). exists l', o.
      rewrite lookup_insert_ne; [done|]. intros ->. specialize (Hv _ E). lia.
Qed.

Lemma owned_release s l o :
  owned s -> objs s !! l = Some o -> 0 <= fd o ->
  owned (MkStore (<[l := MkScopedFd (-1)]> (objs s)) (open_fds s ∖ {[fd o]})).
Proof.
  intros [Ho Hu Ha] Hl Hp. split; cbn.
  - intros l' o' H' Hp'; own; [lia|]. apply elem_of_difference. split; [eauto|].
    intros Heq%elem_of_singleton. eauto.
  - intros l1 l2 o1 o2 H1 H2 Hp' Heq; own; eauto; lia.
  - intros g [Hg Hne%not_elem_of_singleton]%elem_of_difference.
    destruct (Ha g Hg) as (l' & o' & E & <- & ?). exists l', o'.
    rewrite lookup_insert_ne; [done|]. intros ->. congruence.
Qed.

Lemma owned_clear s l :
  owned s -> vacant s l -> owned (MkStore (<[l := MkScopedFd (-1)]> (objs s)) (open_fds s)).
Proof.
  intros [Ho Hu Ha] Hv. split; cbn.
  - intros ? ? ? ?; own; cbn in *; try lia; eauto.
  - intros l1 l2 o1 o2 H1 H2 Hp Heq; own; eauto; lia.
  - intros g Hg. destruct (Ha g Hg) as (l' & o & E & <- & ?). exists l', o.
    rewrite lookup_insert_ne; [done|]. intros ->. specialize (Hv _ E). lia.
Qed.

Lemma owned_drop s l :
  owned s -> vacant s l -> owned (MkStore (delete l (objs s)) (open_fds s)).
Proof.
  intros [Ho Hu Ha] Hv. split; cbn.
  - intros; own; eauto.
  - intros l1 l2 o1 o2 H1 H2 Hp Heq; own; eauto.
  - intros g Hg. destruct (Ha g Hg) as (l' & o & E & <- & ?). exists l', o.
    rewrite lookup_delete_ne; [done|]. intros ->. specialize (Hv _ E). lia.
Qed.

Lemma owned_transfer s l l' o :
  owned s -> vacant s l -> l <> l' -> objs s !! l' = Some o ->
  owned (MkStore (<[l' := MkScopedFd (-1)]> (<[l := MkScopedFd (fd o)]> (objs s))) (open_fds s)).
Proof.
  intros [Ho Hu Ha] Hv Hne Hl'. split; cbn.
  - intros ? ? ? ?; own; cbn in *; try lia; eauto.
  - intros l1 l2 o1 o2 H1 H2 Hp Heq; own; eauto; try lia; exfalso;
      same_owner Hu; congruence.
  - intros g Hg. destruct (Ha g Hg) as (m & o' & E & <- & ?).
    destruct (decide (m = l')) as [->|Hm].
    + simplify_eq. exists l, (MkScopedFd (fd o)).
      rewrite lookup_insert_ne, lookup_insert_eq by done. done.
    + exists m, o'. rewrite !lookup_insert_ne; [done| |done].
      intros ->. specialize (Hv _ E). lia.
Qed.

(** Closing what an object owns succeeds and leaves it vacant. *)
Lemma release_run s l o :
  owned s -> objs s !! l = Some o ->
  exists s', (if 0 <=? fd o then close_fd (fd o) else mret tt) s = Ret tt s' /\
    objs s' = objs s /\
    owned (MkStore (<[l := MkScopedFd (-1)]> (objs s)) (open_fds s')).
Proof.
  intros Hs Hl. destruct (Z.leb_spec 0 (fd o)).
  - exists (MkStore (objs s) (open_fds s ∖ {[fd o]})). split_and!; [|done|by apply owned_release].
    unfold close_fd. rewrite decide_True; [done|]. by eapply owned_open.
  - exists s. split_and!; [done..|]. apply owned_clear; [done|]. intros ? ?. by simplify_eq.
Qed.

Lemma release_keeps s l o s' :
  (if 0 <=? fd o then close_fd (fd o) else mret tt) s = Ret tt s' -> objs s !! l = Some o ->
  open_fds s' ⊆ open_fds s.
Proof.
  destruct (0 <=? fd o); intros E _.
  - unfold close_fd in E. case_decide; [|done]. injection E as <-. cbn. set_solver.
  - injection E as <-. done.
Qed.

Lemma get_obj_run s l o : objs s !! l = Some o -> get_obj l s = Ret o s.
Proof. unfold get_obj. by intros ->. Qed.

Lemma vacant_cleared l (m : gmap loc ScopedFd) opn : vacant (MkStore (<[l := MkScopedFd (-1)]> m) opn) l.
Proof. intros o H. cbn in H. rewrite lookup_insert_eq in H. by simplify_eq. Qed.

Lemma move_assign_owned s l m :
  owned s -> is_Some (objs s !! l) -> is_Some (objs s !! m) ->
  exists s', move_assign l m s = Ret tt s' /\ owned s'.
Proof.
  intros Hs [o Hl] [o' Hm]. unfold move_assign.
  destruct (Z.eqb_spec l m) as [->|Hne]; [by exists s|].
  rewrite (bind_Ret _ _ _ _ _ (get_obj_run _ _ _ Hm)), (bind_Ret _ _ _ _ _ (get_obj_run _ _ _ Hl)).
  destruct (release_run s l o Hs Hl) as (s' & E & Hobj & Hs').
  unfold reset. rewrite bind_assoc, (bind_Ret _ _ _ _ _ E).
  pose proof (owned_transfer _ l m o' Hs' (vacant_cleared _ _ _) Hne) as H.
  cbn in H. rewrite lookup_insert_ne in H by done. specialize (H Hm).
  rewrite insert_insert_eq, <- Hobj in H. by eexists.
Qed.

(** Releasing does not touch a descriptor [f] opened just before. *)
Lemma release_frame s l o s' f :
  (if 0 <=? fd o then close_fd (fd o) else mret tt) s = Ret tt s' ->
  objs s !! l = Some o -> f ∉ open_fds s ->
  (if 0 <=? fd o then close_fd (fd o) else mret tt) (MkStore (objs s) ({[f]} ∪ open_fds s)) =
    Ret tt (MkStore (objs s) ({[f]} ∪ open_fds s')).
Proof.
  destruct (0 <=? fd o); intros E _ Hf.
  - unfold close_fd in *. cbn. case_decide as Hd; [|done]. injection E as <-. cbn.
    rewrite decide_True by set_solver. do 2 f_equal. apply leibniz_equiv. set_solver.
  - by injection E as <-.
Qed.

(** In [reset] the old descriptor is closed while the new one is open. *)
Lemma reset_owned s l f :
  owned s -> is_Some (objs s !! l) -> 0 <= f -> f ∉ open_fds s ->
  exists s', exec (Reset l f) s = Ret tt s' /\ owned s'.
Proof.
  intros Hs [o Hl] Hf Hn.
  destruct (release_run s l o Hs Hl) as (s' & E & Hobj & Hs').
  assert (Hn' : f ∉ open_fds s') by (pose proof (release_keeps _ _ _ _ E Hl); set_solver).
  pose proof (owned_acquire _ l f Hs' (vacant_cleared _ _ _) Hf Hn') as H.
  cbn in H. rewrite insert_insert_eq in H.
  cbn [exec]. rewrite bind_run. unfold open_fd, modify. cbn beta iota.
  rewrite (bind_Ret _ _ _ _ _ (get_obj_run (MkStore (objs s) _) l o Hl)).
  unfold reset. rewrite bind_assoc, (bind_Ret _ _ _ _ _ (release_frame _ _ _ _ f E Hl Hn)).
  by eexists.
Qed.

(** Every valid operation succeeds (so no descriptor is closed that is not
    open) and keeps single ownership. *)
Lemma exec_owned s o :
  owned s -> valid_op s o -> exists s', exec o s = Ret tt s' /\ owned s'.
Proof.
  intros Hs Hv. destruct o as [l f|l|l m|l m|l f|l|l]; cbn [valid_op] in *.
  - destruct Hv as (Hl & Hf & Hn). eexists; split; [reflexivity|]. cbn.
    apply owned_acquire; [done| |done|done]. intros ? ?; congruence.
  - eexists; split; [reflexivity|]. apply owned_clear; [done|]. intros ? ?; congruence.
  - destruct Hv as (Hl & o & Ho). unfold exec. rewrite (bind_Ret _ _ _ _ _ (get_obj_run _ _ _ Ho)).
    eexists; split; [reflexivity|]. cbn.
    apply owned_transfer; [done| |congruence|done]. intros ? ?; congruence.
  - destruct Hv. by apply move_assign_owned.
  - destruct Hv as (? & ? & ?). by apply reset_owned.
  - destruct Hv as [o Hl]. unfold exec. rewrite (bind_Ret _ _ _ _ _ (get_obj_run _ _ _ Hl)).
    destruct (release_run s l o Hs Hl) as (s' & E & Hobj & Hs').
    unfold reset. rewrite bind_assoc, (bind_Ret _ _ _ _ _ E). rewrite <- Hobj in Hs'. by eexists.
  - destruct Hv as [o Hl]. unfold exec. rewrite (bind_Ret _ _ _ _ _ (get_obj_run _ _ _ Hl)).
    destruct (release_run s l o Hs Hl) as (s' & E & Hobj & Hs').
    unfold destroy. rewrite (bind_Ret _ _ _ _ _ E). eexists; split; [reflexivity|].
    pose proof (owned_drop _ l Hs' (vacant_cleared _ _ _)) as H. cbn in H.
    rewrite delete_insert_eq, <- Hobj in H. done.
Qed.

(** C18 No double close and no leak: in every execution, of any length and in any
    order of the constructions, moves, resets and destructions, the next
    operation succeeds, and the open descriptors are exactly those owned by
    live objects, each by a single one. *)
Theorem scoped_fd_safe (s : store) :
  reachable s ->
  owned s /\ forall o, valid_op s o -> exists s', exec o s = Ret tt s' /\ reachable s'.
Proof.
  intros Hr. assert (Hs : owned s).
  { induction Hr as [|s o s' _ IH Hv E]; [apply owned_start|].
    destruct (exec_owned s o IH Hv) as (s2 & E2 & ?). congruence. }
  split; [done|]. intros o Hv. destruct (exec_owned s o Hs Hv) as (s' & E & _).
  exists s'. split; [done|]. by eapply reach_step.
Qed.
End ScopedFd.
