(* ===== verification/TimerQueue.v ===== *)
(** The timer queue of the event loop: [EventLoop::Timer] with its ordering,
    and the [std::set<Timer>] the loop keeps, as a list sorted by that
    ordering.  An iterator into the set is represented by the key of the
    node it points to: the ordering is total on keys, so a key occurs once. *)
From S2P Require Import Prelude.
From Stdlib Require Import Sorting.Sorted.

Record Timer (T : Type) := MkTimer {
  expiration : Z;        (* Timestamp: nanoseconds of the steady clock *)
  interval : Z;          (* Duration: milliseconds, zero if one-shot *)
  callback : option T;   (* TimerCallback, None for an empty std::function *)
  timer_id : Z;          (* TimerId *)
  repeat : bool
}.
Arguments MkTimer {T} expiration interval callback timer_id repeat.
Arguments expiration {T} t : rename.
Arguments interval {T} t : rename.
Arguments callback {T} t : rename.
Arguments timer_id {T} t : rename.
Arguments repeat {T} t : rename.

(** The key [operator<] compares: earliest first, then by identifier. *)
Definition tkey : Type := Z * Z.
Definition key_of {T} (t : Timer T) : tkey := (expiration t, timer_id t).

Definition key_lt (k1 k2 : tkey) : Prop :=
  fst k1 < fst k2 \/ (fst k1 = fst k2 /\ snd k1 < snd k2).

Definition key_ltb (k1 k2 : tkey) : bool :=
  if negb (fst k1 =? fst k2) then fst k1 <? fst k2 else snd k1 <? snd k2.

(** [Timer::operator<]. *)
Definition timer_ltb {T} (t1 t2 : Timer T) : bool := key_ltb (key_of t1) (key_of t2).

(** [std::set::insert]: the set keeps an element that is already there. *)
Fixpoint set_insert {T} (t : Timer T) (l : list (Timer T)) : list (Timer T) :=
  match l with
  | [] => [t]
  | t' :: l' =>
      if timer_ltb t t' then t :: l
      else if timer_ltb t' t then t' :: set_insert t l'
      else l
  end.

(** [std::set::erase(iterator)]; [None] when the iterator points to no node. *)
Fixpoint set_erase {T} (k : tkey) (l : list (Timer T)) : option (list (Timer T)) :=
  match l with
  | [] => None
  | t :: l' => if decide (key_of t = k) then Some l' else (cons t) <$> set_erase k l'
  end.

(** The loop that takes the expired timers out of the set and of the map of
    active timers: [while (!m_timers.empty() && begin->expiration <= now)]. *)
Fixpoint extract_expired {T} (now : Z) (timers : list (Timer T)) (active : gmap Z tkey)
  : list (Timer T) * list (Timer T) * gmap Z tkey :=
  match timers with
  | [] => ([], [], active)
  | t :: rest =>
      if expiration t <=? now then
        let '(expired, timers', active') := extract_expired now rest (delete (timer_id t) active) in
        (t :: expired, timers', active')
      else ([], timers, active)
  end.

(** ** The invariant of the set *)

Definition timer_lt {T} (t1 t2 : Timer T) : Prop := key_lt (key_of t1) (key_of t2).
Definition tsorted {T} (l : list (Timer T)) : Prop := StronglySorted timer_lt l.

Lemma key_ltb_spec k1 k2 : key_ltb k1 k2 = true <-> key_lt k1 k2.
Proof.
  unfold key_ltb, key_lt.
  destruct (Z.eqb_spec (fst k1) (fst k2)); cbn [negb]; rewrite Z.ltb_lt; lia.
Qed.

Lemma key_ltb_false k1 k2 : key_ltb k1 k2 = false <-> k1 = k2 \/ key_lt k2 k1.
Proof.
  rewrite <- not_true_iff_false, key_ltb_spec.
  destruct k1 as [e1 i1], k2 as [e2 i2]. unfold key_lt. cbn.
  rewrite (pair_equal_spec e1 e2 i1 i2). lia.
Qed.

Lemma timer_lt_spec {T} (t1 t2 : Timer T) : timer_ltb t1 t2 = true <-> timer_lt t1 t2.
Proof. apply key_ltb_spec. Qed.

#[export] Instance key_lt_trans : Transitive key_lt.
Proof. unfold key_lt. intros ? ? ?. lia. Qed.

Lemma key_lt_irrefl k : ~ key_lt k k.
Proof. unfold key_lt. lia. Qed.

Section Facts.
Context {T : Type}.
Implicit Types (t : Timer T) (l : list (Timer T)).

Lemma tsorted_cons t l : tsorted (t :: l) <-> Forall (timer_lt t) l /\ tsorted l.
Proof. split; [intros H; inversion H; done | intros [? ?]; by constructor]. Qed.

Lemma timer_lt_le t1 t2 : timer_lt t1 t2 -> expiration t1 <= expiration t2.
Proof. unfold timer_lt, key_lt. cbn. lia. Qed.

(** The head of the set is the earliest timer. *)
Lemma tsorted_head_min t l t' : tsorted (t :: l) -> t' ∈ t :: l -> expiration t <= expiration t'.
Proof.
  intros [Hall _]%tsorted_cons [->|Hin]%elem_of_cons; [lia|].
  rewrite Forall_forall in Hall. by apply timer_lt_le, Hall.
Qed.

Lemma tsorted_key_unique l t1 t2 :
  tsorted l -> t1 ∈ l -> t2 ∈ l -> key_of t1 = key_of t2 -> t1 = t2.
Proof.
  induction l as [|t l IH]; intros Hs H1 H2 E; [by apply not_elem_of_nil in H1|].
  apply tsorted_cons in Hs as [Hall Hs]. rewrite Forall_forall in Hall.
  apply elem_of_cons in H1 as [->|H1], H2 as [->|H2]; [done| | |by apply IH].
  - exfalso. apply (key_lt_irrefl (key_of t)). rewrite E at 2. by apply Hall.
  - exfalso. apply (key_lt_irrefl (key_of t)). rewrite <- E at 2. by apply Hall.
Qed.

Lemma set_insert_elem_1 t t' l : t' ∈ set_insert t l -> t' = t \/ t' ∈ l.
Proof.
  induction l as [|u l IH]; cbn; [|destruct (timer_ltb t u), (timer_ltb u t)];
    rewrite ?elem_of_cons in *; intuition.
Qed.

Lemma set_insert_elem_old t t' l : t' ∈ l -> t' ∈ set_insert t l.
Proof.
  induction l as [|u l IH]; cbn; [|destruct (timer_ltb t u), (timer_ltb u t)];
    rewrite ?elem_of_cons in *; intuition.
Qed.

(** After an insertion the key is in the set, whoever holds it. *)
Lemma set_insert_key t l : exists t', t' ∈ set_insert t l /\ key_of t' = key_of t.
Proof.
  induction l as [|u l IH]; cbn; [exists t; by rewrite elem_of_cons; auto|].
  destruct (timer_ltb t u) eqn:E1; [exists t; by rewrite elem_of_cons; auto|].
  destruct (timer_ltb u t) eqn:E2.
  { destruct IH as (t' & ? & ?). exists t'. by rewrite elem_of_cons; auto. }
  exists u. split; [by apply elem_of_cons; auto|].
  unfold timer_ltb in *. apply key_ltb_false in E1 as [?|E1]; [done|].
  apply key_ltb_spec in E1. congruence.
Qed.

(** A timer whose key is new is inserted. *)
Lemma set_insert_elem_new t l : (forall t', t' ∈ l -> key_of t' <> key_of t) -> t ∈ set_insert t l.
Proof.
  intros Hnew. induction l as [|u l IH]; cbn; [set_solver|].
  destruct (timer_ltb t u) eqn:E1; [set_solver|].
  destruct (timer_ltb u t) eqn:E2; [set_solver|].
  exfalso. apply (Hnew u); [set_solver|].
  unfold timer_ltb in *. apply key_ltb_false in E1 as [?|E1]; [done|].
  apply key_ltb_spec in E1. congruence.
Qed.

(** It is the only change. *)
Lemma set_insert_Permutation t l : (forall u, u ∈ l -> key_of u <> key_of t) -> set_insert t l ≡ₚ t :: l.
Proof.
  induction l as [|u l IH]; intros Hnew; [done|]. cbn [set_insert].
  destruct (timer_ltb t u) eqn:E1; [done|]. destruct (timer_ltb u t) eqn:E2.
  - rewrite IH; [apply Permutation_swap|]. intros v Hv. apply Hnew. by right.
  - exfalso. apply (Hnew u); [by left|]. unfold timer_ltb in *. apply key_ltb_false in E1 as [?|E1]; [done|].
    apply key_ltb_spec in E1. congruence.
Qed.

Lemma set_insert_Forall (P : Timer T -> Prop) t l :
  P t -> Forall P l -> Forall P (set_insert t l).
Proof.
  rewrite !Forall_forall. intros Ht Hl t' H. apply set_insert_elem_1 in H as [->|]; auto.
Qed.

Lemma set_insert_sorted t l : tsorted l -> tsorted (set_insert t l).
Proof.
  induction l as [|u l IH]; intros Hs; cbn; [by repeat constructor|].
  destruct (timer_ltb t u) eqn:E1.
  - apply timer_lt_spec in E1. apply tsorted_cons in Hs as Hs'. destruct Hs' as [Hall _].
    apply tsorted_cons. split; [|done]. constructor; [done|].
    eapply Forall_impl; [done|]. intros v Hv. unfold timer_lt in *. by transitivity (key_of u).
  - destruct (timer_ltb u t) eqn:E2; [|done].
    apply timer_lt_spec in E2. apply tsorted_cons in Hs as [Hall Hs].
    apply tsorted_cons. split; [by apply set_insert_Forall|by apply IH].
Qed.

(** Insertion puts a strictly earlier timer first and otherwise keeps the
    head: the condition [earliestChanged] of [insertTimer]. *)
Lemma set_insert_head_new t u l :
  expiration t < expiration u -> set_insert t (u :: l) = t :: u :: l.
Proof.
  intros H. cbn. destruct (timer_ltb t u) eqn:E; [done|].
  unfold timer_ltb in E. apply key_ltb_false in E as [E|E].
  - unfold key_of in E. injection E. lia.
  - unfold key_lt, key_of in E. cbn in E. lia.
Qed.

Lemma set_insert_head_old t u l :
  expiration u <= expiration t ->
  exists v l', set_insert t (u :: l) = v :: l' /\ expiration v = expiration u.
Proof.
  intros H. cbn. destruct (timer_ltb t u) eqn:E.
  - apply timer_lt_spec, timer_lt_le in E. exists t, (u :: l). split; [done|lia].
  - destruct (timer_ltb u t); eauto.
Qed.

Lemma set_erase_elem k l l' : set_erase k l = Some l' -> forall t, t ∈ l' -> t ∈ l.
Proof.
  revert l'. induction l as [|u l IH]; intros l' E t Hin; cbn in E; [done|].
  case_decide; simplify_eq; [set_solver|].
  destruct (set_erase k l) eqn:E'; simplify_eq/=.
  apply elem_of_cons in Hin as [->|]; [set_solver|]. apply elem_of_cons. right. by eapply IH.
Qed.

Lemma set_erase_sorted k l l' : tsorted l -> set_erase k l = Some l' -> tsorted l'.
Proof.
  revert l'. induction l as [|u l IH]; intros l' Hs E; cbn in E; [done|].
  apply tsorted_cons in Hs as [Hall Hs].
  case_decide; simplify_eq; [done|].
  destruct (set_erase k l) eqn:E'; simplify_eq/=. apply tsorted_cons. split; [|by apply IH].
  rewrite Forall_forall in *. intros t Ht. by eapply Hall, set_erase_elem.
Qed.

(** Erasing a valid iterator removes exactly the timer it points to. *)
Lemma set_erase_spec t l :
  tsorted l -> t ∈ l ->
  exists l', set_erase (key_of t) l = Some l' /\ (forall t', t' ∈ l' <-> t' ∈ l /\ t' <> t).
Proof.
  induction l as [|u l IH]; intros Hs Hin; [by apply not_elem_of_nil in Hin|].
  apply tsorted_cons in Hs as Hs'. destruct Hs' as [Hall Hs']. rewrite Forall_forall in Hall.
  assert (Hu : forall v, v ∈ l -> v <> u).
  { intros v Hv ->. by apply (key_lt_irrefl (key_of u)), Hall. }
  cbn. case_decide as E.
  - assert (u = t) as -> by (eapply (tsorted_key_unique (u :: l)); eauto; set_solver).
    exists l. split; [done|]. set_solver.
  - apply elem_of_cons in Hin as [->|Hin]; [done|].
    destruct (IH Hs' Hin) as (l' & -> & Hl'). exists (u :: l'). split; [done|].
    intros t'. rewrite !elem_of_cons, Hl'. set_solver.
Qed.

(** The extraction loop computes a filter: exactly the timers that are due
    leave the set, in the order of the set. *)
Lemma extract_expired_timers now l active :
  tsorted l ->
  fst (extract_expired now l active) =
    (filter (fun t => expiration t <= now) l, filter (fun t => ~ expiration t <= now) l).
Proof.
  revert active. induction l as [|t l IH]; intros active Hs; [done|].
  apply tsorted_cons in Hs as Hs'. destruct Hs' as [Hall Hs'].
  cbn [extract_expired]. destruct (Z.leb_spec (expiration t) now) as [Hle|Hgt].
  - specialize (IH (delete (timer_id t) active) Hs').
    destruct (extract_expired now l _) as [[e r] a]. cbn [fst] in *. simplify_eq.
    rewrite !filter_cons, decide_True, decide_False by lia. done.
  - cbn [fst]. rewrite !filter_cons, decide_False, decide_True by lia. f_equal.
    + symmetry. apply filter_none, Forall_forall. intros u Hu.
      rewrite Forall_forall in Hall. pose proof (timer_lt_le _ _ (Hall u Hu)). lia.
    + f_equal. symmetry. apply filter_all, Forall_forall. intros u Hu.
      rewrite Forall_forall in Hall. pose proof (timer_lt_le _ _ (Hall u Hu)). lia.
Qed.

(** The identifiers of the extracted timers leave the map, no other. *)
Lemma extract_expired_active now l active id :
  let '(expired, _, active') := extract_expired now l active in
  active' !! id = if decide (id ∈ timer_id <$> expired) then None else active !! id.
Proof.
  revert active. induction l as [|t l IH]; intros active; cbn; [by rewrite decide_False by (apply not_elem_of_nil)|].
  destruct (expiration t <=? now); [|by rewrite decide_False by (apply not_elem_of_nil)].
  specialize (IH (delete (timer_id t) active)).
  destruct (extract_expired now l _) as [[e r] a]. rewrite IH. cbn.
  destruct (decide (id = timer_id t)) as [->|Hne].
  - rewrite lookup_delete_eq, (decide_True (P := _ ∈ timer_id _ :: _)) by (by left).
    by case_decide.
  - rewrite lookup_delete_ne by done. apply decide_ext.
    rewrite elem_of_cons. intuition.
Qed.

Lemma filter_sorted (P : Timer T -> Prop) `{!forall t, Decision (P t)} l :
  tsorted l -> tsorted (filter P l).
Proof.
  induction l as [|t l IH]; intros Hs; [done|].
  apply tsorted_cons in Hs as [Hall Hs]. rewrite filter_cons.
  destruct (decide (P t)); [|by apply IH]. apply tsorted_cons. split; [|by apply IH].
  rewrite Forall_forall in *. intros u Hu. apply list_elem_of_filter in Hu as [_ Hu]. by apply Hall.
Qed.
End Facts.

#[export] Hint Resolve set_insert_sorted filter_sorted : reactor.
