(* ===== verification/EventLoop.v ===== *)
(** Component [EventLoop.h], [EventLoop.cc]: the reactor.  This file holds
    its state and its operations, each a translation of the member function
    of the same name; the properties are in [EventLoopFacts] (invariant and
    safety), [TimerFacts], [SourceFacts] and [DispatchFacts] (behaviour).

    The operations act on a [world]: the loop itself, the receiver object
    the loop is used with, and the state of the kernel (which also stands for
    everything outside the library).  Code the library calls back
    ([std::function] tasks, [UDPReceiver::handleRead]) is a parameter of the
    operations that call it, and may itself call any operation of the loop. *)
From S2P Require Import Prelude Outcome Result Kernel ScopedFd TimerQueue.

(** [InternalHandler]: [std::variant<std::monostate, TimerTag, UDPReceiverTag>].
    [TimerTag] carries a pointer to the loop, which is the only one here. *)
Inductive InternalHandler :=
| Monostate
| TimerTag
| UDPReceiverTag (receiver : Z) (tag_fd : Z) (userContext : Z) (handler : Z).

#[export] Instance InternalHandler_eq_dec : EqDecision InternalHandler.
Proof. solve_decision. Defined.

(** The state of an [EventLoop].  [m_fastSources] is the array of 1024
    sources, an absent entry being a [std::monostate]; [m_slowSources] maps a
    descriptor to its node and source, [m_nextNode] numbering the nodes the
    hash map allocates; [m_events] is the buffer of [m_impl]. *)
Record EventLoop (T : Type) := MkEventLoop {
  m_epoll_fd : ScopedFd;
  m_timer_fd : ScopedFd;
  m_events : list (option source_ptr);
  m_fastSources : gmap Z InternalHandler;
  m_slowSources : gmap Z (Z * InternalHandler);
  m_nextNode : Z;
  m_pendingTasks : list (option T);
  m_timers : list (Timer T);
  m_activeTimers : gmap Z tkey;
  m_nextTimerId : Z
}.
Arguments MkEventLoop {T}.
Arguments m_epoll_fd {T} l : rename.
Arguments m_timer_fd {T} l : rename.
Arguments m_events {T} l : rename.
Arguments m_fastSources {T} l : rename.
Arguments m_slowSources {T} l : rename.
Arguments m_nextNode {T} l : rename.
Arguments m_pendingTasks {T} l : rename.
Arguments m_timers {T} l : rename.
Arguments m_activeTimers {T} l : rename.
Arguments m_nextTimerId {T} l : rename.

Definition MAX_EVENTS : Z := 128.
Definition MAX_FAST_FDS : Z := 1024.

(** Assignments to the fields. *)
Section Setters.
Context {T : Type}.
Implicit Types l : EventLoop T.

Definition set_events v l : EventLoop T :=
  MkEventLoop (m_epoll_fd l) (m_timer_fd l) v (m_fastSources l) (m_slowSources l) (m_nextNode l)
    (m_pendingTasks l) (m_timers l) (m_activeTimers l) (m_nextTimerId l).
Definition set_fast v l : EventLoop T :=
  MkEventLoop (m_epoll_fd l) (m_timer_fd l) (m_events l) v (m_slowSources l) (m_nextNode l)
    (m_pendingTasks l) (m_timers l) (m_activeTimers l) (m_nextTimerId l).
Definition set_slow v n l : EventLoop T :=
  MkEventLoop (m_epoll_fd l) (m_timer_fd l) (m_events l) (m_fastSources l) v n
    (m_pendingTasks l) (m_timers l) (m_activeTimers l) (m_nextTimerId l).
Definition set_pending v l : EventLoop T :=
  MkEventLoop (m_epoll_fd l) (m_timer_fd l) (m_events l) (m_fastSources l) (m_slowSources l)
    (m_nextNode l) v (m_timers l) (m_activeTimers l) (m_nextTimerId l).
Definition set_timers v a l : EventLoop T :=
  MkEventLoop (m_epoll_fd l) (m_timer_fd l) (m_events l) (m_fastSources l) (m_slowSources l)
    (m_nextNode l) (m_pendingTasks l) v a (m_nextTimerId l).
Definition set_next v l : EventLoop T :=
  MkEventLoop (m_epoll_fd l) (m_timer_fd l) (m_events l) (m_fastSources l) (m_slowSources l)
    (m_nextNode l) (m_pendingTasks l) (m_timers l) (m_activeTimers l) v.
End Setters.

(** The loop [T], the receiver object [O], the kernel [Y]. *)
Record world (T O Y : Type) := World { w_loop : EventLoop T; w_obj : O; w_sys : Y }.
Arguments World {T O Y}.
Arguments w_loop {T O Y} w : rename.
Arguments w_obj {T O Y} w : rename.
Arguments w_sys {T O Y} w : rename.

Definition with_loop {T O Y} (f : EventLoop T -> EventLoop T) (w : world T O Y) : world T O Y :=
  World (f (w_loop w)) (w_obj w) (w_sys w).
Definition with_obj {T O Y} (f : O -> O) (w : world T O Y) : world T O Y :=
  World (w_loop w) (f (w_obj w)) (w_sys w).
Definition with_sys {T O Y} (y : Y) (w : world T O Y) : world T O Y :=
  World (w_loop w) (w_obj w) y.

(** A system call. *)
Definition sys {T O Y A} (f : Y -> A * Y) : M (world T O Y) A := fun w =>
  Ret (fst (f (w_sys w))) (with_sys (snd (f (w_sys w))) w).

Definition loop_get {T O Y A} (f : EventLoop T -> A) : M (world T O Y) A := gets (fun w => f (w_loop w)).
Definition loop_set {T O Y} (f : EventLoop T -> EventLoop T) : M (world T O Y) unit := modify (with_loop f).

Section EventLoopOps.
Context {T O Y : Type} `{ReactorKernel Y}.
Notation Mw := (M (world T O Y)).

Definition get_errno : Mw Z := gets (fun w => errno (w_sys w)).
Definition clock_now : Mw Z := sys steady_now.
Definition close_fd (fd : Z) : Mw unit := sys (close fd) ;; mret tt.

(** [m_fastSources[fd] = {handler}] or [m_slowSources[fd] = {handler}], and
    the address of the source.  Assigning to a key of the hash map keeps its
    node, a new key allocates one. *)
Definition store_source (fd : Z) (handler : InternalHandler) : Mw source_ptr :=
  if fd <? MAX_FAST_FDS then
    loop_set (fun l => set_fast (<[fd := handler]> (m_fastSources l)) l) ;;
    mret (FastPtr fd)
  else
    l ← loop_get id;
    match m_slowSources l !! fd with
    | Some (node, _) =>
        loop_set (fun l => set_slow (<[fd := (node, handler)]> (m_slowSources l)) (m_nextNode l) l) ;;
        mret (SlowPtr fd node)
    | None =>
        loop_set (fun l =>
          set_slow (<[fd := (m_nextNode l, handler)]> (m_slowSources l)) (m_nextNode l + 1) l) ;;
        mret (SlowPtr fd (m_nextNode l))
    end.

(** [Result<void> addSource(int fd, uint32_t eventMask, InternalHandler handler)] *)
Definition addSource (fd eventMask : Z) (handler : InternalHandler) : Mw ResultVoid :=
  if fd <? 0 then mret (ResultVoid.fail (ErrorCode EBADF generic_category))
  else
    ptr ← store_source fd handler;
    epfd ← loop_get m_epoll_fd;
    rc ← sys (epoll_ctl_add (ScopedFd.fd epfd) fd eventMask ptr);
    if rc =? -1 then
      e ← get_errno; mret (ResultVoid.fail (ErrorCode e generic_category))
    else mret ResultVoid.success.

(** [Result<void> removeSource(int fd)]: no guard on a negative
    descriptor, which indexes the array below its start. *)
Definition removeSource (fd : Z) : Mw ResultVoid :=
  (if fd <? MAX_FAST_FDS then
     if fd <? 0 then crash OutOfBounds
     else loop_set (fun l => set_fast (<[fd := Monostate]> (m_fastSources l)) l)
   else loop_set (fun l => set_slow (delete fd (m_slowSources l)) (m_nextNode l) l)) ;;
  epfd ← loop_get m_epoll_fd;
  rc ← sys (epoll_ctl_del (ScopedFd.fd epfd) fd);
  if rc =? -1 then
    e ← get_errno; mret (ResultVoid.fail (ErrorCode e system_category))
  else mret ResultVoid.success.

(** [void resetTimerFd()]: the relative delay is passed with
    TFD_TIMER_ABSTIME, as in the code. *)
Definition resetTimerFd : Mw unit :=
  tfd ← loop_get m_timer_fd;
  timers ← loop_get m_timers;
  match timers with
  | [] => sys (timerfd_settime (ScopedFd.fd tfd) 0 (TimeSpec 0 0)) ;; mret tt
  | t :: _ =>
      now ← clock_now;
      newValue ←
        (if expiration t <=? now then mret (TimeSpec 0 1)
         else dur ← s64 (expiration t - now);
              mret (TimeSpec (Z.quot dur 1000000000) (Z.rem dur 1000000000)));
      sys (timerfd_settime (ScopedFd.fd tfd) TFD_TIMER_ABSTIME newValue) ;; mret tt
  end.

(** [void insertTimer(Timer t)] *)
Definition insertTimer (t : Timer T) : Mw unit :=
  timers ← loop_get m_timers;
  let earliestChanged :=
    match timers with [] => true | b :: _ => expiration t <? expiration b end in
  loop_set (fun l =>
    set_timers (set_insert t (m_timers l)) (<[timer_id t := key_of t]> (m_activeTimers l)) l) ;;
  if earliestChanged then resetTimerFd else mret tt.

(** [Clock::now() + delay]: milliseconds to nanoseconds, then the sum, in
    64-bit signed arithmetic. *)
Definition time_after (now delay : Z) : Mw Z :=
  ns ← s64 (delay * 1000000); s64 (now + ns).

(** [m_nextTimerId++] *)
Definition fresh_timer_id : Mw Z :=
  id ← loop_get m_nextTimerId;
  loop_set (set_next (u64 (id + 1))) ;; mret id.

(** [Result<TimerId> runAfter(Duration delay, TimerCallback cb)] *)
Definition runAfter (delay : Z) (cb : option T) : Mw (Result Z) :=
  if delay <? 0 then mret (Error (ErrorCode EINVAL system_category))
  else
    id ← fresh_timer_id;
    now ← clock_now;
    when ← time_after now delay;
    insertTimer (MkTimer when 0 cb id false) ;;
    mret (Value id).

(** [Result<TimerId> runEvery(Duration interval, TimerCallback cb)] *)
Definition runEvery (interval : Z) (cb : option T) : Mw (Result Z) :=
  if interval <=? 0 then mret (Error (ErrorCode EINVAL system_category))
  else
    id ← fresh_timer_id;
    now ← clock_now;
    when ← time_after now interval;
    insertTimer (MkTimer when interval cb id true) ;;
    mret (Value id).

(** [Result<void> cancelTimer(TimerId id)] *)
Definition cancelTimer (id : Z) : Mw ResultVoid :=
  l ← loop_get Datatypes.id;
  match m_activeTimers l !! id with
  | None => mret (ResultVoid.fail (ErrorCode ENOENT system_category))
  | Some k =>
      match set_erase k (m_timers l) with
      | None => crash DanglingIterator
      | Some timers =>
          loop_set (fun l => set_timers timers (delete id (m_activeTimers l)) l) ;;
          resetTimerFd ;;
          mret ResultVoid.success
      end
  end.

(** [void runInLoop(std::function<void()> cb)] *)
Definition runInLoop (cb : option T) : Mw unit :=
  loop_set (fun l => set_pending (m_pendingTasks l ++ [cb]) l).

(** [EventLoop()]; the members built before a throw are destroyed. *)
Definition EventLoop_new : Mw unit :=
  ep ← sys (epoll_create1 0);
  tf ← sys (timerfd_create CLOCK_MONOTONIC (Z.lor TFD_NONBLOCK TFD_CLOEXEC));
  loop_set (fun _ =>
    MkEventLoop (MkScopedFd ep) (MkScopedFd tf) (replicate (Z.to_nat MAX_EVENTS) None)
      ∅ ∅ 0 [] [] ∅ 1) ;;
  on_throw
    (if ep <? 0 then throw (RuntimeError "Failed to create epoll")
     else if tf <? 0 then throw (RuntimeError "Failed to create timerfd")
     else r ← addSource tf EPOLLIN TimerTag; ResultVoid.value r)
    (ScopedFd.destroy close_fd (MkScopedFd tf) ;; ScopedFd.destroy close_fd (MkScopedFd ep)).

(** [~EventLoop()]: the two descriptors, in reverse order of declaration. *)
Definition EventLoop_delete : Mw unit :=
  l ← loop_get id;
  ScopedFd.destroy close_fd (m_timer_fd l) ;; ScopedFd.destroy close_fd (m_epoll_fd l).

(** ** Operations that run code of the application *)

Context (run_task : T -> Mw unit).
Context (handleRead : Z -> Z -> Z -> Z -> Mw unit).

(** One expired timer: the callback, then the rescheduling if it repeats. *)
Definition fire (t : Timer T) : Mw unit :=
  (match callback t with Some cb => run_task cb | None => mret tt end) ;;
  if repeat t then
    ns ← s64 (interval t * 1000000);
    e ← s64 (expiration t + ns);
    insertTimer (MkTimer e (interval t) (callback t) (timer_id t) (repeat t))
  else mret tt.

(** [void handleTimerRead()] *)
Definition handleTimerRead : Mw unit :=
  tfd ← loop_get m_timer_fd;
  n ← sys (timerfd_read (ScopedFd.fd tfd));
  if negb (n =? 8) then mret tt
  else
    now ← clock_now;
    l ← loop_get id;
    let '(expired, timers, active) := extract_expired now (m_timers l) (m_activeTimers l) in
    loop_set (set_timers timers active) ;;
    for_each expired fire ;;
    resetTimerFd.

(** The handler behind a pointer epoll returned. *)
Definition deref_source (p : source_ptr) : Mw InternalHandler :=
  l ← loop_get id;
  match p with
  | FastPtr fd => mret (default Monostate (m_fastSources l !! fd))
  | SlowPtr fd node =>
      match m_slowSources l !! fd with
      | Some (n, h) => if n =? node then mret h else crash DanglingSource
      | None => crash DanglingSource
      end
  end.

(** The [std::visit] of [runOnce]. *)
Definition visit_handler (h : InternalHandler) : Mw unit :=
  match h with
  | Monostate => mret tt
  | TimerTag => handleTimerRead
  | UDPReceiverTag receiver fd ctx handler => handleRead receiver fd ctx handler
  end.

(** The body of the dispatch loop for event [i]. *)
Definition dispatch_event (i : Z) : Mw unit :=
  evs ← loop_get m_events;
  match evs !! Z.to_nat i with
  | None => crash OutOfBounds
  | Some None => mret tt
  | Some (Some p) => h ← deref_source p; visit_handler h
  end.

(** [task()] on a [std::function]. *)
Definition call_task (t : option T) : Mw unit :=
  match t with Some cb => run_task cb | None => throw BadFunctionCall end.

(** The pending tasks are swapped out, then run. *)
Definition run_pending : Mw unit :=
  tasks ← loop_get m_pendingTasks;
  match tasks with
  | [] => mret tt
  | _ => loop_set (set_pending []) ;; for_each tasks call_task
  end.

(** The events are in the buffer; the dispatch loop runs over them. *)
Definition dispatch_batch (evs : list source_ptr) : Mw unit :=
  loop_set (fun l => set_events ((Some <$> evs) ++ drop (length evs) (m_events l)) l) ;;
  for_n (Z.of_nat (length evs)) dispatch_event.

(** [Result<void> runOnce(int timeoutMs)] *)
Definition runOnce (timeoutMs : Z) : Mw ResultVoid :=
  pending ← loop_get m_pendingTasks;
  let timeout := match pending with [] => timeoutMs | _ => 0 end in
  epfd ← loop_get m_epoll_fd;
  ready ← sys (epoll_wait (ScopedFd.fd epfd) MAX_EVENTS timeout);
  match ready with
  | None =>
      e ← get_errno;
      if e =? EINTR then mret ResultVoid.success
      else mret (ResultVoid.fail (ErrorCode e system_category))
  | Some evs =>
      dispatch_batch evs ;;
      run_pending ;;
      mret ResultVoid.success
  end.
End EventLoopOps.

(** ** Running the primitive steps *)

Section Run.
Context {T O Y : Type}.
Implicit Types w : world T O Y.

Lemma bind_sys {A B} (f : Y -> A * Y) (k : A -> M (world T O Y) B) w :
  (sys f ≫= k) w = k (fst (f (w_sys w))) (with_sys (snd (f (w_sys w))) w).
Proof. done. Qed.

Lemma bind_loop_get {A B} (f : EventLoop T -> A) (k : A -> M (world T O Y) B) w :
  (loop_get f ≫= k) w = k (f (w_loop w)) w.
Proof. done. Qed.

Lemma bind_loop_set {B} f (k : unit -> M (world T O Y) B) w :
  (loop_set f ≫= k) w = k tt (with_loop f w).
Proof. done. Qed.

Lemma bind_get_errno {B} `{ReactorKernel Y} (k : Z -> M (world T O Y) B) w :
  (get_errno ≫= k) w = k (errno (w_sys w)) w.
Proof. done. Qed.

Lemma bind_clock_now {B} `{ReactorKernel Y} (k : Z -> M (world T O Y) B) w :
  (clock_now ≫= k) w = k (fst (steady_now (w_sys w))) (with_sys (snd (steady_now (w_sys w))) w).
Proof. done. Qed.

Lemma bind_fresh_timer_id {B} (k : Z -> M (world T O Y) B) w :
  (fresh_timer_id ≫= k) w =
    k (m_nextTimerId (w_loop w)) (with_loop (set_next (u64 (m_nextTimerId (w_loop w) + 1))) w).
Proof. done. Qed.
End Run.

#[export] Hint Rewrite @bind_sys @bind_loop_get @bind_loop_set @bind_get_errno @bind_clock_now
  @bind_fresh_timer_id : run.
