(* ===== verification/Recorder.v ===== *)
(** An application that only records the calls of its packet handlers, in the
    kernel state (which stands for everything outside the library).  The
    round trips of the receivers are stated for it: they say which calls are
    made, in which order, with which arguments. *)
From S2P Require Import Prelude Outcome Result Kernel SimKernel ScopedFd TimerQueue EventLoop.

Section Recorder.
Context {T O Y : Type} (emit : delivery -> Y -> Y).
Implicit Types w : world T O Y.

Definition recorder (h c data len st : Z) (ts : timespec) : M (world T O Y) unit :=
  fun w => Ret tt (with_sys (emit (Delivery h c data len st ts) (w_sys w)) w).

(** The calls [ds], recorded one after the other. *)
Definition emit_all (ds : list delivery) (y : Y) : Y := foldl (fun y d => emit d y) y ds.

Lemma emit_all_app ds1 ds2 y : emit_all (ds1 ++ ds2) y = emit_all ds2 (emit_all ds1 y).
Proof. unfold emit_all. apply foldl_app. Qed.
End Recorder.
