(* ===== verification/EventLoopFacts.v ===== *)
(** The invariant of the event loop, the class of computations that keep it
    and never fault, and the proof that every operation of the loop, [runOnce]
    included, belongs to it; with the guarantee that the timer descriptor is
    armed in time for the earliest timer.  The invariant has a part that belongs
    to the application ([AppInvariant]), which the loop does not disturb. *)
From S2P Require Import Prelude Outcome Result Kernel ScopedFd TimerQueue EventLoop.

(** ** The invariant *)

(** Delays up to 2^62 ns (146 years), in milliseconds. *)
Definition max_delay : Z := 4611686018427.

(** A scheduled timer: its instant is a 64-bit time point and its interval
    does not overflow when it is added to an instant of the clock. *)
Definition timer_ok {T} (t : Timer T) : Prop :=
  0 <= expiration t < 2 ^ 63 /\ 0 <= interval t <= max_delay.

(** The loop by itself: the set is sorted; every entry of the map of active
    timers is an iterator to a node of the set; the event buffer has the
    size its constructor gave it. *)
Record loop_ok {T} (l : EventLoop T) : Prop := {
  ok_sorted : tsorted (m_timers l);
  ok_active : forall id (k : tkey), m_activeTimers l !! id = Some k ->
    snd k = id /\ exists t, t ∈ m_timers l /\ key_of t = k;
  ok_timers : Forall timer_ok (m_timers l);
  ok_buffer : length (m_events l) = Z.to_nat MAX_EVENTS
}.

(** What the application keeps of its own: a property of its object and of the
    world outside that the calls the loop makes do not disturb.  The
    development of the loop is done once for all of them; the default is the
    trivial one. *)
Class AppInvariant (O Y : Type) {RK : ReactorKernel Y} := {
  app_inv : O -> Y -> Prop;
  inv_now o y : app_inv o y -> app_inv o (snd (steady_now y));
  inv_settime f flags v o y : app_inv o y -> app_inv o (snd (timerfd_settime f flags v y));
  inv_read f o y : app_inv o y -> app_inv o (snd (timerfd_read f y));
  inv_wait e n t o y : app_inv o y -> app_inv o (snd (epoll_wait e n t y));
  inv_add e f m p o y : app_inv o y -> app_inv o (snd (epoll_ctl_add e f m p y));
  inv_del e f o y : app_inv o y -> app_inv o (snd (epoll_ctl_del e f y))
}.

#[export] Instance no_invariant {O Y} {RK : ReactorKernel Y} : AppInvariant O Y | 100 := {
  app_inv _ _ := True;
  inv_now _ _ h := h;
  inv_settime _ _ _ _ _ h := h;
  inv_read _ _ _ h := h;
  inv_wait _ _ _ _ _ h := h;
  inv_add _ _ _ _ _ _ h := h;
  inv_del _ _ _ _ h := h
}.

(** A pointer that may be dereferenced: a slot of the array, or a live node. *)
Definition valid_ptr {T} (l : EventLoop T) (p : source_ptr) : Prop :=
  match p with
  | FastPtr _ => True
  | SlowPtr fd node => exists h, m_slowSources l !! fd = Some (node, h)
  end.

Section Facts.
Context {T O Y : Type} {RK : ReactorKernel Y} {RL : ReactorLaws Y} {AI : AppInvariant O Y}.
Notation W := (world T O Y).
Implicit Types w : W.

(** What epoll may report is valid. *)
Definition sources_ok w : Prop :=
  forall fd p, registered (w_sys w) !! fd = Some p -> valid_ptr (w_loop w) p.

(** The first [n] events of the buffer (those of the batch being
    dispatched) are valid. *)
Definition batch_ok (n : nat) w : Prop :=
  forall i p, (i < n)%nat -> m_events (w_loop w) !! i = Some (Some p) -> valid_ptr (w_loop w) p.

Definition Inv (n : nat) w : Prop :=
  loop_ok (w_loop w) /\ sources_ok w /\ batch_ok n w /\ app_inv (w_obj w) (w_sys w).

(** The timer descriptor becomes readable no later than the earliest timer
    expires (an instant of the clock is at least 1 ns). *)
Definition armed w : Prop :=
  match m_timers (w_loop w) with
  | [] => True
  | t :: _ => exists d, deadline (w_sys w) = Some d /\ d <= Z.max 1 (expiration t)
  end.

(** Safety of an operation, in the middle of the dispatch of any batch: it
    does not crash, it keeps the invariant whether it returns or throws, and
    if the timer descriptor was armed in time, it is when the operation
    returns. *)
Record safe {A} (m : M W A) : Prop := {
  safe_inv : forall n, preserves (Inv n) m;
  safe_armed : forall n w, Inv n w -> armed w ->
    wp m (fun _ w' => Inv n w' /\ armed w') (fun _ => Inv n) w
}.

(** Same, for an operation that arms the timer whatever its state was. *)
Definition arms {A} (m : M W A) : Prop :=
  forall n w, Inv n w -> wp m (fun _ w' => Inv n w' /\ armed w') (fun _ => Inv n) w.

Lemma arms_safe {A} (m : M W A) : arms m -> safe m.
Proof.
  intros H. split; [|by intros; apply H].
  intros n w Hw. eapply wp_conseq; [by apply H|naive_solver|done].
Qed.

Lemma safe_mret {A} (a : A) : safe (mret a).
Proof. split; [by intros n w Hw|by intros n w Hw Ha]. Qed.

Lemma safe_throw {A} e : safe (throw e : M W A).
Proof. split; [by intros n w Hw|by intros n w Hw _]. Qed.

Lemma safe_bind {A B} (m : M W A) (k : A -> M W B) :
  safe m -> (forall a, safe (k a)) -> safe (m ≫= k).
Proof.
  intros Hm Hk. split.
  - intros n. apply preserves_bind; [apply Hm|intros; apply Hk].
  - intros n w Hw Ha. apply wp_bind.
    eapply wp_conseq; [by apply (safe_armed _ Hm n)| |done].
    intros a w' [? ?]. by apply Hk.
Qed.

Lemma safe_for_each_in {A} (l : list A) (f : A -> M W unit) :
  (forall x, x ∈ l -> safe (f x)) -> safe (for_each l f).
Proof.
  induction l as [|x l IH]; intros Hf; [apply safe_mret|]. cbn.
  apply safe_bind; [apply Hf; set_solver|]. intros _. apply IH. intros x' Hx. apply Hf. set_solver.
Qed.

Lemma safe_for_each {A} (l : list A) (f : A -> M W unit) :
  (forall x, safe (f x)) -> safe (for_each l f).
Proof. intros Hf. apply safe_for_each_in. intros x _. apply Hf. Qed.

(** A safe operation whose value, when it returns, satisfies [P]. *)
Definition gives {A} (P : A -> Prop) (m : M W A) : Prop :=
  safe m /\ forall n w, Inv n w -> wp m (fun a _ => P a) (fun _ _ => True) w.

Lemma gives_safe {A} (P : A -> Prop) (m : M W A) : gives P m -> safe m.
Proof. by intros [? _]. Qed.

Lemma gives_mret {A} (P : A -> Prop) a : P a -> gives P (mret a).
Proof. intros Ha. split; [apply safe_mret|]. by intros n w _. Qed.

Lemma gives_bind {A B} (P : A -> Prop) (Q : B -> Prop) (m : M W A) (k : A -> M W B) :
  gives P m -> (forall a, P a -> gives Q (k a)) -> gives Q (m ≫= k).
Proof.
  intros [[Hi Ha] Hm] Hk. split; [split|]; intros n w Hw; [|intros Harm|]; apply wp_bind; specialize (Hm n w Hw).
  - specialize (Hi n w Hw). unfold wp in *. destruct (m w) as [a w'|e w'|f]; [|done..].
    by apply (safe_inv _ (proj1 (Hk a Hm)) n).
  - specialize (Ha n w Hw Harm). unfold wp in *. destruct (m w) as [a w'|e w'|f]; [|done..].
    destruct Ha. by apply (safe_armed _ (proj1 (Hk a Hm)) n).
  - specialize (Hi n w Hw). unfold wp in *. destruct (m w) as [a w'|e w'|f]; [|done..].
    by apply (proj2 (Hk a Hm) n).
Qed.

Lemma safe_gives {A} (m : M W A) : safe m -> gives (fun _ => True) m.
Proof.
  intros H. split; [done|]. intros n w Hw. pose proof (safe_inv _ H n w Hw) as Hi. unfold wp in *.
  by destruct (m w).
Qed.

Lemma safe_bind_gives {A B} (P : A -> Prop) (m : M W A) (k : A -> M W B) :
  gives P m -> (forall a, P a -> safe (k a)) -> safe (m ≫= k).
Proof. intros Hm Hk. eapply gives_safe, gives_bind; [exact Hm|]. intros a Ha. by apply safe_gives, Hk. Qed.

Lemma gives_after {A B} (Q : B -> Prop) (m : M W A) (k : A -> M W B) :
  safe m -> (forall a, gives Q (k a)) -> gives Q (m ≫= k).
Proof. intros Hm Hk. eapply gives_bind; [by apply safe_gives|]. intros a _. apply Hk. Qed.

(** Safety at a given state. *)
Definition safe_at (n : nat) w {A} (m : M W A) : Prop :=
  wp m (fun _ => Inv n) (fun _ => Inv n) w /\
  (armed w -> wp m (fun _ w' => Inv n w' /\ armed w') (fun _ => Inv n) w).

Lemma safe_at_spec {A} (m : M W A) : safe m <-> forall n w, Inv n w -> safe_at n w m.
Proof.
  split; [intros [Hi Ha] n w Hw; split; [by apply Hi|by apply Ha]|].
  intros H. split; intros n w Hw; by apply H.
Qed.

Lemma safe_at_bind {A B} n w (m : M W A) (k : A -> M W B) :
  safe_at n w m -> (forall a, safe (k a)) -> safe_at n w (m ≫= k).
Proof.
  intros [H1 H2] Hk. split; [|intros Ha; specialize (H2 Ha)]; apply wp_bind;
    (eapply wp_conseq; [done| |done]).
  - intros a w' Hw'. by apply Hk.
  - intros a w' [Hw' Ha']. by apply Hk.
Qed.

Lemma safe_at_Ret {A} n w (m : M W A) a w' :
  m w = Ret a w' -> Inv n w' -> (armed w -> armed w') -> safe_at n w m.
Proof. intros E Hw Ha. split; [|intros H]; eapply wp_Ret; eauto. Qed.

(** An operation that does what a safe one does from a later state. *)
Lemma safe_at_eq {A} n w w' (m m' : M W A) :
  m w = m' w' -> safe m' -> Inv n w' -> (armed w -> armed w') -> safe_at n w m.
Proof.
  intros E [Hi Ha] Hw Har. split; [|intros H]; unfold wp; rewrite E; [by apply Hi|by apply Ha, Har].
Qed.

(** An operation that returns the world unchanged up to what the invariant
    does not read. *)
Definition same_view w w' : Prop :=
  m_timers (w_loop w') = m_timers (w_loop w) /\
  m_activeTimers (w_loop w') = m_activeTimers (w_loop w) /\
  m_events (w_loop w') = m_events (w_loop w) /\
  (forall p, valid_ptr (w_loop w) p -> valid_ptr (w_loop w') p) /\
  (forall fd p, registered (w_sys w') !! fd = Some p ->
     registered (w_sys w) !! fd = Some p \/ valid_ptr (w_loop w') p) /\
  deadline (w_sys w') = deadline (w_sys w) /\
  (app_inv (w_obj w) (w_sys w) -> app_inv (w_obj w') (w_sys w')).

Lemma same_view_Inv n w w' : same_view w w' -> Inv n w -> Inv n w'.
Proof.
  intros (Ht & Ha & He & Hp & Hr & _ & Hi) (Hl & Hs & Hb & Happ). split_and!; [| | |by apply Hi].
  - destruct Hl. split; rewrite ?Ht, ?Ha, ?He; done.
  - intros fd p H. apply Hr in H as [H|H]; [|done]. eapply Hp, Hs, H.
  - intros i p Hlt E. rewrite He in E. eapply Hp, Hb; done.
Qed.

Lemma same_view_armed w w' : same_view w w' -> armed w -> armed w'.
Proof. intros (Ht & _ & _ & _ & _ & Hd & _). unfold armed. by rewrite Ht, Hd. Qed.

Lemma safe_view {A} (m : M W A) :
  (forall w, exists a w', m w = Ret a w' /\ same_view w w') -> safe m.
Proof.
  intros H. split; intros n w Hw; [|intros Ha]; destruct (H w) as (a & w' & E & Hv);
    eapply wp_Ret; eauto using same_view_Inv, same_view_armed.
Qed.

Lemma same_view_refl w : same_view w w.
Proof. unfold same_view. intuition. Qed.

Lemma safe_gets {A} (f : W -> A) : safe (gets f).
Proof. apply safe_view. intros w. exists (f w), w. split; [done|apply same_view_refl]. Qed.
Lemma safe_sys {A} (f : Y -> A * Y) :
  (forall y, deadline (snd (f y)) = deadline y) ->
  (forall y, registered (snd (f y)) ⊆ registered y) ->
  (forall (o : O) y, app_inv o y -> app_inv o (snd (f y))) ->
  safe (sys f : M W A).
Proof.
  intros Hd Hr Hi. apply safe_view. intros w. eexists _, _. split; [reflexivity|].
  split_and!; try done; [|by apply Hd|apply Hi].
  intros fd p H. left. by eapply lookup_weaken, Hr.
Qed.

Lemma gives_gets {A} (P : A -> Prop) (f : W -> A) :
  (forall n w, Inv n w -> P (f w)) -> gives P (gets f).
Proof. intros H. split; [apply safe_gets|]. intros n w Hw. by apply (H n). Qed.

(** A change of the application's object. *)
Lemma safe_obj (g : O -> O) :
  (forall o y, app_inv o y -> app_inv (g o) y) -> safe (modify (with_obj g) : M W unit).
Proof.
  intros Hg. apply safe_view. intros w. eexists _, _. split; [reflexivity|]. split_and!; try done; [|apply Hg].
  intros fd p H. by left.
Qed.

Lemma safe_loop_set (f : EventLoop T -> EventLoop T) :
  (forall l, m_timers (f l) = m_timers l /\ m_activeTimers (f l) = m_activeTimers l /\
             m_events (f l) = m_events l /\ m_slowSources (f l) = m_slowSources l) ->
  safe (loop_set f : M W unit).
Proof.
  intros Hf. apply safe_view. intros w. eexists _, _. split; [reflexivity|].
  destruct (Hf (w_loop w)) as (? & ? & ? & Hs). split_and!; cbn; auto.
  intros [fd|fd node]; cbn; [done|]. by rewrite Hs.
Qed.

Lemma safe_clock_now : safe (clock_now : M W Z).
Proof.
  apply safe_sys; [intros y; apply steady_now_frame| |intros o y; apply inv_now].
  intros y. by rewrite (proj2 (steady_now_frame y)).
Qed.

Lemma safe_get_errno : safe (get_errno : M W Z).
Proof. apply safe_gets. Qed.

(** ** The timer descriptor *)

Lemma ns_of_parts (d : Z) : ns_of (TimeSpec (Z.quot d 1000000000) (Z.rem d 1000000000)) = d.
Proof. unfold ns_of. cbn. pose proof (Z.quot_rem' d 1000000000). lia. Qed.

Lemma Inv_world n w p y :
  Inv n w -> registered y ⊆ registered (w_sys w) -> app_inv p y -> Inv n (World (w_loop w) p y).
Proof.
  intros (Hl & Hs & Hb & _) Hr Hi. split_and!; [done| |done|done].
  intros fd q H. cbn in *. eapply Hs, lookup_weaken, Hr. done.
Qed.

Lemma Inv_sys n w y :
  Inv n w -> registered y ⊆ registered (w_sys w) -> app_inv (w_obj w) y -> Inv n (with_sys y w).
Proof. apply Inv_world. Qed.

Lemma Inv_app n w : Inv n w -> app_inv (w_obj w) (w_sys w).
Proof. by intros (_ & _ & _ & ?). Qed.

(** A call of the kernel that is safe where the application's invariant holds. *)
Lemma gives_sys {A} (P : A -> Prop) (f : Y -> A * Y) :
  (forall (o : O) y, app_inv o y -> deadline (snd (f y)) = deadline y /\ registered (snd (f y)) ⊆ registered y /\
     app_inv o (snd (f y)) /\ P (fst (f y))) ->
  gives P (sys f : M W A).
Proof.
  intros Hf. split.
  - apply safe_at_spec. intros n w Hw. destruct (Hf _ _ (Inv_app n w Hw)) as (Hd & Hr & Hi & _).
    eapply safe_at_Ret; [reflexivity|by apply Inv_sys|]. unfold armed. cbn. by rewrite Hd.
  - intros n w Hw. apply (Hf _ _ (Inv_app n w Hw)).
Qed.

(** [resetTimerFd] always succeeds, and arms the descriptor in time. *)
Lemma resetTimerFd_spec n w :
  Inv n w ->
  wp resetTimerFd (fun _ w' => Inv n w' /\ armed w' /\ w_loop w' = w_loop w /\ w_obj w' = w_obj w)
    (fun _ _ => False) w.
Proof.
  intros Hw. unfold resetTimerFd, loop_get. wp_steps.
  destruct (m_timers (w_loop w)) as [|t ts] eqn:Et.
  - unfold wp, sys, mret, M_ret. cbn. split_and!; try done.
    + apply Inv_sys; [done| |by eapply inv_settime, Inv_app].
      by destruct (settime_frame (fd (m_timer_fd (w_loop w))) 0 (TimeSpec 0 0) (w_sys w)) as [_ ->].
    + unfold armed. cbn. by rewrite Et.
  - apply wp_bind. unfold clock_now. unfold wp at 1. cbn beta iota delta [sys].
    set (y1 := snd (steady_now (w_sys w))). set (now := fst (steady_now (w_sys w))).
    assert (Hr1 : registered y1 = registered (w_sys w)) by apply steady_now_frame.
    assert (Hnow : 0 <= now < clock_limit) by apply steady_now_range.
    assert (Hexp : 0 <= expiration t < 2 ^ 63).
    { destruct Hw as ([_ _ Hall _] & _). rewrite Et in Hall. by inversion Hall as [|? ? [? ?]]. }
    assert (Hfin : forall v, ns_of v <> 0 -> ns_of v <= Z.max 1 (expiration t) ->
      let y2 := snd (timerfd_settime (fd (m_timer_fd (w_loop w))) TFD_TIMER_ABSTIME v y1) in
      let w2 := with_sys y2 (with_sys y1 w) in
      Inv n w2 /\ armed w2 /\ w_loop w2 = w_loop w /\ w_obj w2 = w_obj w).
    { intros v Hv1 Hv2 y2 w2. split_and!; try done.
      - assert (Hi1 : app_inv (w_obj w) y1) by (by eapply inv_now, Inv_app).
        apply Inv_sys; [apply Inv_sys; [done|by rewrite Hr1|done]| |by apply inv_settime]. cbn.
        unfold y2. by destruct (settime_frame (fd (m_timer_fd (w_loop w))) TFD_TIMER_ABSTIME v y1) as [_ ->].
      - unfold armed. cbn. rewrite Et. exists (ns_of v). split; [|done]. by apply settime_abs. }
    destruct (Z.leb_spec (expiration t) now).
    + apply Hfin; change (ns_of (TimeSpec 0 1)) with 1; lia.
    + wp_steps. apply wp_s64; [unfold is_s64, clock_limit in *; lia|]. wp_steps.
      apply Hfin; rewrite ns_of_parts; lia.
Qed.

Lemma resetTimerFd_arms : arms resetTimerFd.
Proof.
  intros n w Hw. eapply wp_conseq; [by apply (resetTimerFd_spec n)| |done]. naive_solver.
Qed.

(** ** Timers *)

(** The loop after the two insertions of [insertTimer]. *)
Definition inserted (t : Timer T) (l : EventLoop T) : EventLoop T :=
  set_timers (set_insert t (m_timers l)) (<[timer_id t := key_of t]> (m_activeTimers l)) l.

Lemma inserted_ok t l : timer_ok t -> loop_ok l -> loop_ok (inserted t l).
Proof.
  intros Ht [Hs Ha Hall Hb]. split; cbn; [by apply set_insert_sorted| |by apply set_insert_Forall|done].
  intros id k. rewrite lookup_insert. case_decide as E; intros Hk.
  - simplify_eq. split; [done|]. apply set_insert_key.
  - destruct (Ha id k Hk) as (? & u & ? & ?). split; [done|].
    exists u. split; [by apply set_insert_elem_old|done].
Qed.

Lemma Inv_loop n w (f : EventLoop T -> EventLoop T) :
  loop_ok (f (w_loop w)) ->
  m_slowSources (f (w_loop w)) = m_slowSources (w_loop w) ->
  m_events (f (w_loop w)) = m_events (w_loop w) ->
  Inv n w -> Inv n (with_loop f w).
Proof.
  intros Hok Hslow Hev (Hl & Hs & Hb & Hi).
  assert (Hp : forall p, valid_ptr (w_loop w) p -> valid_ptr (f (w_loop w)) p).
  { intros [fd|fd node]; cbn; [done|]. by rewrite Hslow. }
  split_and!; [done| | |done].
  - intros fd p Hr. eapply Hp, Hs, Hr.
  - intros i p Hlt E. cbn in E. rewrite Hev in E. eapply Hp, Hb; done.
Qed.

Lemma insertTimer_safe t : timer_ok t -> safe (insertTimer t).
Proof.
  intros Ht.
  assert (HI : forall n w, Inv n w -> Inv n (with_loop (inserted t) w)).
  { intros n w Hw. apply Inv_loop; [|done|done|done]. apply inserted_ok; [done|apply Hw]. }
  assert (Hrun : forall w, insertTimer t w =
    (if match m_timers (w_loop w) with [] => true | b :: _ => expiration t <? expiration b end
     then resetTimerFd else mret tt) (with_loop (inserted t) w)) by done.
  split.
  - intros n w Hw. unfold wp. rewrite Hrun. apply HI in Hw.
    destruct (match m_timers (w_loop w) with [] => true | b :: _ => _ end);
      [by apply (safe_inv _ (arms_safe _ resetTimerFd_arms) n)|done].
  - intros n w Hw Ha. unfold wp. rewrite Hrun. apply HI in Hw.
    destruct (m_timers (w_loop w)) as [|b ts] eqn:Et; [by apply resetTimerFd_arms|].
    destruct (Z.ltb_spec (expiration t) (expiration b)); [by apply resetTimerFd_arms|].
    cbn. split; [done|]. unfold armed in *. rewrite Et in Ha. cbn. rewrite Et.
    destruct (set_insert_head_old t b ts) as (v & l' & -> & ->); [lia|done].
Qed.

Lemma safe_time_after_bind {B} now delay (k : Z -> M W B) :
  0 <= now < clock_limit -> 0 <= delay <= max_delay ->
  (forall e, 0 <= e < 2 ^ 63 -> safe (k e)) -> safe (time_after now delay ≫= k).
Proof.
  intros Hn Hd Hk.
  assert (E : forall w, (time_after now delay ≫= k) w = k (now + delay * 1000000) w).
  { intros w. unfold time_after, clock_limit, max_delay in *.
    rewrite bind_assoc. do 2 (erewrite bind_Ret; [|apply s64_in; unfold is_s64; lia]). done. }
  unfold clock_limit, max_delay in *.
  destruct (Hk (now + delay * 1000000) ltac:(lia)) as [Hi Ha].
  split.
  - intros n w Hw. unfold wp. rewrite E. by apply Hi.
  - intros n w Hw Hd'. unfold wp. rewrite E. by apply Ha.
Qed.

(** The value the clock returns is in the clock's range. *)
Lemma safe_clock_bind {B} (k : Z -> M W B) :
  (forall now, 0 <= now < clock_limit -> safe (k now)) -> safe (clock_now ≫= k).
Proof.
  intros Hk. destruct safe_clock_now as [Hi Ha].
  split; [intros n w Hw|intros n w Hw Hd]; apply wp_bind;
    pose proof (steady_now_range (w_sys w)) as Hr.
  - specialize (Hi n w Hw). by apply Hk.
  - specialize (Ha n w Hw Hd). destruct Ha as [? ?]. by apply Hk.
Qed.

Lemma safe_fresh_id : safe (fresh_timer_id : M W Z).
Proof.
  apply safe_bind; [apply safe_gets|]. intros id.
  apply safe_bind; [apply safe_loop_set; by intros l|]. intros []. apply safe_mret.
Qed.

Lemma runAfter_safe delay cb : delay <= max_delay -> safe (runAfter delay cb).
Proof.
  intros Hd. unfold runAfter. destruct (Z.ltb_spec delay 0); [apply safe_mret|].
  apply safe_bind; [apply safe_fresh_id|]. intros id.
  apply safe_clock_bind. intros now Hn. apply safe_time_after_bind; [done|done|]. intros e He.
  apply safe_bind; [|intros []; apply safe_mret].
  apply insertTimer_safe. split; cbn; unfold max_delay; lia.
Qed.

Lemma runEvery_safe interval cb : interval <= max_delay -> safe (runEvery interval cb).
Proof.
  intros Hd. unfold runEvery. destruct (Z.leb_spec interval 0); [apply safe_mret|].
  apply safe_bind; [apply safe_fresh_id|]. intros id.
  apply safe_clock_bind. intros now Hn. apply safe_time_after_bind; [done|lia|]. intros e He.
  apply safe_bind; [|intros []; apply safe_mret].
  apply insertTimer_safe. split; cbn; lia.
Qed.

(** An active identifier points into the set: erasing cannot fail. *)
Lemma cancel_erase (l : EventLoop T) id k :
  loop_ok l -> m_activeTimers l !! id = Some k ->
  exists t timers, set_erase k (m_timers l) = Some timers /\ t ∈ m_timers l /\
    timer_id t = id /\ key_of t = k /\ (forall t', t' ∈ timers <-> t' ∈ m_timers l /\ t' <> t).
Proof.
  intros [Hs Ha _ _] Hk. destruct (Ha id k Hk) as (Hid & t & Ht & <-).
  destruct (set_erase_spec t _ Hs Ht) as (timers & -> & Hin). exists t, timers. done.
Qed.

Lemma cancel_ok (l : EventLoop T) id k timers :
  loop_ok l -> m_activeTimers l !! id = Some k -> set_erase k (m_timers l) = Some timers ->
  loop_ok (set_timers timers (delete id (m_activeTimers l)) l).
Proof.
  intros Hl Hk He. destruct (cancel_erase l id k Hl Hk) as (t & ts & E & Ht & Hid & Hkey & Hin).
  simplify_eq. destruct Hl as [Hs Ha Hall Hb]. split; cbn; [by eapply set_erase_sorted| | |done].
  - intros id' k'. rewrite lookup_delete. case_decide as Hne; [done|]. intros Hk'.
    destruct (Ha id' k' Hk') as (Hid' & t' & Ht' & <-). split; [done|].
    exists t'. split; [|done]. apply Hin. split; [done|]. intros ->. by apply Hne.
  - rewrite Forall_forall in *. intros t' Ht'. by apply Hall, Hin.
Qed.

Lemma cancelTimer_safe id : safe (cancelTimer id).
Proof.
  assert (HI : forall n w k timers, Inv n w -> m_activeTimers (w_loop w) !! id = Some k ->
    set_erase k (m_timers (w_loop w)) = Some timers ->
    Inv n (with_loop (fun l => set_timers timers (delete id (m_activeTimers l)) l) w)).
  { intros n w k timers Hw Hk He. apply Inv_loop; [|done|done|done].
    eapply cancel_ok; [apply Hw|done|done]. }
  split; intros n w Hw; [|intros Ha]; unfold cancelTimer, loop_get; wp_steps;
    change (Datatypes.id (w_loop w)) with (w_loop w);
    (destruct (m_activeTimers (w_loop w) !! id) as [k|] eqn:Hk; [|done]);
    destruct (cancel_erase _ id k (proj1 Hw) Hk) as (t & timers & E & _); rewrite E;
    unfold loop_set; wp_steps;
    (eapply wp_conseq; [by apply resetTimerFd_arms, (HI n w k timers)| |done]);
    intros [] w'; [naive_solver|done].
Qed.

Lemma runInLoop_safe cb : safe (runInLoop cb : M W unit).
Proof. apply safe_loop_set. by intros l. Qed.

(** ** Sources *)

(** Storing a source keeps every pointer valid and yields a valid one. *)
Lemma store_source_view fd h w :
  exists p w', store_source fd h w = Ret p w' /\ same_view w w' /\ valid_ptr (w_loop w') p /\
    w_sys w' = w_sys w.
Proof.
  unfold store_source, loop_get, loop_set, gets, modify.
  destruct (fd <? MAX_FAST_FDS).
  - eexists _, _. split; [reflexivity|]. unfold same_view; split_and!; cbn; auto.
  - rewrite bind_run. change (id (w_loop w)) with (w_loop w).
    assert (Hgen : forall node n,
      (forall node' h', m_slowSources (w_loop w) !! fd = Some (node', h') -> node' = node) ->
      forall p, valid_ptr (w_loop w) p ->
        valid_ptr (set_slow (<[fd := (node, h)]> (m_slowSources (w_loop w))) n (w_loop w)) p).
    { intros node n Hn [fd'|fd' node'] Hp; [done|]. destruct Hp as [h' Hp]. cbn.
      rewrite lookup_insert. case_decide; [|by exists h']. subst. exists h. by rewrite (Hn _ _ Hp). }
    destruct (m_slowSources (w_loop w) !! fd) as [[node h0]|] eqn:Es;
      (eexists _, _; split; [reflexivity|]); unfold same_view; split_and!; cbn; auto;
      try (apply Hgen; naive_solver); eexists; apply lookup_insert_eq.
Qed.

Lemma addSource_safe fd mask h : safe (addSource fd mask h : M W ResultVoid).
Proof.
  apply safe_view. intros w. unfold addSource.
  destruct (fd <? 0); [exists (ResultVoid.fail (ErrorCode EBADF generic_category)), w;
    split; [done|apply same_view_refl]|].
  destruct (store_source_view fd h w) as (p & w1 & E & (Ht & Ha & He & Hv & Hr & Hd & Hi) & Hp & Hy).
  rewrite (bind_Ret _ _ _ _ _ E). unfold loop_get, sys, gets. rewrite !bind_run. cbn beta iota.
  set (epfd := ScopedFd.fd _). cbn [w_sys with_sys].
  rewrite Hy.
  pose proof (epoll_add_ok epfd fd mask p (w_sys w)) as Hok.
  pose proof (epoll_add_fail epfd fd mask p (w_sys w)) as Hfail.
  pose proof (epoll_add_deadline epfd fd mask p (w_sys w)) as Hdl.
  destruct (Z.eqb_spec (fst (epoll_ctl_add epfd fd mask p (w_sys w))) (-1)) as [Eq|Eq];
    (eexists _, _; split; [reflexivity|]); split_and!; try done; cbn; try done;
    try (intros Happ; rewrite <- Hy; by apply inv_add, Hi).
  - intros fd' q Hq. destruct (Hfail Eq) as [Hreg _]. rewrite Hreg in Hq. by left.
  - intros fd' q Hq. rewrite (Hok Eq), lookup_insert in Hq. case_decide; simplify_eq; auto.
Qed.

(** Removing a source of the array is safe at any time.  (A node of the map is
    freed, and an event of the current batch may still point to it.) *)
Lemma removeSource_safe fd : 0 <= fd < MAX_FAST_FDS -> safe (removeSource fd : M W ResultVoid).
Proof.
  intros Hfd. unfold removeSource.
  destruct (Z.ltb_spec fd MAX_FAST_FDS), (Z.ltb_spec fd 0); try lia.
  apply safe_bind; [by apply safe_loop_set; intros l|]. intros [].
  apply safe_bind; [apply safe_gets|]. intros epfd.
  apply safe_bind; [apply safe_sys; [intros y; apply epoll_del_deadline|intros y; rewrite epoll_del_ok; apply delete_subseteq|intros o y; apply inv_del]|].
  intros rc. destruct (rc =? -1); [|apply safe_mret].
  apply safe_bind; [apply safe_get_errno|]. intros e. apply safe_mret.
Qed.

(** ** Construction *)

Lemma close_run f w : exists y, close_fd f w = Ret tt (with_sys y w).
Proof. by eexists. Qed.

Lemma destroy_run f w : exists y, ScopedFd.destroy close_fd f w = Ret tt (with_sys y w).
Proof.
  unfold ScopedFd.destroy. destruct (0 <=? fd f); [apply close_run|].
  exists (w_sys w). by destruct w.
Qed.

Lemma destroy_two_run f g w :
  exists y, (ScopedFd.destroy close_fd f ;; ScopedFd.destroy close_fd g) w = Ret tt (with_sys y w).
Proof.
  destruct (destroy_run f w) as (y & E). rewrite (bind_Ret _ _ _ _ _ E).
  destruct (destroy_run g (with_sys y w)) as (y' & E'). by exists y'.
Qed.

(** The state in which the constructor body runs. *)
Lemma fresh_loop_Inv ep tf (o : O) y :
  registered y = ∅ -> app_inv o y ->
  Inv 0 (World (MkEventLoop (MkScopedFd ep) (MkScopedFd tf)
    (replicate (Z.to_nat MAX_EVENTS) None) ∅ ∅ 0 [] [] ∅ 1) o y : W).
Proof.
  intros Hr Happ. split_and!; [| | |done].
  - split; cbn; [constructor|done|done|apply length_replicate].
  - intros fd p. cbn. rewrite Hr. done.
  - intros i p Hi. lia.
Qed.
End Facts.

#[export] Hint Resolve runAfter_safe runEvery_safe cancelTimer_safe runInLoop_safe addSource_safe
  removeSource_safe safe_mret safe_throw safe_gets safe_get_errno safe_clock_now
  safe_for_each : reactor.

(** What the loop asks of the code it calls back: that it is safe.  The
    operations of the loop are (under the bounds of the lemmas above), and
    [safe_bind], [safe_for_each] close the class under composition; so a
    callback that works through the interface of the loop is a client. *)
Class ReactorClient {T O Y : Type} {RK : ReactorKernel Y} {RL : ReactorLaws Y} {AI : AppInvariant O Y}
  (run_task : T -> M (world T O Y) unit)
  (handleRead : Z -> Z -> Z -> Z -> M (world T O Y) unit) : Prop := {
  client_task t : safe (run_task t);
  client_read receiver fd ctx h : safe (handleRead receiver fd ctx h)
}.

Section Dispatch.
Context {T O Y : Type} {RK : ReactorKernel Y} {RL : ReactorLaws Y} {AI : AppInvariant O Y}.
Notation W := (world T O Y).
Context (run_task : T -> M W unit) (handleRead : Z -> Z -> Z -> Z -> M W unit).
Context {RC : ReactorClient run_task handleRead}.
Implicit Types w : W.

Lemma fire_safe t : timer_ok t -> expiration t < clock_limit -> safe (fire run_task t).
Proof.
  intros [He Hi] Hlim. unfold fire.
  apply safe_bind; [destruct (callback t); [apply RC|apply safe_mret]|]. intros [].
  destruct (repeat t); [|apply safe_mret].
  unfold clock_limit, max_delay in *.
  assert (Hins : safe (insertTimer (O := O)
            (MkTimer (expiration t + interval t * 1000000) (interval t) (callback t) (timer_id t) true))).
  { apply insertTimer_safe. split; cbn; unfold max_delay; lia. }
  destruct Hins as [Hi1 Ha1].
  assert (E : forall w, (ns ← s64 (interval t * 1000000); e ← s64 (expiration t + ns);
    insertTimer (MkTimer e (interval t) (callback t) (timer_id t) true)) w =
    insertTimer (MkTimer (expiration t + interval t * 1000000) (interval t) (callback t)
      (timer_id t) true) w).
  { intros w. do 2 (erewrite bind_Ret; [|apply s64_in; unfold is_s64; lia]). done. }
  split; intros n w Hw; unfold wp; rewrite E; [by apply Hi1|by apply Ha1].
Qed.

(** Taking the expired timers out keeps the invariant of the loop. *)
Lemma extract_ok now (l : EventLoop T) expired timers active :
  loop_ok l -> extract_expired now (m_timers l) (m_activeTimers l) = (expired, timers, active) ->
  loop_ok (set_timers timers active l) /\
  Forall (fun t => timer_ok t /\ expiration t <= now) expired.
Proof.
  intros [Hs Ha Hall Hb] E.
  pose proof (extract_expired_timers now (m_timers l) (m_activeTimers l) Hs) as Et.
  rewrite E in Et. cbn in Et. simplify_eq. rewrite Forall_forall in Hall.
  split; [split; cbn|].
  - by apply filter_sorted.
  - intros id k Hk.
    pose proof (extract_expired_active now (m_timers l) (m_activeTimers l) id) as Ea.
    rewrite E in Ea. cbn beta iota in Ea. rewrite Hk in Ea. case_decide as Hin; [done|].
    destruct (Ha id k (eq_sym Ea)) as (Hid & t & Ht & <-). split; [done|].
    exists t. split; [|done]. apply list_elem_of_filter. split; [|done].
    intros Hle. apply Hin. rewrite <- Hid. apply list_elem_of_fmap. exists t.
    split; [done|]. apply list_elem_of_filter. by split.
  - rewrite Forall_forall. intros t [_ Ht]%list_elem_of_filter. by apply Hall.
  - done.
  - rewrite Forall_forall. intros t [? ?]%list_elem_of_filter. split; [by apply Hall|done].
Qed.

(** The part of [handleTimerRead] after a successful read. *)
Lemma expire_arms now : now < clock_limit ->
  arms (l ← loop_get id;
        let '(expired, timers, active) := extract_expired now (m_timers l) (m_activeTimers l) in
        loop_set (set_timers timers active) ;; for_each expired (fire run_task) ;;
        resetTimerFd : M W unit).
Proof.
  intros Hnow n w Hw. unfold loop_get. wp_steps. change (id (w_loop w)) with (w_loop w).
  destruct (extract_expired _ _ _) as [[expired timers] active] eqn:E.
  destruct (extract_ok now (w_loop w) _ _ _ (proj1 Hw) E) as [Hok Hexp].
  unfold loop_set. wp_steps.
  assert (Hw1 : Inv n (with_loop (set_timers timers active) w)) by (by apply Inv_loop).
  assert (Hrun : forall l, Forall (fun t => timer_ok t /\ expiration t <= now) l ->
                 safe (for_each l (fire run_task) : M W unit)).
  { induction 1 as [|t l [Ht Hle] _ IH]; [apply safe_mret|]. cbn.
    apply safe_bind; [|done]. apply fire_safe; [done|lia]. }
  eapply wp_conseq; [by apply (safe_inv _ (Hrun _ Hexp) n)| |done].
  intros [] w2 Hw2. by apply resetTimerFd_arms.
Qed.

Lemma handleTimerRead_safe : safe (handleTimerRead run_task : M W unit).
Proof.
  assert (Hgo : forall n w, Inv n w ->
    wp (now ← clock_now; l ← loop_get id;
        let '(expired, timers, active) := extract_expired now (m_timers l) (m_activeTimers l) in
        loop_set (set_timers timers active) ;; for_each expired (fire run_task) ;; resetTimerFd)
      (fun _ w' => Inv n w' /\ armed w') (fun _ => Inv n) w).
  { intros n w Hw. apply wp_bind. pose proof (steady_now_range (w_sys w)).
    pose proof (safe_inv _ safe_clock_now n w Hw) as Hc. unfold clock_now, wp, sys in *.
    apply expire_arms; [lia|done]. }
  split; intros n w Hw; [|intros Ha]; unfold handleTimerRead, loop_get; wp_steps;
    set (tfd := fd _);
    (assert (Hw1 : Inv n (with_sys (snd (timerfd_read tfd (w_sys w))) w))
      by (apply Inv_sys; [done|by destruct (read_frame tfd (w_sys w)) as [_ ->]|by eapply inv_read, Inv_app]));
    unfold wp at 1, sys; fold tfd;
    destruct (Z.eqb_spec (fst (timerfd_read tfd (w_sys w))) 8) as [E|E]; cbn [negb].
  - eapply wp_conseq; [by apply Hgo|naive_solver|done].
  - done.
  - by apply Hgo.
  - apply wp_mret. split; [done|]. unfold armed in *. cbn. by rewrite read_fails.
Qed.

Lemma visit_handler_safe h : safe (visit_handler run_task handleRead h).
Proof. destruct h; cbn; [apply safe_mret|apply handleTimerRead_safe|apply RC]. Qed.

(** Dispatching an event of the current batch. *)
Lemma dispatch_event_wp n i w :
  0 <= i < Z.of_nat n -> i < MAX_EVENTS -> Inv n w ->
  wp (dispatch_event run_task handleRead i) (fun _ => Inv n) (fun _ => Inv n) w /\
  (armed w -> wp (dispatch_event run_task handleRead i)
     (fun _ w' => Inv n w' /\ armed w') (fun _ => Inv n) w).
Proof.
  intros Hi Hn Hw. pose proof Hw as ([_ _ _ Hbuf] & _ & Hb & _).
  assert (Hlt : (Z.to_nat i < n)%nat) by lia.
  destruct (lookup_lt_is_Some_2 (m_events (w_loop w)) (Z.to_nat i)) as [e He]; [lia|].
  unfold dispatch_event, loop_get. split; [|intros Ha]; wp_steps; rewrite He;
    (destruct e as [p|]; [|done]);
    specialize (Hb (Z.to_nat i) p Hlt He); wp_steps; unfold deref_source, loop_get; wp_steps;
    change (id (w_loop w)) with (w_loop w);
    (destruct p as [fd|fd node];
     [wp_steps; by apply visit_handler_safe
     |destruct Hb as [h Hh]; cbn in Hh; rewrite Hh, Z.eqb_refl; wp_steps; by apply visit_handler_safe]).
Qed.

Lemma run_pending_safe : safe (run_pending run_task).
Proof.
  unfold run_pending. apply safe_bind; [apply safe_gets|]. intros tasks.
  assert (Hall : forall l : list (option T), safe (for_each l (call_task run_task))).
  { intros l. apply safe_for_each. intros [cb|]; cbn; [apply RC|apply safe_throw]. }
  destruct tasks; [apply safe_mret|].
  apply safe_bind; [by apply safe_loop_set; intros l|]. intros []. apply Hall.
Qed.

(** The buffer after [epoll_wait] wrote [evs] into it. *)
Lemma batch_written n evs w :
  Inv n w -> Z.of_nat (length evs) <= MAX_EVENTS ->
  (forall p, p ∈ evs -> valid_ptr (w_loop w) p) ->
  Inv (n `max` length evs)
    (with_loop (fun l => set_events ((Some <$> evs) ++ drop (length evs) (m_events l)) l) w).
Proof.
  intros (Hl & Hs & Hb & Happ) Hlen Hev. split_and!; [|done| |done].
  - destruct Hl as [? ? ? Hbuf]. split; cbn; try done.
    rewrite length_app, length_fmap, length_drop. lia.
  - intros i p Hi E. cbn in E. apply lookup_app_Some in E as [E|[Hge E]].
    + rewrite list_lookup_fmap in E. destruct (evs !! i) as [q|] eqn:Eq; simplify_eq/=.
      apply Hev. by eapply list_elem_of_lookup_2.
    + rewrite length_fmap in *. rewrite lookup_drop in E.
      replace (length evs + (i - length evs))%nat with i in E by lia.
      apply (Hb i p); [lia|done].
Qed.

Lemma Inv_weaken n m w : (n <= m)%nat -> Inv m w -> Inv n w.
Proof. intros Hn (? & ? & Hb & ?). split_and!; [done..| |done]. intros i p Hi. apply Hb. lia. Qed.

(** The events of a batch: the invariant of the loop is that of the longer
    of the two batches, the outer one and this one. *)
Lemma dispatch_batch_safe n evs w :
  Inv n w -> Z.of_nat (length evs) <= MAX_EVENTS ->
  (forall p, p ∈ evs -> valid_ptr (w_loop w) p) ->
  safe_at n w (dispatch_batch run_task handleRead evs).
Proof.
  intros Hw Hlen Hev. pose proof (batch_written n evs w Hw Hlen Hev) as Hw1.
  set (m := (n `max` length evs)%nat) in *. unfold dispatch_batch, loop_set.
  split; [|intros Ha]; wp_steps.
  - eapply wp_conseq; [apply (wp_for_each _ _ (Inv m) (fun _ => Inv m))| |]; [|done| |];
      [|intros ? ?; apply Inv_weaken; lia..].
    intros i w' Hi%elem_of_seqZ Hw'. apply dispatch_event_wp; [lia|lia|done].
  - eapply wp_conseq;
      [apply (wp_for_each _ _ (fun w' => Inv m w' /\ armed w') (fun _ => Inv m))| |];
      [|done|intros _ ? [? ?]; split; [apply (Inv_weaken n m); [lia|done]|done]
      |intros ? ?; apply Inv_weaken; lia].
    intros i w' Hi%elem_of_seqZ [Hw' Ha']. apply dispatch_event_wp; [lia|lia|done|done].
Qed.

Lemma safe_at_epoll {A} n w e timeout (k : option (list source_ptr) -> M W A) :
  Inv n w -> safe (k None) ->
  (forall evs w', Inv n w' -> Z.of_nat (length evs) <= MAX_EVENTS ->
     (forall p, p ∈ evs -> valid_ptr (w_loop w') p) -> safe_at n w' (k (Some evs))) ->
  safe_at n w (sys (epoll_wait e MAX_EVENTS timeout) ≫= k).
Proof.
  intros Hw Hnone Hsome.
  destruct (epoll_wait_frame e MAX_EVENTS timeout (w_sys w)) as [Hd Hr].
  pose proof (epoll_wait_ok e MAX_EVENTS timeout (w_sys w)) as Hok.
  set (y := epoll_wait e MAX_EVENTS timeout (w_sys w)) in *.
  assert (Hw1 : Inv n (with_sys (snd y) w)) by (apply Inv_sys; [done|by rewrite Hr|by eapply inv_wait, Inv_app]).
  assert (Hk : safe_at n (with_sys (snd y) w) (k (fst y))).
  { destruct (fst y) as [evs|]; [|by apply safe_at_spec].
    destruct (Hok evs eq_refl) as [Hlen Hin]. apply Hsome; [done..|].
    intros p Hp. destruct (Hin p Hp) as [fd Hfd]. cbn.
    destruct Hw as (_ & Hs & _). by apply (Hs fd). }
  split; [apply Hk|]. intros Ha. apply Hk. unfold armed in *. cbn. by rewrite Hd.
Qed.

(** [runOnce], as the clients of the loop use it. *)
Lemma runOnce_run_safe timeoutMs : safe (runOnce run_task handleRead timeoutMs).
Proof.
  unfold runOnce. apply safe_bind; [apply safe_gets|]. intros pending.
  apply safe_bind; [apply safe_gets|]. intros epfd.
  apply safe_at_spec. intros n w Hw. apply safe_at_epoll; [done| |].
  - apply safe_bind; [apply safe_get_errno|]. intros e. destruct (e =? EINTR); apply safe_mret.
  - intros evs w' Hw' Hlen Hev. apply safe_at_bind; [by apply dispatch_batch_safe|]. intros [].
    apply safe_bind; [apply run_pending_safe|]. intros []. apply safe_mret.
Qed.

(** C1 The reactor is safe: from a well-formed state, in the middle of any
    other dispatch, [runOnce] runs to an end without a fault (no dangling
    iterator or source, no index out of bounds, no signed overflow), whatever
    events the kernel reports and whatever the callbacks do within the
    interface, and the state it leaves is well-formed, when it returns and
    when a callback throws; and the timer descriptor, if it was armed in
    time for the earliest timer, is when [runOnce] returns.  Well-formed means
    the loop's invariant and any invariant of the application that the
    callbacks keep and the calls of the loop do not disturb. *)
Theorem runOnce_safe timeoutMs : safe (runOnce run_task handleRead timeoutMs).
Proof. exact (runOnce_run_safe timeoutMs). Qed.
End Dispatch.
