(* ===== verification/TimerFacts.v ===== *)
(** The functional behaviour of the timers: what scheduling, cancelling and
    expiring do to the queue, and what the timer descriptor is armed with. *)
From S2P Require Import Prelude Outcome Result Kernel ScopedFd TimerQueue EventLoop EventLoopFacts.

Section TimerFacts.
Context {T O Y : Type} {RK : ReactorKernel Y} {RL : ReactorLaws Y}.
Notation W := (world T O Y).
Implicit Types w : W.

(** The instant the clock shows to the next reader. *)
Definition now_of w : Z := fst (steady_now (w_sys w)).

(** [resetTimerFd] succeeds and touches only the kernel. *)
Lemma resetTimerFd_run w :
  loop_ok (w_loop w) ->
  exists y, resetTimerFd w = Ret tt (World (w_loop w) (w_obj w) y) /\
    registered y = registered (w_sys w) /\
    (m_timers (w_loop w) <> [] -> now_of w <= clock y) /\
    deadline y = match m_timers (w_loop w) with
                 | [] => None
                 | t :: _ => Some (if expiration t <=? now_of w then 1 else expiration t - now_of w)
                 end.
Proof.
  intros Hw. unfold resetTimerFd, now_of. run_steps.
  destruct (m_timers (w_loop w)) as [|t ts] eqn:Et.
  - eexists. split; [reflexivity|]. split_and!; [apply settime_frame|done|apply settime_disarm].
  - assert (Hexp : 0 <= expiration t < 2 ^ 63).
    { destruct Hw as [_ _ Hall _]. rewrite Et in Hall. by inversion Hall as [|? ? [? ?]]. }
    pose proof (steady_now_range (w_sys w)). pose proof (steady_now_frame (w_sys w)) as [_ Hr].
    destruct (steady_now_clock (w_sys w)) as [_ Hc].
    assert (Hfin : forall v, ns_of v <> 0 ->
      let y := snd (timerfd_settime (fd (m_timer_fd (w_loop w))) TFD_TIMER_ABSTIME v
                      (snd (steady_now (w_sys w)))) in
      registered y = registered (w_sys w) /\ (t :: ts <> [] -> now_of w <= clock y) /\
      deadline y = Some (ns_of v)).
    { intros v Hv y. destruct (settime_frame (fd (m_timer_fd (w_loop w))) TFD_TIMER_ABSTIME v
        (snd (steady_now (w_sys w)))) as [Hcy Hry].
      unfold y. split_and!; [by rewrite Hry|intros _; unfold now_of; by rewrite <- Hc|by apply settime_abs]. }
    unfold now_of in Hfin. run_steps.
    destruct (Z.leb_spec (expiration t) (fst (steady_now (w_sys w)))).
    + eexists. split; [reflexivity|]. by apply (Hfin (TimeSpec 0 1)).
    + run_steps. unfold clock_limit in *.
      erewrite bind_Ret; [|apply s64_in; unfold is_s64; lia].
      eexists. split; [reflexivity|].
      set (d := expiration t - fst (steady_now (w_sys w))) in *.
      destruct (Hfin (TimeSpec (Z.quot d 1000000000) (Z.rem d 1000000000))) as (H1 & H2 & H3);
        [rewrite ns_of_parts; lia|]. by rewrite ns_of_parts in H3.
Qed.

Lemma insertTimer_run t w :
  loop_ok (w_loop w) -> timer_ok t ->
  exists y, insertTimer t w = Ret tt (World (inserted t (w_loop w)) (w_obj w) y) /\
    registered y = registered (w_sys w).
Proof.
  intros Hw Ht.
  assert (Hrun : insertTimer t w =
    (if match m_timers (w_loop w) with [] => true | b :: _ => expiration t <? expiration b end
     then resetTimerFd else mret tt) (with_loop (inserted t) w)) by done.
  rewrite Hrun. destruct (match m_timers (w_loop w) with [] => true | b :: _ => _ end).
  - destruct (resetTimerFd_run (with_loop (inserted t) w)) as (y & E & Hr & _);
      [by apply inserted_ok|]. by exists y.
  - by exists (w_sys w).
Qed.

(** What [runAfter] and [runEvery] do, the delay being in range. *)
Lemma schedule_run delay rep iv cb w :
  loop_ok (w_loop w) -> 0 <= delay <= max_delay -> 0 <= iv <= max_delay ->
  let id := m_nextTimerId (w_loop w) in
  let t := MkTimer (now_of w + delay * 1000000) iv cb id rep in
  exists y, (id ← fresh_timer_id; now ← clock_now; when ← time_after now delay;
             insertTimer (MkTimer when iv cb id rep) ;; mret (Value id)) w =
    Ret (Value id) (World (inserted t (set_next (u64 (id + 1)) (w_loop w))) (w_obj w) y) /\
    registered y = registered (w_sys w).
Proof.
  intros Hw Hd Hi id t. pose proof (steady_now_range (w_sys w)) as Hn.
  pose proof (steady_now_frame (w_sys w)) as [_ Hr].
  run_steps. unfold time_after, clock_limit, max_delay in *. run_steps.
  do 2 (erewrite bind_Ret; [|apply s64_in; unfold is_s64; cbn; lia]).
  match goal with |- context [(insertTimer ?t' ≫= _) ?w1] =>
    destruct (insertTimer_run t' w1) as (y & E & Hreg) end.
  - destruct Hw. by split.
  - split; cbn; unfold max_delay; lia.
  - exists y. split; [by rewrite (bind_Ret _ _ _ _ _ E)|]. rewrite Hreg. exact Hr.
Qed.

(** A one-shot timer, as the clients of the loop use it. *)
Lemma runAfter_run delay cb w :
  loop_ok (w_loop w) -> delay <= max_delay ->
  if delay <? 0 then runAfter delay cb w = Ret (Error (ErrorCode EINVAL system_category)) w
  else
    let id := m_nextTimerId (w_loop w) in
    let t := MkTimer (now_of w + delay * 1000000) 0 cb id false in
    exists w', runAfter delay cb w = Ret (Value id) w' /\
      m_timers (w_loop w') = set_insert t (m_timers (w_loop w)) /\
      m_activeTimers (w_loop w') = <[id := key_of t]> (m_activeTimers (w_loop w)) /\
      m_nextTimerId (w_loop w') = u64 (id + 1) /\
      loop_ok (w_loop w') /\ w_obj w' = w_obj w.
Proof.
  intros Hw Hd. unfold runAfter. destruct (Z.ltb_spec delay 0); [done|].
  destruct (schedule_run delay false 0 cb w Hw) as (y & E & _); [lia|unfold max_delay; lia|].
  eexists. split; [exact E|]. split_and!; try done.
  pose proof (steady_now_range (w_sys w)). unfold clock_limit, max_delay in *.
  cbn. apply inserted_ok; [split; cbn; unfold now_of, max_delay; lia|]. destruct Hw. by split.
Qed.

(** [runAfter]: a negative delay is refused with EINVAL and changes
    nothing; any other delay up to 146 years succeeds with a new identifier
    and adds exactly one one-shot timer, due [delay] milliseconds after the
    instant the clock shows, cancellable under that identifier. *)
Theorem runAfter_spec delay cb w :
  loop_ok (w_loop w) -> delay <= max_delay ->
  if delay <? 0 then runAfter delay cb w = Ret (Error (ErrorCode EINVAL system_category)) w
  else
    let id := m_nextTimerId (w_loop w) in
    let t := MkTimer (now_of w + delay * 1000000) 0 cb id false in
    exists w', runAfter delay cb w = Ret (Value id) w' /\
      m_timers (w_loop w') = set_insert t (m_timers (w_loop w)) /\
      m_activeTimers (w_loop w') = <[id := key_of t]> (m_activeTimers (w_loop w)) /\
      m_nextTimerId (w_loop w') = u64 (id + 1) /\
      loop_ok (w_loop w') /\ w_obj w' = w_obj w.
Proof. exact (runAfter_run delay cb w). Qed.

(** [runEvery]: an interval that is not positive is refused with EINVAL;
    any other succeeds with a new identifier and adds exactly one repeating
    timer, first due one interval from now. *)
Theorem runEvery_spec interval cb w :
  loop_ok (w_loop w) -> interval <= max_delay ->
  if interval <=? 0 then runEvery interval cb w = Ret (Error (ErrorCode EINVAL system_category)) w
  else
    let id := m_nextTimerId (w_loop w) in
    let t := MkTimer (now_of w + interval * 1000000) interval cb id true in
    exists w', runEvery interval cb w = Ret (Value id) w' /\
      m_timers (w_loop w') = set_insert t (m_timers (w_loop w)) /\
      m_activeTimers (w_loop w') = <[id := key_of t]> (m_activeTimers (w_loop w)) /\
      m_nextTimerId (w_loop w') = u64 (id + 1) /\
      loop_ok (w_loop w') /\ w_obj w' = w_obj w.
Proof.
  intros Hw Hd. unfold runEvery. destruct (Z.leb_spec interval 0); [done|].
  destruct (schedule_run interval true interval cb w Hw) as (y & E & _); [lia|lia|].
  eexists. split; [exact E|]. split_and!; try done.
  pose proof (steady_now_range (w_sys w)). unfold clock_limit, max_delay in *.
  cbn. apply inserted_ok; [split; cbn; unfold now_of, max_delay; lia|]. destruct Hw. by split.
Qed.

(** [cancelTimer], as the other lemmas use it. *)
Lemma cancelTimer_run id w :
  loop_ok (w_loop w) ->
  match m_activeTimers (w_loop w) !! id with
  | None => cancelTimer id w = Ret (ResultVoid.fail (ErrorCode ENOENT system_category)) w
  | Some k => exists t w', cancelTimer id w = Ret ResultVoid.success w' /\
      t ∈ m_timers (w_loop w) /\ timer_id t = id /\ key_of t = k /\
      (forall t', t' ∈ m_timers (w_loop w') <-> t' ∈ m_timers (w_loop w) /\ t' <> t) /\
      m_activeTimers (w_loop w') = delete id (m_activeTimers (w_loop w)) /\
      loop_ok (w_loop w') /\ armed w'
  end.
Proof.
  intros Hw. unfold cancelTimer. run_steps.
  change (Datatypes.id (w_loop w)) with (w_loop w).
  destruct (m_activeTimers (w_loop w) !! id) as [k|] eqn:Hk; [|done].
  destruct (cancel_erase _ id k Hw Hk) as (t & timers & E & Ht & Hid & Hkey & Hin). rewrite E.
  run_steps.
  match goal with |- context [(resetTimerFd ≫= _) ?w1] =>
    destruct (resetTimerFd_run w1) as (y & Er & _ & _ & Hd);
      [cbn; by eapply cancel_ok|rewrite (bind_Ret _ _ _ _ _ Er)] end.
  exists t. eexists. split; [reflexivity|]. split_and!; try done.
  - cbn. by eapply cancel_ok.
  - unfold armed. cbn in *. destruct timers as [|u us]; [done|].
    eexists. split; [exact Hd|].
    unfold now_of. cbn. pose proof (steady_now_range (w_sys w)). zbool; lia.
Qed.

(** C25 [cancelTimer]: an identifier that is not active is refused with
    ENOENT and nothing changes; otherwise exactly its timer leaves the queue,
    the identifier is no longer active, every other timer and identifier
    stays, and the descriptor is re-armed for the new earliest timer. *)
Theorem cancelTimer_spec id w :
  loop_ok (w_loop w) ->
  match m_activeTimers (w_loop w) !! id with
  | None => cancelTimer id w = Ret (ResultVoid.fail (ErrorCode ENOENT system_category)) w
  | Some k => exists t w', cancelTimer id w = Ret ResultVoid.success w' /\
      t ∈ m_timers (w_loop w) /\ timer_id t = id /\ key_of t = k /\
      (forall t', t' ∈ m_timers (w_loop w') <-> t' ∈ m_timers (w_loop w) /\ t' <> t) /\
      m_activeTimers (w_loop w') = delete id (m_activeTimers (w_loop w)) /\
      loop_ok (w_loop w') /\ armed w'
  end.
Proof. exact (cancelTimer_run id w). Qed.

(** ** Expiration *)

Context (run_task : T -> M W unit).

Definition due (now : Z) (l : list (Timer T)) : list (Timer T) :=
  filter (fun t => expiration t <= now) l.
Definition not_due (now : Z) (l : list (Timer T)) : list (Timer T) :=
  filter (fun t => ~ expiration t <= now) l.

(** The identifiers still active once the due timers are out. *)
Definition active_after (now : Z) (l : EventLoop T) : gmap Z tkey :=
  snd (extract_expired now (m_timers l) (m_activeTimers l)).

(** The loop once the due timers are out. *)
Definition expired_loop (now : Z) (l : EventLoop T) : EventLoop T :=
  set_timers (not_due now (m_timers l)) (active_after now l) l.

Lemma expired_loop_ok now (l : EventLoop T) : loop_ok l -> loop_ok (expired_loop now l).
Proof.
  intros Hok. destruct (extract_expired now (m_timers l) (m_activeTimers l)) as [[e r] a] eqn:E.
  pose proof (extract_expired_timers now _ (m_activeTimers l) (ok_sorted _ Hok)) as Et.
  destruct (extract_ok now l _ _ _ Hok E) as [H1 _].
  unfold expired_loop, active_after, not_due. rewrite E in *. cbn in Et. by simplify_eq/=.
Qed.

(** The kernel after the read of the descriptor and of the clock. *)
Definition read_sys w : Y := snd (timerfd_read (fd (m_timer_fd (w_loop w))) (w_sys w)).

Lemma handleTimerRead_eq w :
  tsorted (m_timers (w_loop w)) ->
  fst (timerfd_read (fd (m_timer_fd (w_loop w))) (w_sys w)) = 8 ->
  let now := fst (steady_now (read_sys w)) in
  handleTimerRead run_task w =
    (for_each (due now (m_timers (w_loop w))) (fire run_task) ;; resetTimerFd)
      (World (expired_loop now (w_loop w)) (w_obj w) (snd (steady_now (read_sys w)))).
Proof.
  intros Hs Hr now. unfold handleTimerRead. run_steps. rewrite Hr. cbn [Z.eqb negb Pos.eqb].
  run_steps. fold (read_sys w). cbn [w_sys with_sys w_loop id]. fold now.
  pose proof (extract_expired_timers now (m_timers (w_loop w)) (m_activeTimers (w_loop w)) Hs) as Et.
  unfold expired_loop, active_after, due, not_due.
  destruct (extract_expired _ _ _) as [[e r] a]. cbn in Et. simplify_eq. done.
Qed.

(** C17 What expires: when the timer descriptor is readable,
    [handleTimerRead] runs the due timers and no other (none before its
    instant, none left behind), each once, in the order of their instants
    and, at the same instant, of their identifiers; while the callbacks run
    the queue holds exactly the timers that are not due. *)
Theorem handleTimerRead_expires w :
  loop_ok (w_loop w) ->
  fst (timerfd_read (fd (m_timer_fd (w_loop w))) (w_sys w)) = 8 ->
  exists now fired w1,
    handleTimerRead run_task w = (for_each fired (fire run_task) ;; resetTimerFd) w1 /\
    (forall t, t ∈ fired <-> t ∈ m_timers (w_loop w) /\ expiration t <= now) /\
    (forall t, t ∈ m_timers (w_loop w1) <-> t ∈ m_timers (w_loop w) /\ now < expiration t) /\
    tsorted fired /\ clock (read_sys w) <= now /\ clock (w_sys w1) = now /\
    w_obj w1 = w_obj w /\ loop_ok (w_loop w1).
Proof.
  intros Hw Hr. pose proof (ok_sorted _ Hw) as Hs.
  eexists _, _, _. split; [exact (handleTimerRead_eq w Hs Hr)|].
  cbn [w_loop w_sys w_obj]. unfold due, not_due.
  destruct (steady_now_clock (read_sys w)) as [Hle Heq]. split_and!; try done.
  - intros t. rewrite list_elem_of_filter. naive_solver.
  - intros t. cbn. unfold not_due. rewrite list_elem_of_filter. split; intros [? ?]; split; try done; lia.
  - by apply filter_sorted.
  - by apply expired_loop_ok.
Qed.

(** A one-shot timer is its callback. *)
Lemma fire_once t cb w : callback t = Some cb -> repeat t = false -> fire run_task t w = run_task cb w.
Proof.
  intros Hcb Hr. unfold fire. rewrite Hcb, Hr, bind_run. by destruct (run_task cb w) as [[]| |].
Qed.














(** ** The timer descriptor *)

(** With no timer due, handling the descriptor only re-arms it. *)
Lemma handleTimerRead_idle t ts w :
  loop_ok (w_loop w) -> m_timers (w_loop w) = t :: ts ->
  fst (timerfd_read (fd (m_timer_fd (w_loop w))) (w_sys w)) = 8 ->
  fst (steady_now (read_sys w)) < expiration t ->
  handleTimerRead run_task w =
    resetTimerFd (World (w_loop w) (w_obj w) (snd (steady_now (read_sys w)))).
Proof.
  intros Hw Et Hr Hlt. pose proof (ok_sorted _ Hw) as Hs.
  rewrite (handleTimerRead_eq w Hs Hr). set (now := fst (steady_now (read_sys w))) in *.
  assert (Hall : Forall (fun u => ~ expiration u <= now) (m_timers (w_loop w))).
  { apply Forall_forall. intros u Hu. rewrite Et in *.
    pose proof (tsorted_head_min t ts u Hs Hu). lia. }
  assert (Hsame : expired_loop now (w_loop w) = w_loop w).
  { unfold expired_loop, active_after, not_due. rewrite filter_all by done.
    rewrite Et. cbn [extract_expired]. destruct (Z.leb_spec (expiration t) now); [lia|].
    cbn. rewrite <- Et. by destruct (w_loop w). }
  unfold due. rewrite filter_none by done. rewrite Hsame. done.
Qed.

(** C37 The deadline is relative but armed as absolute: with an earliest
    timer due [d] ns from now, [resetTimerFd] arms the descriptor at the
    instant [d] of the clock instead of [now + d].  When the clock is
    already past [d] the descriptor is readable at once although no timer is
    due, and handling it runs no callback and arms it in the past again: the
    loop wakes up without a pause until the timer is due. *)
Theorem resetTimerFd_spins w t ts :
  loop_ok (w_loop w) -> m_timers (w_loop w) = t :: ts ->
  now_of w < expiration t <= 2 * now_of w ->
  exists w1, resetTimerFd w = Ret tt w1 /\ w_loop w1 = w_loop w /\
    deadline (w_sys w1) = Some (expiration t - now_of w) /\
    expiration t - now_of w <= clock (w_sys w1) /\
    (forall w2, w_loop w2 = w_loop w -> clock (w_sys w1) <= clock (w_sys w2) ->
       fst (timerfd_read (fd (m_timer_fd (w_loop w2))) (w_sys w2)) = 8 ->
       fst (steady_now (read_sys w2)) < expiration t ->
       exists y d, handleTimerRead run_task w2 = Ret tt (World (w_loop w2) (w_obj w2) y) /\
         deadline y = Some d /\ d <= clock y).
Proof.
  intros Hw Et Hnow. destruct (resetTimerFd_run w Hw) as (y & E & _ & Hc & Hd).
  rewrite Et in Hd, Hc. destruct (Z.leb_spec (expiration t) (now_of w)); [lia|].
  specialize (Hc ltac:(done)).
  eexists. split; [exact E|]. split_and!; try done; [cbn; lia|]. cbn [w_sys].
  intros w2 Hl Hcy Hr Hlt. rewrite <- Hl in Hw, Et.
  rewrite (handleTimerRead_idle t ts w2 Hw Et Hr Hlt).
  destruct (read_frame (fd (m_timer_fd (w_loop w2))) (w_sys w2)) as [Hc2 _].
  fold (read_sys w2) in Hc2.
  destruct (steady_now_clock (read_sys w2)) as [Hc3 Hc4].
  match goal with |- context [resetTimerFd ?w3] =>
    destruct (resetTimerFd_run w3 Hw) as (y3 & E3 & _ & Hc5 & Hd3) end.
  unfold now_of in Hc5, Hd3. cbn [w_loop w_sys] in *. rewrite Et in Hc5, Hd3.
  destruct (steady_now_clock (snd (steady_now (read_sys w2)))) as [Hc6 _].
  specialize (Hc5 ltac:(done)). eexists y3, _. split; [exact E3|]. split; [exact Hd3|].
  zbool; lia.
Qed.
End TimerFacts.
