(* ===== verification/SourceFacts.v ===== *)
(** The functional behaviour of the sources: registration, removal, and the
    construction of the loop, which registers the timer descriptor. *)
From S2P Require Import Prelude Outcome Result Kernel ScopedFd TimerQueue EventLoop EventLoopFacts.

(** The handler stored for a descriptor. *)
Definition source_of {T} (l : EventLoop T) (fd : Z) : InternalHandler :=
  if fd <? MAX_FAST_FDS then default Monostate (m_fastSources l !! fd)
  else match m_slowSources l !! fd with Some (_, h) => h | None => Monostate end.

(** The pointer of a descriptor's source. *)
Definition ptr_of (fd : Z) (p : source_ptr) : Prop :=
  p = FastPtr fd /\ fd < MAX_FAST_FDS \/ exists node, p = SlowPtr fd node /\ MAX_FAST_FDS <= fd.

(** The handler a pointer leads to. *)
Definition leads {T} (l : EventLoop T) (p : source_ptr) (h : InternalHandler) : Prop :=
  match p with
  | FastPtr fd => default Monostate (m_fastSources l !! fd) = h
  | SlowPtr fd node => m_slowSources l !! fd = Some (node, h)
  end.

Section SourceFacts.
Context {T O Y : Type} {RK : ReactorKernel Y} {RL : ReactorLaws Y}.
Notation W := (world T O Y).
Implicit Types w : W.

Lemma deref_leads p h w : deref_source p w = Ret h w <-> leads (w_loop w) p h.
Proof.
  unfold deref_source. run_steps. change (id (w_loop w)) with (w_loop w). destruct p as [fd|fd node]; cbn [leads].
  - split; [intros H; by injection H|by intros ->].
  - destruct (m_slowSources (w_loop w) !! fd) as [[n h']|]; [|by split].
    destruct (Z.eqb_spec n node) as [->|Hne].
    + split; intros H; injection H; by intros ->.
    + split; [done|]. intros H. by injection H.
Qed.

(** A valid pointer of the descriptor leads to its stored handler. *)
Lemma deref_ptr_of fd p w :
  ptr_of fd p -> valid_ptr (w_loop w) p -> deref_source p w = Ret (source_of (w_loop w) fd) w.
Proof.
  intros [[-> Hfd]|(node & -> & Hfd)] Hv; unfold deref_source, source_of; run_steps;
    change (id (w_loop w)) with (w_loop w); destruct (Z.ltb_spec fd MAX_FAST_FDS); try lia; [done|].
  destruct Hv as [h Hh]. cbn in Hh. rewrite Hh, Z.eqb_refl. done.
Qed.

(** The part of the loop the sources do not touch. *)
Definition same_timers (l l' : EventLoop T) : Prop :=
  m_timers l' = m_timers l /\ m_activeTimers l' = m_activeTimers l /\
  m_nextTimerId l' = m_nextTimerId l /\ m_pendingTasks l' = m_pendingTasks l /\
  m_epoll_fd l' = m_epoll_fd l /\ m_timer_fd l' = m_timer_fd l.

Lemma store_source_spec fd h w :
  exists p w', store_source fd h w = Ret p w' /\ ptr_of fd p /\ valid_ptr (w_loop w') p /\
    source_of (w_loop w') fd = h /\
    (forall fd', fd' <> fd -> source_of (w_loop w') fd' = source_of (w_loop w) fd') /\
    same_timers (w_loop w) (w_loop w') /\ w_obj w' = w_obj w /\ w_sys w' = w_sys w.
Proof.
  unfold store_source, source_of, ptr_of, same_timers.
  destruct (Z.ltb_spec fd MAX_FAST_FDS) as [Hfd|Hfd].
  - run_steps. eexists _, _. split; [reflexivity|]. cbn.
    split_and!; try done; [by left|by rewrite lookup_insert_eq|].
    intros fd' Hne. by rewrite lookup_insert_ne.
  - run_steps. change (id (w_loop w)) with (w_loop w).
    destruct (m_slowSources (w_loop w) !! fd) as [[node h0]|] eqn:E; run_steps;
      (eexists _, _; split; [reflexivity|]); cbn; rewrite lookup_insert_eq;
      (split_and!; try done; [right; eauto|by eexists|]);
      intros fd' Hne; by rewrite lookup_insert_ne.
Qed.

(** The loop with the handler [h] stored for [fd]. *)
Definition stored_source (fd : Z) (h : InternalHandler) (l : EventLoop T) : EventLoop T :=
  if fd <? MAX_FAST_FDS then set_fast (<[fd := h]> (m_fastSources l)) l
  else match m_slowSources l !! fd with
       | Some (node, _) => set_slow (<[fd := (node, h)]> (m_slowSources l)) (m_nextNode l) l
       | None => set_slow (<[fd := (m_nextNode l, h)]> (m_slowSources l)) (m_nextNode l + 1) l
       end.

Lemma store_source_run fd h w :
  exists p, store_source fd h w = Ret p (with_loop (stored_source fd h) w) /\ ptr_of fd p.
Proof.
  unfold store_source, stored_source, ptr_of. destruct (Z.ltb_spec fd MAX_FAST_FDS).
  - run_steps. eexists. split; [by destruct w|by left].
  - run_steps. change (id (w_loop w)) with (w_loop w).
    destruct w as [l o y]; cbn [w_loop]. destruct (m_slowSources l !! fd) as [[node h0]|] eqn:E; run_steps;
      (eexists; split; [unfold with_loop; cbn; by rewrite E|right; eauto]).
Qed.

(** Pointers of other descriptors lead where they led. *)
Lemma stored_source_leads fd h l fd' p h' :
  ptr_of fd' p -> fd' <> fd -> leads l p h' -> leads (stored_source fd h l) p h'.
Proof.
  intros Hp Hne. unfold stored_source. destruct Hp as [[-> _]|(node & -> & _)]; cbn [leads].
  - destruct (fd <? MAX_FAST_FDS); [cbn; by rewrite lookup_insert_ne|]. by destruct (m_slowSources l !! fd) as [[]|].
  - destruct (fd <? MAX_FAST_FDS); [done|].
    destruct (m_slowSources l !! fd) as [[]|]; cbn; by rewrite lookup_insert_ne.
Qed.

(** The registration, as the clients of the loop use it. *)
Lemma addSource_run fd mask h w :
  if fd <? 0
  then addSource fd mask h w = Ret (ResultVoid.fail (ErrorCode EBADF generic_category)) w
  else exists r w', addSource fd mask h w = Ret r w' /\
    source_of (w_loop w') fd = h /\
    (forall fd', fd' <> fd -> source_of (w_loop w') fd' = source_of (w_loop w) fd') /\
    same_timers (w_loop w) (w_loop w') /\ w_obj w' = w_obj w /\
    deadline (w_sys w') = deadline (w_sys w) /\
    (if ResultVoid.has_value r
     then exists p, ptr_of fd p /\ registered (w_sys w') = <[fd := p]> (registered (w_sys w)) /\
            deref_source p w' = Ret h w'
     else registered (w_sys w') = registered (w_sys w) /\
            ResultVoid.error r = ErrorCode (errno (w_sys w')) generic_category).
Proof.
  unfold addSource. destruct (fd <? 0); [done|].
  destruct (store_source_spec fd h w) as (p & w1 & E & Hp & Hv & Hh & Hoth & Hsame & Hobj & Hsys).
  rewrite (bind_Ret _ _ _ _ _ E). run_steps. rewrite Hsys.
  set (epfd := ScopedFd.fd _).
  pose proof (epoll_add_ok epfd fd mask p (w_sys w)) as Hok.
  pose proof (epoll_add_fail epfd fd mask p (w_sys w)) as Hfail.
  pose proof (epoll_add_deadline epfd fd mask p (w_sys w)) as Hd.
  destruct (Z.eqb_spec (fst (epoll_ctl_add epfd fd mask p (w_sys w))) (-1)) as [Eq|Eq];
    run_steps; (eexists _, _; split; [reflexivity|]); cbn [w_loop w_obj w_sys with_sys];
    split_and!; try done.
  - destruct (Hfail Eq) as [Hr He]. unfold ResultVoid.has_value, ec_bool. cbn.
    destruct (Z.eqb_spec (errno (snd (epoll_ctl_add epfd fd mask p (w_sys w)))) 0); [done|].
    by cbn.
  - cbn. exists p. split; [done|]. split; [by apply Hok|].
    rewrite <- Hh. by apply (deref_ptr_of fd p (with_sys _ w1)).
Qed.


(** The removal, as the clients of the loop use it. *)
Lemma removeSource_run fd w :
  if fd <? 0 then removeSource fd w = Crash OutOfBounds
  else exists r w', removeSource fd w = Ret r w' /\
    source_of (w_loop w') fd = Monostate /\
    (forall fd', fd' <> fd -> source_of (w_loop w') fd' = source_of (w_loop w) fd') /\
    same_timers (w_loop w) (w_loop w') /\ w_obj w' = w_obj w /\
    registered (w_sys w') = delete fd (registered (w_sys w)) /\
    deadline (w_sys w') = deadline (w_sys w) /\
    (ResultVoid.has_value r = false ->
       ResultVoid.error r = ErrorCode (errno (w_sys w')) system_category).
Proof.
  assert (Htail : forall f : EventLoop T -> EventLoop T,
    source_of (f (w_loop w)) fd = Monostate ->
    (forall fd', fd' <> fd -> source_of (f (w_loop w)) fd' = source_of (w_loop w) fd') ->
    same_timers (w_loop w) (f (w_loop w)) ->
    exists r w', (epfd ← loop_get m_epoll_fd; rc ← sys (epoll_ctl_del (ScopedFd.fd epfd) fd);
        if rc =? -1 then e ← get_errno; mret (ResultVoid.fail (ErrorCode e system_category))
        else mret ResultVoid.success) (with_loop f w) = Ret r w' /\
      source_of (w_loop w') fd = Monostate /\
      (forall fd', fd' <> fd -> source_of (w_loop w') fd' = source_of (w_loop w) fd') /\
      same_timers (w_loop w) (w_loop w') /\ w_obj w' = w_obj w /\
      registered (w_sys w') = delete fd (registered (w_sys w)) /\
      deadline (w_sys w') = deadline (w_sys w) /\
      (ResultVoid.has_value r = false ->
         ResultVoid.error r = ErrorCode (errno (w_sys w')) system_category)).
  { intros f H1 H2 H3. run_steps. set (epfd := ScopedFd.fd _).
    destruct (fst (epoll_ctl_del epfd fd (w_sys (with_loop f w))) =? -1); run_steps;
      (eexists _, _; split; [reflexivity|]); cbn [w_loop w_obj w_sys with_sys with_loop];
      (split_and!; try done; [apply epoll_del_ok|apply epoll_del_deadline]). }
  unfold removeSource. destruct (Z.ltb_spec fd 0) as [Hneg|Hpos].
  - destruct (Z.ltb_spec fd MAX_FAST_FDS); [done|unfold MAX_FAST_FDS in *; lia].
  - unfold source_of, same_timers in *.
    destruct (Z.ltb_spec fd MAX_FAST_FDS) as [Hf|Hf]; run_steps; apply Htail; cbn;
      try done; rewrite ?lookup_insert_eq, ?lookup_delete_eq; try done;
      intros fd' Hne; by rewrite ?lookup_insert_ne, ?lookup_delete_ne.
Qed.

(** C28 [removeSource]: for every descriptor that can index the tables, the
    stored handler becomes the empty one, no other changes, and the
    descriptor leaves the interest list; the result reports the kernel's
    error, if any.  A negative descriptor writes before the array. *)
Theorem removeSource_spec fd w :
  if fd <? 0 then removeSource fd w = Crash OutOfBounds
  else exists r w', removeSource fd w = Ret r w' /\
    source_of (w_loop w') fd = Monostate /\
    (forall fd', fd' <> fd -> source_of (w_loop w') fd' = source_of (w_loop w) fd') /\
    same_timers (w_loop w) (w_loop w') /\ w_obj w' = w_obj w /\
    registered (w_sys w') = delete fd (registered (w_sys w)) /\
    deadline (w_sys w') = deadline (w_sys w) /\
    (ResultVoid.has_value r = false ->
       ResultVoid.error r = ErrorCode (errno (w_sys w')) system_category).
Proof. exact (removeSource_run fd w). Qed.

(** The constructor, as the clients of the loop use it. *)
Lemma EventLoop_new_run w :
  wp EventLoop_new
    (fun _ w' => Inv 0 w' /\ armed w' /\ m_timers (w_loop w') = [] /\
       m_pendingTasks (w_loop w') = [] /\ m_nextTimerId (w_loop w') = 1 /\ w_obj w' = w_obj w /\
       exists p, ptr_of (fd (m_timer_fd (w_loop w'))) p /\
         registered (w_sys w') = {[fd (m_timer_fd (w_loop w')) := p]} /\
         deref_source p w' = Ret TimerTag w')
    (fun e _ => (exists s, e = RuntimeError s) \/ (exists ec, e = BadResultAccess ec)) w.
Proof.
  unfold EventLoop_new, wp. run_steps.
  set (ep := fst (epoll_create1 0 (w_sys w))).
  pose proof (epoll_create_empty 0 (w_sys w)) as Hempty. fold ep in Hempty.
  cbn [w_sys with_sys]. set (y0 := snd (epoll_create1 0 (w_sys w))) in *.
  set (tf := fst (timerfd_create _ _ y0)).
  pose proof (timerfd_create_frame CLOCK_MONOTONIC (Z.lor TFD_NONBLOCK TFD_CLOEXEC) y0) as Hr.
  set (y := snd (timerfd_create _ _ y0)) in *.
  set (w1 := with_loop _ _).
  destruct (destroy_two_run (MkScopedFd tf) (MkScopedFd ep) w1) as (yc & Ec).
  unfold on_throw.
  destruct (Z.ltb_spec ep 0); [cbn; rewrite Ec; eauto|].
  destruct (Z.ltb_spec tf 0); [cbn; rewrite Ec; eauto|].
  specialize (Hempty ltac:(lia)).
  assert (HI : Inv 0 w1) by (apply fresh_loop_Inv; [by etransitivity|done]).
  pose proof (safe_armed _ (addSource_safe tf EPOLLIN TimerTag) 0 w1 HI I) as Hsafe.
  pose proof (addSource_run tf EPOLLIN TimerTag w1) as Hadd.
  destruct (Z.ltb_spec tf 0); [lia|].
  destruct Hadd as (r & w2 & E & _ & _ & (Ht & _ & Hn & Hp & _ & Htf) & Hobj & _ & Hres).
  unfold wp in Hsafe. rewrite E in Hsafe. rewrite (bind_Ret _ _ _ _ _ E).
  unfold ResultVoid.value. unfold ResultVoid.has_value in Hres.
  destruct (ec_bool (m_ec r)); cbn [negb] in Hres.
  - cbn. destruct (destroy_two_run (MkScopedFd tf) (MkScopedFd ep) w2) as (yc' & Ec').
    rewrite Ec'. eauto.
  - cbn. destruct Hres as (p & Hptr & Hreg & Hd). split_and!; try apply Hsafe; try done.
    exists p. split; [by rewrite Htf|]. split; [|done]. rewrite Hreg, Htf. change (registered (w_sys w1)) with (registered y). by rewrite Hr, Hempty.
Qed.

(** The constructor either throws, or leaves a well-formed loop with no
    timer and no task, whose timer descriptor is registered with a pointer
    that leads to the [TimerTag] handler. *)
Theorem EventLoop_new_spec w :
  wp EventLoop_new
    (fun _ w' => Inv 0 w' /\ armed w' /\ m_timers (w_loop w') = [] /\
       m_pendingTasks (w_loop w') = [] /\ m_nextTimerId (w_loop w') = 1 /\ w_obj w' = w_obj w /\
       exists p, ptr_of (fd (m_timer_fd (w_loop w'))) p /\
         registered (w_sys w') = {[fd (m_timer_fd (w_loop w')) := p]} /\
         deref_source p w' = Ret TimerTag w')
    (fun e _ => (exists s, e = RuntimeError s) \/ (exists ec, e = BadResultAccess ec)) w.
Proof. exact (EventLoop_new_run w). Qed.
End SourceFacts.
