(* ===== verification/DispatchFacts.v ===== *)
(** The functional behaviour of [runOnce]: the wait, the events of the batch,
    the errors.  (The deferred tasks are in [Deferred].) *)
From S2P Require Import Prelude Outcome Result Kernel ScopedFd TimerQueue EventLoop EventLoopFacts.
From S2P Require Import SourceFacts.

Section DispatchFacts.
Context {T O Y : Type} {RK : ReactorKernel Y} {RL : ReactorLaws Y}.
Notation W := (world T O Y).
Context (run_task : T -> M W unit) (handleRead : Z -> Z -> Z -> Z -> M W unit).
Implicit Types w : W.

(** The timeout [runOnce] really passes: it does not block on pending tasks. *)
Definition effective_timeout (timeoutMs : Z) w : Z :=
  match m_pendingTasks (w_loop w) with [] => timeoutMs | _ => 0 end.

Definition wait_result (timeoutMs : Z) w : option (list source_ptr) * Y :=
  epoll_wait (fd (m_epoll_fd (w_loop w))) MAX_EVENTS (effective_timeout timeoutMs w) (w_sys w).

Lemma runOnce_wait timeoutMs w :
  runOnce run_task handleRead timeoutMs w =
    match fst (wait_result timeoutMs w) with
    | None => (e ← get_errno;
        if e =? EINTR then mret ResultVoid.success
        else mret (ResultVoid.fail (ErrorCode e system_category)))
    | Some evs => dispatch_batch run_task handleRead evs ;; run_pending run_task ;;
        mret ResultVoid.success
    end (with_sys (snd (wait_result timeoutMs w)) w).
Proof.
  unfold runOnce, wait_result, effective_timeout. run_steps.
  by destruct (m_pendingTasks (w_loop w)).
Qed.

(** A failed wait dispatches nothing and runs no task: an interruption by
    a signal is a success, any other error is returned; the loop and its
    queue of tasks are untouched. *)
Theorem runOnce_wait_fails timeoutMs w :
  fst (wait_result timeoutMs w) = None ->
  let y := snd (wait_result timeoutMs w) in
  runOnce run_task handleRead timeoutMs w =
    Ret (if errno y =? EINTR then ResultVoid.success
         else ResultVoid.fail (ErrorCode (errno y) system_category))
        (World (w_loop w) (w_obj w) y).
Proof.
  intros E y. rewrite runOnce_wait, E. run_steps. fold y. cbn [w_sys with_sys].
  by destruct (errno y =? EINTR).
Qed.

(** The body of the dispatch loop calls the handler the pointer leads to. *)
Lemma dispatch_event_run i p h w :
  m_events (w_loop w) !! Z.to_nat i = Some (Some p) ->
  deref_source p w = Ret h w ->
  dispatch_event run_task handleRead i w = visit_handler run_task handleRead h w.
Proof.
  intros E Hd. unfold dispatch_event. run_steps. rewrite E. by rewrite (bind_Ret _ _ _ _ _ Hd).
Qed.

(** Dispatch: a descriptor registered by [addSource] whose event is in the
    batch gets exactly the call its tag describes: the timer tag reads the
    timers, a receiver tag calls [handleRead] of that receiver with the
    registered descriptor, context and handler. *)
Theorem registered_event_dispatched fd mask h w r w1 :
  0 <= fd -> addSource fd mask h w = Ret r w1 -> ResultVoid.has_value r = true ->
  exists p, registered (w_sys w1) !! fd = Some p /\
    forall i w2, w_loop w2 = set_events (m_events (w_loop w2)) (w_loop w1) ->
      m_events (w_loop w2) !! Z.to_nat i = Some (Some p) ->
      dispatch_event run_task handleRead i w2 =
        match h with
        | Monostate => Ret tt w2
        | TimerTag => handleTimerRead run_task w2
        | UDPReceiverTag receiver tfd ctx handler => handleRead receiver tfd ctx handler w2
        end.
Proof.
  intros Hfd E Hr. pose proof (addSource_run fd mask h w) as H.
  destruct (Z.ltb_spec fd 0); [lia|]. destruct H as (r' & w' & E' & _ & _ & _ & _ & _ & Hres).
  rewrite E in E'. simplify_eq. rewrite Hr in Hres. destruct Hres as (p & _ & Hreg & Hd).
  exists p. split; [rewrite Hreg; apply lookup_insert_eq|].
  intros i w2 Hl Hev.
  assert (Hd2 : deref_source p w2 = Ret h w2).
  { apply deref_leads. apply deref_leads in Hd. by rewrite Hl. }
  rewrite (dispatch_event_run i p h w2 Hev Hd2). by destruct h.
Qed.

(** C38 An event that is still in the batch when its source is removed: below
    1024 the slot is empty and the event is ignored; from 1024 on the node
    is freed and the pointer epoll returned dangles. *)
Theorem removed_source_in_batch fd w r w1 p i :
  0 <= fd -> valid_ptr (w_loop w) p -> ptr_of fd p ->
  removeSource fd w = Ret r w1 ->
  m_events (w_loop w1) !! Z.to_nat i = Some (Some p) ->
  dispatch_event run_task handleRead i w1 =
    if fd <? MAX_FAST_FDS then Ret tt w1 else Crash DanglingSource.
Proof.
  intros Hfd Hv Hp E Hev. unfold removeSource in E.
  unfold dispatch_event. run_steps. rewrite Hev. unfold deref_source. run_steps.
  destruct Hp as [[-> Hlt]|(node & -> & Hge)].
  - destruct (Z.ltb_spec fd MAX_FAST_FDS), (Z.ltb_spec fd 0); try lia. run_steps_in E.
    assert (Hl : m_fastSources (w_loop w1) !! fd = Some Monostate).
    { destruct (_ =? -1); injection E as _ <-; apply lookup_insert_eq. }
    change (id (w_loop w1)) with (w_loop w1). by rewrite Hl.
  - destruct (Z.ltb_spec fd MAX_FAST_FDS); [lia|]. run_steps_in E.
    assert (Hl : m_slowSources (w_loop w1) !! fd = None).
    { destruct (_ =? -1); injection E as _ <-; apply lookup_delete_eq. }
    change (id (w_loop w1)) with (w_loop w1). by rewrite Hl.
Qed.
End DispatchFacts.
