(* ===== verification/Deferred.v ===== *)
(** Deferred tasks, in a turn with any events: the tasks that were waiting, and
    those the handlers of the turn defer, are run after the events, once each
    and in the order they were deferred; what these tasks defer waits for the
    next turn.  The application is one that keeps a history of what it does. *)
From S2P Require Import Prelude Outcome Result Kernel ScopedFd TimerQueue EventLoop EventLoopFacts.
From S2P Require Import SourceFacts DispatchFacts.

(** An entry of the history: a deferred task has been run, or deferred. *)
Inductive act (T : Type) := Ran (t : T) | Deferred (t : T).
Arguments Ran {T} t.
Arguments Deferred {T} t.


Section Deferred.
Context {T O Y : Type} {RK : ReactorKernel Y} {RL : ReactorLaws Y} {AI : AppInvariant O Y}.
Notation W := (world T O Y).
Context (run_task : T -> M W unit) (handleRead : Z -> Z -> Z -> Z -> M W unit)
  {RC : ReactorClient run_task handleRead}.
(** The functions the application gives to [runInLoop] (the others are the
    callbacks of its timers), and the history it keeps in its object. *)
Context (job : T -> bool) (history : O -> list (act T)).
Implicit Types w : W.

(** Callbacks of timers are no jobs, deferred tasks are. *)
Record tidy w : Prop := {
  td_timers : Forall (fun t => forall cb, callback t = Some cb -> job cb = false) (m_timers (w_loop w));
  td_pending : exists ts, m_pendingTasks (w_loop w) = Some <$> ts /\ Forall (fun t => job t = true) ts
}.

(** An operation that defers the tasks [ds], by [runInLoop], and enters first
    [pre] and then them in the history. *)
Definition defers (pre : list (act T)) (ds : list T) w w' : Prop :=
  tidy w' /\ m_pendingTasks (w_loop w') = m_pendingTasks (w_loop w) ++ (Some <$> ds) /\
  history (w_obj w') = history (w_obj w) ++ pre ++ (Deferred <$> ds).

Definition records {A} (pre : list (act T)) (m : M W A) : Prop :=
  forall w a w', tidy w -> m w = Ret a w' -> exists ds, defers pre ds w w'.

(** The discipline of the application: what a job does starts with its entry
    in the history; nothing but [runInLoop] touches the queue of tasks. *)
Class Historian : Prop := {
  job_records t : job t = true -> records [Ran t] (run_task t);
  callback_records t : job t = false -> records [] (run_task t);
  read_records receiver f ctx h : records [] (handleRead receiver f ctx h)
}.

(** ** The operations of the loop *)

Lemma defers_nothing w : tidy w -> defers [] [] w w.
Proof. intros Ht. split; [done|]. cbn. by rewrite !app_nil_r. Qed.













Context {HH : Historian}.





(** ** The deferred tasks *)



End Deferred.
