(* ===== verification/TurnRule.v ===== *)
(** A rule for programs that only react to events: when every registered
    descriptor leads to a handler that returns and keeps the invariant of the
    program, a turn of the loop does, and what it did is what the handlers do
    for the events the wait reported. *)
From S2P Require Import Prelude Outcome Result Kernel ScopedFd TimerQueue EventLoop.
From S2P Require Import EventLoopFacts SourceFacts DispatchFacts.

Section TurnRule.
Context {T O Y : Type} {RK : ReactorKernel Y} {RL : ReactorLaws Y}.
Notation W := (world T O Y).
Context (run_task : T -> M W unit) (handleRead : Z -> Z -> Z -> Z -> M W unit).
Implicit Types w : W.

(** The invariant of the program, and what it may do while it handles the
    events [evs], which is what it does for each of them, in their order. *)
Context (I : W -> Prop) (R : list source_ptr -> W -> W -> Prop).

Record reacts : Prop := {
  nothing_done w : R [] w w;
  done_after e1 e2 w1 w2 w3 : R e1 w1 w2 -> R e2 w2 w3 -> R (e1 ++ e2) w1 w3;
  on_event w f p : I w -> registered (w_sys w) !! f = Some p ->
    exists h w', leads (w_loop w) p h /\ visit_handler run_task handleRead h w = Ret tt w' /\ I w' /\ R [p] w w' /\
      registered (w_sys w') = registered (w_sys w) /\ m_events (w_loop w') = m_events (w_loop w);
  on_buffer w v : I w -> length v = length (m_events (w_loop w)) ->
    I (with_loop (set_events v) w) /\ R [] w (with_loop (set_events v) w);
  on_wait w timeoutMs : I w -> I (with_sys (snd (wait_result timeoutMs w)) w);
  no_deferred w : I w -> m_pendingTasks (w_loop w) = [];
  buffer_size w : I w -> length (m_events (w_loop w)) = Z.to_nat MAX_EVENTS
}.

Context (HI : reacts).

(** The events in the buffer are those of registered descriptors. *)
Lemma events_react (js : list Z) evs w :
  I w ->
  Forall2 (fun i p => m_events (w_loop w) !! Z.to_nat i = Some (Some p) /\
                      exists f, registered (w_sys w) !! f = Some p) js evs ->
  exists w', for_each js (dispatch_event run_task handleRead) w = Ret tt w' /\ I w' /\ R evs w w'.
Proof.
  intros Hw Hev. revert w Hw Hev. revert evs. induction js as [|i js IH]; intros evs w Hw Hev.
  - apply Forall2_nil_inv_l in Hev as ->. exists w. split; [done|]. split; [done|by apply nothing_done].
  - apply Forall2_cons_inv_l in Hev as (p & evs' & (Hi & f & Hp) & Hev & ->).
    destruct (on_event HI w f p Hw Hp) as (h & w1 & Hl & E1 & Hw1 & HR1 & Hreg & Hevs). apply deref_leads in Hl.
    destruct (IH evs' w1 Hw1) as (w2 & E2 & Hw2 & HR2); [by rewrite Hreg, Hevs|].
    exists w2. cbn [for_each]. rewrite bind_run, (dispatch_event_run run_task handleRead i p h w Hi Hl), E1.
    split; [done|]. split; [done|]. by apply (done_after HI [p] evs' w w1 w2).
Qed.

Lemma batch_reacts evs w :
  I w -> (length evs <= Z.to_nat MAX_EVENTS)%nat ->
  (forall p, p ∈ evs -> exists f, registered (w_sys w) !! f = Some p) ->
  exists w', dispatch_batch run_task handleRead evs w = Ret tt w' /\ I w' /\ R evs w w'.
Proof.
  intros Hw Hlen Hin. unfold dispatch_batch, for_n. rewrite bind_loop_set.
  pose proof (buffer_size HI w Hw) as Hb. set (v := (Some <$> evs) ++ drop (length evs) (m_events (w_loop w))).
  destruct (on_buffer HI w v Hw) as [Hw1 HR1].
  { unfold v. rewrite length_app, length_fmap, length_drop. lia. }
  destruct (events_react (seqZ 0 (Z.of_nat (length evs))) evs (with_loop (set_events v) w) Hw1) as (w2 & E & Hw2 & HR2).
  { apply Forall2_same_length_lookup_2; [rewrite length_seqZ; lia|]. intros j i p Hj Hp.
    apply lookup_seqZ in Hj as [-> Hj]. cbn. split; [|by apply Hin, (list_elem_of_lookup_2 _ j)].
    unfold v. rewrite Z.add_0_l, Nat2Z.id, lookup_app_l by (rewrite length_fmap; lia). by rewrite list_lookup_fmap, Hp. }
  exists w2. split; [exact E|]. split; [done|]. by apply (done_after HI [] evs w (with_loop (set_events v) w) w2).
Qed.

(** A turn: it returns; a wait that fails ends it; otherwise it succeeds, and
    has handled the events of the wait. *)
Lemma turn_reacts timeoutMs w :
  I w ->
  exists res w', runOnce run_task handleRead timeoutMs w = Ret res w' /\ I w' /\
    match fst (wait_result timeoutMs w) with
    | Some evs => ResultVoid.has_value res = true /\ R evs (with_sys (snd (wait_result timeoutMs w)) w) w'
    | None => w' = with_sys (snd (wait_result timeoutMs w)) w
    end.
Proof.
  intros Hw. rewrite runOnce_wait. pose proof (on_wait HI w timeoutMs Hw) as Hw1. set (w1 := with_sys _ w) in *.
  destruct (fst (wait_result timeoutMs w)) as [evs|] eqn:E.
  - destruct (epoll_wait_ok _ _ _ _ _ E) as [Hlen Hin].
    destruct (batch_reacts evs w1 Hw1) as (w2 & E2 & Hw2 & HR2); [lia| |].
    { intros p Hp. destruct (Hin p Hp) as [f Hf]. exists f. unfold w1, wait_result. cbn [w_sys with_sys].
      by rewrite (proj2 (epoll_wait_frame _ _ _ _)). }
    rewrite (bind_Ret _ _ _ _ _ E2). unfold run_pending. rewrite bind_assoc, bind_loop_get, (no_deferred HI w2 Hw2). run_steps.
    exists ResultVoid.success, w2. by split_and!.
  - run_steps. destruct (_ =? EINTR); (eexists _, _; split; [reflexivity|]); by split.
Qed.
End TurnRule.
