(* ===== verification/ReactorWitness.v ===== *)
(** Concrete runs of the event loop on the simulated kernel: a small
    application, and the witnesses of the properties of the loop. *)
From S2P Require Import Prelude Outcome Result Kernel SimKernel ScopedFd TimerQueue EventLoop.
From S2P Require Import EventLoopFacts TimerFacts SourceFacts DispatchFacts Deferred.

(** The state a computation returns in. *)
Definition final {S A} (m : M S A) (s : S) : S :=
  match m s with Ret _ s' => s' | Throw _ s' => s' | Crash _ => s end.

Notation demo_world := (world Z unit sim).

(** The application: every task logs its name; task 7 also schedules task 8
    in five milliseconds and defers task 9. *)
Definition demo_log (t : Z) : M demo_world unit := sys (fun s => (tt, Sim.add_task t s)).
Definition demo_task (t : Z) : M demo_world unit :=
  demo_log t ;;
  if t =? 7 then runAfter 5 (Some 8) ;; runInLoop (Some 9) else mret tt.
Definition demo_read (receiver fd ctx h : Z) : M demo_world unit := demo_log (1000 + fd).

Lemma demo_log_safe t : safe (demo_log t).
Proof. by apply safe_sys. Qed.

#[export] Instance demo_client : ReactorClient demo_task demo_read.
Proof.
  split; [intros t|intros r f c h; apply demo_log_safe].
  apply safe_bind; [apply demo_log_safe|]. intros [].
  destruct (t =? 7); [|apply safe_mret].
  apply safe_bind; [by apply runAfter_safe|]. intros _. apply runInLoop_safe.
Qed.

(** A loop constructed one hour after boot. *)
Definition no_loop : EventLoop Z := MkEventLoop (MkScopedFd (-1)) (MkScopedFd (-1)) [] ∅ ∅ 0 [] [] ∅ 1.
Definition boot : demo_world := World no_loop tt (sim_boot 3600000000000).
Definition demo_start : demo_world := final EventLoop_new boot.

Lemma demo_start_ok : Inv 0 demo_start /\ armed demo_start.
Proof.
  pose proof (EventLoop_new_run boot) as H. unfold demo_start, final.
  assert (Hret : exists w, EventLoop_new boot = Ret tt w) by (vm_compute; by eexists).
  destruct Hret as (w & E). unfold wp in H. rewrite E in *. naive_solver.
Qed.

(** A safe operation run from a good state ends in a good state. *)
Lemma final_inv {A} (m : M demo_world A) w : safe m -> Inv 0 w -> Inv 0 (final m w).
Proof.
  intros Hm Hw. pose proof (safe_inv _ Hm 0 w Hw) as H. unfold wp, final in *.
  by destruct (m w).
Qed.

Lemma final_safe {T O Y A} {RK : ReactorKernel Y} {RL : ReactorLaws Y} {AI : AppInvariant O Y}
    (m : M (world T O Y) A) w :
  safe m -> Inv 0 w -> armed w -> (exists a w', m w = Ret a w') -> Inv 0 (final m w) /\ armed (final m w).
Proof.
  intros Hm Hw Ha (a & w' & E). pose proof (safe_armed _ Hm 0%nat w Hw Ha) as H. unfold wp, final in *.
  by rewrite E in *.
Qed.

(** Time passes. *)
Definition later (ns : Z) (w : demo_world) : demo_world :=
  with_sys (Sim.set_clock (s_clock (w_sys w) + ns) (w_sys w)) w.

Lemma later_inv ns w : Inv 0 w -> Inv 0 (later ns w).
Proof. intros H. by apply Inv_sys. Qed.

(** A repeating timer (identifier 1) and a one-shot timer (identifier 2). *)
Definition demo_timers : demo_world :=
  final (runAfter 250 (Some 5)) (final (runEvery 1000 (Some 7)) demo_start).

Lemma demo_timers_ok : Inv 0 demo_timers.
Proof.
  apply final_inv; [by apply runAfter_safe|].
  apply final_inv; [by apply runEvery_safe|]. apply demo_start_ok.
Qed.

(** One second later both are due (the turn itself takes a millisecond). *)
Definition demo_due : demo_world := later 1000000000 demo_timers.

Lemma demo_due_ok : Inv 0 demo_due.
Proof. apply later_inv, demo_timers_ok. Qed.

(** What runs, in order: the one-shot timer, the repeating one, then the task
    deferred by the latter; the timer it scheduled waits. *)
Example demo_run_log :
  s_tasks (w_sys (final (runOnce demo_task demo_read 10) demo_due)) = [5; 7; 9] /\
  (key_of <$> m_timers (w_loop (final (runOnce demo_task demo_read 10) demo_due))) =
    [(3601006000000, 3); (3602000000000, 1)].
Proof. split; vm_compute; reflexivity. Qed.

Lemma runOnce_safe_witness :
  ReactorClient demo_task demo_read /\ Inv 0 demo_start /\ armed demo_start /\
  safe (runOnce demo_task demo_read 10).
Proof.
  split; [apply demo_client|]. split; [apply demo_start_ok|]. split; [apply demo_start_ok|].
  apply (runOnce_safe demo_task demo_read 10).
Defined.

Lemma runAfter_spec_witness :
  loop_ok (w_loop demo_start) /\
  exists w', runAfter 5 (Some 7) demo_start = Ret (Value 1) w' /\ loop_ok (w_loop w').
Proof.
  assert (H : loop_ok (w_loop demo_start)) by apply demo_start_ok. split; [exact H|].
  destruct (runAfter_spec 5 (Some 7) demo_start H) as (w' & E & _ & _ & _ & Hok & _);
    [unfold max_delay; lia|].
  exists w'. split; [exact E|exact Hok].
Defined.

Lemma runEvery_spec_witness :
  loop_ok (w_loop demo_start) /\
  exists w', runEvery 1000 (Some 7) demo_start = Ret (Value 1) w' /\ loop_ok (w_loop w').
Proof.
  assert (H : loop_ok (w_loop demo_start)) by apply demo_start_ok. split; [exact H|].
  destruct (runEvery_spec 1000 (Some 7) demo_start H) as (w' & E & _ & _ & _ & Hok & _);
    [unfold max_delay; lia|].
  exists w'. split; [exact E|exact Hok].
Defined.

Lemma cancelTimer_spec_witness :
  loop_ok (w_loop demo_timers) /\
  exists w', cancelTimer 1 demo_timers = Ret ResultVoid.success w' /\ armed w'.
Proof.
  assert (H : loop_ok (w_loop demo_timers)) by apply demo_timers_ok. split; [exact H|].
  pose proof (cancelTimer_spec 1 demo_timers H) as Hc.
  assert (E : m_activeTimers (w_loop demo_timers) !! 1 = Some ((3601000000000, 1) : tkey)) by (vm_compute; reflexivity).
  rewrite E in Hc. destruct Hc as (t & w' & Ec & _ & _ & _ & _ & _ & _ & Ha).
  exists w'. split; [exact Ec|exact Ha].
Defined.

Lemma handleTimerRead_expires_witness :
  loop_ok (w_loop demo_due) /\
  exists now fired w1,
    handleTimerRead demo_task demo_due = (for_each fired (fire demo_task) ;; resetTimerFd) w1 /\
    forall t, t ∈ fired <-> t ∈ m_timers (w_loop demo_due) /\ expiration t <= now.
Proof.
  assert (H : loop_ok (w_loop demo_due)) by apply demo_due_ok. split; [exact H|].
  destruct (handleTimerRead_expires demo_task demo_due H) as (now & fired & w1 & E & Hf & _);
    [vm_compute; reflexivity|].
  exists now, fired, w1. split; [exact E|exact Hf].
Defined.

(** A repeating timer whose callback cancels it. *)
Definition self_cancel (t : Z) : M demo_world unit := cancelTimer t ;; mret tt.
Definition self_timer : Timer Z := MkTimer 3601000000000 1000 (Some 1) 1 true.
Definition demo_self : demo_world := final (runEvery 1000 (Some 1)) demo_start.


Definition read_nothing_here (receiver fd ctx h : Z) : M demo_world unit := mret tt.
#[export] Instance self_cancel_client : ReactorClient self_cancel read_nothing_here.
Proof.
  split; [intros t|intros; apply safe_mret]. apply safe_bind; [apply cancelTimer_safe|]. intros _. apply safe_mret.
Qed.







(** One hour after boot, a timer in one second: the descriptor is armed at
    the first second of the uptime. *)
Lemma resetTimerFd_spins_witness :
  loop_ok (w_loop demo_self) /\
  exists w1, resetTimerFd demo_self = Ret tt w1 /\ deadline (w_sys w1) = Some 1000000000 /\
    1000000000 <= clock (w_sys w1).
Proof.
  assert (H : loop_ok (w_loop demo_self)).
  { apply (final_inv (runEvery 1000 (Some 1)) demo_start); [by apply runEvery_safe|apply demo_start_ok]. }
  split; [exact H|].
  destruct (resetTimerFd_spins self_cancel demo_self self_timer [] H) as (w1 & E & _ & Hd & Hc & _);
    [vm_compute; reflexivity|vm_compute; by split|].
  exists w1. split; [exact E|]. split; [exact Hd|exact Hc].
Defined.

(** An application that keeps a history: the functions from 10 on are jobs; a
    timer defers the job 20, which defers the job 21. *)
Notation hist_world := (world Z (list (act Z)) sim).
Definition enter (a : act Z) : M hist_world unit := modify (with_obj (fun h => (h ++ [a])%list)).
Definition defer (t : Z) : M hist_world unit := runInLoop (Some t) ;; enter (Deferred t).
Definition is_job (t : Z) : bool := 10 <=? t.
Definition hist_task (t : Z) : M hist_world unit :=
  if is_job t then enter (Ran t) ;; (if t =? 20 then defer 21 else mret tt) else defer 20.
Definition hist_read (receiver fd ctx h : Z) : M hist_world unit := defer 22.

Lemma defer_safe t : safe (defer t).
Proof. apply safe_bind; [apply runInLoop_safe|]. intros _. by apply safe_obj. Qed.

#[export] Instance hist_client : ReactorClient hist_task hist_read.
Proof.
  split; [intros t|intros r f c h; apply defer_safe]. unfold hist_task. destruct (is_job t); [|apply defer_safe].
  apply safe_bind; [by apply safe_obj|]. intros _. destruct (t =? 20); [apply defer_safe|apply safe_mret].
Qed.

Lemma defer_defers pre t (w w1 w' : hist_world) :
  is_job t = true -> defers is_job id pre [] w w1 -> defer t w1 = Ret tt w' -> defers is_job id pre [t] w w'.
Proof.
  intros Hj (Ht & Hp & Hh) [= <-]. unfold id in *. rewrite !app_nil_r in *. split; [|split; cbn].
  - destruct Ht as [Hti (ts & Hts & Hall)]. split; [exact Hti|]. exists (ts ++ [t]). cbn. rewrite Hts, fmap_app.
    split; [done|]. apply Forall_app. by split; [|constructor].
  - by rewrite Hp.
  - by rewrite Hh, <- app_assoc.
Qed.

#[export] Instance hist_historian : Historian hist_task hist_read is_job id.
Proof.
  assert (Hd : forall t, is_job t = true -> records is_job id [] (defer t)).
  { intros t Hj w [] w' Hw E. exists [t]. by eapply defer_defers, E; [|apply defers_nothing]. }
  split.
  - intros t Hj w [] w' Hw E. unfold hist_task in E. rewrite Hj in E. apply bind_Ret_inv in E as ([] & w1 & [= <-] & E).
    assert (H1 : defers is_job id [Ran t] [] w (with_obj (fun h => (h ++ [Ran t])%list) w)).
    { split; [by destruct Hw|]. cbn. by rewrite !app_nil_r. }
    destruct (t =? 20); [exists [21]; by eapply defer_defers, E|]. injection E as <-. by exists [].
  - intros t Hj. unfold hist_task. rewrite Hj. by apply Hd.
  - intros r f c h. by apply Hd.
Qed.

(** A timer that is due, and two jobs waiting. *)
Definition hist_start : hist_world := final EventLoop_new (World no_loop [] (sim_boot 3600000000000)).
Definition hist_waiting : hist_world :=
  let w := final (runAfter 5 (Some 7) ;; defer 20 ;; defer 23) hist_start in
  with_sys (Sim.set_clock (s_clock (w_sys w) + 1000000000) (w_sys w)) w.

(** In the turn the timer defers the job 20 once more; both runs of it defer
    the job 21, which waits. *)
Example hist_run :
  let w' := final (runOnce hist_task hist_read 10) hist_waiting in
  w_obj w' = [Deferred 20; Deferred 23; Deferred 20; Ran 20; Deferred 21; Ran 23; Ran 20; Deferred 21] /\
  m_pendingTasks (w_loop w') = [Some 21; Some 21].
Proof. split; vm_compute; reflexivity. Qed.




(** A descriptor of the hash map, with its event in the batch. *)
Definition slow_tag : InternalHandler := UDPReceiverTag 1 2000 5 77.
Definition demo_slow : demo_world := final (addSource 2000 EPOLLIN slow_tag) demo_start.
Definition demo_slow_event : demo_world :=
  with_loop (set_events [Some (SlowPtr 2000 0)]) demo_slow.

Lemma registered_event_dispatched_witness :
  addSource 2000 EPOLLIN slow_tag demo_start = Ret ResultVoid.success demo_slow /\
  exists p, registered (w_sys demo_slow) !! 2000 = Some p.
Proof.
  assert (E : addSource 2000 EPOLLIN slow_tag demo_start = Ret ResultVoid.success demo_slow)
    by (vm_compute; reflexivity).
  split; [exact E|].
  destruct (registered_event_dispatched demo_task demo_read 2000 EPOLLIN slow_tag demo_start ResultVoid.success
    demo_slow ltac:(lia) E eq_refl) as (p & Hp & _).
  exists p. exact Hp.
Defined.

Definition demo_removed : demo_world := final (removeSource 2000) demo_slow_event.

Lemma removed_source_in_batch_witness :
  valid_ptr (w_loop demo_slow_event) (SlowPtr 2000 0) /\
  removeSource 2000 demo_slow_event = Ret ResultVoid.success demo_removed /\
  dispatch_event demo_task demo_read 0 demo_removed = Crash DanglingSource.
Proof.
  assert (Hv : valid_ptr (w_loop demo_slow_event) (SlowPtr 2000 0)) by (exists slow_tag; vm_compute; reflexivity).
  assert (E : removeSource 2000 demo_slow_event = Ret ResultVoid.success demo_removed) by (vm_compute; reflexivity).
  split; [exact Hv|]. split; [exact E|].
  apply (removed_source_in_batch demo_task demo_read 2000 demo_slow_event ResultVoid.success demo_removed
    (SlowPtr 2000 0) 0 ltac:(lia) Hv); [right; exists 0; split; [reflexivity|vm_compute; congruence]|exact E|].
  vm_compute. reflexivity.
Defined.

(** A handle is opened, moved, and the source of the move destroyed. *)
Definition moved_store : ScopedFd.store :=
  ScopedFd.MkStore {[2 := MkScopedFd 7]} {[7]}.

Lemma moved_reachable : ScopedFd.reachable moved_store.
Proof.
  eapply (ScopedFd.reach_step _ (ScopedFd.Destroy 1));
    [eapply (ScopedFd.reach_step _ (ScopedFd.MoveConstruct 2 1));
      [eapply (ScopedFd.reach_step _ (ScopedFd.Construct 1 7)); [apply ScopedFd.reach_start| |reflexivity]| |reflexivity]| |].
  - cbn. split; [reflexivity|]. split; [lia|set_solver].
  - cbn. split; [reflexivity|]. eexists. reflexivity.
  - cbn. eexists. reflexivity.
  - vm_compute. reflexivity.
Qed.

Lemma scoped_fd_safe_witness :
  ScopedFd.reachable moved_store /\ ScopedFd.owned moved_store /\
  exists s', ScopedFd.exec (ScopedFd.Destroy 2) moved_store = Ret tt s'.
Proof.
  split; [apply moved_reachable|].
  destruct (ScopedFd.scoped_fd_safe moved_store moved_reachable) as [Ho Hop]. split; [exact Ho|].
  destruct (Hop (ScopedFd.Destroy 2)) as (s' & E & _); [eexists; reflexivity|]. exists s'. exact E.
Defined.
