(* ===== verification/Waking.v ===== *)
(** What progress needs of the kernel, beyond the laws safety needs: that a
    poll returns, and that a timer descriptor whose instant has passed is
    reported and can be read ([WakingKernel]); and that the calls of the
    reactor leave the memory of the application alone ([AppMemory]).
    [StartupLaws] is about the calls of a program before its loop runs,
    [CallTrace] about the record of the calls its packet handlers have seen, and
    [DescriptorTable] about the descriptors that are open.  [SimKernel]
    satisfies all of them.

    The lemmas give the operations on timers up to any relation on kernel
    states that the calls of the reactor respect. *)
From S2P Require Import Prelude Outcome Result Kernel SimKernel ScopedFd TimerQueue EventLoop Recorder.
From S2P Require Import EventLoopFacts TimerFacts SourceFacts.

(** ** Frames *)

(** A relation between a kernel state and a later one that the calls on the
    timer respect. *)
Class TimerFrame {Y : Type} `{ReactorKernel Y} (R : Y -> Y -> Prop) : Prop := {
  frame_order :: PreOrder R;
  frame_now y : R y (snd (steady_now y));
  frame_settime f flags v y : R y (snd (timerfd_settime f flags v y));
  frame_read f y : R y (snd (timerfd_read f y))
}.

(** ... and the wait: every call of the reactor. *)
Class ReactorFrame {Y : Type} `{ReactorKernel Y} (R : Y -> Y -> Prop) : Prop := {
  frame_timer :: TimerFrame R;
  frame_wait e n t y : R y (snd (epoll_wait e n t y))
}.

Section Frames.
Context {T O Y : Type} {RK : ReactorKernel Y} {RL : ReactorLaws Y}.
Notation W := (world T O Y).
Context (R : Y -> Y -> Prop) {TF : TimerFrame R}.
Implicit Types w : W.

Lemma resetTimerFd_frame w :
  loop_ok (w_loop w) ->
  exists y, resetTimerFd w = Ret tt (World (w_loop w) (w_obj w) y) /\ R (w_sys w) y.
Proof.
  intros Hw. unfold resetTimerFd. run_steps. destruct (m_timers (w_loop w)) as [|t ts] eqn:Et.
  - eexists. split; [reflexivity|]. apply frame_settime.
  - assert (Hexp : 0 <= expiration t < 2 ^ 63).
    { destruct Hw as [_ _ Hall _]. rewrite Et in Hall. by inversion Hall as [|? ? [? ?]]. }
    pose proof (steady_now_range (w_sys w)) as Hn. unfold clock_limit in Hn. run_steps.
    assert (Hend : forall v, R (w_sys w)
      (snd (timerfd_settime (fd (m_timer_fd (w_loop w))) TFD_TIMER_ABSTIME v (snd (steady_now (w_sys w)))))).
    { intros v. etransitivity; [apply frame_now|apply frame_settime]. }
    destruct (Z.leb_spec (expiration t) (fst (steady_now (w_sys w)))); run_steps;
      [|erewrite bind_Ret; [|apply s64_in; unfold is_s64; lia]]; eexists; (split; [reflexivity|apply Hend]).
Qed.

Lemma insertTimer_frame t w :
  loop_ok (w_loop w) -> timer_ok t ->
  exists y, insertTimer t w = Ret tt (World (inserted t (w_loop w)) (w_obj w) y) /\ R (w_sys w) y.
Proof.
  intros Hw Ht.
  assert (Hrun : insertTimer t w =
    (if match m_timers (w_loop w) with [] => true | b :: _ => expiration t <? expiration b end
     then resetTimerFd else mret tt) (with_loop (inserted t) w)) by done.
  rewrite Hrun. destruct (match m_timers (w_loop w) with [] => true | b :: _ => _ end).
  - by apply (resetTimerFd_frame (with_loop (inserted t) w)), inserted_ok.
  - by exists (w_sys w).
Qed.

(** The loop after a timer has been scheduled for the instant [e]. *)
Definition scheduled_timer (e iv : Z) (rep : bool) (cb : option T) (l : EventLoop T) : EventLoop T :=
  inserted (MkTimer e iv cb (m_nextTimerId l) rep) (set_next (u64 (m_nextTimerId l + 1)) l).

Lemma schedule_frame delay iv rep cb w :
  loop_ok (w_loop w) -> 0 <= delay <= max_delay -> 0 <= iv <= max_delay ->
  let l' := scheduled_timer (now_of w + delay * 1000000) iv rep cb (w_loop w) in
  exists y, (id ← fresh_timer_id; now ← clock_now; when ← time_after now delay;
             insertTimer (MkTimer when iv cb id rep) ;; mret (Value id)) w =
      Ret (Value (m_nextTimerId (w_loop w))) (World l' (w_obj w) y) /\
    R (snd (steady_now (w_sys w))) y /\ loop_ok l'.
Proof.
  intros Hw Hd Hi l'. pose proof (steady_now_range (w_sys w)) as Hn. run_steps.
  unfold l', time_after, now_of, clock_limit, max_delay in *. run_steps.
  do 2 (erewrite bind_Ret; [|apply s64_in; unfold is_s64; cbn; lia]).
  assert (Hl : loop_ok (set_next (u64 (m_nextTimerId (w_loop w) + 1)) (w_loop w))) by (destruct Hw; by split).
  cbn [w_sys with_loop] in *. set (e := _ + _).
  assert (Ht : timer_ok (MkTimer e iv cb (m_nextTimerId (w_loop w)) rep))
    by (split; unfold e; cbn; unfold max_delay; lia).
  match goal with |- context [(insertTimer ?t' ≫= _) ?w1] =>
    destruct (insertTimer_frame t' w1) as (y & E & Hy); [done..|] end.
  rewrite (bind_Ret _ _ _ _ _ E). eexists. split; [reflexivity|].
  split; [exact Hy|]. by apply inserted_ok.
Qed.

Lemma runAfter_frame delay cb w :
  loop_ok (w_loop w) -> 0 <= delay <= max_delay ->
  let l' := scheduled_timer (now_of w + delay * 1000000) 0 false cb (w_loop w) in
  exists y, runAfter delay cb w = Ret (Value (m_nextTimerId (w_loop w))) (World l' (w_obj w) y) /\
    R (snd (steady_now (w_sys w))) y /\ loop_ok l'.
Proof.
  intros Hw Hd. unfold runAfter. destruct (Z.ltb_spec delay 0); [lia|].
  apply schedule_frame; [done|done|unfold max_delay; lia].
Qed.

Lemma runEvery_frame iv cb w :
  loop_ok (w_loop w) -> 0 < iv <= max_delay ->
  let l' := scheduled_timer (now_of w + iv * 1000000) iv true cb (w_loop w) in
  exists y, runEvery iv cb w = Ret (Value (m_nextTimerId (w_loop w))) (World l' (w_obj w) y) /\
    R (snd (steady_now (w_sys w))) y /\ loop_ok l'.
Proof.
  intros Hw Hd. unfold runEvery. destruct (Z.leb_spec iv 0); [lia|]. apply schedule_frame; [done|lia|lia].
Qed.
End Frames.

(** ** Progress *)

(** [epoll_of] and [timer_of] are the descriptors of the epoll instance and of
    the timer whose instant is [deadline].
    - a poll ([timeout] 0) of the epoll instance does not fail: of the errors
      of epoll_wait(2) only an interruption is left, and a poll does not wait;
    - when the timer is registered and its instant has passed, [epoll_wait]
      reports it, if there is room for all the registered descriptors, and a
      read returns its 8 bytes (timerfd_create(2));
    - time does not go back while [epoll_wait] waits, or a descriptor is closed or
      enters or leaves the interest list. *)
Class WakingKernel (Y : Type) `{RL : ReactorLaws Y} := {
  epoll_of : Y -> Z;
  timer_of : Y -> Z;
  fds_now y : epoll_of (snd (steady_now y)) = epoll_of y /\ timer_of (snd (steady_now y)) = timer_of y;
  fds_settime f flags v y :
    epoll_of (snd (timerfd_settime f flags v y)) = epoll_of y /\
    timer_of (snd (timerfd_settime f flags v y)) = timer_of y;
  fds_read f y : epoll_of (snd (timerfd_read f y)) = epoll_of y /\ timer_of (snd (timerfd_read f y)) = timer_of y;
  fds_wait e n t y :
    epoll_of (snd (epoll_wait e n t y)) = epoll_of y /\ timer_of (snd (epoll_wait e n t y)) = timer_of y;
  fds_ctl e f m p y :
    (epoll_of (snd (epoll_ctl_add e f m p y)) = epoll_of y /\ timer_of (snd (epoll_ctl_add e f m p y)) = timer_of y) /\
    (epoll_of (snd (epoll_ctl_del e f y)) = epoll_of y /\ timer_of (snd (epoll_ctl_del e f y)) = timer_of y);
  wait_clock e n t y : clock y <= clock (snd (epoll_wait e n t y));
  close_clock f y : clock y <= clock (snd (close f y));
  ctl_clock e f m p y :
    clock y <= clock (snd (epoll_ctl_add e f m p y)) /\ clock y <= clock (snd (epoll_ctl_del e f y));
  wait_polls n y : 0 < n -> is_Some (fst (epoll_wait (epoll_of y) n 0 y));
  wait_wakes n t y p d :
    0 < n -> Z.of_nat (size (registered y)) <= n ->
    registered y !! timer_of y = Some p -> deadline y = Some d -> d <= clock y ->
    exists evs, fst (epoll_wait (epoll_of y) n t y) = Some evs /\ p ∈ evs;
  read_due y d : deadline y = Some d -> d <= clock y -> fst (timerfd_read (timer_of y) y) = 8
}.

(** Calls of the packet handlers have nothing to do with the reactor's part of
    the kernel. *)
Class QuietCalls {Y : Type} `{WK : WakingKernel Y} (emit : delivery -> Y -> Y) : Prop := {
  emit_frame d y :
    clock (emit d y) = clock y /\ deadline (emit d y) = deadline y /\ registered (emit d y) = registered y /\
    epoll_of (emit d y) = epoll_of y /\ timer_of (emit d y) = timer_of y
}.

(** A record of the calls of the packet handlers, oldest first, each with the
    instant it was made at; the kernel does not write it. *)
Class CallTrace {Y : Type} `{WK : WakingKernel Y} (emit : delivery -> Y -> Y) := {
  trace_quiet :: QuietCalls emit;
  call_trace : Y -> list (Z * delivery);
  trace_emit d y : call_trace (emit d y) = call_trace y ++ [(clock y, d)];
  trace_now y : call_trace (snd (steady_now y)) = call_trace y;
  trace_settime f flags v y : call_trace (snd (timerfd_settime f flags v y)) = call_trace y;
  trace_read f y : call_trace (snd (timerfd_read f y)) = call_trace y;
  trace_wait e n t y : call_trace (snd (epoll_wait e n t y)) = call_trace y;
  trace_ctl e f m p y :
    call_trace (snd (epoll_ctl_add e f m p y)) = call_trace y /\ call_trace (snd (epoll_ctl_del e f y)) = call_trace y
}.

(** Calls of the packet handlers go to the memory of the application, which
    the kernel does not write. *)
Class AppMemory {Y : Type} `{WK : WakingKernel Y} (L : Type) (emit : delivery -> Y -> Y) := {
  memory_quiet :: QuietCalls emit;
  memory : Y -> L;
  note : L -> delivery -> L;
  memory_emit d y : memory (emit d y) = note (memory y) d;
  memory_now y : memory (snd (steady_now y)) = memory y;
  memory_settime f flags v y : memory (snd (timerfd_settime f flags v y)) = memory y;
  memory_read f y : memory (snd (timerfd_read f y)) = memory y;
  memory_wait e n t y : memory (snd (epoll_wait e n t y)) = memory y;
  memory_ctl e f m p y :
    memory (snd (epoll_ctl_add e f m p y)) = memory y /\ memory (snd (epoll_ctl_del e f y)) = memory y
}.

(** A call that has nothing to do with the timer and the epoll instance. *)
Definition undisturbed {Y} `{WK : WakingKernel Y} (y y' : Y) : Prop :=
  clock y <= clock y' /\ deadline y' = deadline y /\ registered y' = registered y /\
  epoll_of y' = epoll_of y /\ timer_of y' = timer_of y.

(** The calls before the loop runs: the descriptors the two constructors
    return are those of the epoll instance and of the timer; the calls on
    files and mappings disturb neither; the program has one thread. *)
Class StartupLaws (Y : Type) `{WK : WakingKernel Y} {MK : MemoryKernel Y} {FK : FileKernel Y} := {
  epoll_created flags y :
    clock y <= clock (snd (epoll_create1 flags y)) /\
    (0 <= fst (epoll_create1 flags y) ->
       epoll_of (snd (epoll_create1 flags y)) = fst (epoll_create1 flags y));
  timer_created c flags y :
    clock y <= clock (snd (timerfd_create c flags y)) /\
    epoll_of (snd (timerfd_create c flags y)) = epoll_of y /\
    (0 <= fst (timerfd_create c flags y) ->
       timer_of (snd (timerfd_create c flags y)) = fst (timerfd_create c flags y));
  mmap_undisturbed len flags y : undisturbed y (snd (mmap_anon len flags y));
  open_undisturbed path y : undisturbed y (snd (open_rdonly path y));
  fstat_undisturbed f y : undisturbed y (snd (fstat_size f y));
  mmap_file_undisturbed len f y : undisturbed y (snd (mmap_file len f y));
  madvise_undisturbed a len y : undisturbed y (snd (madvise a len y));
  munmap_clock a len y : clock y <= clock (snd (munmap a len y));
  one_thread y y' : this_thread_id y' = this_thread_id y
}.

(** The table of the open descriptors of the process: a call that returns a
    descriptor enters a new one, a call that fails or has nothing to do with
    descriptors leaves the table as it is, [close] takes one out. *)
Definition enters {Y} (live : Y -> gset Z) (r : Z) (y y' : Y) : Prop :=
  live y' = (if 0 <=? r then {[r]} ∪ live y else live y) /\ (0 <= r -> r ∉ live y).

Class DescriptorTable (Y : Type) `{ReactorKernel Y} {MK : MemoryKernel Y} {FK : FileKernel Y} := {
  live_fds : Y -> gset Z;
  live_epoll flags y : enters live_fds (fst (epoll_create1 flags y)) y (snd (epoll_create1 flags y));
  live_timer c flags y : enters live_fds (fst (timerfd_create c flags y)) y (snd (timerfd_create c flags y));
  live_open path y : enters live_fds (fst (open_rdonly path y)) y (snd (open_rdonly path y));
  live_close f y : live_fds (snd (close f y)) = live_fds y ∖ {[f]};
  live_add e f m p y : live_fds (snd (epoll_ctl_add e f m p y)) = live_fds y;
  live_mmap len flags y : live_fds (snd (mmap_anon len flags y)) = live_fds y;
  live_munmap a len y : live_fds (snd (munmap a len y)) = live_fds y
}.

(** What the loop leaves unchanged while it runs, the handlers of packets
    aside: only time passes. *)
Definition quiet {Y L : Type} {emit} `{AM : AppMemory Y L emit} (y y' : Y) : Prop :=
  clock y <= clock y' /\ registered y' = registered y /\
  epoll_of y' = epoll_of y /\ timer_of y' = timer_of y /\ memory y' = memory y.

#[export] Instance quiet_frame {Y L : Type} {emit} `{AM : AppMemory Y L emit} :
  ReactorFrame (quiet (Y := Y) (L := L) (emit := emit)).
Proof.
  split; [split|]; unfold quiet.
  - split; [intros y; split_and!; done || lia|].
    intros y1 y2 y3 (? & ? & ? & ? & ?) (? & ? & ? & ? & ?). split_and!; [lia|congruence..].
  - intros y. pose proof (steady_now_clock y). pose proof (steady_now_frame y). pose proof (fds_now y).
    split_and!; [lia|naive_solver..|apply memory_now].
  - intros f flags v y. pose proof (settime_frame f flags v y). pose proof (fds_settime f flags v y).
    split_and!; [naive_solver..|apply memory_settime].
  - intros f y. pose proof (read_frame f y). pose proof (fds_read f y).
    split_and!; [naive_solver..|apply memory_read].
  - intros e n t y. pose proof (epoll_wait_frame e n t y). pose proof (fds_wait e n t y).
    split_and!; [apply wait_clock|naive_solver..|apply memory_wait].
Qed.

(** ** The calls of the handlers, seen from the kernel *)

Section Calls.
Context {Y : Type} {emit} `{QC : QuietCalls Y emit}.

Lemma emit_all_frame ds y :
  clock (emit_all emit ds y) = clock y /\ deadline (emit_all emit ds y) = deadline y /\
  registered (emit_all emit ds y) = registered y /\
  epoll_of (emit_all emit ds y) = epoll_of y /\ timer_of (emit_all emit ds y) = timer_of y.
Proof.
  revert y. induction ds as [|d ds IH]; intros y; [done|].
  change (emit_all emit (d :: ds) y) with (emit_all emit ds (emit d y)).
  destruct (IH (emit d y)) as (-> & -> & -> & -> & ->).
  by destruct (emit_frame d y) as (-> & -> & -> & -> & ->).
Qed.

Lemma emit_all_memory {L : Type} {AM : AppMemory L emit} ds y : memory (emit_all emit ds y) = foldl note (memory y) ds.
Proof.
  revert y. induction ds as [|d ds IH]; intros y; [done|].
  change (emit_all emit (d :: ds) y) with (emit_all emit ds (emit d y)). cbn [foldl].
  by rewrite IH, memory_emit.
Qed.

(** The calls are made one after the other, without a call of the kernel
    between them. *)
Lemma emit_all_trace {CT : CallTrace emit} ds y :
  call_trace (emit_all emit ds y) = call_trace y ++ ((fun d => (clock y, d)) <$> ds).
Proof.
  revert y. induction ds as [|d ds IH]; intros y; [symmetry; apply app_nil_r|].
  change (emit_all emit (d :: ds) y) with (emit_all emit ds (emit d y)).
  rewrite IH, trace_emit, <- app_assoc. by rewrite (proj1 (emit_frame (emit := emit) d y)).
Qed.
End Calls.

(** ** Construction of the loop *)

Section Construction.
Context {T O Y L : Type} `{SL : StartupLaws Y}.
(** Some memory that the calls of the constructor leave alone. *)
Context (mem : Y -> L).
Hypothesis Hepoll : forall flags y, mem (snd (epoll_create1 flags y)) = mem y.
Hypothesis Htimer : forall c flags y, mem (snd (timerfd_create c flags y)) = mem y.
Hypothesis Hadd : forall e f m p y, mem (snd (epoll_ctl_add e f m p y)) = mem y.
Implicit Types w : world T O Y.

(** The one call [addSource] makes. *)
Lemma addSource_call f mask h w :
  0 <= f -> exists r w' e p, addSource f mask h w = Ret r w' /\
    w_sys w' = snd (epoll_ctl_add e f mask p (w_sys w)) /\
    m_epoll_fd (w_loop w') = m_epoll_fd (w_loop w) /\ m_timer_fd (w_loop w') = m_timer_fd (w_loop w).
Proof.
  intros Hf. unfold addSource. destruct (Z.ltb_spec f 0); [lia|].
  destruct (store_source_spec f h w) as (p & w1 & E & _ & _ & _ & _ & (_ & _ & _ & _ & He & Ht) & _ & Hs).
  rewrite (bind_Ret _ _ _ _ _ E). run_steps. rewrite Hs.
  destruct (fst (epoll_ctl_add (fd (m_epoll_fd (w_loop w1))) f mask p (w_sys w)) =? -1); run_steps;
    (eexists _, _, (fd (m_epoll_fd (w_loop w1))), p; split; [reflexivity|done]).
Qed.

(** The descriptors of a new loop are the kernel's. *)
Lemma EventLoop_new_fds w :
  wp EventLoop_new (fun _ w' =>
    fd (m_epoll_fd (w_loop w')) = epoll_of (w_sys w') /\ fd (m_timer_fd (w_loop w')) = timer_of (w_sys w') /\
    clock (w_sys w) <= clock (w_sys w') /\ mem (w_sys w') = mem (w_sys w)) (fun _ _ => True) w.
Proof.
  unfold EventLoop_new, wp. run_steps.
  pose proof (epoll_created 0 (w_sys w)) as [Hc0 He]. set (ep := fst (epoll_create1 0 (w_sys w))) in *.
  cbn [w_sys with_sys]. set (y0 := snd (epoll_create1 0 (w_sys w))) in *.
  pose proof (timer_created CLOCK_MONOTONIC (Z.lor TFD_NONBLOCK TFD_CLOEXEC) y0) as (Hc1 & He1 & Ht).
  set (tf := fst (timerfd_create _ _ y0)) in *. set (y1 := snd (timerfd_create _ _ y0)) in *.
  set (w1 := with_loop _ _).
  destruct (destroy_two_run (MkScopedFd tf) (MkScopedFd ep) w1) as (yc & Ec).
  unfold on_throw.
  destruct (Z.ltb_spec ep 0); [cbn; by rewrite Ec|]. destruct (Z.ltb_spec tf 0); [cbn; by rewrite Ec|].
  destruct (addSource_call tf EPOLLIN TimerTag w1) as (r & w2 & e & p & E & Hs & Hep & Htf); [done|].
  rewrite (bind_Ret _ _ _ _ _ E). unfold ResultVoid.value. destruct (ec_bool (m_ec r)).
  - cbn. destruct (destroy_two_run (MkScopedFd tf) (MkScopedFd ep) w2) as (yc' & Ec'). by rewrite Ec'.
  - destruct (fds_ctl e tf EPOLLIN p y1) as [[He2 Ht2] _]. pose proof (ctl_clock e tf EPOLLIN p y1) as [Hc2 _].
    cbn. rewrite Hep, Htf, Hs. change (w_sys w1) with y1. rewrite He2, Ht2, He1, Ht, He by lia.
    split_and!; [done|done|lia|]. unfold y1, y0. by rewrite Hadd, Htimer, Hepoll.
Qed.

(** A new loop has two new descriptors. *)
Lemma EventLoop_new_live {DT : DescriptorTable Y} w :
  wp EventLoop_new (fun _ w' =>
    let ep := fd (m_epoll_fd (w_loop w')) in let tf := fd (m_timer_fd (w_loop w')) in
    0 <= ep /\ 0 <= tf /\ ep ∉ live_fds (w_sys w) /\ tf ∉ {[ep]} ∪ live_fds (w_sys w) /\
    live_fds (w_sys w') = {[tf]} ∪ ({[ep]} ∪ live_fds (w_sys w))) (fun _ _ => True) w.
Proof.
  unfold EventLoop_new, wp. run_steps.
  pose proof (live_epoll 0 (w_sys w)) as [He Hne]. set (ep := fst (epoll_create1 0 (w_sys w))) in *.
  cbn [w_sys with_sys]. set (y0 := snd (epoll_create1 0 (w_sys w))) in *.
  pose proof (live_timer CLOCK_MONOTONIC (Z.lor TFD_NONBLOCK TFD_CLOEXEC) y0) as [Ht Hnt].
  set (tf := fst (timerfd_create _ _ y0)) in *. set (y1 := snd (timerfd_create _ _ y0)) in *.
  set (w1 := with_loop _ _).
  destruct (destroy_two_run (MkScopedFd tf) (MkScopedFd ep) w1) as (yc & Ec). unfold on_throw.
  destruct (Z.ltb_spec ep 0); [cbn; by rewrite Ec|]. destruct (Z.ltb_spec tf 0); [cbn; by rewrite Ec|].
  destruct (addSource_call tf EPOLLIN TimerTag w1) as (r & w2 & e & p & E & Hs & Hep & Htf); [done|].
  rewrite (bind_Ret _ _ _ _ _ E). unfold ResultVoid.value. destruct (ec_bool (m_ec r)).
  - cbn. destruct (destroy_two_run (MkScopedFd tf) (MkScopedFd ep) w2) as (yc' & Ec'). by rewrite Ec'.
  - cbn. rewrite Hep, Htf, Hs, live_add. change (w_sys w1) with y1. cbn [w1 w_loop with_loop m_epoll_fd m_timer_fd fd].
    destruct (Z.leb_spec 0 ep); [|lia]. destruct (Z.leb_spec 0 tf); [|lia]. rewrite He in *. by split_and!; auto.
Qed.
End Construction.

(** ** The simulated kernel *)

#[export] Program Instance sim_waking : WakingKernel sim := {
  epoll_of := s_epoll_fd;
  timer_of := s_timer_fd
}.
Solve Obligations with done.
Next Obligation. intros f flags v y. cbn. unfold Sim.settime. by destruct (ns_of v =? 0). Qed.
Next Obligation. intros f y. cbn. unfold Sim.read_timer. by destruct (Sim.timer_due y). Qed.
Next Obligation. intros e n t y. cbn. unfold Sim.wait. by destruct (n <=? 0). Qed.
Next Obligation. intros e f m p y. cbn. unfold Sim.ctl_add, Sim.ctl_del. by destruct (s_registered y !! f). Qed.
Next Obligation. intros e n t y. cbn. unfold Sim.wait. destruct (n <=? 0); [apply Z.le_refl|apply sim_pass_time]. Qed.
Next Obligation.
  intros e f m p y. cbn. unfold Sim.ctl_add, Sim.ctl_del. destruct (s_registered y !! f); (split; unfold Sim.clk; cbn; lia).
Qed.
Next Obligation. intros n y Hn. cbn. unfold Sim.wait. destruct (Z.leb_spec n 0); [lia|]. by eexists. Qed.
Next Obligation.
  intros n t y p d Hn Hsize Hp Hd Hle. cbn in *. unfold Sim.wait. destruct (Z.leb_spec n 0); [lia|].
  eexists. split; [reflexivity|]. unfold Sim.ready_events. rewrite take_ge.
  - apply list_elem_of_fmap. exists (s_timer_fd y, p). split; [done|]. apply list_elem_of_filter.
    split; [|by apply elem_of_map_to_list]. cbn. unfold Sim.fd_ready, Sim.timer_due. cbn. rewrite Z.eqb_refl, Hd.
    apply Z.leb_le. etransitivity; [exact Hle|]. apply sim_pass_time.
  - rewrite length_fmap.
    assert (Hl : forall (P : Z * source_ptr -> Prop) (HP : forall x, Decision (P x)) l, (length (filter P l) <= length l)%nat)
      by (intros; apply length_filter).
    etransitivity; [apply Hl|]. rewrite length_map_to_list. cbn. lia.
Qed.
Next Obligation.
  intros y d Hd Hle. cbn in *. unfold Sim.read_timer, Sim.timer_due. rewrite Hd. by apply Z.leb_le in Hle as ->.
Qed.

#[export] Instance sim_quiet : QuietCalls Sim.add_log.
Proof. done. Qed.

#[export] Program Instance sim_call_trace : CallTrace Sim.add_log := {
  call_trace := s_calls
}.
Solve Obligations with done.
Next Obligation. intros f flags v y. cbn. unfold Sim.settime. by destruct (ns_of v =? 0). Qed.
Next Obligation. intros f y. cbn. unfold Sim.read_timer. by destruct (Sim.timer_due y). Qed.
Next Obligation. intros e n t y. cbn. unfold Sim.wait. by destruct (n <=? 0). Qed.
Next Obligation. intros e f m p y. cbn. unfold Sim.ctl_add, Sim.ctl_del. by destruct (s_registered y !! f). Qed.

#[export] Program Instance sim_memory_log : AppMemory (list delivery) Sim.add_log := {
  memory := s_log;
  note l d := l ++ [d]
}.
Solve Obligations with done.
Next Obligation. intros d y. unfold s_log. cbn. by rewrite fmap_app. Qed.
Next Obligation. intros f flags v y. cbn. unfold Sim.settime. by destruct (ns_of v =? 0). Qed.
Next Obligation. intros f y. cbn. unfold Sim.read_timer. by destruct (Sim.timer_due y). Qed.
Next Obligation. intros e n t y. cbn. unfold Sim.wait. by destruct (n <=? 0). Qed.
Next Obligation. intros e f m p y. cbn. unfold Sim.ctl_add, Sim.ctl_del. by destruct (s_registered y !! f). Qed.

Lemma sim_undisturbed (s s' : sim) :
  s_clock s' = s_clock s -> s_deadline s' = s_deadline s -> s_registered s' = s_registered s ->
  s_epoll_fd s' = s_epoll_fd s -> s_timer_fd s' = s_timer_fd s -> undisturbed s s'.
Proof.
  intros Hc Hd Hr He Ht. split_and!; cbn; [unfold Sim.clk; rewrite Hc; lia|done..].
Qed.


#[export] Program Instance sim_startup : StartupLaws sim.
Next Obligation. intros flags y. cbn. split; [unfold Sim.clk; cbn; lia|done]. Qed.
Next Obligation. intros c flags y. cbn. split_and!; [unfold Sim.clk; cbn; lia|done..]. Qed.
Next Obligation.
  intros len flags y. apply sim_undisturbed; cbn; destruct (_ && _); try done; unfold Sim.do_mmap;
    by destruct (len <=? 0).
Qed.
Next Obligation.
  intros path y. apply sim_undisturbed; cbn; unfold Sim.do_open;
    by destruct (list_find _ _) as [[? []]|].
Qed.
Next Obligation. intros f y. apply sim_undisturbed; cbn; by destruct (s_fd_file y !! f). Qed.
Next Obligation.
  intros len f y. apply sim_undisturbed; cbn; unfold Sim.do_mmap_file; destruct (s_fd_file y !! f); try done;
    by destruct (len <=? 0).
Qed.
Next Obligation. intros a len y. by apply sim_undisturbed. Qed.
Next Obligation. intros a len y. cbn. unfold Sim.clk. cbn. lia. Qed.
Next Obligation. done. Qed.

Lemma sim_new_fd_enters (s : sim) : enters s_open (fst (Sim.new_fd s)) s (snd (Sim.new_fd s)).
Proof.
  split; [|intros _; apply fresh_fd_closed]. destruct (fresh_fd_above s) as (_ & Hlow & _).
  cbn. destruct (Z.leb_spec 0 (Sim.fresh_fd s)); [done|lia].
Qed.

#[export] Program Instance sim_descriptors : DescriptorTable sim := {
  live_fds := s_open
}.
Next Obligation. intros flags y. apply (sim_new_fd_enters (Sim.set_registered ∅ y)). Qed.
Next Obligation. intros c flags y. apply (sim_new_fd_enters y). Qed.
Next Obligation.
  intros path y. cbn. unfold Sim.do_open. destruct (list_find _ _) as [[? [? ?]]|]; [apply (sim_new_fd_enters y)|].
  by split; [|cbn; lia].
Qed.
Next Obligation. done. Qed.
Next Obligation. intros e f m p y. cbn. unfold Sim.ctl_add. by destruct (s_registered y !! f). Qed.
Next Obligation.
  intros len flags y. cbn. destruct (_ && _); [done|]. unfold Sim.do_mmap. by destruct (len <=? 0).
Qed.
Next Obligation. done. Qed.
