(* ===== verification/TimerService.v ===== *)
(** The contract of the timers: an abstract service, with a map from
    identifiers to timers and no queue, no index and no descriptor; and the
    proof that the loop implements it.

    An operation of the loop and its specification are related by [simulates]: from
    states related by [Rel], whenever the operation returns, the abstract
    service can make the step the specification describes and the states are
    related again.  [simulates] is closed under composition, so the callbacks, which
    may use the whole interface, are given by their own specifications.

    Identifiers are 64-bit; the service promises nothing once all of them have
    been given out ([exhausted]). *)
From S2P Require Import Prelude Outcome Result Kernel SimKernel ScopedFd TimerQueue EventLoop Recorder.
From S2P Require Import EventLoopFacts TimerFacts SourceFacts DispatchFacts Waking.

(** ** The abstract service *)

(** [s_now] is the last instant read from the clock, [s_fired] the timers
    fired so far, oldest first. *)
Record service (T : Type) := Service {
  s_timers : gmap Z (Timer T);
  s_next : Z;
  s_now : Z;
  s_fired : list (Timer T)
}.
Arguments Service {T}.
Arguments s_timers {T} s : rename.
Arguments s_next {T} s : rename.
Arguments s_now {T} s : rename.
Arguments s_fired {T} s : rename.

Section Service.
Context {T : Type}.
Implicit Types (s : service T) (t : Timer T).

Definition exhausted s : Prop := 2 ^ 64 <= s_next s.

(** A timer under a new identifier, [delay] milliseconds after an instant
    read from the clock. *)
Definition scheduled (delay iv : Z) (rep : bool) (cb : option T) s (r : Result Z) s' : Prop :=
  exhausted s /\ s' = s \/ exists now, s_now s <= now /\ r = Value (s_next s) /\
    s' = Service (<[s_next s := MkTimer (now + delay * 1000000) iv cb (s_next s) rep]> (s_timers s))
           (s_next s + 1) now (s_fired s).

Definition spec_runAfter (delay : Z) (cb : option T) s (r : Result Z) s' : Prop :=
  if delay <? 0 then r = Error (ErrorCode EINVAL system_category) /\ s' = s
  else scheduled delay 0 false cb s r s'.

Definition spec_runEvery (iv : Z) (cb : option T) s (r : Result Z) s' : Prop :=
  if iv <=? 0 then r = Error (ErrorCode EINVAL system_category) /\ s' = s
  else scheduled iv iv true cb s r s'.

Definition spec_cancelTimer (id : Z) s (r : ResultVoid) s' : Prop :=
  exhausted s /\ s' = s \/
  match s_timers s !! id with
  | None => r = ResultVoid.fail (ErrorCode ENOENT system_category) /\ s' = s
  | Some _ => r = ResultVoid.success /\ s' = Service (delete id (s_timers s)) (s_next s) (s_now s) (s_fired s)
  end.

(** No identifier comes back: what is in the map was there, or is new. *)
Definition grows s s' : Prop :=
  s_next s <= s_next s' /\ forall id, is_Some (s_timers s' !! id) -> is_Some (s_timers s !! id) \/ s_next s <= id.

#[export] Instance grows_order : PreOrder grows.
Proof.
  split; [intros s; split; [lia|by left]|].
  intros s1 s2 s3 [H1 G1] [H2 G2]. split; [lia|]. intros id Hid.
  destruct (G2 id Hid) as [H|H]; [|right; lia]. by apply G1.
Qed.

(** The operations bring no identifier back. *)
Lemma scheduled_grows delay iv rep cb s r s' : scheduled delay iv rep cb s r s' -> grows s s'.
Proof.
  intros [[_ ->]|(now & _ & _ & ->)]; [done|]. split; [cbn; lia|]. cbn.
  intros id [u [[<- _]|[_ Hu]]%lookup_insert_Some]; [by right|left; by exists u].
Qed.

Lemma spec_cancelTimer_grows id s r s' : spec_cancelTimer id s r s' -> grows s s'.
Proof.
  intros [[_ ->]|H]; [done|]. destruct (s_timers s !! id); destruct H as [_ ->]; [|done].
  split; [cbn; lia|]. cbn. intros id' [u [_ Hu]%lookup_delete_Some]. left. by exists u.
Qed.

(** ** Expiration *)

(** The specifications of the callbacks. *)
Context (cb_spec : T -> service T -> service T -> Prop).

Definition note_fired t s : service T := Service (s_timers s) (s_next s) (s_now s) (s_fired s ++ [t]).

(** A repeating timer comes back under its identifier, one interval later. *)
Definition again t s : service T :=
  if repeat t
  then Service (<[timer_id t := MkTimer (expiration t + interval t * 1000000) (interval t) (callback t)
                                  (timer_id t) true]> (s_timers s)) (s_next s) (s_now s) (s_fired s)
  else s.

(** The timers of a list fire one after the other. *)
Inductive fires : list (Timer T) -> service T -> service T -> Prop :=
| fires_nil s : fires [] s s
| fires_cons t ts s s1 s' :
    match callback t with Some cb => cb_spec cb (note_fired t s) s1 | None => s1 = note_fired t s end ->
    fires ts (again t s1) s' -> fires (t :: ts) s s'.

(** At an instant read from the clock, all the timers that are due leave the
    map and fire, the earliest first; or the wake-up was spurious. *)
Definition expires s s' : Prop :=
  exhausted s /\ grows s s' \/ s' = s \/ exists now due, s_now s <= now /\ tsorted due /\
    (forall t, t ∈ due <-> s_timers s !! timer_id t = Some t /\ expiration t <= now) /\
    fires due (Service (filter (fun p => ~ expiration (snd p) <= now) (s_timers s)) (s_next s) now (s_fired s)) s'.

(** One turn of the loop: expirations, callbacks deferred with [runInLoop],
    and reads of sockets, in any order. *)
Context (read_spec : Z -> Z -> Z -> Z -> service T -> service T -> Prop).

Inductive turn_step s s' : Prop :=
| turn_expires : expires s s' -> turn_step s s'
| turn_task cb : cb_spec cb s s' -> turn_step s s'
| turn_read receiver f ctx h : read_spec receiver f ctx h s s' -> turn_step s s'.
End Service.

(** ** The refinement relation *)

Section Refinement.
Context {T O Y : Type} {RK : ReactorKernel Y} {RL : ReactorLaws Y} {WK : WakingKernel Y}.
Notation W := (world T O Y).
Implicit Types (w : W) (s : service T) (t : Timer T) (l : EventLoop T).
(** What the memory of the application owes to the timers fired so far. *)
Context (J : list (Timer T) -> O -> Prop).

Record agrees s l : Prop := {
  ag_timers : forall t, t ∈ m_timers l <-> s_timers s !! timer_id t = Some t;
  ag_ids : forall id t, s_timers s !! id = Some t -> timer_id t = id;
  ag_active : forall id, m_activeTimers l !! id = key_of <$> (s_timers s !! id);
  ag_next : m_nextTimerId l = s_next s;
  ag_pos : 0 <= s_next s;
  ag_fresh : forall id, is_Some (s_timers s !! id) -> id < s_next s
}.

Record Rel s w : Prop := {
  rel_ok : loop_ok (w_loop w);
  rel_now : s_now s <= clock (w_sys w);
  rel_obj : J (s_fired s) (w_obj w);
  rel_agrees : s_next s < 2 ^ 64 -> agrees s (w_loop w)
}.

Definition simulates {A} (m : M W A) (P : service T -> A -> service T -> Prop) : Prop :=
  forall w s a w', Rel s w -> m w = Ret a w' -> exists s', P s a s' /\ Rel s' w'.

(** Only time passes. *)
Definition later (y y' : Y) : Prop := clock y <= clock y'.

#[export] Instance later_frame : ReactorFrame later.
Proof.
  split; [split|]; unfold later.
  - split; [intros y; lia|intros y1 y2 y3; lia].
  - intros y. destruct (steady_now_clock y). lia.
  - intros f flags v y. apply settime_frame.
  - intros f y. apply read_frame.
  - intros e n t y. apply wait_clock.
Qed.

Lemma Rel_later s l (o : O) y y' : Rel s (World l o y) -> later y y' -> Rel s (World l o y').
Proof. intros [Hok Hn Hj Ha] Hl. split; [done|cbn in *; unfold later in Hl; lia|done|done]. Qed.

Lemma Rel_exhausted s w w' :
  exhausted s -> loop_ok (w_loop w') -> later (w_sys w) (w_sys w') -> w_obj w' = w_obj w -> Rel s w -> Rel s w'.
Proof. intros He Hok Hl Ho [_ Hn Hj _]. unfold later, exhausted in *. split; [done|lia|by rewrite Ho|lia]. Qed.

(** A timer under an identifier that is not in use. *)
Lemma agrees_insert s l t next now fired :
  agrees s l -> s_timers s !! timer_id t = None -> timer_id t < next -> s_next s <= next ->
  agrees (Service (<[timer_id t := t]> (s_timers s)) next now fired) (set_next next (inserted t l)).
Proof.
  intros [Ht Hid Ha _ Hpos Hf] Hnone Hlt Hle.
  assert (Hne : forall u, u ∈ m_timers l -> timer_id u <> timer_id t).
  { intros u Hu E. apply Ht in Hu. by rewrite E, Hnone in Hu. }
  split; cbn.
  - intros u. split.
    + intros [->|Hu]%set_insert_elem_1; [apply lookup_insert_eq|].
      rewrite lookup_insert_ne by (by apply not_eq_sym, Hne). by apply Ht.
    + intros [[_ <-]|[_ Hu]]%lookup_insert_Some.
      * apply set_insert_elem_new. intros v Hv E. apply (Hne v Hv). by injection E.
      * by apply set_insert_elem_old, Ht.
  - intros id u [[<- <-]|[_ Hu]]%lookup_insert_Some; [done|by apply Hid].
  - intros id. rewrite !lookup_insert. by case_decide.
  - done.
  - lia.
  - intros id [u [[<- _]|[_ Hu]]%lookup_insert_Some]; [done|]. assert (id < s_next s) by (by apply Hf). lia.
Qed.
(** ** The operations *)

(** A frame gives the state of the loop; the kernel is only later. *)
Lemma scheduled_sim delay iv rep cb w s w' :
  Rel s w -> 0 <= delay <= max_delay -> 0 <= iv <= max_delay ->
  w_loop w' = scheduled_timer (now_of w + delay * 1000000) iv rep cb (w_loop w) ->
  loop_ok (w_loop w') -> later (snd (steady_now (w_sys w))) (w_sys w') -> w_obj w' = w_obj w ->
  exists s', scheduled delay iv rep cb s (Value (m_nextTimerId (w_loop w))) s' /\ Rel s' w'.
Proof.
  intros HR Hd Hi Hl Hok Hlater Hobj. destruct (steady_now_clock (w_sys w)) as [Hc1 Hc2].
  assert (Hclk : later (w_sys w) (w_sys w')) by (unfold later in *; lia).
  destruct (decide (s_next s < 2 ^ 64)) as [Hlt|Hge].
  - pose proof (rel_agrees _ _ HR Hlt) as Hag. pose proof (rel_now _ _ HR) as Hnow.
    set (t := MkTimer (now_of w + delay * 1000000) iv cb (s_next s) rep).
    exists (Service (<[s_next s := t]> (s_timers s)) (s_next s + 1) (now_of w) (s_fired s)). split.
    + right. exists (now_of w). rewrite (ag_next _ _ Hag). split_and!; [unfold now_of; lia|done|done].
    + split; [done|cbn; unfold later, now_of in *; lia|rewrite Hobj; apply HR|]. cbn [s_next]. intros Hlt'.
      rewrite Hl. unfold scheduled_timer. rewrite (ag_next _ _ Hag).
      replace (u64 (s_next s + 1)) with (s_next s + 1).
      * apply (agrees_insert s (w_loop w) t); [done| |cbn; lia|lia].
        apply eq_None_not_Some. intros Hsome. apply (ag_fresh _ _ Hag) in Hsome. cbn in Hsome. lia.
      * symmetry. apply u64_small. pose proof (ag_pos _ _ Hag). unfold is_u64. lia.
  - exists s. split; [left; unfold exhausted; split; [lia|done]|]. eapply Rel_exhausted; [unfold exhausted; lia|done..].
Qed.

Lemma runAfter_sim delay cb : delay <= max_delay -> simulates (runAfter delay cb) (spec_runAfter delay cb).
Proof.
  intros Hd w s a w' HR E. unfold spec_runAfter. destruct (Z.ltb_spec delay 0).
  - unfold runAfter in E. destruct (Z.ltb_spec delay 0); [|lia]. injection E as <- <-. by exists s.
  - destruct (runAfter_frame later delay cb w (rel_ok _ _ HR)) as (y & E' & Hl & Hok); [lia|].
    rewrite E in E'. injection E' as -> ->. apply (scheduled_sim _ _ _ _ w); try done; unfold max_delay; lia.
Qed.

Lemma runEvery_sim iv cb : iv <= max_delay -> simulates (runEvery iv cb) (spec_runEvery iv cb).
Proof.
  intros Hd w s a w' HR E. unfold spec_runEvery. destruct (Z.leb_spec iv 0).
  - unfold runEvery in E. destruct (Z.leb_spec iv 0); [|lia]. injection E as <- <-. by exists s.
  - destruct (runEvery_frame later iv cb w (rel_ok _ _ HR)) as (y & E' & Hl & Hok); [lia|].
    rewrite E in E'. injection E' as -> ->. apply (scheduled_sim _ _ _ _ w); try done; lia.
Qed.

Lemma cancelTimer_sim id : simulates (cancelTimer id) (spec_cancelTimer id).
Proof.
  intros w s a w' HR E. pose proof (rel_ok _ _ HR) as Hok. unfold cancelTimer in E. run_steps_in E.
  change (Datatypes.id (w_loop w)) with (w_loop w) in E.
  destruct (m_activeTimers (w_loop w) !! id) as [k|] eqn:Hk.
  - destruct (cancel_erase _ id k Hok Hk) as (t & timers & Ee & Ht & Hid & Hkey & Hin). rewrite Ee in E.
    run_steps_in E. pose proof (cancel_ok _ id k timers Hok Hk Ee) as Hok'.
    match type of E with (resetTimerFd ≫= _) ?w1 = _ =>
      destruct (resetTimerFd_frame later w1 Hok') as (y & Er & Hl); rewrite (bind_Ret _ _ _ _ _ Er) in E end.
    injection E as <- <-. cbn [w_loop w_obj w_sys with_loop] in *.
    destruct (decide (s_next s < 2 ^ 64)) as [Hlt|Hge].
    + pose proof (rel_agrees _ _ HR Hlt) as Hag. pose proof Hag as [Ht' Hid' Ha Hn Hpos Hf].
      exists (Service (delete id (s_timers s)) (s_next s) (s_now s) (s_fired s)). split.
      * right. pose proof (Ha id) as Hai. rewrite Hk in Hai. by destruct (s_timers s !! id).
      * split; [done|pose proof (rel_now _ _ HR); unfold later in Hl; cbn; lia|apply HR|]. intros _. split; cbn; try done.
        -- intros u. rewrite Hin, Ht', lookup_delete_Some. split.
           ++ intros [Hu Hne]. split; [|done]. intros E. apply Hne. apply Ht' in Ht. rewrite Hid, E in Ht.
              by rewrite Ht in Hu; injection Hu.
           ++ intros [Hne Hu]. split; [done|]. by intros ->.
        -- intros id' u [_ Hu]%lookup_delete_Some. by apply Hid'.
        -- intros id'. rewrite !lookup_delete, Ha. by case_decide.
        -- intros id' [u [_ Hu]%lookup_delete_Some]. apply Hf. by exists u.
    + exists s. assert (He : exhausted s) by (unfold exhausted; lia). split; [by left|].
      by apply (Rel_exhausted s w).
  - injection E as <- <-. exists s. split; [|done]. destruct (decide (s_next s < 2 ^ 64)) as [Hlt|Hge].
    + right. pose proof (ag_active _ _ (rel_agrees _ _ HR Hlt) id) as Ha. rewrite Hk in Ha.
      by destruct (s_timers s !! id).
    + left. unfold exhausted. split; [lia|done].
Qed.

(** ** Composition *)

Definition keeps (P : service T -> service T -> Prop) {A} s (_ : A) s' : Prop := P s s'.

Lemma sim_bind {A B} (m : M W A) (k : A -> M W B) P Q :
  simulates m P -> (forall a, simulates (k a) (Q a)) ->
  simulates (m ≫= k) (fun s b s' => exists a s1, P s a s1 /\ Q a s1 b s').
Proof.
  intros Hm Hk w s b w' HR (a & w1 & E1 & E2)%bind_Ret_inv.
  destruct (Hm w s a w1 HR E1) as (s1 & HP & HR1). destruct (Hk a w1 s1 b w' HR1 E2) as (s2 & HQ & HR2).
  eauto 10.
Qed.

Lemma sim_mret {A} (a : A) : simulates (mret a) (fun s b s' => b = a /\ s' = s).
Proof. intros w s b w' HR E. injection E as <- <-. by exists s. Qed.

Lemma sim_weaken {A} (m : M W A) P Q :
  (forall s a s', P s a s' -> Q s a s') -> simulates m P -> simulates m Q.
Proof. intros H Hm w s a w' HR E. destruct (Hm w s a w' HR E) as (s' & HP & HR'). eauto. Qed.

(** A loop over steps of a kind. *)
Lemma sim_for_each {A} (f : A -> M W unit) (P : service T -> service T -> Prop) (xs : list A) :
  (forall x, simulates (f x) (keeps P)) -> simulates (for_each xs f) (keeps (rtc P)).
Proof.
  intros Hf. induction xs as [|x xs IH]; intros w s a w' HR E.
  - injection E as <- <-. exists s. split; [apply rtc_refl|done].
  - apply bind_Ret_inv in E as ([] & w1 & E1 & E2). destruct (Hf x w s tt w1 HR E1) as (s1 & H1 & HR1).
    destruct (IH w1 s1 a w' HR1 E2) as (s2 & H2 & HR2). exists s2. split; [by eapply rtc_l|done].
Qed.
End Refinement.

(** ** Expiration and turns of the loop *)

(** What the loop needs of its callbacks to keep the contract: each does what
    its specification says, as a deferred task and as the callback of a timer,
    whose firing it then accounts for, and none brings an old identifier
    back. *)
Class TimerClient {T O Y : Type} {RK : ReactorKernel Y} {RL : ReactorLaws Y}
  (J : list (Timer T) -> O -> Prop)
  (run_task : T -> M (world T O Y) unit) (handleRead : Z -> Z -> Z -> Z -> M (world T O Y) unit)
  (cb_spec : T -> service T -> service T -> Prop)
  (read_spec : Z -> Z -> Z -> Z -> service T -> service T -> Prop) : Prop := {
  task_sim cb : simulates J (run_task cb) (keeps (cb_spec cb));
  timer_sim t cb : callback t = Some cb -> simulates J (run_task cb) (keeps (fun s s' => cb_spec cb (note_fired t s) s'));
  empty_fired t fired o : callback t = None -> J fired o -> J (fired ++ [t]) o;
  task_grows cb s s' : cb_spec cb s s' -> grows s s';
  read_sim receiver f ctx h : simulates J (handleRead receiver f ctx h) (keeps (read_spec receiver f ctx h))
}.

Section Expiration.
Context {T O Y : Type} {RK : ReactorKernel Y} {RL : ReactorLaws Y} {WK : WakingKernel Y}.
Notation W := (world T O Y).
Context (run_task : T -> M W unit) (handleRead : Z -> Z -> Z -> Z -> M W unit).
Context (cb_spec : T -> service T -> service T -> Prop).
Context (read_spec : Z -> Z -> Z -> Z -> service T -> service T -> Prop).
Context (J : list (Timer T) -> O -> Prop) {TC : TimerClient J run_task handleRead cb_spec read_spec}.
Notation Rel := (Rel J).
Notation simulates := (simulates J).
Implicit Types (w : W) (s : service T) (t : Timer T).

Definition cb_step t s s1 : Prop :=
  match callback t with Some cb => cb_spec cb (note_fired t s) s1 | None => s1 = note_fired t s end.

Lemma cb_step_grows t s s1 : cb_step t s s1 -> grows s s1.
Proof. unfold cb_step. destruct (callback t); [by intros H%task_grows|].
  intros ->. split; [cbn; lia|by left]. Qed.

(** A timer that was taken out of the map and has not fired yet. *)
Definition in_flight t s : Prop :=
  s_next s < 2 ^ 64 -> s_timers s !! timer_id t = None /\ timer_id t < s_next s.

Lemma in_flight_grows t s s' : in_flight t s -> grows s s' -> in_flight t s'.
Proof.
  intros Hf [Hle Hg] Hlt'. destruct Hf as [Hn Hlt]; [lia|]. split; [|lia]. apply eq_None_not_Some. intros Hs.
  destruct (Hg _ Hs) as [[u Hu]|H]; [congruence|lia].
Qed.

(** The end of [fire]: the timer comes back if it repeats. *)
Lemma again_sim t w s w' :
  Rel s w -> in_flight t s -> timer_ok t ->
  (if repeat t then
     ns ← s64 (interval t * 1000000); e ← s64 (expiration t + ns);
     insertTimer (MkTimer e (interval t) (callback t) (timer_id t) (repeat t))
   else mret tt) w = Ret tt w' -> Rel (again t s) w'.
Proof.
  intros HR Hfl Ht E. unfold again. destruct (repeat t) eqn:Er; [|by injection E as <-].
  apply bind_Ret_inv in E as (ns & w1 & E1 & E). apply s64_Ret in E1 as (-> & -> & _).
  apply bind_Ret_inv in E as (e & w1 & E1 & E). apply s64_Ret in E1 as (-> & -> & Hin).
  set (t' := MkTimer _ _ _ _ _) in *. assert (Ht' : timer_ok t').
  { destruct Ht as [? ?]. unfold is_s64 in Hin. split; cbn; lia. }
  destruct (insertTimer_frame later t' w (rel_ok _ _ _ HR) Ht') as (y & E' & Hl). rewrite E in E'. injection E' as ->.
  split; cbn [w_loop w_sys].
  - by apply inserted_ok, HR.
  - pose proof (rel_now _ _ _ HR). unfold later in Hl. cbn. lia.
  - apply HR.
  - cbn [s_next]. intros Hlt'. pose proof (rel_agrees _ _ _ HR Hlt') as Hag. destruct (Hfl Hlt') as [Hnone Hlt].
    assert (Hn : inserted t' (w_loop w) = set_next (s_next s) (inserted t' (w_loop w))).
    { rewrite <- (ag_next _ _ Hag). by destruct (w_loop w). }
    rewrite Hn. by apply (agrees_insert s (w_loop w) t').
Qed.

Lemma fire_sim t w s w' :
  Rel s w -> in_flight t s -> timer_ok t -> fire run_task t w = Ret tt w' ->
  exists s1, cb_step t s s1 /\ Rel (again t s1) w'.
Proof.
  intros HR Hfl Ht E. unfold fire in E. apply bind_Ret_inv in E as ([] & w1 & E1 & E2).
  assert (H1 : exists s1, cb_step t s s1 /\ Rel s1 w1).
  { unfold cb_step. destruct (callback t) as [cb|] eqn:Ecb; [by apply (timer_sim t cb Ecb w s tt w1 HR)|].
    injection E1 as <-. exists (note_fired t s). split; [done|]. destruct HR as [? ? Hj Ha].
    split; [done|done|by apply (empty_fired t)|]. intros Hlt. destruct (Ha Hlt). by split. }
  destruct H1 as (s1 & Hs1 & HR1). exists s1. split; [done|]. eapply again_sim; [done| |done|done].
  by eapply in_flight_grows, cb_step_grows.
Qed.

Lemma again_next t s : s_next (again t s) = s_next s.
Proof. unfold again. by destruct (repeat t). Qed.

Lemma again_in_flight t u s : in_flight u s -> timer_id u <> timer_id t -> in_flight u (again t s).
Proof.
  intros Hfl Hne. unfold again. destruct (repeat t); [|done]. intros Hlt. cbn in *.
  rewrite lookup_insert_ne by done. by apply Hfl.
Qed.

Lemma fires_sim ts w s w' :
  Rel s w -> (s_next s < 2 ^ 64 -> NoDup (timer_id <$> ts)) -> Forall (fun t => in_flight t s) ts -> Forall timer_ok ts ->
  for_each ts (fire run_task) w = Ret tt w' ->
  exists s', fires cb_spec ts s s' /\ s_next s <= s_next s' /\ Rel s' w'.
Proof.
  revert w s. induction ts as [|t ts IH]; intros w s HR Hnd Hfl Hok E.
  - injection E as <-. exists s. split_and!; [constructor|lia|done].
  - apply bind_Ret_inv in E as ([] & w1 & E1 & E2). cbn in Hnd.
    apply Forall_cons in Hfl as [Ht Hfl], Hok as [Hokt Hok].
    destruct (fire_sim t w s w1 HR Ht Hokt E1) as (s1 & Hs1 & HR1).
    pose proof (cb_step_grows _ _ _ Hs1) as Hg. pose proof (proj1 Hg) as Hle1.
    destruct (IH w1 (again t s1) HR1) as (s' & Hf & Hle & HR'); [| |done|done|].
    + rewrite again_next. intros Hlt. apply (NoDup_cons_1_2 (timer_id t)), Hnd. lia.
    + rewrite Forall_forall in *. intros u Hu Hlt. rewrite again_next in Hlt. apply again_in_flight; [| |by rewrite again_next].
      * eapply in_flight_grows; [by apply Hfl|done].
      * intros Eu. assert (Hnd' : NoDup (timer_id t :: (timer_id <$> ts))) by (apply Hnd; lia).
        apply NoDup_cons in Hnd' as [Hni _]. apply Hni. rewrite <- Eu. by apply list_elem_of_fmap_2.
    + exists s'. rewrite again_next in Hle.
      split_and!; [by eapply fires_cons|lia|done].
Qed.
(** The instant at which the due timers are taken out. *)
Lemma agrees_expired now s l :
  agrees s l -> loop_ok l ->
  agrees (Service (filter (fun p => ~ expiration (snd p) <= now) (s_timers s)) (s_next s) now (s_fired s))
    (expired_loop now l).
Proof.
  intros [Ht Hid Ha Hn Hpos Hf] Hok. split; cbn; try done.
  - intros t. unfold not_due. rewrite list_elem_of_filter, Ht, map_lookup_filter_Some. cbn. tauto.
  - intros id t [Hs _]%map_lookup_filter_Some. by apply Hid.
  - intros id. unfold active_after.
    pose proof (extract_expired_timers now _ (m_activeTimers l) (ok_sorted _ Hok)) as Et.
    pose proof (extract_expired_active now (m_timers l) (m_activeTimers l) id) as Ea.
    destruct (extract_expired now (m_timers l) (m_activeTimers l)) as [[e r] a]. cbn [fst snd] in *.
    injection Et as -> _. rewrite Ea, Ha. destruct (s_timers s !! id) as [t|] eqn:Es.
    + pose proof (Hid id t Es) as Hidt. destruct (decide (expiration t <= now)) as [Hle|Hgt].
      * rewrite decide_True, (proj2 (map_lookup_filter_None _ _ _)); [done|right; intros u; rewrite Es; intros [= <-]; cbn; lia|].
        apply list_elem_of_fmap. exists t. split; [done|]. apply list_elem_of_filter. split; [done|]. apply Ht. by rewrite Hidt.
      * rewrite decide_False, (proj2 (map_lookup_filter_Some _ _ _ t)); [done|by split|].
        intros (u & Eu & Hu)%list_elem_of_fmap. apply list_elem_of_filter in Hu as [Hle Hu].
        apply Ht in Hu. rewrite <- Eu, Es in Hu. by injection Hu as ->.
    + rewrite (proj2 (map_lookup_filter_None _ _ _)) by (by left). by destruct (decide _).
  - intros id [t [Hs _]%map_lookup_filter_Some]. apply Hf. by exists t.
Qed.

Lemma tsorted_NoDup (l : list (Timer T)) : tsorted l -> NoDup l.
Proof.
  induction 1 as [|t ts Hs IH Hall]; constructor; [|done].
  intros Hin. rewrite Forall_forall in Hall. by apply (key_lt_irrefl (key_of t)), Hall.
Qed.

Lemma due_ids now s l :
  agrees s l -> loop_ok l -> NoDup (timer_id <$> due now (m_timers l)).
Proof.
  intros [Ht _ _ _ _ _] Hok. unfold due. apply NoDup_fmap_2_strong.
  - intros t u [_ H1]%list_elem_of_filter [_ H2]%list_elem_of_filter E. apply Ht in H1, H2. congruence.
  - by apply NoDup_filter, tsorted_NoDup, ok_sorted.
Qed.
(** ** The event of the timer descriptor *)

Lemma handleTimerRead_sim : simulates (handleTimerRead run_task) (keeps (expires cb_spec)).
Proof.
  intros w s [] w' HR E. set (tfd := fd (m_timer_fd (w_loop w))).
  destruct (decide (fst (timerfd_read tfd (w_sys w)) = 8)) as [Hr|Hr].
  2: { unfold handleTimerRead in E. run_steps_in E. fold tfd in E. apply Z.eqb_neq in Hr. rewrite Hr in E.
    injection E as <-. exists s. split; [by right; left|]. destruct w. by eapply Rel_later, frame_read. }
  pose proof (rel_ok _ _ _ HR) as Hok. rewrite (handleTimerRead_eq run_task w (ok_sorted _ Hok) Hr) in E.
  set (now := fst (steady_now (read_sys w))) in *. set (y1 := snd (steady_now (read_sys w))) in *.
  destruct (steady_now_clock (read_sys w)) as [Hc1 Hc2]. fold now y1 in Hc1, Hc2.
  assert (Hnow : s_now s <= now).
  { pose proof (rel_now _ _ _ HR). pose proof (proj1 (read_frame tfd (w_sys w))). fold (read_sys w) in *. unfold read_sys, tfd in *. lia. }
  apply bind_Ret_inv in E as ([] & w2 & E2 & E3).
  set (w1 := World (expired_loop now (w_loop w)) (w_obj w) y1) in *.
  set (s1 := Service (filter (fun p => ~ expiration (snd p) <= now) (s_timers s)) (s_next s) now (s_fired s)).
  assert (HR1 : Rel s1 w1).
  { split; [by apply expired_loop_ok|cbn; lia|apply HR|]. intros Hlt. by apply agrees_expired; [apply HR|]. }
  destruct (fires_sim (due now (m_timers (w_loop w))) w1 s1 w2) as (s2 & Hf & Hle & HR2); [done| | | |done|].
  { intros Hlt. eapply due_ids; [by apply HR|done]. }
  { apply Forall_forall. intros t [Hd Ht]%list_elem_of_filter Hlt. pose proof (rel_agrees _ _ _ HR Hlt) as Hag.
    apply (ag_timers _ _ Hag) in Ht. split; [|apply (ag_fresh _ _ Hag); by exists t].
    apply map_lookup_filter_None. right. intros u. rewrite Ht. intros [= <-]. cbn. lia. }
  { apply Forall_forall. intros t [_ Ht]%list_elem_of_filter. by apply (proj1 (Forall_forall _ _) (ok_timers _ Hok)). }
  destruct (resetTimerFd_frame later w2 (rel_ok _ _ _ HR2)) as (y & Er & Hl). rewrite E3 in Er. injection Er as ->.
  destruct w2 as [l2 o2 y2]. cbn [w_loop w_obj w_sys] in *.
  destruct (decide (s_next s < 2 ^ 64)) as [Hlt|Hge].
  - exists s2. split; [|by eapply Rel_later]. right; right. exists now, (due now (m_timers (w_loop w))).
    split_and!; [done|by apply filter_sorted, Hok| |done].
    intros t. unfold due. rewrite list_elem_of_filter, (ag_timers _ _ (rel_agrees _ _ _ HR Hlt)). tauto.
  - exists (Service ∅ (s_next s2) (s_now s2) (s_fired s2)). split.
    + left. split; [unfold exhausted; lia|]. split; [done|]. by intros id [u Hu].
    + destruct (Rel_later _ _ _ _ _ _ HR2 Hl) as [H1 H2 Hj _]. split; [done|done|done|]. cbn in *. lia.
Qed.

(** ** A turn of the loop *)

Lemma call_task_sim cb : simulates (call_task run_task cb) (keeps (turn_step cb_spec read_spec)).
Proof.
  destruct cb as [cb|]; [|by intros w s a w' _ E].
  eapply sim_weaken; [|apply (task_sim cb)]. intros s a s' H. by eapply turn_task.
Qed.

Lemma dispatch_event_sim i : simulates (dispatch_event run_task handleRead i) (keeps (rtc (turn_step cb_spec read_spec))).
Proof.
  intros w s [] w' HR E. unfold dispatch_event in E. rewrite bind_loop_get in E.
  destruct (m_events (w_loop w) !! Z.to_nat i) as [[p|]|]; [| |done].
  - apply bind_Ret_inv in E as (h & w1 & E1 & E2).
    assert (w1 = w) as ->.
    { unfold deref_source in E1. rewrite bind_loop_get in E1. destruct p as [f|f node]; [by injection E1|].
      destruct (m_slowSources _ !! f) as [[n h']|]; [|done]. destruct (n =? node); [by injection E1|done]. }
    destruct h as [| |receiver f ctx handler]; cbn [visit_handler] in E2.
    + injection E2 as <-. exists s. split; [apply rtc_refl|done].
    + destruct (handleTimerRead_sim w s tt w' HR E2) as (s' & Hs & HR'). exists s'.
      split; [apply rtc_once; by constructor|done].
    + destruct (read_sim receiver f ctx handler w s tt w' HR E2) as (s' & Hs & HR'). exists s'.
      split; [apply rtc_once; by eapply turn_read|done].
  - injection E as <-. exists s. split; [apply rtc_refl|done].
Qed.

Lemma rtc_rtc {A} (R : relation A) x y : rtc (rtc R) x y -> rtc R x y.
Proof. induction 1 as [|x y z H1 _ IH]; [apply rtc_refl|by etransitivity]. Qed.

(** The parts of the loop the contract is not about. *)
Lemma Rel_loop s w (f : EventLoop T -> EventLoop T) :
  Rel s w -> loop_ok (f (w_loop w)) -> m_timers (f (w_loop w)) = m_timers (w_loop w) ->
  m_activeTimers (f (w_loop w)) = m_activeTimers (w_loop w) ->
  m_nextTimerId (f (w_loop w)) = m_nextTimerId (w_loop w) -> Rel s (with_loop f w).
Proof.
  intros [_ Hn Hj Ha] Hok Ht Hac Hnx. split; [done|done|done|]. intros Hlt. destruct (Ha Hlt) as [H1 H2 H3 H4 H5 H6].
  split; cbn; [by rewrite Ht|done|by rewrite Hac|by rewrite Hnx|done|done].
Qed.

Lemma dispatch_batch_sim evs :
  (length evs <= Z.to_nat MAX_EVENTS)%nat ->
  simulates (dispatch_batch run_task handleRead evs) (keeps (rtc (turn_step cb_spec read_spec))).
Proof.
  intros Hlen w s [] w' HR E. unfold dispatch_batch, for_n in E. rewrite bind_loop_set in E.
  match type of E with _ ?w1 = _ => destruct (sim_for_each J (dispatch_event run_task handleRead) _
    (seqZ 0 (Z.of_nat (length evs))) dispatch_event_sim w1 s tt w') as (s' & Hs & HR'); [|exact E|] end.
  - apply Rel_loop; try done. destruct (rel_ok _ _ _ HR) as [H1 H2 H3 H4]. split; [done..|].
    cbn. rewrite length_app, length_fmap, length_drop, H4. lia.
  - exists s'. split; [by apply rtc_rtc|done].
Qed.

Lemma run_pending_sim : simulates (run_pending run_task) (keeps (rtc (turn_step cb_spec read_spec))).
Proof.
  intros w s [] w' HR E. unfold run_pending in E. rewrite bind_loop_get in E.
  destruct (m_pendingTasks (w_loop w)) as [|t ts]; [injection E as <-; exists s; split; [apply rtc_refl|done]|].
  rewrite bind_loop_set in E.
  apply (sim_for_each J (call_task run_task) _ (t :: ts) call_task_sim (with_loop (set_pending []) w) s tt w'); [|exact E].
  apply Rel_loop; try done. destruct (rel_ok _ _ _ HR). by split.
Qed.

Lemma runOnce_sim timeoutMs :
  simulates (runOnce run_task handleRead timeoutMs) (keeps (rtc (turn_step cb_spec read_spec))).
Proof.
  intros w s r w' HR E. rewrite runOnce_wait in E.
  assert (HR1 : Rel s (with_sys (snd (wait_result timeoutMs w)) w)).
  { destruct w. eapply Rel_later; [exact HR|]. apply frame_wait. }
  pose proof (epoll_wait_ok (fd (m_epoll_fd (w_loop w))) MAX_EVENTS (effective_timeout timeoutMs w) (w_sys w)) as Hok.
  fold (wait_result timeoutMs w) in Hok. destruct (fst (wait_result timeoutMs w)) as [evs|].
  - destruct (Hok evs eq_refl) as [Hlen _].
    apply bind_Ret_inv in E as ([] & w1 & E1 & E). apply bind_Ret_inv in E as ([] & w2 & E2 & E). injection E as _ <-.
    destruct (dispatch_batch_sim evs ltac:(lia) _ s tt w1 HR1 E1) as (s1 & Hs1 & HR2).
    destruct (run_pending_sim w1 s1 tt w2 HR2 E2) as (s2 & Hs2 & HR3). exists s2. split; [unfold keeps in *; by etransitivity|done].
  - rewrite bind_get_errno in E. exists s. split; [apply rtc_refl|].
    destruct (_ =? EINTR); by injection E as _ <-.
Qed.
(** C7 The loop implements the abstract service of timers: one turn of
    [runOnce], from a state that represents a state of the service, ends (or a
    callback throws) in a well-formed state, and, when it returns, in one that
    represents what the service may become by expirations, deferred callbacks
    and reads: at an expiration all the timers that are due at an instant of
    the clock fire, in the order of their times, none before its time and none
    that was cancelled; whatever the callbacks do with the loop. *)
Theorem runOnce_refines timeoutMs n w s :
  ReactorClient run_task handleRead -> Inv n w -> Rel s w ->
  wp (runOnce run_task handleRead timeoutMs)
    (fun _ w' => Inv n w' /\ exists s', rtc (turn_step cb_spec read_spec) s s' /\ Rel s' w')
    (fun _ => Inv n) w.
Proof.
  intros RC Hw HR. pose proof (safe_inv _ (runOnce_run_safe run_task handleRead timeoutMs) n w Hw) as Hs.
  pose proof (runOnce_sim timeoutMs w s) as Hsim. unfold wp in *.
  destruct (runOnce run_task handleRead timeoutMs w) as [r w'| |]; [|done..]. split; [done|]. by eapply Hsim.
Qed.
End Expiration.

(** C21 The operations on timers implement those of the service: scheduling
    gives a new identifier and adds exactly one timer, due at the given
    distance from an instant of the clock; cancelling succeeds exactly for the
    timers in the map, and removes that timer only; errors change nothing. *)
Theorem timer_operations_refine {T O Y} {RK : ReactorKernel Y} {RL : ReactorLaws Y} {WK : WakingKernel Y}
    (J : list (Timer T) -> O -> Prop) (delay id : Z) (cb : option T) :
  delay <= max_delay ->
  simulates J (runAfter delay cb : M (world T O Y) _) (spec_runAfter delay cb) /\
  simulates J (runEvery delay cb : M (world T O Y) _) (spec_runEvery delay cb) /\
  simulates J (cancelTimer id : M (world T O Y) _) (spec_cancelTimer id).
Proof. intros Hd. split_and!; [by apply runAfter_sim|by apply runEvery_sim|apply cancelTimer_sim]. Qed.
