(* ===== verification/TimerWitness.v ===== *)
(** The application of [ReactorWitness] as a client of the timer service, and
    the witnesses of the refinement. *)
From S2P Require Import Prelude Outcome Result Kernel SimKernel ScopedFd TimerQueue EventLoop.
From S2P Require Import EventLoopFacts TimerFacts SourceFacts DispatchFacts ReactorWitness Waking TimerService.

(** Nothing is asked of the memory of this application. *)
Definition no_claim (fired : list (Timer Z)) (o : unit) : Prop := True.

(** Task 7 schedules task 8 in five milliseconds; the others use no timer. *)
Definition demo_cb_spec (t : Z) (s s' : service Z) : Prop :=
  if t =? 7 then exists r, spec_runAfter 5 (Some 8) s r s' else s' = s.
Definition demo_read_spec (receiver f ctx h : Z) (s s' : service Z) : Prop := s' = s.

Lemma demo_log_sim t : simulates no_claim (demo_log t) (fun s _ s' => s' = s).
Proof.
  intros [l o y] s [] w' HR E. injection E as <-. exists s. split; [done|].
  eapply Rel_later; [exact HR|]. unfold later. cbn. unfold Sim.clk. cbn. lia.
Qed.

Lemma runInLoop_sim cb : simulates no_claim (runInLoop cb : M demo_world unit) (fun s _ s' => s' = s).
Proof.
  intros w s [] w' HR E. injection E as <-. exists s. split; [done|].
  apply Rel_loop; try done. destruct (rel_ok _ _ _ HR). by split.
Qed.

Lemma demo_task_sim t : simulates no_claim (demo_task t) (fun s _ s' => demo_cb_spec t s s').
Proof.
  intros w s [] w' HR E. unfold demo_task in E. apply bind_Ret_inv in E as ([] & w1 & E1 & E).
  destruct (demo_log_sim t w s tt w1 HR E1) as (s1 & -> & HR1). unfold demo_cb_spec. destruct (t =? 7).
  - apply bind_Ret_inv in E as (r & w2 & E2 & E3).
    destruct (runAfter_sim no_claim 5 (Some 8) ltac:(unfold max_delay; lia) w1 s r w2 HR1 E2) as (s2 & Hs2 & HR2).
    destruct (runInLoop_sim (Some 9) w2 s2 tt w' HR2 E3) as (s3 & -> & HR3). eauto.
  - injection E as <-. eauto.
Qed.

#[export] Instance demo_timer_client : TimerClient no_claim demo_task demo_read demo_cb_spec demo_read_spec.
Proof.
  split.
  - apply demo_task_sim.
  - intros t cb _ w s a w' HR E.
    assert (HR' : Rel no_claim (note_fired t s) w) by (destruct HR as [? ? ? Ha]; split; [done..|]; intros Hlt; destruct (Ha Hlt); by split).
    exact (demo_task_sim cb w (note_fired t s) a w' HR' E).
  - done.
  - intros cb s s'. unfold demo_cb_spec, spec_runAfter. destruct (cb =? 7); [|by intros ->].
    cbn. intros (r & H). by eapply scheduled_grows.
  - intros r f c h. apply demo_log_sim.
Qed.

(** The loop after its constructor represents the service at its start. *)
Lemma demo_start_rel : Rel no_claim (Service ∅ 1 0 []) demo_start.
Proof.
  split; [apply demo_start_ok|vm_compute; discriminate|done|]. intros _.
  split; [|done|done|done|done|by intros id [u Hu]].
  intros t. cbn. rewrite lookup_empty. split; [|done]. intros Ht. vm_compute in Ht. by apply elem_of_nil in Ht.
Qed.

Lemma rel_final {A} (m : M demo_world A) P s w :
  simulates no_claim m P -> Rel no_claim s w -> (exists a w', m w = Ret a w') ->
  exists a s', P s a s' /\ Rel no_claim s' (final m w).
Proof.
  intros Hm HR (a & w' & E). destruct (Hm w s a w' HR E) as (s' & HP & HR'). unfold final. rewrite E. eauto.
Qed.

(** One repeating timer and one that is not, both due. *)
Lemma demo_due_rel : exists s, s_next s = 3 /\ Rel no_claim s demo_due.
Proof.
  destruct (rel_final (runEvery 1000 (Some 7)) _ _ _ (runEvery_sim no_claim 1000 (Some 7) ltac:(unfold max_delay; lia))
    demo_start_rel) as (a1 & s1 & H1 & HR1); [vm_compute; eauto|].
  destruct (rel_final (runAfter 250 (Some 5)) _ _ _ (runAfter_sim no_claim 250 (Some 5) ltac:(unfold max_delay; lia))
    HR1) as (a2 & s2 & H2 & HR2); [vm_compute; eauto|].
  exists s2. split.
  - unfold spec_runEvery, spec_runAfter, scheduled, exhausted in *. cbn in *.
    destruct H1 as [[? ->]|(n1 & _ & _ & ->)]; [lia|]. destruct H2 as [[? ->]|(n2 & _ & _ & ->)]; [cbn in *; lia|done].
  - change (Rel no_claim s2 demo_timers) in HR2. unfold demo_due, ReactorWitness.later.
    destruct demo_timers as [l o y]. eapply Rel_later; [exact HR2|]. unfold later. cbn. unfold Sim.clk. cbn. lia.
Qed.

Lemma runOnce_refines_witness :
  exists s, s_next s = 3 /\ Rel no_claim s demo_due /\
  wp (runOnce demo_task demo_read 10)
    (fun _ w' => Inv 0 w' /\ exists s', rtc (turn_step demo_cb_spec demo_read_spec) s s' /\ Rel no_claim s' w')
    (fun _ => Inv 0) demo_due.
Proof.
  destruct demo_due_rel as (s & Hn & HR). exists s. split; [exact Hn|]. split; [exact HR|].
  exact (runOnce_refines demo_task demo_read demo_cb_spec demo_read_spec no_claim 10 0 demo_due s
    demo_client demo_due_ok HR).
Defined.

Lemma timer_operations_refine_witness :
  simulates no_claim (runAfter 5 (Some 7) : M demo_world _) (spec_runAfter 5 (Some 7)).
Proof.
  destruct (timer_operations_refine (T := Z) (O := unit) (Y := sim) no_claim 5 3 (Some 7)) as (H & _).
  - unfold max_delay. lia.
  - exact H.
Defined.
