(* ===== verification/TimerUsageApp.v ===== *)
(** Program [examples/TimerUsage.cc]: a heartbeat every second and two one-shot
    timers, for five seconds.  The objects of [main] that the callbacks
    capture are the object part of the state; there is no receiver. *)
From stdpp Require Import pretty.
From S2P Require Import Prelude Outcome Result Kernel SimKernel ScopedFd TimerQueue EventLoop Recorder.
From S2P Require Import EventLoopFacts TimerFacts SourceFacts DispatchFacts TurnRule Waking.

Local Open Scope string_scope.
Local Open Scope Z_scope.

(** The three callbacks. *)
Inductive usage_task := Heartbeat | OneShot | TooLate.

#[export] Instance usage_task_eq_dec : EqDecision usage_task.
Proof. solve_decision. Defined.

(** [counter], and the lines on the two streams, oldest first. *)
Record usage := MkUsage { counter : Z; printed : list string; errors : list string }.

Section UsageApp.
Context {Y : Type} {RK : ReactorKernel Y}.
Notation W := (world usage_task usage Y).
Notation Mw := (M W).
Context (message : error_code -> string).

Definition usage_print (line : string) : Mw unit :=
  modify (with_obj (fun u => MkUsage (counter u) (printed u ++ [line])%list (errors u))).
Definition usage_error (line : string) : Mw unit :=
  modify (with_obj (fun u => MkUsage (counter u) (printed u) (errors u ++ [line])%list)).

Definition heartbeat_line (n : Z) : string := "[Periodic] Heartbeat " +:+ pretty n +:+ "s elapsed".
Definition one_shot_line : string := "[One-Shot] 3.5 seconds have passed. Cleaning up resources...".
Definition too_late_line : string := "This should never print!".

(** The lambdas given to the loop; [counter] is an [int]. *)
Definition run_usage (t : usage_task) : Mw unit :=
  match t with
  | Heartbeat =>
      u ← gets (fun w => w_obj w);
      c ← s32 (counter u + 1);
      modify (with_obj (fun u => MkUsage c (printed u) (errors u))) ;;
      usage_print (heartbeat_line c)
  | OneShot => usage_print one_shot_line
  | TooLate => usage_print too_late_line
  end.

(** There is no receiver. *)
Definition no_receiver (receiver fd context handler : Z) : Mw unit := mret tt.

(** The three timers. *)
Definition usage_schedule : Mw unit :=
  res1 ← runEvery 1000 (Some Heartbeat);
  (if negb (Result.has_value res1) then usage_error "Failed to schedule periodic timer" else mret tt) ;;
  res2 ← runAfter 3500 (Some OneShot);
  (if negb (Result.has_value res2) then usage_error "Failed to schedule one-shot timer" else mret tt) ;;
  res3 ← runAfter 10000 (Some TooLate);
  (if negb (Result.has_value res3)
   then usage_error ("Failed to schedule 10s timer: " +:+ message (Result.error res3)) else mret tt).

(** [while (now() - start < seconds(5)) loop.runOnce(100).value();], for [n]
    turns at most. *)
Fixpoint usage_loop (n : nat) (start : Z) : Mw unit :=
  match n with
  | O => crash OutOfFuel
  | S n =>
      now ← clock_now;
      elapsed ← s64 (now - start);
      if elapsed <? 5000000000 then
        r ← runOnce run_usage no_receiver 100; ResultVoid.value r ;; usage_loop n start
      else mret tt
  end.

(** [int main()]; nothing catches an exception. *)
Definition usage_main (n : nat) : Mw Z :=
  noexcept (
    EventLoop_new ;;
    modify (with_obj (fun u => MkUsage 0 (printed u) (errors u))) ;;
    usage_print "Starting Timer Example..." ;;
    usage_schedule ;;
    start ← clock_now;
    usage_loop n start ;;
    usage_print "Example finished. The 10s timer was safely discarded." ;;
    EventLoop_delete ;;
    mret 0).
End UsageApp.

Close Scope string_scope.

(** ** What the callbacks print *)

Definition beats (log : list usage_task) : Z := Z.of_nat (length (filter (eq Heartbeat) log)).

(** The lines for a sequence of callbacks, after [n] heartbeats. *)
Fixpoint usage_lines (n : Z) (log : list usage_task) : list string :=
  match log with
  | [] => []
  | Heartbeat :: log => heartbeat_line (n + 1) :: usage_lines (n + 1) log
  | OneShot :: log => one_shot_line :: usage_lines n log
  | TooLate :: log => too_late_line :: usage_lines n log
  end.

Lemma beats_app log1 log2 : beats (log1 ++ log2) = beats log1 + beats log2.
Proof. unfold beats. rewrite filter_app, length_app. lia. Qed.

Lemma usage_lines_app n log1 log2 :
  usage_lines n (log1 ++ log2) = (usage_lines n log1 ++ usage_lines (n + beats log1) log2)%list.
Proof.
  revert n. induction log1 as [|t log1 IH]; intros n; [cbn; by rewrite Z.add_0_r|].
  change (t :: log1) with ([t] ++ log1). rewrite beats_app. destruct t; cbn [app usage_lines]; rewrite IH.
  - change (beats [Heartbeat]) with 1. cbn. by rewrite Z.add_assoc.
  - change (beats [OneShot]) with 0. cbn. done.
  - change (beats [TooLate]) with 0. cbn. done.
Qed.

(** ** The timers between two callbacks *)

Section UsageFacts.
Context {Y : Type} {RK : ReactorKernel Y} {RL : ReactorLaws Y} {WK : WakingKernel Y}.
Notation W := (world usage_task usage Y).
Context (message : error_code -> string).
Implicit Types w : W.

(** The instants the timers were scheduled for, and the lines printed
    before. *)
Context (e1 e2 e3 : Z) (before : list string) (complaints : list string).

Definition second : Z := 1000000000.

Definition heartbeat (n : Z) : Timer usage_task := MkTimer (e1 + n * second) 1000 (Some Heartbeat) 1 true.
Definition one_shot : Timer usage_task := MkTimer e2 0 (Some OneShot) 2 false.
Definition too_late : Timer usage_task := MkTimer e3 0 (Some TooLate) 3 false.

(** A one-shot timer, unless it has fired. *)
Definition unless (k : usage_task) (t : Timer usage_task) (log : list usage_task) : list (Timer usage_task) :=
  if decide (k ∈ log) then [] else [t].

(** The timers left after the callbacks of [log]. *)
Definition shots_after (log : list usage_task) : list (Timer usage_task) :=
  unless OneShot one_shot log ++ unless TooLate too_late log.
Definition left_after (log : list usage_task) : list (Timer usage_task) := heartbeat (beats log) :: shots_after log.

(** The one-shot callbacks made. *)
Definition shots (log : list usage_task) : list usage_task := filter (fun k => k <> Heartbeat) log.

(** The program between two callbacks: [log] are those made so far, [flight]
    the expired timers whose callbacks are still to come. *)
Record ticking (log : list usage_task) (flight : list (Timer usage_task)) w : Prop := {
  tk_ok : loop_ok (w_loop w);
  tk_pending : m_pendingTasks (w_loop w) = [];
  tk_sources : forall f p, registered (w_sys w) !! f = Some p -> leads (w_loop w) p TimerTag;
  tk_timers : m_timers (w_loop w) ++ flight ≡ₚ left_after log;
  tk_flight : Forall (fun t => expiration t <= clock (w_sys w)) flight;
  tk_counter : counter (w_obj w) = beats log;
  tk_printed : printed (w_obj w) = before ++ usage_lines 0 log;
  tk_errors : errors (w_obj w) = complaints;
  tk_once : NoDup (shots log);
  tk_beats : beats log = 0 \/ e1 + (beats log - 1) * second <= clock (w_sys w);
  tk_one_shot : OneShot ∈ log -> e2 <= clock (w_sys w);
  tk_too_late : TooLate ∈ log -> e3 <= clock (w_sys w)
}.

(** Time passes. *)
Definition onward (y y' : Y) : Prop := clock y <= clock y' /\ registered y' = registered y.

#[export] Instance onward_frame : ReactorFrame onward.
Proof.
  split; [split|]; unfold onward.
  - split; [done|]. intros y1 y2 y3 [] []. split; [lia|congruence].
  - intros y. pose proof (steady_now_clock y). split; [lia|apply steady_now_frame].
  - intros f flags v y. split; apply settime_frame.
  - intros f y. split; apply read_frame.
  - intros e n t y. split; [apply wait_clock|apply epoll_wait_frame].
Qed.

Lemma ticking_onward log flight w y :
  ticking log flight w -> onward (w_sys w) y -> ticking log flight (with_sys y w).
Proof.
  intros [] [Hc Hr]. split; cbn [w_loop w_obj w_sys with_sys]; try done; [by rewrite Hr| |lia|..].
  - eapply Forall_impl; [done|]. intros t Ht. cbn beta in *. lia.
  - intros H. etransitivity; [by eauto|done].
  - intros H. etransitivity; [by eauto|done].
Qed.

(** ** One callback *)

Lemma unless_same k t log : unless k t (log ++ [k]) = [].
Proof. unfold unless. apply decide_True. set_solver. Qed.

Lemma unless_other k k' t log : k <> k' -> unless k t (log ++ [k']) = unless k t log.
Proof. intros Hk. unfold unless. apply decide_ext. set_solver. Qed.

Lemma elem_of_unless k t log u : u ∈ unless k t log <-> u = t /\ k ∉ log.
Proof. unfold unless. case_decide; rewrite ?list_elem_of_singleton; set_solver. Qed.

Lemma elem_of_shots k log : k ∈ shots log <-> k <> Heartbeat /\ k ∈ log.
Proof. unfold shots. by rewrite list_elem_of_filter. Qed.

(** The timer of a callback, and the callbacks that may still come. *)
Definition timer_for (k : usage_task) (log : list usage_task) : Timer usage_task :=
  match k with Heartbeat => heartbeat (beats log) | OneShot => one_shot | TooLate => too_late end.
Definition to_come (k : usage_task) (log : list usage_task) : Prop := k = Heartbeat \/ k ∉ log.

Lemma left_after_elem t log : t ∈ left_after log -> exists k, t = timer_for k log /\ to_come k log.
Proof.
  unfold left_after, shots_after. rewrite elem_of_cons, elem_of_app, !elem_of_unless. unfold to_come.
  intros [->|[[-> H]|[-> H]]]; [exists Heartbeat|exists OneShot|exists TooLate]; auto.
Qed.

Definition comes_back (k : usage_task) (log : list usage_task) : list (Timer usage_task) :=
  match k with Heartbeat => [heartbeat (beats log + 1)] | _ => [] end.

Lemma left_after_step k log rest :
  to_come k log -> timer_for k log :: rest ≡ₚ left_after log -> comes_back k log ++ rest ≡ₚ left_after (log ++ [k]).
Proof.
  unfold left_after, shots_after. intros Hk H. rewrite beats_app. destruct k; cbn [timer_for comes_back app] in *.
  - rewrite !unless_other by done. apply Permutation_cons_inv in H. by rewrite H.
  - rewrite unless_same, unless_other by done. destruct Hk as [?|Hk]; [done|]. change (beats [OneShot]) with 0.
    rewrite Z.add_0_r. cbn [app]. unfold unless at 1 in H. rewrite decide_False in H by done.
    cbn [app] in H. rewrite (Permutation_swap one_shot (heartbeat (beats log))) in H. by apply Permutation_cons_inv in H.
  - rewrite unless_same, unless_other by done. destruct Hk as [?|Hk]; [done|]. change (beats [TooLate]) with 0.
    rewrite Z.add_0_r, app_nil_r. unfold unless at 2 in H. rewrite decide_False in H by done.
    rewrite app_comm_cons, <- Permutation_cons_append in H. by apply Permutation_cons_inv in H.
Qed.

Definition called (k : usage_task) (u : usage) : usage :=
  MkUsage (counter u + beats [k]) (printed u ++ usage_lines (counter u) [k]) (errors u).

Lemma run_usage_run k w :
  (k = Heartbeat -> is_s32 (counter (w_obj w) + 1)) -> run_usage k w = Ret tt (with_obj (called k) w).
Proof.
  intros Hc. destruct k; unfold run_usage, usage_print, called.
  - run_steps. by rewrite (bind_Ret _ _ _ _ _ (s32_in _ _ (Hc eq_refl))).
  - unfold modify, with_obj. cbn. by rewrite Z.add_0_r.
  - unfold modify, with_obj. cbn. by rewrite Z.add_0_r.
Qed.

(** A callback that came back, with the rest of the program as it was. *)
Lemma ticking_step k log flight w w' :
  ticking log (timer_for k log :: flight) w -> to_come k log ->
  loop_ok (w_loop w') -> m_pendingTasks (w_loop w') = [] ->
  (forall p, leads (w_loop w) p TimerTag -> leads (w_loop w') p TimerTag) ->
  m_timers (w_loop w') ++ flight ≡ₚ comes_back k log ++ m_timers (w_loop w) ++ flight ->
  w_obj w' = called k (w_obj w) -> onward (w_sys w) (w_sys w') ->
  ticking (log ++ [k]) flight w'.
Proof.
  intros [] Hk Hok Hpend Hleads Htimers Hobj [Hc Hr].
  apply Forall_cons in tk_flight0 as [Hdue Hflight].
  assert (Hin : forall k', k' ∈ log ++ [k] -> k' ∈ log \/ k' = k) by set_solver.
  split; try done.
  - intros f p Hp. rewrite Hr in Hp. by eapply Hleads, tk_sources0.
  - rewrite Htimers. apply left_after_step; [done|]. by rewrite <- tk_timers0, <- Permutation_middle.
  - eapply Forall_impl; [exact Hflight|]. intros t Ht. cbn beta in *. lia.
  - rewrite Hobj, beats_app. cbn. by rewrite tk_counter0.
  - rewrite Hobj. cbn. rewrite usage_lines_app, tk_counter0, Z.add_0_l, tk_printed0. by rewrite app_assoc.
  - by rewrite Hobj.
  - unfold shots. rewrite filter_app, filter_cons. destruct (decide (k <> Heartbeat)) as [Hne|_]; [|by rewrite app_nil_r].
    apply NoDup_app. split_and!; [done| |apply NoDup_singleton].
    intros k' [_ Hk']%elem_of_shots ->%list_elem_of_singleton. destruct Hk; congruence.
  - rewrite beats_app. destruct k; [right|rewrite Z.add_0_r; destruct tk_beats0; auto; right; lia..].
    change (beats [Heartbeat]) with 1. cbn in Hdue. lia.
  - intros [?| <-]%Hin; [etransitivity; [by apply tk_one_shot0|done]|]. cbn in Hdue. lia.
  - intros [?| <-]%Hin; [etransitivity; [by apply tk_too_late0|done]|]. cbn in Hdue. lia.
Qed.

(** ** A turn *)

(** The counter is an [int]: it holds for 68 years. *)
Definition horizon : Z := 2 ^ 31 * second.
Hypothesis Hhorizon : forall y : Y, clock y < horizon.
Hypothesis Hstart : second <= e1.

(** While its callback runs the heartbeat is not in the set. *)
Lemma heartbeat_gone log flight w n u :
  ticking log (timer_for Heartbeat log :: flight) w -> u ∈ m_timers (w_loop w) -> key_of u <> key_of (heartbeat n).
Proof.
  intros [_ _ _ Ht _ _ _ _ _ _ _ _] Hu E. rewrite <- Permutation_middle in Ht. apply Permutation_cons_inv in Ht.
  assert (Hin : u ∈ shots_after log) by (rewrite <- Ht; set_solver).
  unfold shots_after in Hin. rewrite elem_of_app, !elem_of_unless in Hin. by destruct Hin as [[-> _]|[-> _]].
Qed.

(** The callback of an expired timer. *)
Lemma fire_ticking t log flight w :
  ticking log (t :: flight) w ->
  exists k w', fire run_usage t w = Ret tt w' /\ ticking (log ++ [k]) flight w' /\
    onward (w_sys w) (w_sys w') /\ m_events (w_loop w') = m_events (w_loop w).
Proof.
  intros Ht. pose proof Ht as [Hok Hpend Hsrc Htimers Hflight Hcount _ _ _ _ _ _].
  assert (Hin : t ∈ left_after log) by (rewrite <- Htimers; set_solver).
  destruct (left_after_elem t log Hin) as (k & -> & Hk). exists k.
  apply Forall_cons in Hflight as [Hdue _]. pose proof (Hhorizon (w_sys w)) as Hh. unfold horizon, second in *.
  assert (Hb : 0 <= beats log) by (unfold beats; lia).
  assert (Hrun : run_usage k w = Ret tt (with_obj (called k) w)).
  { apply run_usage_run. intros ->. rewrite Hcount. cbn in Hdue. unfold second, is_s32 in *. lia. }
  assert (Hcb : callback (timer_for k log) = Some k) by (by destruct k).
  unfold fire. rewrite Hcb, (bind_Ret _ _ _ _ _ Hrun). destruct k.
  - cbn [timer_for heartbeat repeat interval expiration callback timer_id] in *. unfold second in *. do 2 s64_step.
    replace (MkTimer _ _ _ _ _) with (heartbeat (beats log + 1)) by (unfold heartbeat, second; f_equal; lia).
    assert (Ht' : timer_ok (heartbeat (beats log + 1))) by (split; cbn; unfold second, max_delay; lia).
    destruct (insertTimer_frame onward _ (with_obj (called Heartbeat) w) Hok Ht') as (y & E & Hy).
    eexists. split; [exact E|]. split; [|done]. apply (ticking_step _ _ _ w); try done; [by apply inserted_ok|].
    cbn. rewrite set_insert_Permutation; [done|]. intros u Hu. exact (heartbeat_gone _ _ _ _ u Ht Hu).
  - exists (with_obj (called OneShot) w). split; [done|]. split; [apply (ticking_step _ _ _ w); done || reflexivity|done].
  - exists (with_obj (called TooLate) w). split; [done|]. split; [apply (ticking_step _ _ _ w); done || reflexivity|done].
Qed.

Lemma for_each_callback ts log flight w :
  ticking log (ts ++ flight) w ->
  exists log' w', for_each ts (fire run_usage) w = Ret tt w' /\ ticking log' flight w' /\
    onward (w_sys w) (w_sys w') /\ m_events (w_loop w') = m_events (w_loop w).
Proof.
  revert log w. induction ts as [|t ts IH]; intros log w Ht; [by exists log, w|].
  destruct (fire_ticking t log (ts ++ flight) w Ht) as (k & w1 & E1 & H1 & Ho1 & He1).
  destruct (IH (log ++ [k]) w1 H1) as (log' & w2 & E2 & H2 & Ho2 & He2).
  exists log', w2. cbn [for_each]. rewrite (bind_Ret _ _ _ _ _ E1). split_and!; [done..|by etransitivity|congruence].
Qed.

(** The event of the timer descriptor. *)
Lemma handleTimerRead_ticking log w :
  ticking log [] w ->
  exists log' w', handleTimerRead run_usage w = Ret tt w' /\ ticking log' [] w' /\
    onward (w_sys w) (w_sys w') /\ m_events (w_loop w') = m_events (w_loop w).
Proof.
  intros Ht. set (tfd := fd (m_timer_fd (w_loop w))). pose proof (frame_read (R := onward) tfd (w_sys w)) as H1.
  destruct (decide (fst (timerfd_read tfd (w_sys w)) = 8)) as [Hread|Hread].
  - rewrite (handleTimerRead_eq run_usage w (ok_sorted _ (tk_ok _ _ _ Ht)) Hread).
    set (now := fst (steady_now (read_sys w))). set (w1 := World _ _ _).
    pose proof (frame_now (R := onward) (read_sys w)) as H2. destruct (steady_now_clock (read_sys w)) as [_ Hnow].
    assert (Ho1 : onward (w_sys w) (w_sys w1)) by (by etransitivity).
    assert (Ht1 : ticking log (due now (m_timers (w_loop w)) ++ []) w1).
    { rewrite app_nil_r. destruct (ticking_onward _ _ _ _ Ht Ho1) as [Hok ? ? Htimers ? ? ? ? ? ? ? ?].
      split; try done.
      - by apply expired_loop_ok.
      - cbn in *. rewrite app_nil_r in Htimers. etransitivity; [|exact Htimers].
        unfold due, not_due. rewrite (Permutation_app_comm (filter _ _)). apply filter_app_complement.
      - apply Forall_forall. intros t [Hle _]%list_elem_of_filter. cbn. unfold now in Hle. lia. }
    destruct (for_each_callback _ _ _ _ Ht1) as (log' & w2 & E2 & Ht2 & Ho2 & He2).
    rewrite (bind_Ret _ _ _ _ _ E2). destruct (resetTimerFd_frame onward w2 (tk_ok _ _ _ Ht2)) as (y & E3 & Ho3).
    exists log', (with_sys y w2). split; [exact E3|]. split; [by apply ticking_onward|]. split; [|done].
    etransitivity; [exact Ho1|]. by etransitivity.
  - exists log, (with_sys (snd (timerfd_read tfd (w_sys w))) w). split; [|split; [by apply ticking_onward|done]].
    unfold handleTimerRead. run_steps. fold tfd. apply Z.eqb_neq in Hread. by rewrite Hread.
Qed.

Definition between_turns w : Prop := exists log, ticking log [] w.
Definition passes w w' : Prop := clock (w_sys w) <= clock (w_sys w').

#[export] Instance passes_order : PreOrder passes.
Proof. unfold passes. split; [intros w; lia|intros w1 w2 w3 ??; lia]. Qed.

Lemma usage_reacts : reacts run_usage no_receiver between_turns (fun _ => passes).
Proof.
  split.
  - done.
  - intros _ _ w1 w2 w3 H1 H2. by etransitivity.
  - intros w f p [log Ht] Hp. destruct (handleTimerRead_ticking log w Ht) as (log' & w' & E & Ht' & [Hc Hr] & He).
    exists TimerTag, w'. split; [by eapply tk_sources|]. split; [exact E|]. split; [by exists log'|done].
  - intros w v [log []] Hv. split; [|unfold passes; cbn; lia]. exists log. split; try done. destruct tk_ok0. split; try done. cbn. congruence.
  - intros w t [log Ht]. exists log. apply ticking_onward; [done|apply frame_wait].
  - intros w [log Ht]. apply Ht.
  - intros w [log Ht]. apply (ok_buffer _ (tk_ok _ _ _ Ht)).
Qed.

(** ** The loop *)

Lemma usage_loop_run n start w :
  between_turns w -> 0 <= start < clock_limit ->
  match usage_loop n start w with
  | Ret _ w' => between_turns w' /\ start + 5 * second <= clock (w_sys w')
  | Throw e _ => exists ec, e = BadResultAccess ec
  | Crash f => f = OutOfFuel
  end.
Proof.
  intros Hw Hs. revert w Hw. induction n as [|n IH]; intros w Hw; [done|]. cbn [usage_loop]. run_steps.
  pose proof (steady_now_range (w_sys w)) as Hr. destruct (steady_now_clock (w_sys w)) as [_ Hnow].
  set (now := fst (steady_now (w_sys w))) in *. set (w1 := with_sys _ w). unfold clock_limit in *. s64_step.
  assert (Hw1 : between_turns w1).
  { destruct Hw as [log Ht]. exists log. apply ticking_onward; [done|]. apply frame_now. }
  destruct (Z.ltb_spec (now - start) 5000000000) as [Hlt|Hge].
  - destruct (turn_reacts run_usage no_receiver between_turns _ usage_reacts 100 w1 Hw1) as (res & w2 & E & Hw2 & _).
    rewrite (bind_Ret _ _ _ _ _ E). unfold ResultVoid.value. destruct (ec_bool (m_ec res)); run_steps; [by eexists|]. by apply IH.
  - split; [done|]. cbn. unfold second. lia.
Qed.
End UsageFacts.

(** ** The program *)

Section UsageMain.
Context {Y : Type} `{SL : StartupLaws Y}.
Notation W := (world usage_task usage Y).
Context (message : error_code -> string).
Implicit Types w : W.

(** A timer is added to those with other identifiers. *)
Lemma scheduled_Permutation e iv rep cb (l : EventLoop usage_task) :
  (forall u, u ∈ m_timers l -> timer_id u <> m_nextTimerId l) ->
  m_timers (scheduled_timer e iv rep cb l) ≡ₚ MkTimer e iv cb (m_nextTimerId l) rep :: m_timers l.
Proof. intros Hid. cbn. apply set_insert_Permutation. intros u Hu E. apply (Hid u Hu). by injection E. Qed.

(** The state in which the program starts its loop, with the timers due at
    the instants it computes. *)
Lemma usage_schedule_run w :
  loop_ok (w_loop w) -> m_timers (w_loop w) = [] -> m_pendingTasks (w_loop w) = [] -> m_nextTimerId (w_loop w) = 1 ->
  (forall f p, registered (w_sys w) !! f = Some p -> leads (w_loop w) p TimerTag) -> counter (w_obj w) = 0 ->
  exists e1 e2 e3 w', usage_schedule message w = Ret tt w' /\
    ticking e1 e2 e3 (printed (w_obj w)) (errors (w_obj w)) [] [] w' /\ clock (w_sys w) <= clock (w_sys w') /\
    clock (w_sys w) + 1 * second <= e1 /\ clock (w_sys w) + 3500000000 <= e2 /\ clock (w_sys w) + 10 * second <= e3.
Proof.
  intros Hok Ht Hp Hn Hsrc Hc. unfold usage_schedule.
  destruct (runEvery_frame onward 1000 (Some Heartbeat) w Hok) as (y1 & E1 & Hy1 & Hok1); [done|].
  rewrite (bind_Ret _ _ _ _ _ E1). cbn [Result.has_value negb]. run_steps.
  set (l1 := scheduled_timer _ _ _ _ (w_loop w)) in *. set (w1 := World l1 _ _).
  destruct (runAfter_frame onward 3500 (Some OneShot) w1 Hok1) as (y2 & E2 & Hy2 & Hok2); [done|].
  rewrite (bind_Ret _ _ _ _ _ E2). cbn [Result.has_value negb]. run_steps.
  set (l2 := scheduled_timer _ _ _ _ (w_loop w1)) in *. set (w2 := World l2 _ _).
  destruct (runAfter_frame onward 10000 (Some TooLate) w2 Hok2) as (y3 & E3 & Hy3 & Hok3); [done|].
  rewrite (bind_Ret _ _ _ _ _ E3). cbn [Result.has_value negb]. run_steps.
  set (l3 := scheduled_timer _ _ _ _ (w_loop w2)) in *.
  set (e1 := now_of w + 1000 * 1000000) in *. set (e2 := now_of w1 + 3500 * 1000000) in *.
  set (e3 := now_of w2 + 10000 * 1000000) in *.
  assert (N1 : m_nextTimerId l1 = 2) by (cbn; by rewrite Hn).
  assert (N2 : m_nextTimerId l2 = 3) by (change (m_nextTimerId l2) with (u64 (m_nextTimerId l1 + 1)); by rewrite N1).
  assert (P1 : m_timers l1 ≡ₚ [heartbeat e1 0]).
  { unfold l1. rewrite scheduled_Permutation; rewrite Ht, ?Hn; [|by intros u Hu%elem_of_nil].
    unfold heartbeat. by rewrite Z.mul_0_l, Z.add_0_r. }
  assert (P2 : m_timers l2 ≡ₚ [one_shot e2; heartbeat e1 0]).
  { unfold l2. rewrite scheduled_Permutation; change (w_loop w1) with l1; rewrite ?N1, ?P1; [done|].
    intros u. rewrite P1. by intros ->%list_elem_of_singleton. }
  assert (P3 : m_timers l3 ≡ₚ left_after e1 e2 e3 []).
  { unfold l3. rewrite scheduled_Permutation; change (w_loop w2) with l2; rewrite ?N2, ?P2.
    - unfold left_after, shots_after, unless. cbn. apply Permutation_sym. change (beats []) with 0. solve_Permutation.
    - intros u. rewrite P2, elem_of_cons, list_elem_of_singleton. by intros [->| ->]. }
  exists e1, e2, e3, (World l3 (w_obj w) y3). split; [reflexivity|].
  destruct (steady_now_clock (w_sys w)) as [C1 _], (steady_now_clock y1) as [C2 _], (steady_now_clock y2) as [C3 _].
  pose proof (frame_now (R := onward) (w_sys w)) as F1. pose proof (frame_now (R := onward) y1) as F2.
  pose proof (frame_now (R := onward) y2) as F3.
  assert (O1 : onward (w_sys w) y1) by (by etransitivity). assert (O2 : onward y1 y2) by (by etransitivity).
  assert (O3 : onward y2 y3) by (by etransitivity).
  assert (Oall : onward (w_sys w) y3) by (etransitivity; [exact O1|]; by etransitivity).
  split.
  - split; try done; cbn [w_loop w_sys w_obj].
    + intros f p Hreg. rewrite (proj2 Oall) in Hreg. exact (Hsrc f p Hreg).
    + by rewrite app_nil_r.
    + cbn [usage_lines]. by rewrite app_nil_r.
    + by constructor.
    + by left.
    + by intros ?%elem_of_nil.
    + by intros ?%elem_of_nil.
  - unfold onward, e1, e2, e3, now_of, second in *. cbn [w_sys w1 w2] in *. lia.
Qed.

(** The loop before it runs. *)
Lemma usage_loop_made w :
  match EventLoop_new w with
  | Ret _ w' => loop_ok (w_loop w') /\ m_timers (w_loop w') = [] /\ m_pendingTasks (w_loop w') = [] /\
      m_nextTimerId (w_loop w') = 1 /\ w_obj w' = w_obj w /\ clock (w_sys w) <= clock (w_sys w') /\
      forall f p, registered (w_sys w') !! f = Some p -> leads (w_loop w') p TimerTag
  | Throw _ _ => True
  | Crash _ => False
  end.
Proof.
  pose proof (EventLoop_new_run w) as Hl.
  pose proof (EventLoop_new_fds (fun _ => tt) ltac:(done) ltac:(done) ltac:(done) w) as Hf.
  unfold wp in *. destruct (EventLoop_new w) as [[] w1|e w1|]; [|done..].
  destruct Hl as ((Hok & _) & _ & Ht & Hp & Hn & Hobj & p & _ & Hreg & Hd). split_and!; try done; [apply Hf|].
  intros f q. rewrite Hreg. intros [_ <-]%lookup_singleton_Some. by apply deref_leads in Hd.
Qed.

(** The two descriptors are closed. *)
Lemma EventLoop_delete_clock w :
  exists y, EventLoop_delete w = Ret tt (with_sys y w) /\ clock (w_sys w) <= clock y.
Proof.
  assert (Hdestroy : forall f w, exists y, ScopedFd.destroy close_fd f w = Ret tt (with_sys y w) /\ clock (w_sys w) <= clock y).
  { intros f w0. unfold ScopedFd.destroy. destruct (0 <=? fd f).
    - eexists. split; [reflexivity|]. apply close_clock.
    - exists (w_sys w0). split; [by destruct w0|lia]. }
  unfold EventLoop_delete. rewrite bind_loop_get. destruct (Hdestroy (m_timer_fd (id (w_loop w))) w) as (y & E & Hy).
  rewrite (bind_Ret _ _ _ _ _ E). destruct (Hdestroy (m_epoll_fd (id (w_loop w))) (with_sys y w)) as (y' & E' & Hy').
  exists y'. split; [exact E'|]. cbn in Hy'. lia.
Qed.

Definition first_line : string := "Starting Timer Example...".
Definition last_line : string := "Example finished. The 10s timer was safely discarded.".

(** C23 What TimerUsage prints, on any system that is up for less than 68
    years (the counter is an [int]).  It returns 0, or the process ends because
    the loop could not be made or could not wait; no signed arithmetic
    overflows.  When it returns, at least five seconds have passed; its lines
    are those of a sequence of callbacks: the heartbeats are numbered from 1 and
    the n-th comes after n seconds at least, the one-shot line comes at most once and
    after 3.5 seconds, and the line of the timer of ten seconds, which
    nothing cancels, only when ten seconds have passed.  No error is reported. *)
Theorem usage_main_prints n w :
  (forall y : Y, clock y < horizon) ->
  match usage_main message n w with
  | Ret status w' => status = 0 /\ exists log,
      printed (w_obj w') = (printed (w_obj w) ++ first_line :: usage_lines 0 log ++ [last_line])%list /\
      errors (w_obj w') = errors (w_obj w) /\ NoDup (shots log) /\
      let elapsed := clock (w_sys w') - clock (w_sys w) in
      5 * second <= elapsed /\ beats log * second <= elapsed /\
      (OneShot ∈ log -> 3500000000 <= elapsed) /\ (TooLate ∈ log -> 10 * second <= elapsed)
  | Throw _ _ => False
  | Crash f => f = OutOfFuel \/ f = TerminateCalled
  end.
Proof.
  intros Hh. unfold usage_main, noexcept. pose proof (usage_loop_made w) as Hmade. rewrite bind_run.
  destruct (EventLoop_new w) as [[] w1|e w1|]; [|by right|done].
  destruct Hmade as (Hok & Ht & Hp & Hn & Hobj & Hc1 & Hsrc). unfold usage_print. run_steps. set (w2 := with_obj _ (with_obj _ w1)).
  destruct (usage_schedule_run w2) as (e1 & e2 & e3 & w3 & E3 & Ht3 & Hc3 & He1 & He2 & He3); [done..|].
  rewrite (bind_Ret _ _ _ _ _ E3). change (clock (w_sys w2)) with (clock (w_sys w1)) in *. run_steps.
  pose proof (steady_now_range (w_sys w3)) as Hstart. destruct (steady_now_clock (w_sys w3)) as [Hs1 Hs2].
  set (start := fst (steady_now (w_sys w3))) in *. set (w4 := with_sys _ w3).
  pose proof (clock_range (w_sys w1)) as Hr1. assert (Hsecond : second <= e1) by lia.
  assert (Ht4 : between_turns e1 e2 e3 (printed (w_obj w2)) (errors (w_obj w2)) w4).
  { exists []. apply ticking_onward; [done|]. apply (frame_now (R := onward)). }
  pose proof (usage_loop_run e1 e2 e3 _ _ Hh Hsecond n start w4 Ht4 Hstart) as Hloop. rewrite bind_run.
  destruct (usage_loop n start w4) as [[] w5|e w5|f]; [|by right|by left].
  destruct Hloop as [[log [_ _ _ _ _ _ Hpr Herr Honce Hbeats Hone Hlate]] Hend]. run_steps.
  match goal with |- context [(EventLoop_delete ≫= _) ?w6] =>
    destruct (EventLoop_delete_clock w6) as (y & E & Hy) end.
  rewrite (bind_Ret _ _ _ _ _ E). cbn in Hy |- *. split; [done|]. exists log. rewrite Hpr, Herr.
  change (printed (w_obj w2)) with (printed (w_obj w1) ++ [first_line])%list.
  change (errors (w_obj w2)) with (errors (w_obj w1)). rewrite Hobj. unfold second in *. split_and!; try done.
  - by rewrite <- !app_assoc.
  - lia.
  - pose proof (clock_range y). lia.
  - intros H1. specialize (Hone H1). lia.
  - intros H1. specialize (Hlate H1). lia.
Qed.
End UsageMain.
