(* ===== verification/TimerUsageWitness.v ===== *)
(** The program [TimerUsage] run on the simulated kernel, and the witness of
    its property. *)
From S2P Require Import Prelude Outcome Result Kernel SimKernel ScopedFd TimerQueue EventLoop Recorder.
From S2P Require Import EventLoopFacts TimerFacts Waking ReactorWitness TimerUsageApp.

Local Open Scope string_scope.
Local Open Scope Z_scope.

Notation usage_world := (world usage_task usage sim).

(** Before [main], on a system that has been up for an hour. *)
Definition usage_boot : usage_world :=
  World (MkEventLoop (MkScopedFd (-1)) (MkScopedFd (-1)) [] ∅ ∅ 0 [] [] ∅ 1) (MkUsage 0 [] []) (sim_boot 3600000000000).

Definition no_message (ec : error_code) : string := "error".

Definition printed_by (n : nat) : option (Z * list string) :=
  match usage_main no_message n usage_boot with Ret status w => Some (status, printed (w_obj w)) | _ => None end.

(** Six thousand turns of its loop are enough. *)
Example usage_run :
  printed_by 6000 = Some (0,
    ["Starting Timer Example...";
     "[Periodic] Heartbeat 1s elapsed"; "[Periodic] Heartbeat 2s elapsed"; "[Periodic] Heartbeat 3s elapsed";
     "[One-Shot] 3.5 seconds have passed. Cleaning up resources...";
     "[Periodic] Heartbeat 4s elapsed"; "[Periodic] Heartbeat 5s elapsed";
     "Example finished. The 10s timer was safely discarded."]).
Proof. vm_compute. reflexivity. Qed.

Lemma usage_ends : exists w', usage_main no_message 6000 usage_boot = Ret 0 w'.
Proof.
  pose proof usage_run as H. unfold printed_by in H.
  destruct (usage_main no_message 6000 usage_boot) as [status w'| |]; [|done..]. injection H as -> _. by exists w'.
Qed.

Lemma sim_horizon (y : sim) : clock y < horizon.
Proof. cbn. unfold Sim.clk, horizon, second. lia. Qed.

Lemma usage_main_prints_witness :
  (forall y : sim, clock y < horizon) /\
  exists log w', usage_main no_message 6000 usage_boot = Ret 0 w' /\
    printed (w_obj w') = first_line :: (usage_lines 0 log ++ [last_line])%list /\
    5 * second <= clock (w_sys w') - 3600 * second.
Proof.
  split; [exact sim_horizon|]. destruct usage_ends as (w' & E).
  pose proof (usage_main_prints no_message 6000 usage_boot sim_horizon) as H. rewrite E in H.
  destruct H as (_ & log & Hp & _ & _ & Ht & _). exists log, w'. split; [exact E|]. split; [exact Hp|exact Ht].
Defined.
