(* ===== verification/AppKernel.v ===== *)
(** A program on top of a kernel: the kernel state paired with the memory of
    the application, which the calls of the kernel leave alone.  The laws of
    the kernel carry over to the pair, so that a program's theorems hold
    for any kernel with the laws. *)
From S2P Require Import Prelude Outcome Result Kernel SimKernel ScopedFd TimerQueue EventLoop Recorder.
From S2P Require Import EventLoopFacts TimerFacts Waking.

Section AppKernel.
Context {K A : Type}.

(** A call of the kernel. *)
Definition lift {R} (f : K -> R * K) (y : K * A) : R * (K * A) :=
  (fst (f (fst y)), (snd (f (fst y)), snd y)).

#[export] Instance app_reactor {RK : ReactorKernel K} : ReactorKernel (K * A) := {
  errno y := errno (fst y);
  steady_now := lift steady_now;
  epoll_create1 flags := lift (epoll_create1 flags);
  timerfd_create c flags := lift (timerfd_create c flags);
  epoll_ctl_add e f m p := lift (epoll_ctl_add e f m p);
  epoll_ctl_del e f := lift (epoll_ctl_del e f);
  epoll_wait e n t := lift (epoll_wait e n t);
  timerfd_settime f flags v := lift (timerfd_settime f flags v);
  timerfd_read f := lift (timerfd_read f);
  close f := lift (close f)
}.

#[export] Instance app_mmap {MK : MemoryKernel K} : MemoryKernel (K * A) := {
  this_thread_id y := this_thread_id (fst y);
  mmap_anon len flags := lift (mmap_anon len flags);
  munmap a len := lift (munmap a len)
}.

#[export] Instance app_socket {SK : SocketKernel K} : SocketKernel (K * A) := {
  socket fam := lift (socket fam);
  setsockopt f l o v := lift (setsockopt f l o v);
  bind f fam port := lift (bind f fam port);
  getsockname f := lift (getsockname f);
  recvmmsg f bufs vlen flags := lift (recvmmsg f bufs vlen flags)
}.

#[export] Instance app_file {FK : FileKernel K} : FileKernel (K * A) := {
  open_rdonly path := lift (open_rdonly path);
  fstat_size f := lift (fstat_size f);
  mmap_file len f := lift (mmap_file len f);
  madvise a len := lift (madvise a len)
}.

#[export] Program Instance app_laws `{RL : ReactorLaws K} : ReactorLaws (K * A) := {
  clock y := clock (fst y);
  deadline y := deadline (fst y);
  registered y := registered (fst y)
}.
Next Obligation. intros. cbn. apply clock_range. Qed.
Next Obligation. intros. cbn. apply steady_now_clock. Qed.
Next Obligation. intros. cbn. apply steady_now_frame. Qed.
Next Obligation. intros. cbn. by apply settime_abs. Qed.
Next Obligation. intros. cbn. apply settime_disarm. Qed.
Next Obligation. intros. cbn. apply settime_frame. Qed.
Next Obligation. intros. cbn. by apply read_consumes. Qed.
Next Obligation. intros. cbn. by apply read_fails. Qed.
Next Obligation. intros. cbn. apply read_frame. Qed.
Next Obligation. intros. cbn. by apply epoll_add_ok. Qed.
Next Obligation. intros. cbn. by apply epoll_add_fail. Qed.
Next Obligation. intros. cbn. apply epoll_add_deadline. Qed.
Next Obligation. intros. cbn. apply epoll_del_ok. Qed.
Next Obligation. intros. cbn. by apply epoll_del_fail. Qed.
Next Obligation. intros. cbn. apply epoll_del_deadline. Qed.
Next Obligation. intros ?? e n t y evs E. exact (epoll_wait_ok e n t (fst y) evs E). Qed.
Next Obligation. intros. cbn. apply epoll_wait_frame. Qed.
Next Obligation. intros. cbn. by apply epoll_create_empty. Qed.
Next Obligation. intros. cbn. apply timerfd_create_frame. Qed.
Next Obligation. intros. cbn. apply close_registered. Qed.

#[export] Program Instance app_socket_laws `{SL : SocketLaws K} : SocketLaws (K * A).
Next Obligation. intros. cbn. apply socket_registered. Qed.
Next Obligation. intros. cbn. apply setsockopt_registered. Qed.
Next Obligation. intros. cbn. apply bind_registered. Qed.
Next Obligation. intros. cbn. apply getsockname_registered. Qed.
Next Obligation. intros. cbn. apply close_unregisters. Qed.
Next Obligation. intros. cbn. apply recvmmsg_registered. Qed.
Next Obligation. intros. cbn in *. by eapply recvmmsg_bound. Qed.

#[export] Program Instance app_log `{KL : KernelLog K} : KernelLog (K * A) := {
  kernel_log y := kernel_log (fst y)
}.
Next Obligation. intros. cbn. apply log_wait. Qed.
Next Obligation. intros. cbn. apply log_recv. Qed.
Next Obligation. intros. cbn. apply log_now. Qed.
Next Obligation. intros. cbn. apply log_settime. Qed.
Next Obligation. intros. cbn. apply log_read. Qed.

#[export] Program Instance app_waking `{WK : WakingKernel K} : WakingKernel (K * A) := {
  epoll_of y := epoll_of (fst y);
  timer_of y := timer_of (fst y)
}.
Next Obligation. intros. cbn. apply fds_now. Qed.
Next Obligation. intros. cbn. apply fds_settime. Qed.
Next Obligation. intros. cbn. apply fds_read. Qed.
Next Obligation. intros. cbn. apply fds_wait. Qed.
Next Obligation. intros. cbn. by apply fds_ctl. Qed.
Next Obligation. intros. cbn. apply wait_clock. Qed.
Next Obligation. intros. cbn. apply close_clock. Qed.
Next Obligation. intros. cbn. by apply ctl_clock. Qed.
Next Obligation. intros. cbn. by apply wait_polls. Qed.
Next Obligation. intros. cbn in *. by eapply wait_wakes. Qed.
Next Obligation. intros. cbn in *. by eapply read_due. Qed.

#[export] Program Instance app_startup `{SL : StartupLaws K} : StartupLaws (K * A).
Next Obligation. intros. cbn. apply epoll_created. Qed.
Next Obligation. intros. cbn. apply timer_created. Qed.
Next Obligation. intros. unfold undisturbed. cbn. apply mmap_undisturbed. Qed.
Next Obligation. intros. unfold undisturbed. cbn. apply open_undisturbed. Qed.
Next Obligation. intros. unfold undisturbed. cbn. apply fstat_undisturbed. Qed.
Next Obligation. intros. unfold undisturbed. cbn. apply mmap_file_undisturbed. Qed.
Next Obligation. intros. unfold undisturbed. cbn. apply madvise_undisturbed. Qed.
Next Obligation. intros. cbn. apply munmap_clock. Qed.
Next Obligation. intros. cbn. apply one_thread. Qed.

#[export] Program Instance app_descriptors `{DT : DescriptorTable K} : DescriptorTable (K * A) := {
  live_fds y := live_fds (fst y)
}.
Next Obligation. intros. apply (live_epoll flags (fst y)). Qed.
Next Obligation. intros. apply (live_timer c flags (fst y)). Qed.
Next Obligation. intros. apply (live_open path (fst y)). Qed.
Next Obligation. intros. cbn. apply live_close. Qed.
Next Obligation. intros. cbn. apply live_add. Qed.
Next Obligation. intros. cbn. apply live_mmap. Qed.
Next Obligation. intros. cbn. apply live_munmap. Qed.

(** A handler of packets that works on the memory of the application. *)
Definition app_emit (handle : A -> delivery -> A) (d : delivery) (y : K * A) : K * A :=
  (fst y, handle (snd y) d).

#[export] Instance app_quiet `{WK : WakingKernel K} (handle : A -> delivery -> A) : QuietCalls (app_emit handle).
Proof. done. Qed.

#[export] Program Instance app_memory `{WK : WakingKernel K} (handle : A -> delivery -> A) :
  AppMemory A (app_emit handle) := {
  memory := snd;
  note := handle
}.
Solve Obligations with done.
End AppKernel.
