(* ===== verification/Float64.v ===== *)
(** The [double] arithmetic of the program (IEEE 754 binary64, round to
    nearest even), on the executable specification of the standard library. *)
From S2P Require Import Prelude.
From Stdlib Require Import Floats.SpecFloat.

Definition double : Type := spec_float.

Definition f64_of_Z (z : Z) : double := binary_normalize 53 1024 z 0 false.
Definition f64_add (x y : double) : double := SFadd 53 1024 x y.
Definition f64_mul (x y : double) : double := SFmul 53 1024 x y.
Definition f64_div (x y : double) : double := SFdiv 53 1024 x y.
Definition f64_eqb (x y : double) : bool := SFeqb x y.

Definition f64_one : double := f64_of_Z 1.
Definition f64_1e9 : double := f64_of_Z 1000000000.

(** Conversion to an integer type: truncation toward zero; [None] where the
    language gives no meaning (not a number, infinite, or out of range of a
    64-bit signed integer). *)
Definition f64_trunc (x : double) : option Z :=
  match x with
  | S754_zero _ => Some 0
  | S754_finite s m e =>
      let a := if 0 <=? e then Z.pos m * 2 ^ e else Z.pos m / 2 ^ (- e) in
      let z := if s then - a else a in
      if in_s64 z then Some z else None
  | _ => None
  end.

(** [1.5 * 2] is [3], and its quotient by [2] truncates to [1]. *)
Example f64_mul_ex :
  f64_trunc (f64_mul (f64_div (f64_of_Z 3) (f64_of_Z 2)) (f64_of_Z 2)) = Some 3.
Proof. vm_compute. reflexivity. Qed.
Example f64_div_ex : f64_trunc (f64_div (f64_of_Z (-3)) (f64_of_Z 2)) = Some (-1).
Proof. vm_compute. reflexivity. Qed.
Example f64_div_zero_ex : f64_trunc (f64_div (f64_of_Z 3) (f64_of_Z 0)) = None.
Proof. vm_compute. reflexivity. Qed.
