(* ===== verification/FloatRounding.v ===== *)
(** The binary64 arithmetic of the standard library's specification, as
    rounding of rational numbers: the value of a [double], the relation between
    a number and what it is rounded to, that every operation of [Float64]
    rounds the exact result, what a rounding keeps, and truncation. *)
From S2P Require Import Prelude Float64.
From Stdlib Require Import QArith Qabs Qpower Lqa Floats.SpecFloat.

Local Open Scope Q_scope.

(** ** Powers of two *)

Definition p2 (e : Z) : Q := 2 ^ e.

Lemma p2_pos e : 0 < p2 e.
Proof. by apply Qpower_0_lt. Qed.

Lemma p2_add a b : p2 (a + b) == p2 a * p2 b.
Proof. by apply Qpower_plus. Qed.

Lemma p2_le a b : (a <= b)%Z -> p2 a <= p2 b.
Proof. intros. by apply Qpower_le_compat_l. Qed.

Lemma p2_lt_inv a b : p2 a < p2 b -> (a < b)%Z.
Proof. intros H. destruct (Z.lt_ge_cases a b) as [|Hle]; [done|]. apply p2_le in Hle. lra. Qed.

Lemma p2_Z n : (0 <= n)%Z -> p2 n == inject_Z (2 ^ n).
Proof. intros. symmetry. by apply Zpower_Qpower. Qed.

Lemma p2_half e : p2 (e - 1) * 2 == p2 e.
Proof. rewrite <- (Z.sub_simpl_r e 1) at 2. by rewrite p2_add. Qed.

Lemma inject_le x y : (x <= y)%Z -> inject_Z x <= inject_Z y.
Proof. by rewrite Zle_Qle. Qed.
Lemma inject_lt x y : (x < y)%Z -> inject_Z x < inject_Z y.
Proof. by rewrite Zlt_Qlt. Qed.

Ltac qlra := change (inject_Z 0) with 0 in *; change (inject_Z 1) with 1 in *; change (inject_Z 2) with 2 in *; lra.

(** ** Digits *)

Lemma digits_pos p : (2 ^ (Z.pos (digits2_pos p) - 1) <= Z.pos p < 2 ^ Z.pos (digits2_pos p))%Z.
Proof.
  induction p as [p IH|p IH|]; cbn [digits2_pos]; [| |done];
    rewrite Pos2Z.inj_succ, <- Z.add_1_r, Z.add_simpl_r, Z.pow_add_r by lia;
    (rewrite <- (Z.sub_simpl_r (Z.pos (digits2_pos p)) 1) at 1; rewrite Z.pow_add_r by lia; change (2 ^ 1)%Z with 2%Z; lia).
Qed.

Lemma digits_nonneg m : (0 <= m)%Z -> (0 <= Zdigits2 m /\ m < 2 ^ Zdigits2 m /\ (0 < m -> 2 ^ (Zdigits2 m - 1) <= m))%Z.
Proof. destruct m as [|p|]; [done| |lia]. pose proof (digits_pos p). cbn [Zdigits2]. lia. Qed.

(** ** Truncated numbers

    A shift register with a mantissa and two bits stands for a number in an
    interval. *)

Definition holds (r : shr_record) (y : Q) : Prop :=
  exists d, y == inject_Z (shr_m r) + (if shr_r r then 1 # 2 else 0) + d /\ (0 <= shr_m r)%Z /\
    if shr_s r then 0 < d < 1 # 2 else d == 0.

Lemma holds_proper r y y' : y == y' -> holds r y -> holds r y'.
Proof. intros E (d & Hy & Hr). exists d. by rewrite <- E. Qed.

Lemma shr_1_holds r y : holds r y -> holds (shr_1 r) (y * (1 # 2)).
Proof.
  destruct r as [m r s]. intros (d & Hy & Hm & Hs). cbn [shr_m shr_r shr_s] in *.
  assert (Hq : forall m' b, (m = 2 * m' + (if b : bool then 1 else 0))%Z -> (0 <= m')%Z ->
    holds (Build_shr_record m' b (r || s)) (y * (1 # 2))).
  { intros m' b -> Hm'. exists ((if r then 1 # 2 else 0) * (1 # 2) + d * (1 # 2)).
    cbn [shr_m shr_r shr_s]. rewrite Hy, inject_Z_plus, inject_Z_mult.
    split; [destruct b, r; qlra|]. split; [done|]. destruct r, s; cbn [orb]; lra. }
  unfold shr_1. destruct m as [|[p|p|]|p]; [apply (Hq 0%Z false)|apply (Hq (Z.pos p) true)|apply (Hq (Z.pos p) false)
    |apply (Hq 0%Z true)|]; lia.
Qed.

Lemma iter_shr_holds n r y : holds r y -> holds (iter_pos shr_1 n r) (y * p2 (- Z.pos n)).
Proof.
  assert (Hd : forall p y', y' * p2 (- Z.pos p) * p2 (- Z.pos p) == y' * p2 (- Z.pos p~0)).
  { intros p y'. rewrite <- Qmult_assoc, <- p2_add. by replace (- Z.pos p + - Z.pos p)%Z with (- Z.pos p~0)%Z by lia. }
  revert r y. induction n as [n IH|n IH|]; intros r y Hr; cbn [iter_pos].
  - apply shr_1_holds, IH, IH in Hr. eapply holds_proper; [|exact Hr]. rewrite Hd.
    replace (- Z.pos n~1)%Z with (-1 + - Z.pos n~0)%Z by lia. rewrite p2_add. change (p2 (-1)) with (1 # 2). lra.
  - apply IH, IH in Hr. eapply holds_proper; [|exact Hr]. apply Hd.
  - by apply shr_1_holds.
Qed.

Lemma loc_holds m l e :
  holds (shr_record_of_loc m l) e -> holds (shr_record_of_loc m (loc_of_shr_record (shr_record_of_loc m l))) e.
Proof. by destruct l as [|[]]. Qed.

Lemma nearest_even_near r y :
  holds r y -> let n := round_nearest_even (shr_m r) (loc_of_shr_record r) in
  (shr_m r <= n <= shr_m r + 1)%Z /\ - (1 # 2) <= inject_Z n - y <= 1 # 2 /\ inject_Z (shr_m r) <= y.
Proof.
  destruct r as [m r s]. intros (d & Hy & Hm & Hs). cbn [shr_m shr_r shr_s] in *. rewrite Hy.
  unfold loc_of_shr_record, round_nearest_even. destruct r, s; [|destruct (Z.even m)|..];
    rewrite ?inject_Z_plus; (split; [lia|]); qlra.
Qed.

Lemma shr_m_of_loc m l : shr_m (shr_record_of_loc m l) = m.
Proof. by destruct l as [|[]]. Qed.

(** ** Rounding

    [v] is a number with 53 bits next to [q]: a multiple of a power of two,
    off by half of it at most, and that power is as small as [q] or the format
    allows. *)

Definition rounds (q v : Q) : Prop :=
  exists n g, v == inject_Z n * p2 g /\ (Z.abs n <= 2 ^ 53)%Z /\ (-1074 <= g)%Z /\
    - p2 g <= 2 * (v - q) <= p2 g /\ (p2 (g + 52) <= Qabs q \/ g = (-1074)%Z).

Definition val (x : double) : Q :=
  match x with S754_finite s m e => (if s then -1 else 1) * (inject_Z (Z.pos m) * p2 e) | _ => 0 end.

Definition finite (x : double) : Prop :=
  match x with S754_zero _ | S754_finite _ _ _ => True | _ => False end.

Lemma fexp_53 k : fexp 53 1024 k = Z.max (k - 53) (-1074).
Proof. done. Qed.

Lemma shr_holds r e n x :
  holds r (x * p2 (- e)) ->
  snd (shr r e n) = (e + Z.max 0 n)%Z /\ holds (fst (shr r e n)) (x * p2 (- snd (shr r e n))).
Proof.
  intros Hr. destruct n as [|n|n]; cbn [shr fst snd]; [by rewrite Z.add_0_r| |by rewrite Z.add_0_r].
  split; [lia|]. apply (iter_shr_holds n) in Hr. eapply holds_proper; [|exact Hr].
  replace (- (e + Z.pos n))%Z with (- e + - Z.pos n)%Z by lia. rewrite p2_add. lra.
Qed.

(** The number that is left after the first shift, in 53 bits. *)
Lemma shr_fexp_holds m e l x :
  (0 <= m)%Z -> holds (shr_record_of_loc m l) (x * p2 (- e)) ->
  let '(r, e') := shr_fexp 53 1024 m e l in
  e' = Z.max e (fexp 53 1024 (Zdigits2 m + e)) /\ holds r (x * p2 (- e')) /\ (0 <= shr_m r < 2 ^ 53)%Z.
Proof.
  intros Hm Hr. unfold shr_fexp. set (n := (fexp 53 1024 (Zdigits2 m + e) - e)%Z).
  destruct (shr_holds _ _ n _ Hr) as [He Hr']. destruct (shr _ e n) as [r e']. cbn [fst snd] in *.
  split; [lia|]. split; [done|]. destruct Hr' as (d' & Hx' & Hm' & Hd'). split; [done|].
  destruct Hr as (d & Hx & _ & Hd). rewrite shr_m_of_loc in Hx. destruct (digits_nonneg m Hm) as (Hd0 & Hlt & _).
  assert (Hb : x * p2 (- e) < inject_Z (2 ^ Zdigits2 m)).
  { apply (Qlt_le_trans _ (inject_Z (m + 1))); [|apply inject_le; lia]. rewrite Hx, inject_Z_plus.
    destruct (shr_r _), (shr_s _); qlra. }
  assert (Hf : (Zdigits2 m + e - 53 <= fexp 53 1024 (Zdigits2 m + e))%Z) by (rewrite fexp_53; lia).
  rewrite Zlt_Qlt, <- p2_Z by lia. rewrite <- p2_Z in Hb by lia.
  assert (Hk : p2 (- e') * p2 (Zdigits2 m + e) <= p2 53) by (rewrite <- p2_add; apply p2_le; lia).
  assert (Hz : x * p2 (- e') < p2 (- e') * p2 (Zdigits2 m + e)).
  { assert (x < p2 (Zdigits2 m + e)) as Hxb.
    { assert (E : x == x * p2 (- e) * p2 e) by (rewrite <- Qmult_assoc, <- p2_add, Z.add_opp_diag_l; change (p2 0) with 1; lra).
      rewrite E, p2_add. apply Qmult_lt_compat_r; [apply p2_pos|done]. }
    rewrite (Qmult_comm x). apply Qmult_lt_l; [apply p2_pos|done]. }
  destruct (shr_r r), (shr_s r); lra.
Qed.

(** The second shift only takes back a carry out of the 53 bits. *)
Lemma shr_carry n e :
  (0 <= n <= 2 ^ 53)%Z -> (-1074 <= e)%Z ->
  let '(r, e') := shr_fexp 53 1024 n e loc_Exact in
  (0 <= shr_m r)%Z /\ inject_Z (shr_m r) * p2 e' == inject_Z n * p2 e /\ (e' <= e + 1)%Z.
Proof.
  intros [Hn Hmax] He. unfold shr_fexp. rewrite fexp_53. destruct (decide (n = 2 ^ 53)%Z) as [->|Hlt].
  - change (Zdigits2 (2 ^ 53)) with 54%Z. replace (Z.max _ _ - e)%Z with 1%Z by lia.
    cbn [shr iter_pos shr_record_of_loc]. change (shr_1 _) with (Build_shr_record (2 ^ 52) false false). cbn [shr_m].
    split; [done|]. split; [|lia]. rewrite p2_add, (Qmult_comm (p2 e)), Qmult_assoc. reflexivity.
  - destruct (digits_nonneg n Hn) as (Hd0 & _ & Hd).
    assert (Hd53 : (Zdigits2 n <= 53)%Z).
    { destruct (Z.le_gt_cases (Zdigits2 n) 53) as [|Hgt]; [done|]. destruct (decide (n = 0)%Z) as [->|]; [done|].
      assert (2 ^ 53 <= 2 ^ (Zdigits2 n - 1))%Z by (apply Z.pow_le_mono_r; lia). lia. }
    destruct (Z.max _ _ - e)%Z eqn:E; cbn [shr shr_m shr_record_of_loc]; [|lia|]; (split; [done|split; [done|lia]]).
Qed.

(** What [binary_round_aux] is given: a mantissa that is long enough for the
    format, or exact. *)
Definition enough m e l : Prop := (e <= fexp 53 1024 (Zdigits2 m + e))%Z \/ (l = loc_Exact /\ (0 < m)%Z).

Lemma holds_ge m l e x : (0 <= m)%Z -> holds (shr_record_of_loc m l) (x * p2 (- e)) -> inject_Z m * p2 e <= x.
Proof.
  intros Hm (d & Hx & _ & Hd). rewrite shr_m_of_loc in Hx.
  assert (E : x == x * p2 (- e) * p2 e) by (rewrite <- Qmult_assoc, <- p2_add, Z.add_opp_diag_l; change (p2 0) with 1; lra).
  rewrite E. apply Qmult_le_compat_r; [|apply Qlt_le_weak, p2_pos]. destruct (shr_r _), (shr_s _); lra.
Qed.

Lemma digits_ge m e : (0 < m)%Z -> p2 (Zdigits2 m - 1 + e) <= inject_Z m * p2 e.
Proof.
  intros Hm. destruct (digits_nonneg m) as (_ & _ & Hd); [lia|]. rewrite p2_add. apply Qmult_le_compat_r; [|apply Qlt_le_weak, p2_pos].
  destruct m as [|p|]; [done| |done]. rewrite p2_Z by (cbn [Zdigits2]; lia). apply inject_le. by apply Hd.
Qed.

(** The power of two of the result. *)
Lemma round_exponent m e l x :
  (0 <= m)%Z -> holds (shr_record_of_loc m l) (x * p2 (- e)) -> enough m e l ->
  let f := fexp 53 1024 (Zdigits2 m + e) in p2 (f + 52) <= x \/ f = (-1074)%Z.
Proof.
  intros Hm Hr He f. unfold f. rewrite fexp_53. destruct (Z.le_gt_cases (Zdigits2 m + e - 53) (-1074)); [right; lia|left].
  assert (Hpos : (0 < m)%Z).
  { destruct He as [He|[_ ?]]; [|done]. rewrite fexp_53 in He. destruct m; [cbn in *|..]; lia. }
  eapply Qle_trans; [|by apply (holds_ge m l)]. eapply Qle_trans; [|by apply digits_ge]. apply p2_le. lia.
Qed.

Definition signed (s : bool) (q : Q) : Q := (if s then -1 else 1) * q.

Lemma rounds_signed s q v : rounds q v -> rounds (signed s q) (signed s v).
Proof.
  intros (n & g & Hv & Hn & Hg & Hd & Hu). unfold signed. destruct s.
  - exists (- n)%Z, g. rewrite inject_Z_opp. split; [lra|]. split; [lia|]. split; [done|]. split; [lra|].
    destruct Hu as [Hu|Hu]; [left|by right]. assert (E : -1 * q == - q) by lra. by rewrite E, Qabs_opp.
  - exists n, g. split; [lra|]. split; [done|]. split; [done|]. split; [lra|].
    destruct Hu as [Hu|Hu]; [left|by right]. by rewrite Qmult_1_l.
Qed.

Lemma rounds_proper q q' v v' : q == q' -> v == v' -> rounds q v -> rounds q' v'.
Proof.
  intros Eq Ev (n & g & Hv & Hn & Hg & Hd & Hu). exists n, g. rewrite <- Eq, <- Ev. exact (conj Hv (conj Hn (conj Hg (conj Hd Hu)))).
Qed.

(** A number in 53 bits, as it is given or after the first shift. *)
Lemma rounded_near m e l x :
  (0 <= m)%Z -> holds (shr_record_of_loc m l) (x * p2 (- e)) -> enough m e l ->
  let '(r, e') := shr_fexp 53 1024 m e l in
  let n := round_nearest_even (shr_m r) (loc_of_shr_record r) in
  (0 <= n <= 2 ^ 53)%Z /\ (-1074 <= e')%Z /\ rounds x (inject_Z n * p2 e') /\ (x < p2 900 -> (e' <= 900)%Z).
Proof.
  intros Hm Hr He. pose proof (shr_fexp_holds m e l x Hm Hr) as Hs. pose proof (round_exponent m e l x Hm Hr He) as Hf.
  pose proof (holds_ge m l e x Hm Hr) as Hge. set (f := fexp 53 1024 (Zdigits2 m + e)) in *. cbv zeta in Hf.
  assert (Hf0 : (Zdigits2 m + e - 53 <= f /\ -1074 <= f)%Z) by (unfold f; rewrite fexp_53; lia).
  assert (Hx0 : 0 <= x).
  { eapply Qle_trans; [|exact Hge]. apply Qmult_le_0_compat; [by apply (inject_le 0)|apply Qlt_le_weak, p2_pos]. }
  assert (Hu : p2 (f + 52) <= Qabs x \/ f = (-1074)%Z) by (by rewrite Qabs_pos).
  destruct (shr_fexp 53 1024 m e l) as [r e'] eqn:Es. destruct Hs as (He' & Hr' & Hr53).
  pose proof (nearest_even_near r _ Hr') as Hn. cbv zeta in Hn. set (n := round_nearest_even _ _) in *.
  destruct Hn as (Hn & Hnear & _). split; [lia|]. split; [lia|].
  assert (Ex : x == x * p2 (- e') * p2 e') by (rewrite <- Qmult_assoc, <- p2_add, Z.add_opp_diag_l; change (p2 0) with 1; lra).
  destruct (Z.le_gt_cases e f) as [Hle|Hgt].
  - assert (e' = f) as -> by lia. split.
    + exists n, f. split; [done|]. split; [lia|]. split; [lia|]. split; [|done].
      rewrite Ex. pose proof (p2_pos f). set (t := x * p2 (- f)) in *. set (k := inject_Z n) in *. split; nra.
    + intros Hx. destruct Hf as [Hf| ->]; [|lia]. assert (f + 52 < 900)%Z by (apply p2_lt_inv; lra). lia.
  - destruct He as [Hef|[-> Hpos]]; [fold f in Hef; lia|]. unfold shr_fexp in Es. fold f in Es.
    assert (r = Build_shr_record m false false /\ e' = e) as [-> ->].
    { destruct (f - e)%Z eqn:E; [lia|lia|]. cbn in Es. by injection Es as <- <-. }
    change n with m. destruct Hr' as (d & Hx & _ & Hd). cbn [shr_m shr_r shr_s] in *.
    assert (Hxm : x == inject_Z m * p2 e) by (rewrite Ex; rewrite Hx, Hd; lra).
    assert (Hxf : x == inject_Z (m * 2 ^ (e - f)) * p2 f).
    { rewrite Hxm, inject_Z_mult, <- p2_Z, <- Qmult_assoc, <- p2_add by lia. by rewrite Z.sub_simpl_r. }
    split.
    + exists (m * 2 ^ (e - f))%Z, f. split; [by rewrite <- Hxm|]. split; [|split; [lia|split; [|done]]].
      * apply Z.lt_le_incl. rewrite Zlt_Qlt. rewrite Z.abs_eq by nia.
        destruct (digits_nonneg m Hm) as (Hd0 & Hlt & _). rewrite inject_Z_mult, <- !p2_Z by lia.
        apply (Qlt_le_trans _ (p2 (Zdigits2 m) * p2 (e - f))).
        { apply Qmult_lt_compat_r; [apply p2_pos|]. rewrite p2_Z by done. by apply inject_lt. }
        rewrite <- p2_add. apply p2_le. lia.
      * rewrite <- Hxm. pose proof (p2_pos f). lra.
    + intros Hx9. assert (e < 900)%Z; [|lia]. apply p2_lt_inv. apply (Qle_lt_trans _ x); [|done]. rewrite Hxm.
      assert (1 <= inject_Z m) by (apply (inject_le 1); lia). pose proof (p2_pos e). nra.
Qed.

(** The rounding of the standard library rounds. *)
Lemma binary_round_aux_rounds s m e l x :
  (0 <= m)%Z -> holds (shr_record_of_loc m l) (x * p2 (- e)) -> enough m e l -> x < p2 900 ->
  let r := binary_round_aux 53 1024 s m e l in finite r /\ rounds (signed s x) (val r).
Proof.
  intros Hm Hr He Hx r. unfold r, binary_round_aux. pose proof (rounded_near m e l x Hm Hr He) as H.
  destruct (shr_fexp 53 1024 m e l) as [r1 e1]. cbv zeta in H. set (n := round_nearest_even _ _) in *.
  destruct H as (Hn & He1 & Hrd & H900). specialize (H900 Hx). pose proof (shr_carry n e1 Hn He1) as Hc.
  destruct (shr_fexp 53 1024 n e1 loc_Exact) as [r2 e2]. destruct Hc as (Hpos & Hv & He2).
  apply (rounds_signed s) in Hrd. destruct (shr_m r2) as [|p|p]; [|rewrite (proj2 (Z.leb_le _ _)) by lia|lia];
    (split; [done|]); (eapply rounds_proper; [reflexivity| |exact Hrd]); unfold signed; cbn [val]; rewrite <- Hv; [|done].
  destruct s; qlra.
Qed.

(** ** The operations

    Each of them is the exact operation followed by a rounding, for numbers
    that are not too large. *)

Lemma rounds_0 : rounds 0 0.
Proof. exists 0%Z, (-1074)%Z. split; [done|]. split; [done|]. split; [done|]. split; [by split|by right]. Qed.

Lemma holds_exact m e x : (0 <= m)%Z -> x == inject_Z m * p2 e -> holds (shr_record_of_loc m loc_Exact) (x * p2 (- e)).
Proof.
  intros Hm Hx. exists 0. cbn [shr_record_of_loc shr_m shr_r shr_s]. split; [|done].
  rewrite Hx, <- Qmult_assoc, <- p2_add, Z.add_opp_diag_r. change (p2 0) with 1. lra.
Qed.

Lemma round_exact s m e x :
  x == inject_Z (Z.pos m) * p2 e -> x < p2 900 ->
  let r := binary_round_aux 53 1024 s (Z.pos m) e loc_Exact in finite r /\ rounds (signed s x) (val r).
Proof. intros Hx Hlt. apply binary_round_aux_rounds; [lia|by apply holds_exact|by right|done]. Qed.

Lemma iter_xO m d : Z.pos (Pos.iter xO m d) = (Z.pos m * 2 ^ Z.pos d)%Z.
Proof.
  induction d as [|d IH] using Pos.peano_ind; [cbn; lia|].
  rewrite Pos.iter_succ, Pos2Z.inj_xO, IH, Pos2Z.inj_succ, Z.pow_succ_r; lia.
Qed.

Lemma shl_align_val m e e' :
  inject_Z (Z.pos (fst (shl_align m e e'))) * p2 (snd (shl_align m e e')) == inject_Z (Z.pos m) * p2 e /\
  snd (shl_align m e e') = Z.min e e'.
Proof.
  unfold shl_align. destruct (e' - e)%Z as [|d|d] eqn:E; cbn [fst snd]; [split; [done|lia]..|]. split; [|lia].
  rewrite iter_xO, inject_Z_mult, <- p2_Z, <- Qmult_assoc, <- p2_add by lia. by replace (Z.pos d + e')%Z with e by lia.
Qed.

Lemma binary_normalize_rounds m e :
  Qabs (inject_Z m * p2 e) < p2 900 ->
  let r := binary_normalize 53 1024 m e false in finite r /\ rounds (inject_Z m * p2 e) (val r).
Proof.
  intros Hlt. assert (Hpos : forall s p, inject_Z (Z.pos p) * p2 e < p2 900 ->
    let r := binary_round 53 1024 s p e in finite r /\ rounds (signed s (inject_Z (Z.pos p) * p2 e)) (val r)).
  { intros s p Hp. unfold binary_round. destruct (shl_align_val p e (fexp 53 1024 (Z.pos (digits2_pos p) + e))) as [Hv _].
    destruct (shl_align p e _) as [m' e']. cbn [fst snd] in Hv. apply round_exact; [by rewrite Hv|done]. }
  destruct m as [|p|p]; cbn [binary_normalize].
  - split; [done|]. eapply rounds_proper; [| |exact rounds_0]; [qlra|done].
  - destruct (Hpos false p) as [Hf Hr]; [by eapply Qle_lt_trans; [apply Qle_Qabs|]|]. split; [done|].
    eapply rounds_proper; [| |exact Hr]; [unfold signed; lra|done].
  - assert (Hp : inject_Z (Z.pos p) * p2 e < p2 900).
    { eapply Qle_lt_trans; [|exact Hlt]. rewrite <- Qabs_opp. eapply Qle_trans; [|apply Qle_Qabs].
      change (Z.neg p) with (- Z.pos p)%Z. rewrite inject_Z_opp. lra. }
    apply (Hpos true) in Hp as [Hf Hr]. split; [done|]. eapply rounds_proper; [| |exact Hr]; [|done].
    unfold signed. change (Z.neg p) with (- Z.pos p)%Z. rewrite inject_Z_opp. lra.
Qed.

Lemma f64_of_Z_rounds z : Qabs (inject_Z z) < p2 900 -> finite (f64_of_Z z) /\ rounds (inject_Z z) (val (f64_of_Z z)).
Proof.
  intros Hz. assert (E : inject_Z z * p2 0 == inject_Z z) by (change (p2 0) with 1; lra).
  destruct (binary_normalize_rounds z 0) as [Hf Hr]; [by rewrite E|]. split; [done|].
  by eapply rounds_proper; [exact E| |exact Hr].
Qed.

Lemma mag_nonneg m e : 0 <= inject_Z (Z.pos m) * p2 e.
Proof. apply Qmult_le_0_compat; [by apply (inject_le 0)|apply Qlt_le_weak, p2_pos]. Qed.

(** The sign of a product or a quotient, in front of it. *)
Lemma signed_product b c x y : signed b x * signed c y == signed (xorb b c) (x * y).
Proof. destruct b, c; unfold signed; cbn [xorb]; lra. Qed.

Lemma signed_abs s x : 0 <= x -> Qabs (signed s x) == x.
Proof.
  intros Hx. unfold signed. destruct s; [|by rewrite Qmult_1_l, Qabs_pos].
  assert (E : -1 * x == - x) by lra. by rewrite E, Qabs_opp, Qabs_pos.
Qed.

Lemma f64_mul_rounds x y :
  finite x -> finite y -> Qabs (val x * val y) < p2 900 ->
  finite (f64_mul x y) /\ rounds (val x * val y) (val (f64_mul x y)).
Proof.
  intros Hx Hy Hlt. destruct x as [sx| | |sx mx ex]; try done; destruct y as [sy| | |sy my ey]; try done; cbn [val] in *;
    try (split; [done|]; eapply rounds_proper; [| |exact rounds_0]; cbn [f64_mul SFmul val]; lra).
  cbn [f64_mul SFmul]. fold (signed sx (inject_Z (Z.pos mx) * p2 ex)) (signed sy (inject_Z (Z.pos my) * p2 ey)) in *.
  set (q := inject_Z (Z.pos mx) * p2 ex * (inject_Z (Z.pos my) * p2 ey)).
  assert (Hq : q == inject_Z (Z.pos (mx * my)) * p2 (ex + ey)).
  { unfold q. rewrite Pos2Z.inj_mul, inject_Z_mult, p2_add. ring. }
  assert (Hq0 : 0 <= q) by (rewrite Hq; apply mag_nonneg).
  rewrite signed_product in Hlt. fold q in Hlt. rewrite signed_abs in Hlt by done.
  destruct (round_exact (xorb sx sy) (mx * my) (ex + ey) q Hq Hlt) as [Hf Hr]. split; [done|].
  eapply rounds_proper; [|reflexivity|exact Hr]. symmetry. apply signed_product.
Qed.

Lemma f64_add_rounds x y :
  finite x -> finite y -> rounds (val x) (val x) -> rounds (val y) (val y) -> Qabs (val x + val y) < p2 900 ->
  finite (f64_add x y) /\ rounds (val x + val y) (val (f64_add x y)).
Proof.
  intros Hx Hy Hrx Hry Hlt. destruct x as [sx| | |sx mx ex]; try done; destruct y as [sy| | |sy my ey]; try done;
    unfold f64_add; cbn [SFadd].
  - destruct sx, sy; (split; [done|]); (eapply rounds_proper; [| |exact rounds_0]); cbn [val]; lra.
  - split; [done|]. eapply rounds_proper; [| |exact Hry]; cbn [val]; lra.
  - split; [done|]. eapply rounds_proper; [| |exact Hrx]; cbn [val]; lra.
  - set (ez := Z.min ex ey).
    assert (Hm : forall (s : bool) m e, Z.min e ez = ez ->
      inject_Z (cond_Zopp s (Z.pos (fst (shl_align m e ez)))) * p2 ez == val (S754_finite s m e)).
    { intros s m e He. destruct (shl_align_val m e ez) as [Hv Hs]. rewrite He in Hs. rewrite Hs in Hv. cbn [val].
      rewrite <- Hv. destruct s; cbn [cond_Zopp]; rewrite ?inject_Z_opp; lra. }
    assert (Hsum : inject_Z (cond_Zopp sx (Z.pos (fst (shl_align mx ex ez))) + cond_Zopp sy (Z.pos (fst (shl_align my ey ez))))
      * p2 ez == val (S754_finite sx mx ex) + val (S754_finite sy my ey)).
    { rewrite inject_Z_plus, Qmult_plus_distr_l, !Hm by (unfold ez; lia). reflexivity. }
    destruct (binary_normalize_rounds (cond_Zopp sx (Z.pos (fst (shl_align mx ex ez))) + cond_Zopp sy (Z.pos (fst (shl_align my ey ez)))) ez)
      as [Hf Hr]; [by rewrite Hsum|]. split; [done|]. by eapply rounds_proper; [exact Hsum|reflexivity|exact Hr].
Qed.

(** Division: the quotient of the mantissas, the first of them extended so
    that it has enough digits, with the place of the remainder. *)

Lemma new_location_eq b r : new_location b r =
  if (r =? 0)%Z then loc_Exact
  else loc_Inexact (if Z.even b then (2 * r ?= b)%Z else match (2 * r + 1 ?= b)%Z with Lt | Eq => Lt | Gt => Gt end).
Proof.
  unfold new_location. change (BinNums.IntDef.Z.even b) with (Z.even b). destruct (Z.even b); [reflexivity|].
  unfold new_location_odd. change (BinNums.IntDef.Z.eqb r 0) with (r =? 0)%Z. by destruct (r =? 0)%Z.
Qed.

Lemma new_location_holds q r b :
  (0 <= q)%Z -> (0 <= r < b)%Z ->
  holds (shr_record_of_loc q (new_location b r)) (inject_Z q + inject_Z r / inject_Z b).
Proof.
  intros Hq Hr. assert (Hb : 0 < inject_Z b) by (apply (inject_lt 0); lia).
  assert (Hdiv : forall k c, (Z.compare (2 * r) (k * b) = c) -> match c with
    | Eq => 2 * (inject_Z r / inject_Z b) == inject_Z k | Lt => 2 * (inject_Z r / inject_Z b) < inject_Z k
    | Gt => inject_Z k < 2 * (inject_Z r / inject_Z b) end).
  { intros k c Hc. assert (Ht : inject_Z r / inject_Z b * inject_Z b == inject_Z r) by (field; intros E; lra).
    set (t := inject_Z r / inject_Z b) in *. destruct c.
    - apply Z.compare_eq in Hc. apply (f_equal inject_Z) in Hc. rewrite !inject_Z_mult in Hc. change (inject_Z 2) with 2 in Hc.
      apply Qmult_inj_r with (inject_Z b); [intros E; lra|]. rewrite <- Qmult_assoc, Ht, Hc. reflexivity.
    - apply Z.compare_lt_iff, inject_lt in Hc. rewrite !inject_Z_mult in Hc. change (inject_Z 2) with 2 in Hc.
      apply Qmult_lt_r with (inject_Z b); [done|]. rewrite <- Qmult_assoc, Ht. done.
    - apply Z.compare_gt_iff, inject_lt in Hc. rewrite !inject_Z_mult in Hc. change (inject_Z 2) with 2 in Hc.
      apply Qmult_lt_r with (inject_Z b); [done|]. rewrite <- Qmult_assoc, Ht. done. }
  assert (H2 : inject_Z r / inject_Z b < 1).
  { pose proof (Hdiv 2%Z Lt ltac:(apply Z.compare_lt_iff; lia)) as Hd. cbv beta iota in Hd. set (t := _ / _) in *. qlra. }
  assert (H1 : forall c, Z.compare (2 * r) b = c -> match c with
    | Eq => 2 * (inject_Z r / inject_Z b) == 1 | Lt => 2 * (inject_Z r / inject_Z b) < 1
    | Gt => 1 < 2 * (inject_Z r / inject_Z b) end) by (intros c Hc; apply (Hdiv 1%Z c); by rewrite Z.mul_1_l).
  assert (H0 : r <> 0%Z -> 0 < inject_Z r / inject_Z b).
  { intros Hr0. pose proof (Hdiv 0%Z Gt ltac:(apply Z.compare_gt_iff; lia)) as Hd. cbv beta iota in Hd. set (t := _ / _) in *. qlra. }
  assert (Hloc : forall c, r <> 0%Z -> Z.compare (2 * r) b = c ->
    holds (shr_record_of_loc q (loc_Inexact c)) (inject_Z q + inject_Z r / inject_Z b)).
  { intros c Hr0 Hc. specialize (H0 Hr0). pose proof (H1 c Hc) as Hd. set (t := inject_Z r / inject_Z b) in *.
    destruct c; [exists 0|exists t|exists (t - (1 # 2))]; cbn [shr_record_of_loc shr_m shr_r shr_s]; (split; [lra|]); (split; [done|lra]). }
  rewrite new_location_eq.
  destruct (Z.eqb_spec r 0) as [Er|Hr0].
  { rewrite Er. exists 0; cbn [shr_record_of_loc shr_m shr_r shr_s]; (split; [unfold Qdiv; set (t := / _); qlra|done]). }
  destruct (Z.even b) eqn:Ev; [by apply Hloc|]. assert (Hodd : b <> (2 * r)%Z) by (intros ->; by rewrite Z.even_mul in Ev).
  destruct (Z.compare_spec (2 * r + 1) b); apply Hloc; try done; [apply Z.compare_lt_iff|apply Z.compare_lt_iff|apply Z.compare_gt_iff]; lia.
Qed.

Lemma digits_le_log m k : (0 <= k)%Z -> (2 ^ k <= m)%Z -> (k < Zdigits2 m)%Z.
Proof.
  intros Hk Hm. assert (0 < 2 ^ k)%Z by lia. destruct (digits_nonneg m) as (Hd & Hlt & _); [lia|].
  apply (Z.pow_lt_mono_r_iff 2); lia.
Qed.

Lemma div_core_holds m1 e1 m2 e2 :
  let '(q, e, l) := SFdiv_core_binary 53 1024 (Z.pos m1) e1 (Z.pos m2) e2 in
  (0 <= q)%Z /\ enough q e l /\
  holds (shr_record_of_loc q l) (inject_Z (Z.pos m1) * p2 e1 / (inject_Z (Z.pos m2) * p2 e2) * p2 (- e)).
Proof.
  unfold SFdiv_core_binary. set (d1 := Zdigits2 (Z.pos m1)). set (d2 := Zdigits2 (Z.pos m2)).
  set (D := (d1 + e1 - (d2 + e2))%Z). set (e := Z.min (fexp 53 1024 D) (e1 - e2)). set (s := (e1 - e2 - e)%Z).
  assert (Hs : (0 <= s)%Z) by lia.
  assert (Em : match s with Z.pos _ => Z.shiftl (Z.pos m1) s | 0%Z => Z.pos m1 | Z.neg _ => 0%Z end = (Z.pos m1 * 2 ^ s)%Z).
  { destruct s eqn:Es; [lia|by rewrite Z.shiftl_mul_pow2|lia]. }
  rewrite Em. pose proof (Z_div_mod (Z.pos m1 * 2 ^ s) (Z.pos m2) eq_refl) as Hdm.
  destruct (Z.div_eucl _ _) as [q r]. destruct Hdm as [Hqr Hr]. assert (Hq : (0 <= q)%Z) by nia. split; [done|]. split.
  - left. rewrite fexp_53. assert (Hdig : (d1 + s - d2 <= Zdigits2 q)%Z).
    { destruct (digits_nonneg q Hq) as (Hd0 & _). destruct (Z.le_gt_cases (d1 + s - d2) 0); [lia|].
      assert (d1 + s - d2 - 1 < Zdigits2 q)%Z; [|lia]. apply digits_le_log; [lia|].
      destruct (digits_pos m1) as [Hm1 _]. destruct (digits_pos m2) as [_ Hm2]. fold d1 in Hm1. fold d2 in Hm2.
      change (Z.pos (digits2_pos m1)) with d1 in Hm1. change (Z.pos (digits2_pos m2)) with d2 in Hm2.
      assert (Hp : (2 ^ (d1 - 1) * 2 ^ s = 2 ^ (d1 + s - d2 - 1) * 2 ^ d2)%Z).
      { assert (1 <= d1 /\ 1 <= d2)%Z by (unfold d1, d2; cbn [Zdigits2]; lia). rewrite <- !Z.pow_add_r by lia. f_equal. lia. }
      assert (0 < 2 ^ s)%Z by lia. assert (0 < 2 ^ (d1 + s - d2 - 1))%Z by lia.
      assert (2 ^ (d1 + s - d2 - 1) * 2 ^ d2 < (q + 1) * 2 ^ d2)%Z as Hlt.
      { rewrite <- Hp. apply (Z.le_lt_trans _ (Z.pos m1 * 2 ^ s)); [apply Z.mul_le_mono_nonneg_r; lia|].
        apply (Z.lt_le_trans _ ((q + 1) * Z.pos m2)); [lia|]. apply Z.mul_le_mono_nonneg_l; lia. }
      apply Z.mul_lt_mono_pos_r in Hlt; lia. }
    assert (e <= Z.max (D - 53) (-1074) /\ s + e = e1 - e2 /\ D = d1 + e1 - (d2 + e2))%Z as (He1 & He2 & HD)
      by (unfold e at 1; rewrite fexp_53; unfold s, D; lia).
    clearbody s e D. lia.
  - eapply holds_proper; [|by apply new_location_holds].
    assert (Hy : inject_Z (Z.pos m1) * p2 s == inject_Z (Z.pos m2) * inject_Z q + inject_Z r).
    { rewrite p2_Z, <- !inject_Z_mult, <- inject_Z_plus by done. by rewrite Hqr. }
    assert (Hm2 : 0 < inject_Z (Z.pos m2)) by (by apply (inject_lt 0)).
    assert (He : p2 e1 == p2 s * p2 e * p2 e2) by (rewrite <- !p2_add; unfold s; by replace (e1 - e2 - e + e + e2)%Z with e1 by lia).
    assert (Hinv : p2 e * p2 (- e) == 1) by (rewrite <- p2_add, Z.add_opp_diag_r; reflexivity).
    pose proof (p2_pos e2) as He2. clear - Hy Hm2 He Hinv He2. set (a := inject_Z (Z.pos m2)) in *. set (b := inject_Z (Z.pos m1)) in *.
    transitivity (b * p2 s / a * (p2 e * p2 (- e))).
    + rewrite Hinv, Hy. field. intros E; lra.
    + rewrite He. field. split; intros E; lra.
Qed.

Lemma f64_div_rounds x y :
  finite x -> (exists s m e, y = S754_finite s m e) -> Qabs (val x / val y) < p2 900 ->
  finite (f64_div x y) /\ rounds (val x / val y) (val (f64_div x y)).
Proof.
  intros Hx (sy & my & ey & ->) Hlt. destruct x as [sx| | |sx mx ex]; try done; cbn [val] in *.
  { split; [done|]. eapply rounds_proper; [| |exact rounds_0]; [unfold Qdiv; lra|done]. }
  unfold f64_div. cbn [SFdiv]. fold (signed sx (inject_Z (Z.pos mx) * p2 ex)) (signed sy (inject_Z (Z.pos my) * p2 ey)) in *.
  pose proof (div_core_holds mx ex my ey) as Hc. destruct (SFdiv_core_binary _ _ _ _ _ _) as [[q e] l].
  destruct Hc as (Hq & He & Hr). set (x := inject_Z (Z.pos mx) * p2 ex) in *. set (y := inject_Z (Z.pos my) * p2 ey) in *.
  assert (Hy : 0 < y) by (unfold y; apply (Qmult_lt_0_compat); [by apply (inject_lt 0)|apply p2_pos]).
  assert (Hx0 : 0 <= x) by apply mag_nonneg.
  assert (Hs : signed sx x / signed sy y == signed (xorb sx sy) (x / y)).
  { destruct sx, sy; unfold signed; cbn [xorb]; field; intros E; lra. }
  assert (Hxy : 0 <= x / y) by (apply Qle_shift_div_l; [done|lra]).
  rewrite Hs, signed_abs in Hlt by done. destruct (binary_round_aux_rounds (xorb sx sy) q e l (x / y) Hq Hr He Hlt) as [Hf Hrd].
  split; [done|]. eapply rounds_proper; [|reflexivity|exact Hrd]. by rewrite Hs.
Qed.

(** ** What a rounding keeps *)

(** A number of the format is not changed. *)
Lemma rounds_exact q v m e :
  rounds q v -> q == inject_Z m * p2 e -> (Z.abs m < 2 ^ 53)%Z -> (-1074 <= e)%Z -> v == q.
Proof.
  intros (n & g & Hv & _ & Hg & Hd & Hu) Hq Hm He. pose proof (p2_pos g) as Hpg.
  destruct (Z.le_gt_cases g e) as [Hle|Hgt].
  - assert (E : q == inject_Z (m * 2 ^ (e - g)) * p2 g).
    { rewrite Hq, inject_Z_mult, <- p2_Z, <- Qmult_assoc, <- p2_add by lia. by replace (e - g + g)%Z with e by lia. }
    set (k := (m * 2 ^ (e - g))%Z) in *. rewrite Hv, E. replace n with k; [reflexivity|].
    rewrite Hv, E in Hd. destruct Hd as [Hd1 Hd2].
    assert (k < n + 1)%Z by (rewrite Zlt_Qlt, inject_Z_plus; change (inject_Z 1) with 1; nra).
    assert (n < k + 1)%Z by (rewrite Zlt_Qlt, inject_Z_plus; change (inject_Z 1) with 1; nra). lia.
  - exfalso. destruct Hu as [Hu|Hu]; [|lia].
    assert (Hlt : Qabs q < p2 (53 + e)); [|assert (p2 (53 + e) <= p2 (g + 52)) by (apply p2_le; lia); lra].
    rewrite Hq, Qabs_Qmult, (Qabs_pos (p2 e)) by (apply Qlt_le_weak, p2_pos). rewrite p2_add.
    apply Qmult_lt_compat_r; [apply p2_pos|]. rewrite p2_Z by done. change (Qabs (inject_Z m)) with (inject_Z (Z.abs m)).
    by apply inject_lt.
Qed.

(** Below 2^53 the power of two of a result is 1 at most. *)
Lemma small_exponent q g : Qabs q < p2 53 -> p2 (g + 52) <= Qabs q \/ g = (-1074)%Z -> (g <= 0)%Z.
Proof. intros Hq [Hu| ->]; [|lia]. assert (g + 52 < 53)%Z by (apply p2_lt_inv; lra). lia. Qed.

Lemma multiple k n g : (g <= 0)%Z -> inject_Z n * p2 g < inject_Z k -> inject_Z n * p2 g + p2 g <= inject_Z k.
Proof.
  intros Hg Hlt. assert (E : inject_Z k == inject_Z (k * 2 ^ (- g)) * p2 g).
  { rewrite inject_Z_mult, <- p2_Z, <- Qmult_assoc, <- p2_add by lia. rewrite Z.add_opp_diag_l. change (p2 0) with 1. lra. }
  rewrite E in Hlt |- *. apply Qmult_lt_r in Hlt; [|apply p2_pos]. rewrite <- Zlt_Qlt in Hlt.
  assert (inject_Z (n + 1) <= inject_Z (k * 2 ^ (- g))) as Hle by (apply inject_le; lia).
  rewrite inject_Z_plus in Hle. change (inject_Z 1) with 1 in Hle. pose proof (p2_pos g). nra.
Qed.

(** An integer is not crossed. *)
Lemma rounds_above q v k : rounds q v -> Qabs q < p2 53 -> inject_Z k <= q -> inject_Z k <= v.
Proof.
  intros (n & g & Hv & _ & _ & Hd & Hu) Hq Hk. apply small_exponent in Hu; [|done]. rewrite Hv in *.
  destruct (Qlt_le_dec (inject_Z n * p2 g) (inject_Z k)) as [Hlt|]; [|done].
  apply multiple in Hlt; [|done]. pose proof (p2_pos g). lra.
Qed.

Lemma rounds_opp q v : rounds q v -> rounds (- q) (- v).
Proof. intros H. apply (rounds_signed true) in H. eapply rounds_proper; [| |exact H]; unfold signed; lra. Qed.

Lemma rounds_below q v k : rounds q v -> Qabs q < p2 53 -> q <= inject_Z k -> v <= inject_Z k.
Proof.
  intros H Hq Hk. apply rounds_opp in H. apply (rounds_above _ _ (- k)) in H;
    [rewrite inject_Z_opp in H; lra|by rewrite Qabs_opp|rewrite inject_Z_opp; lra].
Qed.

(** ** Truncation *)

Definition truncates (q : Q) (z : Z) : Prop :=
  (0 <= q /\ inject_Z z <= q < inject_Z z + 1) \/ (q <= 0 /\ inject_Z z - 1 < q <= inject_Z z).

Lemma truncates_opp q z : truncates q z -> truncates (- q) (- z).
Proof. unfold truncates. rewrite inject_Z_opp. intros [?|?]; [right|left]; lra. Qed.

Lemma truncates_proper q q' z : q == q' -> truncates q z -> truncates q' z.
Proof. unfold truncates. intros E [?|?]; [left|right]; lra. Qed.

Lemma mag_floor m e : exists z, (if 0 <=? e then Z.pos m * 2 ^ e else Z.pos m / 2 ^ (- e))%Z = z /\ (0 <= z)%Z /\
  inject_Z z <= inject_Z (Z.pos m) * p2 e < inject_Z z + 1.
Proof.
  destruct (Z.leb_spec 0 e) as [He|He].
  - eexists. split; [reflexivity|]. split; [lia|]. rewrite inject_Z_mult, p2_Z by done. lra.
  - eexists. split; [reflexivity|]. split; [by apply Z.div_pos; lia|]. set (z := (_ / _)%Z).
    assert (Hp : (0 < 2 ^ (- e))%Z) by lia. pose proof (Z.mul_div_le (Z.pos m) (2 ^ (- e)) Hp) as H1.
    pose proof (Z.mul_succ_div_gt (Z.pos m) (2 ^ (- e)) Hp) as H2. fold z in H1, H2.
    apply inject_le in H1. apply inject_lt in H2. rewrite inject_Z_mult, <- p2_Z in H1 by lia.
    unfold Z.succ in H2. rewrite inject_Z_mult, inject_Z_plus, <- p2_Z in H2 by lia. change (inject_Z 1) with 1 in H2.
    assert (E : p2 (- e) * p2 e == 1) by (rewrite <- p2_add, Z.add_opp_diag_l; reflexivity).
    pose proof (p2_pos e). set (a := inject_Z (Z.pos m)) in *. set (b := inject_Z z) in *. set (c := p2 (- e)) in *. set (d := p2 e) in *.
    assert (Eb : c * b * d == b) by (transitivity (b * (c * d)); [ring|rewrite E; ring]).
    assert (Eb1 : c * (b + 1) * d == b + 1) by (transitivity ((b + 1) * (c * d)); [ring|rewrite E; ring]).
    split; [rewrite <- Eb at 1; apply Qmult_le_compat_r; lra|rewrite <- Eb1; by apply Qmult_lt_r].
Qed.

Lemma trunc_truncates x :
  finite x -> Qabs (val x) < p2 62 -> exists z, f64_trunc x = Some z /\ truncates (val x) z.
Proof.
  intros Hf Hlt. destruct x as [s| | |s m e]; try done; cbn [val f64_trunc] in *.
  { exists 0%Z. split; [done|]. left. qlra. }
  destruct (mag_floor m e) as (z & -> & Hz & Hb). fold (signed s (inject_Z (Z.pos m) * p2 e)) in *.
  rewrite signed_abs in Hlt by apply mag_nonneg. set (q := inject_Z (Z.pos m) * p2 e) in *.
  assert (Hz62 : (z < 2 ^ 62)%Z) by (rewrite Zlt_Qlt, <- p2_Z by done; lra).
  assert (Ht : truncates q z) by (left; assert (inject_Z 0 <= inject_Z z) by (by apply inject_le); qlra).
  assert (Hs : truncates (signed s q) (if s then - z else z)).
  { destruct s; [apply truncates_opp in Ht|]; (eapply truncates_proper; [|exact Ht]); unfold signed; lra. }
  eexists. split; [|exact Hs]. unfold in_s64.
  assert (- 2 ^ 63 <= (if s then - z else z) < 2 ^ 63)%Z as [H1 H2] by (destruct s; lia).
  by rewrite (proj2 (Z.leb_le _ _) H1), (proj2 (Z.ltb_lt _ _) H2).
Qed.

Lemma truncates_unique q z k : 0 <= q -> truncates q z -> inject_Z k <= q < inject_Z k + 1 -> (0 <= k)%Z -> z = k.
Proof.
  intros Hq Ht Hk Hk0. assert (Hz : (k < z + 1 /\ z < k + 1)%Z); [|lia].
  rewrite !Zlt_Qlt, !inject_Z_plus. change (inject_Z 1) with 1.
  apply inject_le in Hk0. destruct Ht as [Ht|[Hq0 Ht]]; [qlra|]. split; [qlra|].
  assert (inject_Z z < inject_Z 1) by qlra. qlra.
Qed.
