(* ===== verification/PcapFormat.v ===== *)
(** The capture formats of [PcapReceiver.h]: the constants and structures of
    the two file formats, the loads from the mapped file, and the time-stamp
    arithmetic of the two readers. *)
From S2P Require Import Prelude Outcome Kernel.

(** ** Constants *)

(** [enum PcapMagic] *)
Definition MAGIC_MICRO_BE : Z := 0xa1b2c3d4.
Definition MAGIC_MICRO_LE : Z := 0xd4c3b2a1.
Definition MAGIC_NANO_BE : Z := 0xa1b23c4d.
Definition MAGIC_NANO_LE : Z := 0x4d3c2b1a.
Definition MAGIC_PCAPNG_SHB : Z := 0x0A0D0D0A.
Definition PCAPNG_BOM : Z := 0x1A2B3C4D.
Definition PCAPNG_BOM_SWAP : Z := 0x4D3C2B1A.
Definition PCAPNG_IDB : Z := 0x00000001.
Definition PCAPNG_EPB : Z := 0x00000006.

Definition DLT_EN10MB : Z := 1.
Definition DLT_LINUX_SLL : Z := 113.
Definition ETHERTYPE_VLAN : Z := 0x8100.
Definition ETHERTYPE_IP : Z := 0x0800.
Definition IPPROTO_UDP : Z := 17.

(** Sizes of the structures read from the file ([sizeof]). *)
Definition sizeof_pcap_file_header : Z := 24.
Definition sizeof_pcap_sf_pkthdr : Z := 16.
Definition sizeof_PcapNgBlockHeader : Z := 8.
Definition sizeof_PcapNgIDBBody : Z := 8.
Definition sizeof_PcapNgEPBBody : Z := 20.
Definition sizeof_ether_header : Z := 14.
Definition sizeof_ip : Z := 20.
Definition sizeof_udphdr : Z := 8.

(** ** The mapped file *)

(** The bytes of the file, at the address [mmap] returned.  Only an address
    inside the file can be read. *)
Record mapping := Mapping { map_base : Z; map_bytes : list Z }.

Definition load8 (m : mapping) (addr : Z) : option Z :=
  if addr <? map_base m then None else map_bytes m !! Z.to_nat (addr - map_base m).

Definition load16 (m : mapping) (addr : Z) : option Z :=
  b0 ← load8 m addr; b1 ← load8 m (addr + 1); Some (le16 b0 b1).

Definition load32 (m : mapping) (addr : Z) : option Z :=
  b0 ← load8 m addr; b1 ← load8 m (addr + 1);
  b2 ← load8 m (addr + 2); b3 ← load8 m (addr + 3); Some (le32 b0 b1 b2 b3).

(** A field of a header, swapped when the file has the other byte order. *)
Definition swap32 (swapped : bool) (x : Z) : Z := if swapped then bswap32 x else x.
Definition swap16 (swapped : bool) (x : Z) : Z := if swapped then bswap16 x else x.

(** ** Time stamps *)

(** Of a pcap record: seconds and a fraction in micro- or nanoseconds. *)
Definition pcap_timespec (isNanosecond : bool) (sec fraction : Z) : timespec :=
  TimeSpec sec (if isNanosecond then fraction else fraction * 1000).

(** [info.tsResolutionDivisor] from the byte of the [if_tsresol] option: a
    power of two computed by a 64-bit shift (which has no meaning from 64 on),
    or a power of ten computed by repeated 64-bit multiplication. *)
Fixpoint times10 (n : nat) (d : Z) : Z :=
  match n with O => d | S n => times10 n (u64 (d * 10)) end.

Definition tsresol_divisor {S} (res : Z) : M S Z :=
  if Z.land res 128 =? 0 then mret (times10 (Z.to_nat res) 1)
  else if Z.land res 127 <? 64 then mret (u64 (Z.shiftl 1 (Z.land res 127)))
  else crash BadShift.

(** [tsRaw = (high << 32) | low] *)
Definition ts_raw (high low : Z) : Z := Z.lor (u64 (Z.shiftl high 32)) low.

(** The division of a pcapng time stamp by the resolution of its interface,
    in unsigned 64-bit arithmetic. *)
Definition pcapng_timespec {S} (tsRaw divisor : Z) : M S timespec :=
  if divisor =? 0 then crash DivisionByZero
  else mret (TimeSpec (to_s64 (tsRaw / divisor))
                      (to_s64 (u64 (tsRaw mod divisor * 1000000000) / divisor))).

(** ** Loads inside the file *)

Definition in_file (m : mapping) (addr n : Z) : Prop :=
  map_base m <= addr /\ addr + n <= map_base m + Z.of_nat (length (map_bytes m)).

Definition bytes_ok (m : mapping) : Prop := Forall is_u8 (map_bytes m).

Section Loads.
Context (m : mapping) (Hm : bytes_ok m).

Lemma load8_u8 a b : load8 m a = Some b -> is_u8 b.
Proof.
  unfold load8. destruct (a <? map_base m); [done|]. intros E.
  unfold bytes_ok in Hm. rewrite Forall_forall in Hm. apply Hm. by eapply list_elem_of_lookup_2.
Qed.

Lemma load8_in a : in_file m a 1 -> exists b, load8 m a = Some b /\ is_u8 b.
Proof.
  intros [H1 H2]. unfold load8. destruct (Z.ltb_spec a (map_base m)); [lia|].
  destruct (lookup_lt_is_Some_2 (map_bytes m) (Z.to_nat (a - map_base m))) as [b E]; [lia|].
  exists b. split; [done|]. unfold bytes_ok in Hm. rewrite Forall_forall in Hm.
  apply Hm. by eapply list_elem_of_lookup_2.
Qed.

Lemma load8_bounds a b : load8 m a = Some b -> in_file m a 1.
Proof.
  unfold load8, in_file. destruct (Z.ltb_spec a (map_base m)); [done|].
  intros E%lookup_lt_Some. lia.
Qed.

Lemma load16_in a : in_file m a 2 -> exists v, load16 m a = Some v /\ is_u16 v.
Proof.
  intros [H1 H2]. unfold load16.
  destruct (load8_in a) as (b0 & -> & ?); [split; lia|].
  destruct (load8_in (a + 1)) as (b1 & -> & ?); [split; lia|].
  eexists. split; [reflexivity|]. auto with words.
Qed.

Lemma load32_in a : in_file m a 4 -> exists v, load32 m a = Some v /\ is_u32 v.
Proof.
  intros [H1 H2]. unfold load32.
  destruct (load8_in a) as (b0 & -> & ?); [split; lia|].
  destruct (load8_in (a + 1)) as (b1 & -> & ?); [split; lia|].
  destruct (load8_in (a + 2)) as (b2 & -> & ?); [split; lia|].
  destruct (load8_in (a + 3)) as (b3 & -> & ?); [split; lia|].
  eexists. split; [reflexivity|]. auto with words.
Qed.

Lemma load16_u16 a v : load16 m a = Some v -> is_u16 v.
Proof.
  unfold load16. destruct (load8 m a) eqn:E0; [|done]. destruct (load8 m (a + 1)) eqn:E1; [|done].
  intros [= <-]. apply le16_u16; by eapply load8_u8.
Qed.

Lemma load32_u32 a v : load32 m a = Some v -> is_u32 v.
Proof.
  unfold load32. destruct (load8 m a) eqn:E0; [|done]. destruct (load8 m (a + 1)) eqn:E1; [|done].
  destruct (load8 m (a + 2)) eqn:E2; [|done]. destruct (load8 m (a + 3)) eqn:E3; [|done].
  intros [= <-]. apply le32_u32; by eapply load8_u8.
Qed.
End Loads.

Lemma swap32_u32 sw x : is_u32 x -> is_u32 (swap32 sw x).
Proof. destruct sw; cbn; auto with words. Qed.
#[export] Hint Resolve swap32_u32 : words.
