(* ===== verification/PacketReceiver.v ===== *)
(** Component [PacketReceiver.h], [PacketReceiver.cc], with [PacketMetadata.h]
    and the handler type of [Types.h]: the base class of the receivers, which
    owns the packet buffer and the map from ports to sockets.

    The members of the base class act on the part of the receiver object that
    the class [HasBase] gives access to, so that the derived classes reuse
    them on their own objects. *)
From S2P Require Import Prelude Outcome Result Kernel ScopedFd TimerQueue EventLoop.

(** [ReceiverConfig] *)
Record ReceiverConfig := MkReceiverConfig { maxFds : Z; batchSize : Z; bufferSize : Z }.
Definition default_config : ReceiverConfig := MkReceiverConfig 128 64 2048.

(** [enum PacketStatus] *)
Definition OK : Z := 0.
Definition TRUNCATED : Z := Z.shiftl 1 0.

(** [struct iovec] *)
Record iovec := IOVec { iov_base : Z; iov_len : Z }.

(** [PacketMetadata] *)
Record PacketMetadata := MkPacketMetadata { meta_ts : timespec; meta_len : Z; meta_destPort : Z }.

(** The data members of [PacketReceiver]; addresses are integers, the null
    pointer is zero. *)
Record PacketReceiver := MkPacketReceiver {
  m_config : ReceiverConfig;
  m_ownerThreadId : Z;
  m_port_to_fd_map : gmap Z ScopedFd;
  m_alignedBufferSize : Z;
  m_hugeBuffer : Z;
  m_mappedSize : Z;
  m_cachedBasePtr : Z;
  m_ioVectors : list iovec
}.

Definition set_port_map (f : gmap Z ScopedFd -> gmap Z ScopedFd) (r : PacketReceiver) : PacketReceiver :=
  MkPacketReceiver (m_config r) (m_ownerThreadId r) (f (m_port_to_fd_map r)) (m_alignedBufferSize r)
    (m_hugeBuffer r) (m_mappedSize r) (m_cachedBasePtr r) (m_ioVectors r).

(** Objects with a [PacketReceiver] inside. *)
Class HasBase (O : Type) := {
  base : O -> PacketReceiver;
  set_base : PacketReceiver -> O -> O
}.
Class HasBaseLaws (O : Type) `{HasBase O} : Prop := {
  base_set b o : base (set_base b o) = b;
  set_base_id o : set_base (base o) o = o;
  set_base_twice b b' o : set_base b (set_base b' o) = set_base b o
}.

#[export] Instance PacketReceiver_HasBase : HasBase PacketReceiver := {
  base r := r; set_base b _ := b
}.
#[export] Instance PacketReceiver_HasBaseLaws : HasBaseLaws PacketReceiver.
Proof. by split. Qed.

Definition HUGEPAGE_SIZE : Z := 2 * 1024 * 1024.
Definition MAP_PRIVATE_ANONYMOUS : Z := 34.

(** [(bufferSize + 63) & ~63] as an [int]; [totalRequested] and
    [m_mappedSize] as [size_t]. *)
Definition aligned_size (sum : Z) : Z := u64 (Z.land sum (Z.lnot 63)).
Definition total_requested (batch aligned : Z) : Z := u64 (batch * aligned).
Definition mapped_size (total : Z) : Z :=
  Z.land (u64 (total + HUGEPAGE_SIZE - 1)) (Z.lnot (HUGEPAGE_SIZE - 1)).

(** The I/O vectors over the rows of the flat buffer. *)
Definition io_vectors (base_ptr batch aligned buffer : Z) : list iovec :=
  (fun i => IOVec (base_ptr + u64 (i * aligned)) (u64 buffer)) <$> seqZ 0 batch.

(** The ports of the map, in the order a [std::map] is iterated. *)
Definition ports_of (m : gmap Z ScopedFd) : list Z := merge_sort Z.le (map_to_list m).*1.

Section PacketReceiverOps.
Context {T O Y : Type} `{RK : ReactorKernel Y} `{MK : MemoryKernel Y} `{HB : HasBase O}.
Notation Mw := (M (world T O Y)).
(** Whether the library is compiled with NDEBUG, as its build file does. *)
Context (ndebug : bool).

Definition this_base : Mw PacketReceiver := gets (fun w => base (w_obj w)).
Definition update_base (f : PacketReceiver -> PacketReceiver) : Mw unit :=
  modify (with_obj (fun o => set_base (f (base o)) o)).

(** [void checkThread() const] *)
Definition checkThread : Mw unit :=
  if ndebug then mret tt
  else
    r ← this_base;
    tid ← gets (fun w => this_thread_id (w_sys w));
    if tid =? m_ownerThreadId r then mret tt else crash AssertionFailed.

(** [PacketReceiver(EventLoop& loop, ReceiverConfig config)] *)
Definition PacketReceiver_new (config : ReceiverConfig) : Mw unit :=
  tid ← gets (fun w => this_thread_id (w_sys w));
  if batchSize config <? 0 then throw LengthError
  else
    sum ← s32 (bufferSize config + 63);
    let aligned := aligned_size sum in
    let mapped := mapped_size (total_requested (batchSize config) aligned) in
    huge ← sys (mmap_anon mapped (Z.lor MAP_PRIVATE_ANONYMOUS MAP_HUGETLB));
    buffer ← (if huge =? MAP_FAILED then
                plain ← sys (mmap_anon mapped MAP_PRIVATE_ANONYMOUS);
                if plain =? MAP_FAILED
                then throw (RuntimeError "Failed to allocate packet buffer via mmap")
                else mret plain
              else mret huge);
    update_base (fun _ => MkPacketReceiver config tid ∅ aligned buffer mapped buffer
      (io_vectors buffer (batchSize config) aligned (bufferSize config))).

(** [~PacketReceiver()]: the sources leave the loop, the buffer is unmapped,
    then the map closes its sockets. *)
Definition PacketReceiver_delete : Mw unit :=
  r ← this_base;
  for_each (ports_of (m_port_to_fd_map r)) (fun port =>
    match m_port_to_fd_map r !! port with
    | Some s => removeSource (fd s) ;; mret tt
    | None => mret tt
    end) ;;
  (if negb (m_hugeBuffer r =? 0) && negb (m_hugeBuffer r =? MAP_FAILED)
   then sys (munmap (m_hugeBuffer r) (m_mappedSize r)) ;; mret tt else mret tt) ;;
  for_each (ports_of (m_port_to_fd_map r)) (fun port =>
    match m_port_to_fd_map r !! port with
    | Some s => ScopedFd.destroy close_fd s
    | None => mret tt
    end) ;;
  update_base (set_port_map (fun _ => ∅)).

(** [Result<int> subscribe(uint16_t port, void* context, PacketHandlerFn handler)] *)
Definition base_subscribe (port context handler : Z) : Mw (Result Z) :=
  checkThread ;;
  r ← this_base;
  if handler =? 0 then mret (Error (ErrorCode EINVAL system_category))
  else if (0 <? maxFds (m_config r)) &&
          (maxFds (m_config r) <=? Z.of_nat (size (m_port_to_fd_map r)))
  then mret (Error (ErrorCode EMFILE system_category))
  else match m_port_to_fd_map r !! port with
       | Some _ => mret (Error (ErrorCode EADDRINUSE system_category))
       | None => mret (Value 0)
       end.

(** [Result<void> unsubscribe(uint16_t port)] *)
Definition base_unsubscribe (port : Z) : Mw ResultVoid :=
  checkThread ;;
  r ← this_base;
  match m_port_to_fd_map r !! port with
  | None => mret (ResultVoid.fail (ErrorCode ENOENT system_category))
  | Some s =>
      loopRes ← removeSource (fd s);
      update_base (set_port_map (delete port)) ;;
      ScopedFd.destroy close_fd s ;;
      mret loopRes
  end.

(** A call through a [PacketHandlerFn]: handler, context, data, length,
    status, time stamp. *)
Context (call_handler : Z -> Z -> Z -> Z -> Z -> timespec -> Mw unit).

(** [void dispatch(int n, const PacketMetadata* meta, PacketHandlerFn handler, void* context)] *)
Definition dispatch (n : Z) (meta : list PacketMetadata) (handler context : Z) : Mw unit :=
  for_n n (fun i =>
    r ← this_base;
    match meta !! Z.to_nat i with
    | None => crash OutOfBounds
    | Some md =>
        let packetData := m_cachedBasePtr r + u64 (i * m_alignedBufferSize r) in
        call_handler handler context packetData (meta_len md) OK (meta_ts md)
    end).
End PacketReceiverOps.
