(* ===== verification/PcapReceiver.v ===== *)
(** Component [PcapReceiver.h], [PcapReceiver.cc]: the replay of a capture
    file.  This file holds the state and the operations; the properties are in
    [PcapDispatch] and [PcapFrames] (from a packet to its handler), [PcapOpen]
    (opening), [PcapReplay], [PcapNg] and [PcapNgReplay] (the readers) and
    [PcapControl] (subscription, pacing, scheduling). *)
From S2P Require Import Prelude Outcome Result Kernel ScopedFd TimerQueue EventLoop PcapFormat Float64.
From S2P Require Import PacketReceiver.

(** [enum class ReplayMode] *)
Inductive ReplayMode := TIMED | FLOOD | STEP.

#[export] Instance ReplayMode_eq_dec : EqDecision ReplayMode.
Proof. solve_decision. Defined.

(** [PcapConfig] *)
Record PcapConfig := MkPcapConfig {
  pc_receiver : ReceiverConfig;
  mode : ReplayMode;
  speedMultiplier : double
}.

(** [PcapReceiver::InterfaceInfo], [PcapReceiver::Subscription] *)
Record InterfaceInfo := MkInterfaceInfo { linkType : Z; tsResolutionDivisor : Z }.
Record Subscription := MkSubscription { sub_context : Z; sub_handler : Z }.

Definition no_subscription : Subscription := MkSubscription 0 0.

(** The data members of [PcapReceiver]: [m_mappedData] is the base address of
    [m_mapping] (zero when nothing is mapped), [m_currentPtr] an address; the
    port table is indexed by ports in network byte order, an absent entry
    being an empty subscription. *)
Record PcapReceiver := MkPcapReceiver {
  pcap_base : PacketReceiver;
  m_pcapConfig : PcapConfig;
  m_fd : Z;
  m_mapping : mapping;
  m_fileSize : Z;
  m_currentPtr : Z;
  m_linkType : Z;
  m_portTable : gmap Z Subscription;
  m_pcapStartTs : timespec;
  m_wallStartTs : Z;
  m_firstPacket : bool;
  m_finished : bool;
  m_swapped : bool;
  m_isNanosecond : bool;
  m_interfaces : gmap Z InterfaceInfo;
  m_interfaceCount : Z;
  m_isPcapNg : bool;
  m_hotPort : Z;
  m_hotHandler : Z;
  m_hotContext : Z
}.

Definition m_mappedData (p : PcapReceiver) : Z := map_base (m_mapping p).
Definition file_end (p : PcapReceiver) : Z := m_mappedData p + m_fileSize p.

(** Assignments to the members. *)
Definition set_pcap_base b (p : PcapReceiver) : PcapReceiver :=
  MkPcapReceiver b (m_pcapConfig p) (m_fd p) (m_mapping p) (m_fileSize p) (m_currentPtr p) (m_linkType p)
    (m_portTable p) (m_pcapStartTs p) (m_wallStartTs p) (m_firstPacket p) (m_finished p)
    (m_swapped p) (m_isNanosecond p) (m_interfaces p) (m_interfaceCount p) (m_isPcapNg p)
    (m_hotPort p) (m_hotHandler p) (m_hotContext p).
Definition set_fd v (p : PcapReceiver) : PcapReceiver :=
  MkPcapReceiver (pcap_base p) (m_pcapConfig p) v (m_mapping p) (m_fileSize p) (m_currentPtr p) (m_linkType
    p) (m_portTable p) (m_pcapStartTs p) (m_wallStartTs p) (m_firstPacket p) (m_finished p)
    (m_swapped p) (m_isNanosecond p) (m_interfaces p) (m_interfaceCount p) (m_isPcapNg p)
    (m_hotPort p) (m_hotHandler p) (m_hotContext p).
Definition set_fileSize v (p : PcapReceiver) : PcapReceiver :=
  MkPcapReceiver (pcap_base p) (m_pcapConfig p) (m_fd p) (m_mapping p) v (m_currentPtr p) (m_linkType p)
    (m_portTable p) (m_pcapStartTs p) (m_wallStartTs p) (m_firstPacket p) (m_finished p)
    (m_swapped p) (m_isNanosecond p) (m_interfaces p) (m_interfaceCount p) (m_isPcapNg p)
    (m_hotPort p) (m_hotHandler p) (m_hotContext p).
Definition set_mapping v (p : PcapReceiver) : PcapReceiver :=
  MkPcapReceiver (pcap_base p) (m_pcapConfig p) (m_fd p) v (m_fileSize p) (m_currentPtr p) (m_linkType p)
    (m_portTable p) (m_pcapStartTs p) (m_wallStartTs p) (m_firstPacket p) (m_finished p)
    (m_swapped p) (m_isNanosecond p) (m_interfaces p) (m_interfaceCount p) (m_isPcapNg p)
    (m_hotPort p) (m_hotHandler p) (m_hotContext p).
Definition set_cursor v (p : PcapReceiver) : PcapReceiver :=
  MkPcapReceiver (pcap_base p) (m_pcapConfig p) (m_fd p) (m_mapping p) (m_fileSize p) v (m_linkType p)
    (m_portTable p) (m_pcapStartTs p) (m_wallStartTs p) (m_firstPacket p) (m_finished p)
    (m_swapped p) (m_isNanosecond p) (m_interfaces p) (m_interfaceCount p) (m_isPcapNg p)
    (m_hotPort p) (m_hotHandler p) (m_hotContext p).
Definition set_finished v (p : PcapReceiver) : PcapReceiver :=
  MkPcapReceiver (pcap_base p) (m_pcapConfig p) (m_fd p) (m_mapping p) (m_fileSize p) (m_currentPtr p)
    (m_linkType p) (m_portTable p) (m_pcapStartTs p) (m_wallStartTs p) (m_firstPacket p) v
    (m_swapped p) (m_isNanosecond p) (m_interfaces p) (m_interfaceCount p) (m_isPcapNg p)
    (m_hotPort p) (m_hotHandler p) (m_hotContext p).
Definition set_portTable v (p : PcapReceiver) : PcapReceiver :=
  MkPcapReceiver (pcap_base p) (m_pcapConfig p) (m_fd p) (m_mapping p) (m_fileSize p) (m_currentPtr p)
    (m_linkType p) v (m_pcapStartTs p) (m_wallStartTs p) (m_firstPacket p) (m_finished p)
    (m_swapped p) (m_isNanosecond p) (m_interfaces p) (m_interfaceCount p) (m_isPcapNg p)
    (m_hotPort p) (m_hotHandler p) (m_hotContext p).
Definition set_timing start wall first (p : PcapReceiver) : PcapReceiver :=
  MkPcapReceiver (pcap_base p) (m_pcapConfig p) (m_fd p) (m_mapping p) (m_fileSize p) (m_currentPtr p)
    (m_linkType p) (m_portTable p) start wall first (m_finished p) (m_swapped p) (m_isNanosecond
    p) (m_interfaces p) (m_interfaceCount p) (m_isPcapNg p) (m_hotPort p) (m_hotHandler p)
    (m_hotContext p).
Definition set_format isNg swapped isNano (p : PcapReceiver) : PcapReceiver :=
  MkPcapReceiver (pcap_base p) (m_pcapConfig p) (m_fd p) (m_mapping p) (m_fileSize p) (m_currentPtr p)
    (m_linkType p) (m_portTable p) (m_pcapStartTs p) (m_wallStartTs p) (m_firstPacket p)
    (m_finished p) swapped isNano (m_interfaces p) (m_interfaceCount p) isNg (m_hotPort p)
    (m_hotHandler p) (m_hotContext p).
Definition set_linkType v (p : PcapReceiver) : PcapReceiver :=
  MkPcapReceiver (pcap_base p) (m_pcapConfig p) (m_fd p) (m_mapping p) (m_fileSize p) (m_currentPtr p) v
    (m_portTable p) (m_pcapStartTs p) (m_wallStartTs p) (m_firstPacket p) (m_finished p)
    (m_swapped p) (m_isNanosecond p) (m_interfaces p) (m_interfaceCount p) (m_isPcapNg p)
    (m_hotPort p) (m_hotHandler p) (m_hotContext p).
Definition set_interfaces v count (p : PcapReceiver) : PcapReceiver :=
  MkPcapReceiver (pcap_base p) (m_pcapConfig p) (m_fd p) (m_mapping p) (m_fileSize p) (m_currentPtr p)
    (m_linkType p) (m_portTable p) (m_pcapStartTs p) (m_wallStartTs p) (m_firstPacket p)
    (m_finished p) (m_swapped p) (m_isNanosecond p) v count (m_isPcapNg p) (m_hotPort p)
    (m_hotHandler p) (m_hotContext p).
Definition set_hot port handler context (p : PcapReceiver) : PcapReceiver :=
  MkPcapReceiver (pcap_base p) (m_pcapConfig p) (m_fd p) (m_mapping p) (m_fileSize p) (m_currentPtr p)
    (m_linkType p) (m_portTable p) (m_pcapStartTs p) (m_wallStartTs p) (m_firstPacket p)
    (m_finished p) (m_swapped p) (m_isNanosecond p) (m_interfaces p) (m_interfaceCount p)
    (m_isPcapNg p) port handler context.

#[export] Instance PcapReceiver_HasBase : HasBase PcapReceiver := {
  base := pcap_base; set_base b p := set_pcap_base b p
}.
#[export] Instance PcapReceiver_HasBaseLaws : HasBaseLaws PcapReceiver.
Proof. split; [done|by intros []|done]. Qed.

(** The functions the receiver schedules on the loop, next to those of the
    application. *)
Inductive task (U : Type) := ProcessBatch | ProcessBatchFlood | UserTask (u : U).
Arguments ProcessBatch {U}.
Arguments ProcessBatchFlood {U}.
Arguments UserTask {U} u.

Section PcapReceiverOps.
Context {U Y : Type} {RK : ReactorKernel Y} {MK : MemoryKernel Y} {FK : FileKernel Y}.
Notation W := (world (task U) PcapReceiver Y).
Notation Mw := (M W).
Context (ndebug : bool).
Context (call_handler : Z -> Z -> Z -> Z -> Z -> timespec -> Mw unit).

Definition this : Mw PcapReceiver := gets (fun w => w_obj w).
Definition assign (f : PcapReceiver -> PcapReceiver) : Mw unit := modify (with_obj f).

(** Loads from the mapped file; outside it they have no meaning. *)
Definition load (f : mapping -> Z -> option Z) (addr : Z) : Mw Z :=
  p ← this;
  match f (m_mapping p) addr with Some v => mret v | None => crash OutOfBounds end.
Definition ld8 (addr : Z) : Mw Z := load load8 addr.
Definition ld16 (addr : Z) : Mw Z := load load16 addr.
Definition ld32 (addr : Z) : Mw Z := load load32 addr.

(** A header field, in the byte order of the file. *)
Definition field32 (addr : Z) : Mw Z := p ← this; v ← ld32 addr; mret (swap32 (m_swapped p) v).
Definition field16 (addr : Z) : Mw Z := p ← this; v ← ld16 addr; mret (swap16 (m_swapped p) v).

Definition system_error : Mw ResultVoid :=
  e ← get_errno; mret (ResultVoid.fail (ErrorCode e system_category)).

(** ** Opening *)

(** The detection of the format from the magic numbers, with the cursor on
    the first byte of the file. *)
Definition detect_format : Mw ResultVoid :=
  p ← this;
  magic ← ld32 (m_mappedData p);
  if magic =? MAGIC_PCAPNG_SHB then
    assign (set_format true (m_swapped p) (m_isNanosecond p)) ;;
    byteOrderMagic ← ld32 (m_mappedData p + 8);
    if byteOrderMagic =? PCAPNG_BOM then
      assign (set_format true false true) ;; mret ResultVoid.success
    else if byteOrderMagic =? PCAPNG_BOM_SWAP then
      assign (set_format true true true) ;; mret ResultVoid.success
    else mret (ResultVoid.fail (ErrorCode EINVAL system_category))
  else
    (if magic =? MAGIC_MICRO_LE then assign (set_format false true false)
     else if magic =? MAGIC_NANO_LE then assign (set_format false true true)
     else if magic =? MAGIC_NANO_BE then assign (set_format false false true)
     else if magic =? MAGIC_MICRO_BE then assign (set_format false false false)
     else assign (set_format false (m_swapped p) (m_isNanosecond p))) ;;
    network ← field32 (m_mappedData p + 20);
    assign (set_linkType network) ;;
    assign (fun p => set_cursor (m_currentPtr p + sizeof_pcap_file_header) p) ;;
    mret ResultVoid.success.

(** [Result<void> open(const std::string& path)] *)
Definition open (path : string) : Mw ResultVoid :=
  checkThread ndebug ;;
  f ← sys (open_rdonly path);
  assign (set_fd f) ;;
  if f <? 0 then system_error
  else
    st ← sys (fstat_size f);
    match st with
    | None => close_fd f ;; assign (set_fd (-1)) ;; system_error
    | Some size =>
        assign (set_fileSize size) ;;
        mapped ← sys (mmap_file size f);
        match mapped with
        | None => close_fd f ;; assign (set_fd (-1)) ;; system_error
        | Some (addr, bytes) =>
            assign (set_mapping (Mapping addr bytes)) ;;
            sys (madvise addr size) ;;
            if size <? sizeof_pcap_file_header
            then mret (ResultVoid.fail (ErrorCode EINVAL system_category))
            else assign (set_cursor addr) ;; detect_format
        end
    end.

(** [void rewind()] *)
Definition rewind : Mw unit :=
  checkThread ndebug ;;
  assign (fun p => set_cursor (m_mappedData p) p) ;;
  p ← this;
  (if m_isPcapNg p then mret tt
   else assign (fun p => set_cursor (m_currentPtr p + sizeof_pcap_file_header) p)) ;;
  assign (set_finished false) ;;
  assign (fun p => set_timing (m_pcapStartTs p) (m_wallStartTs p) true p).

(** ** Subscription *)

(** [Result<int> subscribe(uint16_t port, void* context, PacketHandlerFn handler)] *)
Definition subscribe (port context handler : Z) : Mw (Result Z) :=
  baseRes ← base_subscribe ndebug port context handler;
  if negb (Result.has_value baseRes) then mret baseRes
  else
    let netPort := htons port in
    assign (fun p => set_portTable (<[netPort := MkSubscription context handler]> (m_portTable p)) p) ;;
    mret (Value port).

(** [Result<void> unsubscribe(uint16_t port)] *)
Definition unsubscribe (port : Z) : Mw ResultVoid :=
  baseResult ← base_unsubscribe ndebug port;
  if negb (ResultVoid.has_value baseResult) then mret baseResult
  else
    assign (fun p => set_portTable (<[port := no_subscription]> (m_portTable p)) p) ;;
    mret ResultVoid.success.

(** ** From a captured packet to its handler *)

(** The lookup of the destination port through the one-entry cache: whether
    there is a handler, which is then the hot one. *)
Definition lookup_port (dstPortNet : Z) : Mw bool :=
  p ← this;
  if negb (dstPortNet =? m_hotPort p) || (m_hotHandler p =? 0) then
    let sub := default no_subscription (m_portTable p !! dstPortNet) in
    if sub_handler sub =? 0 then mret false
    else assign (set_hot dstPortNet (sub_handler sub) (sub_context sub)) ;; mret true
  else mret true.

(** [m_hotHandler(m_hotContext, data, len, status, ts)] *)
Definition call_hot (data len status : Z) (ts : timespec) : Mw unit :=
  p ← this; call_handler (m_hotHandler p) (m_hotContext p) data len status ts.

(** [void slowPathParse(...)]: its layer 2, which gives the protocol, the
    pointer and the remaining length, or nothing when the function returns;
    then its layers 3 and 4. *)
Definition slowPathLayer2 (caplen packet linkType : Z) : Mw (option (Z * Z * Z)) :=
  if linkType =? DLT_LINUX_SLL then
    if caplen <? 16 then mret None
    else proto ← ld16 (packet + 14);
         mret (Some (ntohs proto, packet + 16, u32 (caplen - 16)))
  else if linkType =? DLT_EN10MB then
    if caplen <? sizeof_ether_header then mret None
    else
      proto ← ld16 (packet + 12);
      let ptr := packet + sizeof_ether_header in
      let remaining := u32 (caplen - sizeof_ether_header) in
      if ntohs proto =? ETHERTYPE_VLAN then
        if remaining <? 4 then mret None
        else proto ← ld16 (ptr + 2);
             mret (Some (ntohs proto, ptr + 4, u32 (remaining - 4)))
      else mret (Some (ntohs proto, ptr, remaining))
  else mret None.

Definition slowPathLayer4 (ts : timespec) (ptr remaining : Z) : Mw unit :=
  if remaining <? sizeof_udphdr then mret tt
  else
    dstPortNet ← ld16 (ptr + 2);
    found ← lookup_port dstPortNet;
    if negb found then mret tt
    else
      ulen ← ld16 (ptr + 4);
      let udpLen := ntohs ulen in
      if udpLen <? sizeof_udphdr then mret tt
      else
        let dataLen := udpLen - sizeof_udphdr in
        let ptr := ptr + sizeof_udphdr in
        let remaining := u32 (remaining - sizeof_udphdr) in
        if remaining <? dataLen then mret tt
        else call_hot ptr dataLen OK ts.

Definition slowPathLayer3 (ts : timespec) (proto ptr remaining : Z) : Mw unit :=
  if negb (proto =? ETHERTYPE_IP) then mret tt
  else if remaining <? sizeof_ip then mret tt
  else
    b0 ← ld8 ptr;
    let ip_v := Z.shiftr b0 4 in
    let ip_hl := Z.land b0 15 in
    if negb (ip_v =? 4) then mret tt
    else
      let ipLen := ip_hl * 4 in
      if remaining <? ipLen then mret tt
      else
        ip_p ← ld8 (ptr + 9);
        if negb (ip_p =? IPPROTO_UDP) then mret tt
        else slowPathLayer4 ts (ptr + ipLen) (u32 (remaining - ipLen)).

Definition slowPathParse (ts : timespec) (caplen len packet linkType : Z) : Mw unit :=
  if negb (caplen =? len) then mret tt
  else
    layer2 ← slowPathLayer2 caplen packet linkType;
    match layer2 with
    | None => mret tt
    | Some (proto, ptr, remaining) => slowPathLayer3 ts proto ptr remaining
    end.

(** [bool isFastPathIPv4(const uint8_t* p)], and the protocol test that
    follows it in [parseAndDispatch]. *)
Definition isFastPathIPv4 (p : Z) : Mw bool :=
  mand (b ← ld8 (p + 12); mret (b =? 0x08))
    (mand (b ← ld8 (p + 13); mret (b =? 0x00))
      (b ← ld8 (p + 14); mret (Z.land b 0xF0 =? 0x40))).

(** [void parseAndDispatch(...)] *)
Definition parseAndDispatch (ts : timespec) (caplen len packet linkType : Z) : Mw unit :=
  let status := if caplen <? len then TRUNCATED else OK in
  p ← this;
  fast ← (if (m_linkType p =? DLT_EN10MB) && (status =? OK) && (42 <=? caplen)
          then mand (isFastPathIPv4 packet) (b ← ld8 (packet + 23); mret (b =? IPPROTO_UDP))
          else mret false);
  if fast : bool then
    b14 ← ld8 (packet + 14);
    let ipHeaderLen := Z.shiftl (Z.land b14 15) 2 in
    let totalHeaderLen := 14 + ipHeaderLen + 8 in
    if caplen <? totalHeaderLen then mret tt
    else
      dstPortNet ← ld16 (packet + 14 + ipHeaderLen + 2);
      found ← lookup_port dstPortNet;
      if negb found then mret tt
      else
        ulen ← ld16 (packet + 14 + ipHeaderLen + 4);
        let udpLen := ntohs ulen in
        if udpLen <? 8 then mret tt
        else if caplen <? 14 + ipHeaderLen + udpLen then mret tt
        else call_hot (packet + totalHeaderLen) (udpLen - 8) status ts
  else slowPathParse ts caplen len packet linkType.

(** ** Pacing *)

(** The scaled difference of two time stamps when the speed is not 1:
    [total_ns] in [double], then its seconds and nanoseconds. *)
Definition scale_difference (diff_sec diff_ns : Z) : Mw (Z * Z) :=
  p ← this;
  let total_ns :=
    f64_div (f64_add (f64_mul (f64_of_Z diff_sec) f64_1e9) (f64_of_Z diff_ns))
      (speedMultiplier (m_pcapConfig p)) in
  match f64_trunc (f64_div total_ns f64_1e9), f64_trunc total_ns with
  | Some sec, Some total => mret (sec, Z.rem total 1000000000)
  | _, _ => crash BadConversion
  end.

(** [time_point calculateTargetTimeHighRes(const struct timespec& ts)] *)
Definition calculateTargetTimeHighRes (ts : timespec) : Mw Z :=
  p ← this;
  if m_firstPacket p then
    now ← clock_now;
    assign (set_timing ts now false) ;;
    mret now
  else
    sec0 ← s64 (tv_sec ts - tv_sec (m_pcapStartTs p));
    ns0 ← s64 (tv_nsec ts - tv_nsec (m_pcapStartTs p));
    norm ← (if ns0 <? 0 then
              sec1 ← s64 (sec0 - 1); ns1 ← s64 (ns0 + 1000000000); mret (sec1, ns1)
            else mret (sec0, ns0));
    scaled ← (if negb (f64_eqb (speedMultiplier (m_pcapConfig p)) f64_one)
              then scale_difference (fst norm) (snd norm)
              else mret norm);
    secs ← s64 (fst scaled * 1000000000);
    t1 ← s64 (m_wallStartTs p + secs);
    s64 (t1 + snd scaled).

(** The check of the TIMED mode: [true] when the packet is in the future;
    the batch is then scheduled again for its time. *)
Definition too_early (ts : timespec) : Mw bool :=
  p ← this;
  if decide (mode (m_pcapConfig p) = TIMED) then
    targetTime ← calculateTargetTimeHighRes ts;
    now ← clock_now;
    if now <? targetTime then
      d ← s64 (targetTime - now);
      runAfter (Z.quot d 1000000) (Some ProcessBatch) ;; mret true
    else mret false
  else mret false.

(** ** The readers *)

(** One record of a pcap file (the part of [internalStep] after the
    delegation). *)
Definition step_pcap : Mw bool :=
  p ← this;
  if file_end p <? m_currentPtr p + sizeof_pcap_sf_pkthdr then
    assign (set_finished true) ;; mret false
  else
    let hdr := m_currentPtr p in
    sec ← field32 hdr;
    fraction ← field32 (hdr + 4);
    caplen ← field32 (hdr + 8);
    len ← field32 (hdr + 12);
    let ts := pcap_timespec (m_isNanosecond p) sec fraction in
    early ← too_early ts;
    if early : bool then mret false
    else
      let packet_data := hdr + sizeof_pcap_sf_pkthdr in
      parseAndDispatch ts caplen len packet_data (m_linkType p) ;;
      assign (set_cursor (packet_data + caplen)) ;;
      mret true.

(** The options of an interface description block: the resolution of its
    time stamps. *)
Fixpoint parse_options (fuel : nat) (optPtr blockEnd divisor : Z) : Mw Z :=
  match fuel with
  | O => crash OutOfFuel
  | S fuel =>
      if blockEnd <? optPtr + 4 then mret divisor
      else
        code ← field16 optPtr;
        vlen ← field16 (optPtr + 2);
        if code =? 0 then mret divisor
        else
          divisor' ← (if (code =? 9) && (vlen =? 1) then res ← ld8 (optPtr + 4); tsresol_divisor res
                      else mret divisor);
          parse_options fuel (optPtr + 4 + Z.land (vlen + 3) (Z.lnot 3)) blockEnd divisor'
  end.

(** An interface description block at the cursor. *)
Definition read_interface (len : Z) : Mw unit :=
  p ← this;
  let cur := m_currentPtr p in
  lt ← field16 (cur + sizeof_PcapNgBlockHeader);
  let optPtr := cur + sizeof_PcapNgBlockHeader + sizeof_PcapNgIDBBody in
  divisor ← parse_options (S (Z.to_nat len)) optPtr (cur + len - 4) 1000000;
  assign (fun p =>
    set_interfaces (<[m_interfaceCount p := MkInterfaceInfo lt divisor]> (m_interfaces p))
      (u32 (m_interfaceCount p + 1)) p).

(** The [while (true)] of [stepPcapNg]: skips to the next packet block and
    returns its length, or [None] at the end of the file. *)
Fixpoint next_packet_block (fuel : nat) : Mw (option Z) :=
  match fuel with
  | O => crash OutOfFuel
  | S fuel =>
      p ← this;
      let cur := m_currentPtr p in
      if file_end p <? cur + sizeof_PcapNgBlockHeader then
        assign (set_finished true) ;; mret None
      else
        type ← field32 cur;
        len ← field32 (cur + 4);
        if (len <? sizeof_PcapNgBlockHeader) || (file_end p <? cur + len) then
          assign (set_finished true) ;; mret None
        else if type =? PCAPNG_EPB then mret (Some len)
        else
          (if type =? PCAPNG_IDB then read_interface len else mret tt) ;;
          assign (fun p => set_cursor (m_currentPtr p + len) p) ;;
          next_packet_block fuel
  end.

(** [m_interfaces[ifId]]: a missing key is inserted, with zero members. *)
Definition interface_at (ifId : Z) : Mw InterfaceInfo :=
  p ← this;
  match m_interfaces p !! ifId with
  | Some info => mret info
  | None =>
      assign (fun p => set_interfaces (<[ifId := MkInterfaceInfo 0 0]> (m_interfaces p))
                         (m_interfaceCount p) p) ;;
      mret (MkInterfaceInfo 0 0)
  end.

(** The packet block at the cursor (the part of [stepPcapNg] behind its
    loop). *)
Definition read_packet_block (len : Z) : Mw bool :=
  p ← this;
  let epb := m_currentPtr p + sizeof_PcapNgBlockHeader in
  ifId ← field32 epb;
  info ← interface_at ifId;
  high ← field32 (epb + 4);
  low ← field32 (epb + 8);
  ts ← pcapng_timespec (ts_raw high low) (tsResolutionDivisor info);
  early ← too_early ts;
  if early : bool then mret false
  else
    capLen ← field32 (epb + 12);
    origLen ← field32 (epb + 16);
    let dataPtr := epb + sizeof_PcapNgEPBBody in
    parseAndDispatch ts capLen origLen dataPtr (linkType info) ;;
    assign (fun p => set_cursor (m_currentPtr p + len) p) ;;
    mret true.

(** [bool stepPcapNg() noexcept]; every turn of its loop but the last
    advances the cursor by at least 8 bytes inside the file, so the size of
    the file bounds their number. *)
Definition stepPcapNg : Mw bool :=
  p ← this;
  block ← next_packet_block (S (Z.to_nat (m_fileSize p)));
  match block with
  | None => mret false
  | Some len => read_packet_block len
  end.

(** [bool internalStep() noexcept] *)
Definition internalStep : Mw bool :=
  noexcept (p ← this; if m_isPcapNg p then stepPcapNg else step_pcap).

(** [bool step()] *)
Definition step : Mw bool := checkThread ndebug ;; internalStep.

(** ** Batches *)

(** [while (n steps are left) if (!internalStep()) return;]: whether all
    the steps were made. *)
Fixpoint steps (n : nat) : Mw bool :=
  match n with
  | O => mret true
  | S n => more ← internalStep; if more : bool then steps n else mret false
  end.

(** [void processBatchFlood()] *)
Definition processBatchFlood : Mw unit :=
  all ← steps (Z.to_nat 20000);
  if negb all then mret tt
  else
    p ← this;
    if m_finished p then mret tt else runInLoop (Some ProcessBatchFlood).

(** [void processBatch()] *)
Definition processBatch : Mw unit :=
  p ← this;
  if (m_mappedData p =? 0) || m_finished p then mret tt
  else
    let md := mode (m_pcapConfig p) in
    (if decide (md = FLOOD) then processBatchFlood else mret tt) ;;
    let stopLimit := if decide (md = FLOOD) then 10000 else batchSize (pc_receiver (m_pcapConfig p)) in
    all ← steps (Z.to_nat stopLimit);
    if negb all then mret tt
    else
      p ← this;
      if m_finished p then mret tt
      else if decide (md = FLOOD) then runInLoop (Some ProcessBatch)
      else if decide (md = TIMED) then runAfter 0 (Some ProcessBatch) ;; mret tt
      else mret tt.

(** [void start()] *)
Definition start : Mw unit :=
  checkThread ndebug ;;
  p ← this;
  if m_mappedData p =? 0 then mret tt
  else
    assign (fun p => set_timing (m_pcapStartTs p) (m_wallStartTs p) true p) ;;
    if decide (mode (m_pcapConfig p) = STEP) then mret tt
    else runAfter 0 (Some ProcessBatch) ;; mret tt.

(** [bool isFinished() const] *)
Definition isFinished : Mw bool := p ← this; mret (m_finished p).

(** The lambdas given to the loop. *)
Context (user_task : U -> Mw unit).
Definition run_pcap_task (t : task U) : Mw unit :=
  match t with
  | ProcessBatch => processBatch
  | ProcessBatchFlood => processBatchFlood
  | UserTask u => user_task u
  end.

(** [handleRead] does nothing: the receiver has no socket. *)
Definition handleRead (receiver fd context handler : Z) : Mw unit := mret tt.

(** [PcapReceiver(EventLoop& loop, PcapConfig config)] *)
Definition PcapReceiver_new (config : PcapConfig) : Mw unit :=
  PacketReceiver_new (pc_receiver config) ;;
  assign (fun p => MkPcapReceiver (pcap_base p) config (-1) (Mapping 0 []) 0 0 0 ∅ (TimeSpec 0 0) 0
    true false false false ∅ 0 true 0 0 0).

(** [~PcapReceiver()] *)
Definition PcapReceiver_delete : Mw unit :=
  p ← this;
  (if negb (m_mappedData p =? 0) && negb (m_mappedData p =? MAP_FAILED)
   then sys (munmap (m_mappedData p) (m_fileSize p)) ;; mret tt else mret tt) ;;
  (if 0 <=? m_fd p then close_fd (m_fd p) else mret tt) ;;
  PacketReceiver_delete.
End PcapReceiverOps.
