(* ===== verification/PcapDispatch.v ===== *)
(** From a captured packet to its handler: the two parsers of
    [PcapReceiver], the port table and its one-entry cache. *)
From S2P Require Import Prelude Outcome Result Kernel ScopedFd TimerQueue EventLoop PcapFormat Float64.
From S2P Require Import PacketReceiver PcapReceiver.

(** ** Running the loads and the assignments *)

Section Run.
Context {U Y : Type}.
Notation W := (world (task U) PcapReceiver Y).
Implicit Types w : W.

Lemma bind_this {B} (k : PcapReceiver -> M W B) w : (this ≫= k) w = k (w_obj w) w.
Proof. done. Qed.

Lemma bind_assign {B} f (k : unit -> M W B) w : (assign f ≫= k) w = k tt (with_obj f w).
Proof. done. Qed.

Lemma bind_ld8 {B} a (k : Z -> M W B) w :
  (ld8 a ≫= k) w =
    match load8 (m_mapping (w_obj w)) a with Some v => k v w | None => Crash OutOfBounds end.
Proof. unfold ld8, load. rewrite bind_assoc, bind_this. by destruct (load8 _ a). Qed.

Lemma bind_ld16 {B} a (k : Z -> M W B) w :
  (ld16 a ≫= k) w =
    match load16 (m_mapping (w_obj w)) a with Some v => k v w | None => Crash OutOfBounds end.
Proof. unfold ld16, load. rewrite bind_assoc, bind_this. by destruct (load16 _ a). Qed.

Lemma bind_ld32 {B} a (k : Z -> M W B) w :
  (ld32 a ≫= k) w =
    match load32 (m_mapping (w_obj w)) a with Some v => k v w | None => Crash OutOfBounds end.
Proof. unfold ld32, load. rewrite bind_assoc, bind_this. by destruct (load32 _ a). Qed.

Lemma bind_field32 {B} a (k : Z -> M W B) w :
  (field32 a ≫= k) w =
    match load32 (m_mapping (w_obj w)) a with
    | Some v => k (swap32 (m_swapped (w_obj w)) v) w | None => Crash OutOfBounds end.
Proof.
  unfold field32. rewrite bind_assoc, bind_this, bind_assoc, bind_ld32. by destruct (load32 _ a).
Qed.

Lemma bind_field16 {B} a (k : Z -> M W B) w :
  (field16 a ≫= k) w =
    match load16 (m_mapping (w_obj w)) a with
    | Some v => k (swap16 (m_swapped (w_obj w)) v) w | None => Crash OutOfBounds end.
Proof.
  unfold field16. rewrite bind_assoc, bind_this, bind_assoc, bind_ld16. by destruct (load16 _ a).
Qed.
End Run.

#[export] Hint Rewrite @bind_this @bind_assign @bind_ld8 @bind_ld16 @bind_ld32 @bind_field32
  @bind_field16 : run.

(** Case analysis on the load or the branch the goal is stuck on. *)
Ltac split_branch :=
  match goal with
  | |- context [match ?x with Some _ => _ | None => _ end] =>
      lazymatch x with context [match _ with _ => _ end] => fail | _ => destruct x eqn:? end
  | |- context [if ?b then _ else _] =>
      lazymatch b with context [if _ then _ else _] => fail | _ => destruct b eqn:? end
  end.

(** ** Bytes of the headers *)

(** The test of the fast path on the version nibble is the slow path's; a
    byte has 256 values. *)
Lemma version_nibble b : is_u8 b -> (Z.land b 0xF0 =? 0x40) = (Z.shiftr b 4 =? 4).
Proof.
  intros H.
  assert (Hall : Forall (fun b => (Z.land b 0xF0 =? 0x40) = (Z.shiftr b 4 =? 4)) (seqZ 0 256))
    by (vm_compute; repeat constructor).
  rewrite Forall_forall in Hall. apply Hall. apply elem_of_seqZ. unfold is_u8 in H. lia.
Qed.

Lemma header_length b : Z.shiftl (Z.land b 15) 2 = Z.land b 15 * 4.
Proof. rewrite Z.shiftl_mul_pow2 by lia. done. Qed.

Lemma nibble_range b : 0 <= Z.land b 15 <= 15.
Proof.
  assert (Z.land b 15 = b mod 16) as -> by (apply (Z.land_ones b 4); lia). zlia.
Qed.

(** Two bytes in network order. *)
Definition be16 (b0 b1 : Z) : Z := b0 * 256 + b1.

Lemma ntohs_le16 b0 b1 : is_u8 b0 -> is_u8 b1 -> ntohs (le16 b0 b1) = be16 b0 b1.
Proof. intros. unfold ntohs, be16. rewrite bswap16_le16, le16_spec by done. lia. Qed.

(** The byte at an address of the file. *)
Definition byte_at (m : mapping) (a : Z) : Z := default 0 (load8 m a).

Section Bytes.
Context (m : mapping) (Hm : bytes_ok m) (packet n : Z) (Hin : in_file m packet n).

Lemma load8_packet i : 0 <= i < n -> load8 m (packet + i) = Some (byte_at m (packet + i)).
Proof.
  intros Hi. unfold byte_at. destruct Hin.
  destruct (load8_in m Hm (packet + i)) as (b & -> & _); [split; lia|done].
Qed.

Lemma byte_at_u8 a : is_u8 (byte_at m a).
Proof.
  unfold byte_at. destruct (load8 m a) eqn:E; [by eapply load8_u8|]. unfold is_u8. cbn. lia.
Qed.

Lemma load16_packet i : 0 <= i -> i + 2 <= n ->
  load16 m (packet + i) = Some (le16 (byte_at m (packet + i)) (byte_at m (packet + i + 1))).
Proof.
  intros Hi Hn. unfold load16. rewrite load8_packet by lia. cbn.
  rewrite <- Z.add_assoc, load8_packet by lia. done.
Qed.
End Bytes.

(** ** Where the UDP header is

    The specification of the two parsers: the offset of the UDP header in a
    frame of [n] bytes, if the frame is an IPv4 datagram with the UDP protocol
    behind an Ethernet, 802.1Q or Linux cooked header, long enough for its
    headers. *)
Definition locate_l2 (lt : Z) (f : Z -> Z) (n : Z) : option (Z * Z) :=
  if lt =? DLT_LINUX_SLL then
    if n <? 16 then None else Some (be16 (f 14) (f 15), 16)
  else if lt =? DLT_EN10MB then
    if n <? 14 then None
    else if be16 (f 12) (f 13) =? ETHERTYPE_VLAN then
      if n <? 18 then None else Some (be16 (f 16) (f 17), 18)
    else Some (be16 (f 12) (f 13), 14)
  else None.

Definition locate_udp (lt : Z) (f : Z -> Z) (n : Z) : option Z :=
  '(proto, ip) ← locate_l2 lt f n;
  let ihl := Z.land (f ip) 15 * 4 in
  if (proto =? ETHERTYPE_IP) && (ip + 20 <=? n) && (Z.shiftr (f ip) 4 =? 4) && (ip + ihl + 8 <=? n)
     && (f (ip + 9) =? IPPROTO_UDP)
  then Some (ip + ihl) else None.

Lemma locate_l2_bounds lt f n proto ip : locate_l2 lt f n = Some (proto, ip) -> 14 <= ip <= n.
Proof.
  unfold locate_l2. intros E. repeat case_match; simplify_eq; zprop; lia.
Qed.

Lemma locate_udp_bounds lt f n off : locate_udp lt f n = Some off -> 14 <= off /\ off + 8 <= n.
Proof.
  unfold locate_udp. destruct (locate_l2 lt f n) as [[proto ip]|] eqn:E; [|done].
  apply locate_l2_bounds in E. cbn. pose proof (nibble_range (f ip)).
  case_match; [|done]. intros [= <-]. zprop. lia.
Qed.

(** ** The two parsers *)

Section Parsers.
Context {U Y : Type}.
Notation W := (world (task U) PcapReceiver Y).
Notation Mw := (M W).
Context (call_handler : Z -> Z -> Z -> Z -> Z -> timespec -> Mw unit).
Implicit Types w : W.

(** What both parsers do with a UDP header at [udp] and [room] bytes from
    there to the end of the packet. *)
Definition udp_part (ts : timespec) (udp room : Z) : Mw unit :=
  dstPortNet ← ld16 (udp + 2);
  found ← lookup_port dstPortNet;
  if negb found then mret tt
  else
    ulen ← ld16 (udp + 4);
    if ntohs ulen <? sizeof_udphdr then mret tt
    else if room <? ntohs ulen then mret tt
    else call_hot call_handler (udp + sizeof_udphdr) (ntohs ulen - sizeof_udphdr) OK ts.

(** The frame at [packet], as a function from offsets to bytes. *)
Definition frame w (packet : Z) : Z -> Z := fun i => byte_at (m_mapping (w_obj w)) (packet + i).

Definition dispatch_spec (ts : timespec) (caplen packet lt : Z) w : outcome W unit :=
  match locate_udp lt (frame w packet) caplen with
  | Some off => udp_part ts (packet + off) (caplen - off) w
  | None => Ret tt w
  end.

Section InFile.
Context (w : W) (packet caplen : Z).
Context (Hm : bytes_ok (m_mapping (w_obj w))) (Hin : in_file (m_mapping (w_obj w)) packet caplen).
Context (Hcap : is_u32 caplen).

Lemma frame_u8 i : is_u8 (frame w packet i).
Proof. by apply byte_at_u8. Qed.

Lemma ld8_frame {B} i (k : Z -> Mw B) :
  0 <= i < caplen -> (ld8 (packet + i) ≫= k) w = k (frame w packet i) w.
Proof. intros Hi. rewrite bind_ld8. by erewrite load8_packet. Qed.

Lemma ld16_frame {B} i (k : Z -> Mw B) :
  0 <= i -> i + 2 <= caplen ->
  (ld16 (packet + i) ≫= k) w = k (le16 (frame w packet i) (frame w packet (i + 1))) w.
Proof.
  intros Hi Hn. rewrite bind_ld16. erewrite load16_packet by done.
  unfold frame. by rewrite Z.add_assoc.
Qed.

Lemma frame_be16 i : ntohs (le16 (frame w packet i) (frame w packet (i + 1))) =
  be16 (frame w packet i) (frame w packet (i + 1)).
Proof. apply ntohs_le16; apply frame_u8. Qed.

Lemma u32_sub a b : 0 <= b <= a -> is_u32 a -> u32 (a - b) = a - b.
Proof. intros. apply u32_small. unfold is_u32 in *. lia. Qed.

(** Layer 2 finds what [locate_l2] says. *)
Lemma layer2_spec lt :
  slowPathLayer2 caplen packet lt w =
    Ret ((fun '(proto, ip) => (proto, packet + ip, caplen - ip))
           <$> locate_l2 lt (frame w packet) caplen) w.
Proof.
  unfold slowPathLayer2, locate_l2, sizeof_ether_header.
  destruct (lt =? DLT_LINUX_SLL); [|destruct (lt =? DLT_EN10MB); [|done]].
  - destruct (Z.ltb_spec caplen 16); [done|].
    rewrite ld16_frame, frame_be16, u32_sub by (done || lia). done.
  - destruct (Z.ltb_spec caplen 14); [done|].
    rewrite ld16_frame, frame_be16 by lia. rewrite (u32_sub caplen) by (done || lia).
    cbn [Z.add Pos.add Pos.succ]. destruct (_ =? ETHERTYPE_VLAN); [|done].
    destruct (Z.ltb_spec (caplen - 14) 4), (Z.ltb_spec caplen 18); try lia; [done|].
    rewrite <- (Z.add_assoc packet 14 2), ld16_frame, frame_be16 by lia.
    rewrite u32_sub by (unfold is_u32 in *; lia). cbn.
    replace (packet + 14 + 4) with (packet + 18) by lia.
    by replace (caplen - 14 - 4) with (caplen - 18) by lia.
Qed.

(** Layer 4 on the bytes from [udp] on. *)
Lemma layer4_spec ts udp room :
  0 <= room < 2 ^ 32 ->
  slowPathLayer4 call_handler ts udp room w =
    if room <? sizeof_udphdr then Ret tt w else udp_part ts udp room w.
Proof.
  intros Hr. unfold slowPathLayer4, udp_part, sizeof_udphdr. destruct (Z.ltb_spec room 8); [done|].
  apply bind_ext. intros port w1 _. apply bind_ext. intros [|] w2 _; [|done]. cbn [negb].
  apply bind_ext. intros ulen w3 _. destruct (Z.ltb_spec (ntohs ulen) 8); [done|].
  rewrite u32_sub by (unfold is_u32; lia).
  by destruct (Z.ltb_spec (room - 8) (ntohs ulen - 8)), (Z.ltb_spec room (ntohs ulen)); try lia.
Qed.

Lemma layer3_spec ts proto ip :
  14 <= ip <= caplen ->
  slowPathLayer3 call_handler ts proto (packet + ip) (caplen - ip) w =
    let ihl := Z.land (frame w packet ip) 15 * 4 in
    if (proto =? ETHERTYPE_IP) && (ip + 20 <=? caplen) && (Z.shiftr (frame w packet ip) 4 =? 4)
       && (ip + ihl + 8 <=? caplen) && (frame w packet (ip + 9) =? IPPROTO_UDP)
    then udp_part ts (packet + (ip + ihl)) (caplen - (ip + ihl)) w else Ret tt w.
Proof.
  intros Hip. cbn zeta. unfold slowPathLayer3, sizeof_ip.
  destruct (proto =? ETHERTYPE_IP); [|done]. cbn [negb andb].
  destruct (Z.ltb_spec (caplen - ip) 20), (Z.leb_spec (ip + 20) caplen); try lia; [done|].
  rewrite ld8_frame by lia. cbn [andb].
  destruct (Z.shiftr (frame w packet ip) 4 =? 4); [|done]. cbn [negb andb].
  pose proof (nibble_range (frame w packet ip)). set (ihl := Z.land _ 15 * 4) in *.
  destruct (Z.ltb_spec (caplen - ip) ihl); [destruct (Z.leb_spec (ip + ihl + 8) caplen); [lia|done]|].
  rewrite <- (Z.add_assoc packet ip 9), ld8_frame by lia.
  destruct (frame w packet (ip + 9) =? IPPROTO_UDP); [|by rewrite andb_false_r]. cbn [negb].
  rewrite u32_sub, andb_true_r by (unfold is_u32 in *; lia).
  rewrite layer4_spec by (unfold is_u32 in *; lia). unfold sizeof_udphdr.
  destruct (Z.ltb_spec (caplen - ip - ihl) 8), (Z.leb_spec (ip + ihl + 8) caplen); try lia; [done|].
  f_equal; lia.
Qed.

(** The slow path refines the specification. *)
Theorem slowPathParse_spec ts len lt :
  slowPathParse call_handler ts caplen len packet lt w =
    if caplen =? len then dispatch_spec ts caplen packet lt w else Ret tt w.
Proof.
  unfold slowPathParse, dispatch_spec, locate_udp. destruct (caplen =? len); [|done]. cbn [negb].
  rewrite (bind_Ret _ _ _ _ _ (layer2_spec lt)).
  destruct (locate_l2 lt (frame w packet) caplen) as [[proto ip]|] eqn:E; [|done].
  apply locate_l2_bounds in E. cbn [fmap option_fmap option_map].
  rewrite layer3_spec by lia. cbn. by case_match.
Qed.

(** The test of the fast path reads the frame. *)
Lemma fast_test_run :
  42 <= caplen ->
  mand (isFastPathIPv4 packet) (b ← ld8 (packet + 23); mret (b =? IPPROTO_UDP)) w =
    Ret (((frame w packet 12 =? 8) && ((frame w packet 13 =? 0) &&
          (Z.land (frame w packet 14) 0xF0 =? 0x40))) && (frame w packet 23 =? IPPROTO_UDP)) w.
Proof.
  intros Hc. unfold mand, isFastPathIPv4, mand. rewrite !bind_assoc, ld8_frame by lia. run_steps.
  destruct (frame w packet 12 =? 8); [|done]. cbn [andb]. rewrite !bind_assoc, ld8_frame by lia.
  run_steps. destruct (frame w packet 13 =? 0); [|done]. cbn [andb].
  rewrite ?bind_assoc, ld8_frame by lia. run_steps.
  destruct (Z.land _ _ =? 64); [|done]. cbn [andb].
  by rewrite ?bind_assoc, ld8_frame by lia.
Qed.

(** A frame that passes it has its UDP header behind the IP header. *)
Lemma fast_locate :
  42 <= caplen -> frame w packet 12 = 8 -> frame w packet 13 = 0 ->
  Z.land (frame w packet 14) 0xF0 = 0x40 -> frame w packet 23 = IPPROTO_UDP ->
  let ihl := Z.shiftl (Z.land (frame w packet 14) 15) 2 in
  locate_udp DLT_EN10MB (frame w packet) caplen =
    if caplen <? 14 + ihl + 8 then None else Some (14 + ihl).
Proof.
  intros Hc H12 H13 H14 H23. cbn zeta. rewrite header_length. unfold locate_udp, locate_l2.
  assert (Hv : Z.shiftr (frame w packet 14) 4 =? 4 = true).
  { rewrite <- version_nibble by apply frame_u8. by rewrite H14. }
  destruct (Z.ltb_spec caplen 14); [lia|]. rewrite H12, H13.
  change (DLT_EN10MB =? DLT_LINUX_SLL) with false. change (DLT_EN10MB =? DLT_EN10MB) with true.
  change (be16 8 0 =? ETHERTYPE_VLAN) with false. change (be16 8 0) with ETHERTYPE_IP. cbn beta iota.
  cbn [mbind option_bind]. rewrite Hv, Z.eqb_refl. change (14 + 9) with 23. rewrite H23, Z.eqb_refl.
  destruct (Z.leb_spec (14 + 20) caplen); [|lia]. cbn [andb]. rewrite andb_true_r.
  destruct (Z.leb_spec (14 + Z.land (frame w packet 14) 15 * 4 + 8) caplen),
    (Z.ltb_spec caplen (14 + Z.land (frame w packet 14) 15 * 4 + 8)); try lia; done.
Qed.

(** The dispatcher refines the specification. *)
Theorem parseAndDispatch_spec ts len lt :
  caplen <= len -> (m_linkType (w_obj w) = DLT_EN10MB -> lt = DLT_EN10MB) ->
  parseAndDispatch call_handler ts caplen len packet lt w =
    if caplen =? len then dispatch_spec ts caplen packet lt w else Ret tt w.
Proof.
  intros Hle Hlt. rewrite <- (slowPathParse_spec ts len lt). unfold parseAndDispatch.
  rewrite bind_this.
  destruct (Z.ltb_spec caplen len) as [Hl|Hl].
  { change (TRUNCATED =? OK) with false. rewrite andb_false_r. by run_steps. }
  assert (len = caplen) as -> by lia. change (OK =? OK) with true. rewrite andb_true_r.
  destruct (Z.eqb_spec (m_linkType (w_obj w)) DLT_EN10MB) as [Heth|_]; [|by run_steps].
  rewrite (Hlt Heth). cbn [andb]. destruct (Z.leb_spec 42 caplen) as [Hc|_]; [|by run_steps].
  rewrite (bind_Ret _ _ _ _ _ (fast_test_run Hc)). case_match eqn:Hf; [|done].
  zprop. rewrite ld8_frame by lia. rewrite slowPathParse_spec, Z.eqb_refl. unfold dispatch_spec.
  rewrite fast_locate by done.
  set (ihl := Z.shiftl _ 2). destruct (Z.ltb_spec caplen (14 + ihl + 8)); [done|].
  rewrite <- !(Z.add_assoc packet 14 ihl). unfold udp_part, sizeof_udphdr.
  apply bind_ext. intros port w1 _. apply bind_ext. intros [|] w2 _; [|done]. cbn [negb].
  apply bind_ext. intros ulen w3 _. destruct (Z.ltb_spec (ntohs ulen) 8); [done|].
  destruct (Z.ltb_spec caplen (14 + ihl + ntohs ulen)), (Z.ltb_spec (caplen - (14 + ihl)) (ntohs ulen));
    try lia; [done|].
  by rewrite Z.add_assoc.
Qed.

(** C14 The fast path is an optimisation only: on a packet that lies in the
    file, whose captured length is at most the original one, the
    dispatcher does what the slow path does. *)
Theorem fast_path_is_slow_path ts len lt :
  caplen <= len -> (m_linkType (w_obj w) = DLT_EN10MB -> lt = DLT_EN10MB) ->
  parseAndDispatch call_handler ts caplen len packet lt w =
    slowPathParse call_handler ts caplen len packet lt w.
Proof. intros Hle Hlt. by rewrite parseAndDispatch_spec, slowPathParse_spec. Qed.
End InFile.

(** ** The hot cache and the delivery *)

(** The cache is a copy of an entry of the port table. *)
Definition hot_ok (p : PcapReceiver) : Prop :=
  m_hotHandler p <> 0 ->
  m_portTable p !! m_hotPort p = Some (MkSubscription (m_hotContext p) (m_hotHandler p)).

(** The subscription of a port (in network order), if it has a handler. *)
Definition subscribed (p : PcapReceiver) (port : Z) : option Subscription :=
  match m_portTable p !! port with
  | Some s => if sub_handler s =? 0 then None else Some s
  | None => None
  end.

Definition hot_entry (port : Z) (s : Subscription) : PcapReceiver -> PcapReceiver :=
  set_hot port (sub_handler s) (sub_context s).

(** A coherent cache is invisible: the lookup gives the subscription of the
    port, and makes it the hot one. *)
Lemma lookup_port_spec port w :
  hot_ok (w_obj w) ->
  lookup_port port w =
    match subscribed (w_obj w) port with
    | Some s => Ret true (with_obj (hot_entry port s) w)
    | None => Ret false w
    end.
Proof.
  intros Hok. unfold lookup_port. rewrite bind_this. unfold subscribed.
  destruct w as [l p y]. cbn [w_obj] in *. unfold hot_ok in Hok.
  destruct (Z.eqb_spec port (m_hotPort p)) as [->|Hne].
  - destruct (Z.eqb_spec (m_hotHandler p) 0) as [E|E].
    + cbn [negb orb]. destruct (m_portTable p !! m_hotPort p) as [s|]; cbn [from_option id]; [|done].
      destruct (sub_handler s =? 0); done.
    + cbn [negb orb]. rewrite (Hok E). cbn [sub_handler]. destruct (Z.eqb_spec (m_hotHandler p) 0); [done|].
      unfold with_obj, hot_entry. cbn. by destruct p.
  - cbn [negb orb]. destruct (m_portTable p !! port) as [s|]; cbn [from_option id]; [|done].
    destruct (sub_handler s =? 0); done.
Qed.

Lemma hot_entry_ok port s p : subscribed p port = Some s -> hot_ok (hot_entry port s p).
Proof.
  unfold subscribed, hot_ok, hot_entry. intros E _. cbn.
  destruct (m_portTable p !! port) as [s'|] eqn:E'; [|done]. case_match; simplify_eq. by destruct s.
Qed.

(** What the dispatcher does with a packet that was captured whole. *)
Definition deliver (ts : timespec) (caplen packet lt : Z) w : outcome W unit :=
  let f := frame w packet in
  match locate_udp lt f caplen with
  | None => Ret tt w
  | Some off =>
      let port := le16 (f (off + 2)) (f (off + 3)) in
      let ulen := be16 (f (off + 4)) (f (off + 5)) in
      match subscribed (w_obj w) port with
      | None => Ret tt w
      | Some s =>
          let w1 := with_obj (hot_entry port s) w in
          if (8 <=? ulen) && (ulen <=? caplen - off)
          then call_handler (sub_handler s) (sub_context s) (packet + off + 8) (ulen - 8) OK ts w1
          else Ret tt w1
      end
  end.

(** The dispatch, as the layers above use it. *)
Lemma parseAndDispatch_deliver ts caplen len packet lt w :
  bytes_ok (m_mapping (w_obj w)) -> in_file (m_mapping (w_obj w)) packet caplen ->
  is_u32 caplen -> caplen <= len -> (m_linkType (w_obj w) = DLT_EN10MB -> lt = DLT_EN10MB) ->
  hot_ok (w_obj w) ->
  parseAndDispatch call_handler ts caplen len packet lt w =
    if caplen =? len then deliver ts caplen packet lt w else Ret tt w.
Proof.
  intros Hm Hin Hcap Hle Hlt Hok. rewrite parseAndDispatch_spec by done.
  destruct (caplen =? len); [|done]. unfold dispatch_spec, deliver.
  destruct (locate_udp lt (frame w packet) caplen) as [off|] eqn:E; [|done].
  apply locate_udp_bounds in E as [E1 E2]. unfold udp_part.
  rewrite <- !(Z.add_assoc packet off). rewrite (ld16_frame _ _ _ Hm Hin) by lia.
  rewrite <- (Z.add_assoc off 2 1). change (2 + 1) with 3. rewrite bind_run, lookup_port_spec by done.
  destruct (subscribed _ _) as [s|] eqn:Es; [|done]. cbn [negb].
  set (w1 := with_obj (hot_entry _ s) w).
  rewrite (ld16_frame w1 packet caplen Hm Hin) by lia.
  rewrite (frame_be16 w1 packet Hm). rewrite <- (Z.add_assoc off 4 1). change (4 + 1) with 5.
  change (frame w1 packet) with (frame w packet). unfold sizeof_udphdr.
  set (ulen := be16 _ _). destruct (Z.ltb_spec ulen 8), (Z.leb_spec 8 ulen); try lia; [done|]. cbn [andb].
  by destruct (Z.ltb_spec (caplen - off) ulen), (Z.leb_spec ulen (caplen - off)); try lia.
Qed.

(** C8 The dispatcher in full: a packet captured whole, an IPv4 UDP datagram
    behind one of the supported layer-2 headers, whose destination port has
    a subscription and whose UDP length fits, is handed to the handler and
    context of that subscription with the address and length of the payload;
    nothing is called otherwise.  The payload lies inside the packet, and
    every access to the file succeeds. *)
Theorem parseAndDispatch_delivers ts caplen len packet lt w :
  bytes_ok (m_mapping (w_obj w)) -> in_file (m_mapping (w_obj w)) packet caplen ->
  is_u32 caplen -> caplen <= len -> (m_linkType (w_obj w) = DLT_EN10MB -> lt = DLT_EN10MB) ->
  hot_ok (w_obj w) ->
  parseAndDispatch call_handler ts caplen len packet lt w =
    if caplen =? len then deliver ts caplen packet lt w else Ret tt w.
Proof. exact (parseAndDispatch_deliver ts caplen len packet lt w). Qed.
End Parsers.
