(* ===== verification/PcapFrames.v ===== *)
(** Frames: an encoder of UDP datagrams over IPv4 behind the three layer-2
    headers [PcapReceiver] reads, and the round trip through its dispatcher. *)
From S2P Require Import Prelude Outcome Result Kernel ScopedFd TimerQueue EventLoop PcapFormat Float64.
From S2P Require Import PacketReceiver PcapReceiver PcapDispatch.

(** ** The encoder *)

Definition be16_bytes (x : Z) : list Z := [byte_of 1 x; byte_of 0 x].

Inductive layer2 := Ethernet | Vlan (tci : Z) | Cooked.

(** A datagram: the bytes the parser skips are free. *)
Record udp_packet := UdpPacket {
  up_link : layer2;
  up_addresses : list Z;   (* 12 bytes of addresses, or the 14 of a cooked header *)
  up_ip_a : list Z;        (* type of service to time to live *)
  up_ip_b : list Z;        (* checksum and addresses *)
  up_options : list Z;     (* IP options *)
  up_source : Z;
  up_port : Z;
  up_checksum : Z;
  up_payload : list Z
}.

Definition link_type (l : layer2) : Z := match l with Cooked => DLT_LINUX_SLL | _ => DLT_EN10MB end.

Definition link_header (p : udp_packet) : list Z :=
  up_addresses p ++
  match up_link p with
  | Vlan tci => be16_bytes ETHERTYPE_VLAN ++ be16_bytes tci
  | _ => []
  end ++ be16_bytes ETHERTYPE_IP.

Definition ihl_of (p : udp_packet) : Z := 5 + Z.of_nat (length (up_options p)) / 4.

Definition ip_header (p : udp_packet) : list Z :=
  [0x40 + ihl_of p] ++ up_ip_a p ++ [IPPROTO_UDP] ++ up_ip_b p ++ up_options p.

Definition udp_header (p : udp_packet) : list Z :=
  be16_bytes (up_source p) ++ be16_bytes (up_port p) ++
  be16_bytes (8 + Z.of_nat (length (up_payload p))) ++ be16_bytes (up_checksum p).

Definition headers (p : udp_packet) : list Z := link_header p ++ ip_header p ++ udp_header p.
Definition encode_packet (p : udp_packet) : list Z := headers p ++ up_payload p.

Record packet_ok (p : udp_packet) : Prop := {
  po_addresses : length (up_addresses p) = match up_link p with Cooked => 14%nat | _ => 12%nat end;
  po_ip_a : length (up_ip_a p) = 8%nat;
  po_ip_b : length (up_ip_b p) = 10%nat;
  po_options : exists k, (k <= 10)%nat /\ length (up_options p) = (4 * k)%nat;
  po_port : is_u16 (up_port p);
  po_payload : Z.of_nat (length (up_payload p)) <= 65527
}.

(** ** Reading an encoded packet *)

(** The byte at an offset. *)
Definition at_ (l : list Z) (i : Z) : Z := nth (Z.to_nat i) l 0.

Lemma at_app_r (l1 l2 : list Z) i n :
  Z.of_nat (length l1) = n -> 0 <= i -> at_ (l1 ++ l2) (n + i) = at_ l2 i.
Proof.
  intros <- Hi. unfold at_. rewrite Z2Nat.inj_add, Nat2Z.id by lia.
  by rewrite app_nth2_plus.
Qed.

Lemma at_app_l (l1 l2 : list Z) i : 0 <= i < Z.of_nat (length l1) -> at_ (l1 ++ l2) i = at_ l1 i.
Proof. intros Hi. unfold at_. apply app_nth1. lia. Qed.

Lemma at_be16 x l : is_u16 x -> be16 (at_ (be16_bytes x ++ l) 0) (at_ (be16_bytes x ++ l) 1) = x.
Proof.
  intros Hx. unfold be16, at_. change (Z.to_nat 0) with 0%nat. change (Z.to_nat 1) with 1%nat.
  cbn [be16_bytes app nth].
  transitivity (le16 (byte_of 0 x) (byte_of 1 x)); [|by apply le16_bytes].
  rewrite le16_spec by auto with words. lia.
Qed.

(** The layer-2 header is read back. *)
Lemma link_length p : packet_ok p ->
  Z.of_nat (length (link_header p)) =
    match up_link p with Ethernet => 14 | Vlan _ => 18 | Cooked => 16 end.
Proof.
  intros H. destruct H. unfold link_header. rewrite !length_app, po_addresses0.
  by destruct (up_link p).
Qed.

Lemma link_ethertype p l k :
  packet_ok p -> k = Z.of_nat (length (link_header p)) - 2 ->
  be16 (at_ (link_header p ++ l) k) (at_ (link_header p ++ l) (k + 1)) = ETHERTYPE_IP.
Proof.
  intros H ->. pose proof (link_length p H) as Hl. unfold link_header in *.
  rewrite app_assoc, <- app_assoc in *. rewrite length_app in Hl. cbn [be16_bytes length] in Hl.
  set (a := up_addresses p ++ _) in *. rewrite length_app. cbn [be16_bytes length].
  assert (Ha : Z.of_nat (length a) = Z.of_nat (length a + 2) - 2) by lia.
  rewrite <- (Z.add_0_r (Z.of_nat (length a + 2) - 2)), <- Z.add_assoc.
  rewrite !(at_app_r a _ _ _ Ha) by lia. by apply at_be16.
Qed.

Lemma locate_l2_encoded p l :
  packet_ok p ->
  locate_l2 (link_type (up_link p)) (at_ (link_header p ++ l))
    (Z.of_nat (length (link_header p ++ l))) =
    Some (ETHERTYPE_IP, Z.of_nat (length (link_header p))).
Proof.
  intros H. pose proof (link_length p H) as Hl. rewrite length_app, Nat2Z.inj_add, Hl.
  pose proof (link_ethertype p l _ H eq_refl) as Ht. rewrite Hl in Ht.
  unfold locate_l2. destruct (up_link p) as [|tci|] eqn:El; cbn [link_type].
  - destruct (Z.ltb_spec (14 + Z.of_nat (length l)) 14); [lia|].
    change (14 - 2) with 12 in Ht. change (12 + 1) with 13 in Ht. rewrite Ht. done.
  - destruct (Z.ltb_spec (18 + Z.of_nat (length l)) 14); [lia|].
    destruct (Z.ltb_spec (18 + Z.of_nat (length l)) 18); [lia|].
    change (18 - 2) with 16 in Ht. change (16 + 1) with 17 in Ht. rewrite Ht.
    assert (Hv : be16 (at_ (link_header p ++ l) 12) (at_ (link_header p ++ l) 13) = ETHERTYPE_VLAN).
    { destruct H. unfold link_header. rewrite El in *. rewrite <- !app_assoc.
      assert (Ha : Z.of_nat (length (up_addresses p)) = 12) by lia.
      change 12 with (12 + 0). change 13 with (12 + 1). rewrite !(at_app_r _ _ _ _ Ha) by lia.
      by apply at_be16. }
    rewrite Hv. done.
  - destruct (Z.ltb_spec (16 + Z.of_nat (length l)) 16); [lia|].
    change (16 - 2) with 14 in Ht. change (14 + 1) with 15 in Ht. rewrite Ht. done.
Qed.

Lemma encode_assoc p :
  encode_packet p = link_header p ++ ip_header p ++ udp_header p ++ up_payload p.
Proof. unfold encode_packet, headers. by rewrite <- !app_assoc. Qed.

(** The IP header is read back: its first byte, its length, its protocol. *)
Lemma ihl_range p : packet_ok p ->
  5 <= ihl_of p <= 15 /\ Z.of_nat (length (ip_header p)) = ihl_of p * 4.
Proof.
  intros H. destruct H. destruct po_options0 as (k & Hk & Hl). unfold ihl_of, ip_header.
  rewrite !length_app, po_ip_a0, po_ip_b0, Hl, Nat2Z.inj_mul. cbn [length].
  rewrite Z.mul_comm, Z.div_mul by lia. split; lia.
Qed.

Lemma at_version p l : at_ (ip_header p ++ l) 0 = 0x40 + ihl_of p.
Proof. done. Qed.

Lemma at_protocol p l : packet_ok p -> at_ (ip_header p ++ l) 9 = IPPROTO_UDP.
Proof.
  intros H. destruct H. unfold ip_header. rewrite <- !app_assoc.
  change 9 with (1 + (8 + 0)). rewrite (at_app_r [_] _ (8 + 0)) by (done || lia).
  rewrite (at_app_r (up_ip_a p)) by lia. done.
Qed.

Lemma version_byte h : 5 <= h <= 15 -> Z.shiftr (0x40 + h) 4 = 4 /\ Z.land (0x40 + h) 15 = h.
Proof.
  intros Hh. rewrite Z.shiftr_div_pow2 by lia. split; [change (2 ^ 4) with 16; zlia|].
  rewrite (Z.land_ones _ 4) by lia. change (2 ^ 4) with 16. zlia.
Qed.

(** The offset of the UDP header. *)
Definition udp_offset (p : udp_packet) : Z :=
  Z.of_nat (length (link_header p)) + Z.of_nat (length (ip_header p)).

Lemma udp_header_length p : Z.of_nat (length (udp_header p)) = 8.
Proof. done. Qed.

Lemma encode_length p :
  Z.of_nat (length (encode_packet p)) = udp_offset p + 8 + Z.of_nat (length (up_payload p)).
Proof.
  rewrite encode_assoc, !length_app, !Nat2Z.inj_add, udp_header_length. unfold udp_offset. lia.
Qed.

Lemma locate_encoded p :
  packet_ok p ->
  locate_udp (link_type (up_link p)) (at_ (encode_packet p)) (Z.of_nat (length (encode_packet p))) =
    Some (udp_offset p).
Proof.
  intros H. pose proof (encode_length p) as Hlen. unfold udp_offset in Hlen.
  destruct (ihl_range p H) as [Hh Hil]. destruct (version_byte _ Hh) as [Hv Hn].
  unfold locate_udp. rewrite encode_assoc, locate_l2_encoded by done.
  cbn [mbind option_bind]. rewrite <- encode_assoc.
  set (ip := Z.of_nat (length (link_header p))) in *.
  assert (E0 : at_ (encode_packet p) ip = 0x40 + ihl_of p).
  { rewrite encode_assoc, <- (Z.add_0_r ip). rewrite at_app_r by (done || lia). apply at_version. }
  assert (E9 : at_ (encode_packet p) (ip + 9) = IPPROTO_UDP).
  { rewrite encode_assoc, at_app_r by (done || lia). by apply at_protocol. }
  rewrite E0, E9, Hv, Hn, !Z.eqb_refl. unfold udp_offset. fold ip. rewrite Hil.
  destruct (Z.leb_spec (ip + 20) (Z.of_nat (length (encode_packet p)))); [|lia].
  destruct (Z.leb_spec (ip + ihl_of p * 4 + 8) (Z.of_nat (length (encode_packet p)))); [|lia]. done.
Qed.

(** The fields of the UDP header. *)
Lemma at_udp p i : packet_ok p -> 0 <= i ->
  at_ (encode_packet p) (udp_offset p + i) = at_ (udp_header p ++ up_payload p) i.
Proof.
  intros H Hi. unfold udp_offset. rewrite encode_assoc, <- Z.add_assoc.
  rewrite at_app_r by lia. by apply at_app_r.
Qed.

Lemma udp_port_bytes p : packet_ok p ->
  le16 (at_ (encode_packet p) (udp_offset p + 2)) (at_ (encode_packet p) (udp_offset p + 3)) =
    htons (up_port p).
Proof. intros H. rewrite !at_udp by (done || lia). done. Qed.

Lemma udp_length_bytes p : packet_ok p ->
  be16 (at_ (encode_packet p) (udp_offset p + 4)) (at_ (encode_packet p) (udp_offset p + 5)) =
    8 + Z.of_nat (length (up_payload p)).
Proof.
  intros H. rewrite !at_udp by (done || lia). destruct H.
  apply (at_be16 (8 + Z.of_nat (length (up_payload p))) (be16_bytes (up_checksum p) ++ up_payload p)).
  unfold is_u16. lia.
Qed.

Lemma payload_bytes p i : packet_ok p -> 0 <= i ->
  at_ (encode_packet p) (udp_offset p + 8 + i) = at_ (up_payload p) i.
Proof.
  intros H Hi. rewrite <- Z.add_assoc, at_udp by (done || lia).
  rewrite (at_app_r (udp_header p)) by (done || lia). done.
Qed.

(** ** The round trip *)

Lemma locate_udp_ext lt f g n :
  (forall i, 0 <= i < n -> f i = g i) -> locate_udp lt f n = locate_udp lt g n.
Proof.
  intros Hfg. assert (E2 : locate_l2 lt f n = locate_l2 lt g n).
  { unfold locate_l2. destruct (Z.ltb_spec n 16), (Z.ltb_spec n 14), (Z.ltb_spec n 18); try lia; try done;
      rewrite ?Hfg by lia; done. }
  unfold locate_udp. rewrite E2. destruct (locate_l2 lt g n) as [[proto ip]|] eqn:E; [|done].
  apply locate_l2_bounds in E. cbn [mbind option_bind].
  destruct (Z.leb_spec (ip + 20) n); [|by rewrite !andb_false_r]. by rewrite !Hfg by lia.
Qed.

(** The bytes [l] are in the file at address [a]. *)
Definition stored (m : mapping) (a : Z) (l : list Z) : Prop :=
  forall i, 0 <= i < Z.of_nat (length l) -> load8 m (a + i) = Some (at_ l i).

Lemma stored_in_file m a l : l <> [] -> stored m a l -> in_file m a (Z.of_nat (length l)).
Proof.
  intros Hne H. destruct l as [|x l]; [done|]. cbn [length] in *.
  pose proof (load8_bounds _ _ _ (H 0 ltac:(cbn [length]; lia))) as [H1 _].
  pose proof (load8_bounds _ _ _ (H (Z.of_nat (length l)) ltac:(cbn [length]; lia))) as [_ H2].
  split; lia.
Qed.

Lemma stored_app_r m a l1 l2 : stored m a (l1 ++ l2) -> stored m (a + Z.of_nat (length l1)) l2.
Proof.
  intros H i Hi. rewrite <- Z.add_assoc, H by (rewrite length_app; lia). f_equal.
  apply at_app_r; lia.
Qed.

Lemma stored_app_l m a l1 l2 : stored m a (l1 ++ l2) -> stored m a l1.
Proof.
  intros H i Hi. rewrite H by (rewrite length_app; lia). f_equal.
  by apply at_app_l.
Qed.

Section RoundTrip.
Context {U Y : Type}.
Notation W := (world (task U) PcapReceiver Y).
Context (call_handler : Z -> Z -> Z -> Z -> Z -> timespec -> M W unit).
Implicit Types w : W.

(** An encoded packet in the file, as the dispatcher sees it. *)
Lemma encoded_located p w packet :
  let n := Z.of_nat (length (encode_packet p)) in
  let len := Z.of_nat (length (up_payload p)) in
  let off := udp_offset p in
  packet_ok p -> bytes_ok (m_mapping (w_obj w)) ->
  stored (m_mapping (w_obj w)) packet (encode_packet p) ->
  in_file (m_mapping (w_obj w)) packet n /\ is_u32 n /\
  locate_udp (link_type (up_link p)) (frame w packet) n = Some off /\
  le16 (frame w packet (off + 2)) (frame w packet (off + 3)) = htons (up_port p) /\
  be16 (frame w packet (off + 4)) (frame w packet (off + 5)) = 8 + len /\
  n = off + 8 + len /\ 14 <= off /\ 0 <= len.
Proof.
  intros n len off Hp Hm Hst. pose proof (encode_length p) as Hlen. fold n len off in Hlen.
  destruct (ihl_range p Hp) as [Hh Hil]. pose proof (link_length p Hp) as Hll.
  assert (Hoff : 14 <= off <= 78) by (unfold off, udp_offset; destruct (up_link p); lia).
  assert (Hlen0 : 0 <= len) by (unfold len; lia).
  assert (Hne : encode_packet p <> []) by (intros E; unfold n in Hlen; rewrite E in Hlen; cbn in Hlen; lia).
  assert (Hf : forall i, 0 <= i < n -> frame w packet i = at_ (encode_packet p) i).
  { intros i Hi. unfold frame, byte_at. by rewrite Hst. }
  split_and!; try done; try lia.
  - by apply stored_in_file.
  - destruct Hp. unfold is_u32. fold len in po_payload0. lia.
  - rewrite (locate_udp_ext _ _ (at_ (encode_packet p)) n Hf). by apply locate_encoded.
  - rewrite !Hf by lia. by apply udp_port_bytes.
  - rewrite !Hf by lia. by apply udp_length_bytes.
Qed.

(** C15 A UDP datagram in an Ethernet, 802.1Q or Linux cooked frame, with any
    IP options and payload, captured whole, reaches the handler of its
    destination port with exactly its payload, through whichever path the
    dispatcher takes; it is ignored when the port has no subscription. *)
Theorem encoded_packet_delivered ts packet p w :
  let n := Z.of_nat (length (encode_packet p)) in
  let len := Z.of_nat (length (up_payload p)) in
  packet_ok p -> bytes_ok (m_mapping (w_obj w)) ->
  stored (m_mapping (w_obj w)) packet (encode_packet p) ->
  (m_linkType (w_obj w) = DLT_EN10MB -> link_type (up_link p) = DLT_EN10MB) -> hot_ok (w_obj w) ->
  parseAndDispatch call_handler ts n n packet (link_type (up_link p)) w =
    match subscribed (w_obj w) (htons (up_port p)) with
    | Some s => call_handler (sub_handler s) (sub_context s) (packet + (n - len)) len OK ts
                  (with_obj (hot_entry (htons (up_port p)) s) w)
    | None => Ret tt w
    end /\
  stored (m_mapping (w_obj w)) (packet + (n - len)) (up_payload p).
Proof.
  intros n len Hp Hm Hst Hlt Hok.
  destruct (encoded_located p w packet Hp Hm Hst) as (Hin & Hn & Hloc & Hpb & Hul & Hlen & Hoff & Hlen0).
  fold n in Hin, Hn, Hloc, Hlen. fold len in Hul, Hlen, Hlen0. split.
  - rewrite parseAndDispatch_deliver by (done || lia). rewrite Z.eqb_refl. unfold deliver.
    rewrite Hloc, Hpb, Hul. destruct (subscribed _ _) as [s|]; [|done].
    destruct (Z.leb_spec 8 (8 + len)); [|lia].
    destruct (Z.leb_spec (8 + len) (n - udp_offset p)); [|lia]. cbn [andb].
    replace (packet + udp_offset p + 8) with (packet + (n - len)) by lia.
    by replace (8 + len - 8) with len by lia.
  - replace (n - len) with (Z.of_nat (length (headers p))).
    + by apply stored_app_r.
    + unfold n, len, encode_packet. rewrite length_app. lia.
Qed.
End RoundTrip.
