(* ===== verification/PcapReplay.v ===== *)
(** Reading a capture file in the classic format: the round trip from an
    encoded sequence of records through [internalStep] to the handlers. *)
From S2P Require Import Prelude Outcome Result Kernel SimKernel ScopedFd TimerQueue EventLoop Recorder.
From S2P Require Import PcapFormat Float64 PacketReceiver PcapReceiver PcapDispatch PcapFrames.

(** ** The encoder *)

(** A 32-bit word in the byte order of the host, or swapped. *)
Definition enc32 (swapped : bool) (x : Z) : list Z :=
  if swapped then [byte_of 3 x; byte_of 2 x; byte_of 1 x; byte_of 0 x]
  else [byte_of 0 x; byte_of 1 x; byte_of 2 x; byte_of 3 x].

(** A record: its time stamp, the original length of the packet and the bytes
    captured. *)
Record pcap_record := PcapRecord { r_sec : Z; r_frac : Z; r_origlen : Z; r_data : list Z }.

Definition r_caplen (r : pcap_record) : Z := Z.of_nat (length (r_data r)).

Definition encode_record (swapped : bool) (r : pcap_record) : list Z :=
  enc32 swapped (r_sec r) ++ enc32 swapped (r_frac r) ++
  enc32 swapped (r_caplen r) ++ enc32 swapped (r_origlen r) ++ r_data r.

Record record_ok (r : pcap_record) : Prop := {
  ro_sec : is_u32 (r_sec r);
  ro_frac : is_u32 (r_frac r);
  ro_caplen : is_u32 (r_caplen r);
  ro_origlen : is_u32 (r_origlen r);
  ro_cut : r_caplen r <= r_origlen r
}.

(** ** Loads of stored words *)

Lemma enc32_length sw x : length (enc32 sw x) = 4%nat.
Proof. by destruct sw. Qed.

Lemma stored_load32 m a sw x l : is_u32 x -> stored m a (enc32 sw x ++ l) ->
  load32 m a = Some (swap32 sw x).
Proof.
  intros Hx H.
  assert (Hb : forall i, 0 <= i < 4 -> load8 m (a + i) = Some (at_ (enc32 sw x) i)).
  { intros i Hi. rewrite H; [|rewrite length_app, enc32_length; lia].
    f_equal. apply at_app_l. rewrite enc32_length. lia. }
  unfold load32. rewrite <- (Z.add_0_r a) at 1. rewrite !Hb by lia. cbn [mbind option_bind].
  f_equal. destruct sw; [done|]. by apply (le32_bytes x).
Qed.

Lemma swap32_involutive sw x : is_u32 x -> swap32 sw (swap32 sw x) = x.
Proof. destruct sw; [apply bswap32_involutive|done]. Qed.

(** The words of a record header. *)
Lemma stored_word m a sw x l :
  is_u32 x -> stored m a (enc32 sw x ++ l) ->
  load32 m a = Some (swap32 sw x) /\ stored m (a + 4) l.
Proof.
  intros Hx H. split; [by eapply stored_load32|].
  apply stored_app_r in H. by rewrite enc32_length in H.
Qed.

Lemma stored_record m a sw r :
  record_ok r -> stored m a (encode_record sw r) ->
  load32 m a = Some (swap32 sw (r_sec r)) /\ load32 m (a + 4) = Some (swap32 sw (r_frac r)) /\
  load32 m (a + 8) = Some (swap32 sw (r_caplen r)) /\ load32 m (a + 12) = Some (swap32 sw (r_origlen r)) /\
  stored m (a + 16) (r_data r).
Proof.
  intros [] H. unfold encode_record in H.
  apply stored_word in H as [H0 H]; [|done]. apply stored_word in H as [H1 H]; [|done].
  apply stored_word in H as [H2 H]; [|done]. apply stored_word in H as [H3 H]; [|done].
  rewrite <- !Z.add_assoc in *. done.
Qed.

Lemma encode_record_length sw r : Z.of_nat (length (encode_record sw r)) = 16 + r_caplen r.
Proof. unfold encode_record, r_caplen. rewrite !length_app, !enc32_length. lia. Qed.

(** ** One record *)

Section Step.
Context {U Y : Type} {RK : ReactorKernel Y}.
Notation W := (world (task U) PcapReceiver Y).
Notation Mw := (M W).
Context (call_handler : Z -> Z -> Z -> Z -> Z -> timespec -> Mw unit).
Implicit Types (w : W) (p : PcapReceiver).

(** The receiver after a successful [open]: the file is mapped whole. *)
Record file_ok p : Prop := {
  fo_bytes : bytes_ok (m_mapping p);
  fo_size : m_fileSize p = Z.of_nat (length (map_bytes (m_mapping p)))
}.

Lemma in_file_end p a n : file_ok p -> in_file (m_mapping p) a n <-> m_mappedData p <= a /\ a + n <= file_end p.
Proof. intros [_ Hs]. unfold in_file, file_end, m_mappedData. by rewrite Hs. Qed.

Lemma too_early_never ts w : mode (m_pcapConfig (w_obj w)) <> TIMED -> too_early ts w = Ret false w.
Proof. intros Hm. unfold too_early. rewrite bind_this. by rewrite decide_False. Qed.

(** At the end of the file the replay is finished. *)
Lemma step_pcap_end w :
  file_end (w_obj w) < m_currentPtr (w_obj w) + sizeof_pcap_sf_pkthdr ->
  step_pcap call_handler w = Ret false (with_obj (set_finished true) w).
Proof.
  intros He. unfold step_pcap. rewrite bind_this. by destruct (Z.ltb_spec (file_end (w_obj w))
    (m_currentPtr (w_obj w) + sizeof_pcap_sf_pkthdr)); [|lia].
Qed.

(** The test whether a packet is early, then the rest of the step. *)
Definition pace (ts : timespec) (play : Mw bool) : Mw bool :=
  early ← too_early ts; if early : bool then mret false else play.

Lemma pace_untimed ts play w : mode (m_pcapConfig (w_obj w)) <> TIMED -> pace ts play w = play w.
Proof. intros Hm. unfold pace. by rewrite (bind_Ret _ _ _ _ _ (too_early_never ts w Hm)). Qed.

Definition record_time p r : timespec := pcap_timespec (m_isNanosecond p) (r_sec r) (r_frac r).

(** A record is dispatched, and skipped. *)
Definition play_record p r : Mw bool :=
  parseAndDispatch call_handler (record_time p r) (r_caplen r) (r_origlen r) (m_currentPtr p + 16) (m_linkType p) ;;
  assign (set_cursor (m_currentPtr p + 16 + r_caplen r)) ;; mret true.

(** A record at the cursor is read in the byte order and the resolution of
    the file, and played unless it is early. *)
Lemma step_pcap_record w r :
  file_ok (w_obj w) -> record_ok r ->
  stored (m_mapping (w_obj w)) (m_currentPtr (w_obj w)) (encode_record (m_swapped (w_obj w)) r) ->
  step_pcap call_handler w = pace (record_time (w_obj w) r) (play_record (w_obj w) r) w.
Proof.
  intros Hf Hr Hst. pose proof Hst as Hin.
  apply stored_in_file in Hin; [|by destruct (m_swapped (w_obj w))].
  rewrite encode_record_length in Hin. apply in_file_end in Hin as [_ Hend]; [|done].
  apply stored_record in Hst as (H0 & H4 & H8 & H12 & _); [|done].
  unfold step_pcap. rewrite bind_this. unfold sizeof_pcap_sf_pkthdr.
  destruct (Z.ltb_spec (file_end (w_obj w)) (m_currentPtr (w_obj w) + 16)); [unfold r_caplen in *; lia|].
  destruct Hr. rewrite !bind_field32, H0, bind_field32, H4, bind_field32, H8, bind_field32, H12.
  by rewrite !swap32_involutive.
Qed.
End Step.

(** ** A whole file *)

Section Replay.
Context {U Y : Type} {RK : ReactorKernel Y}.
Notation W := (world (task U) PcapReceiver Y).
Notation Mw := (M W).
(** The application records the calls of its handlers. *)
Context (emit : delivery -> Y -> Y).
Implicit Types (w : W) (p : PcapReceiver).

Notation recorder := (Recorder.recorder emit).
Notation emit_all := (Recorder.emit_all emit).

(** The call a packet at [packet] is owed, if any. *)
Definition delivery_of (ts : timespec) (caplen packet lt : Z) p : option delivery :=
  let f i := byte_at (m_mapping p) (packet + i) in
  off ← locate_udp lt f caplen;
  let ulen := be16 (f (off + 4)) (f (off + 5)) in
  s ← subscribed p (le16 (f (off + 2)) (f (off + 3)));
  if (8 <=? ulen) && (ulen <=? caplen - off)
  then Some (Delivery (sub_handler s) (sub_context s) (packet + off + 8) (ulen - 8) OK ts) else None.

(** The call made for a packet carries its time stamp. *)
Lemma delivery_time ts caplen packet lt p : Forall (fun d => dl_ts d = ts) (option_list (delivery_of ts caplen packet lt p)).
Proof.
  destruct (delivery_of ts caplen packet lt p) as [d|] eqn:E; [|constructor]. apply Forall_singleton. unfold delivery_of in E.
  apply bind_Some in E as (off & _ & (s & _ & E)%bind_Some). case_match; [|done]. by injection E as <-.
Qed.

(** The receivers that differ from [p] by their cursor and their (coherent)
    cache only. *)
Definition replaying p p' : Prop :=
  hot_ok p' /\ exists c port h ctx, p' = set_cursor c (set_hot port h ctx p).

Lemma replaying_refl p : hot_ok p -> replaying p p.
Proof.
  intros H. split; [done|]. exists (m_currentPtr p), (m_hotPort p), (m_hotHandler p), (m_hotContext p).
  by destruct p.
Qed.

Lemma replaying_trans p p' p'' : replaying p p' -> replaying p' p'' -> replaying p p''.
Proof.
  intros [_ (? & ? & ? & ? & ->)] [H (c & port & h & ctx & ->)]. split; [done|]. by exists c, port, h, ctx.
Qed.

Lemma replaying_cursor p p' c : replaying p p' -> replaying p (set_cursor c p').
Proof. intros [Hok (? & port & h & ctx & ->)]. split; [done|]. by exists c, port, h, ctx. Qed.

Lemma deliver_recorded ts caplen packet lt w :
  hot_ok (w_obj w) ->
  exists p', deliver recorder ts caplen packet lt w =
      Ret tt (World (w_loop w) p'
        (emit_all (option_list (delivery_of ts caplen packet lt (w_obj w))) (w_sys w))) /\
    replaying (w_obj w) p' /\ m_currentPtr p' = m_currentPtr (w_obj w).
Proof.
  intros Hok. unfold deliver, delivery_of, frame. destruct w as [l p y]. cbn [w_obj w_sys w_loop] in *.
  destruct (locate_udp lt _ caplen) as [off|]; [|exists p; auto using replaying_refl].
  cbn [mbind option_bind]. set (port := le16 _ _).
  destruct (subscribed p port) as [s|] eqn:Es; [|exists p; auto using replaying_refl].
  exists (hot_entry port s p). split; [by destruct (_ && _)|].
  split; [|done]. split; [by apply hot_entry_ok|].
  exists (m_currentPtr p), port, (sub_handler s), (sub_context s). by destruct p.
Qed.

(** The calls owed for the records stored from address [a] on. *)
Fixpoint deliveries p (a : Z) (rs : list pcap_record) : list delivery :=
  match rs with
  | [] => []
  | r :: rs =>
      (if r_caplen r =? r_origlen r
       then option_list (delivery_of (pcap_timespec (m_isNanosecond p) (r_sec r) (r_frac r))
                           (r_caplen r) (a + 16) (m_linkType p) p)
       else []) ++ deliveries p (a + 16 + r_caplen r) rs
  end.

(** What is owed depends on the file and the table only. *)
Lemma deliveries_ext p p' a rs :
  m_mapping p' = m_mapping p -> m_isNanosecond p' = m_isNanosecond p ->
  m_linkType p' = m_linkType p -> m_portTable p' = m_portTable p ->
  deliveries p' a rs = deliveries p a rs.
Proof.
  intros Hm Hn Hl Hp. revert a. induction rs as [|r rs IH]; intros a; [done|].
  cbn [deliveries]. rewrite IH, Hn, Hl. unfold delivery_of, subscribed. by rewrite Hm, Hp.
Qed.

Lemma deliveries_replaying p p' a rs : replaying p p' -> deliveries p' a rs = deliveries p a rs.
Proof. intros [_ (c & port & h & ctx & ->)]. by apply deliveries_ext. Qed.

(** A receiver of a classic file. *)
Definition reading p : Prop := file_ok p /\ m_isPcapNg p = false /\ hot_ok p.

Definition replay_ready p : Prop :=
  file_ok p /\ mode (m_pcapConfig p) <> TIMED /\ m_isPcapNg p = false /\ hot_ok p.

Lemma play_record_run w r :
  file_ok (w_obj w) -> hot_ok (w_obj w) -> record_ok r ->
  stored (m_mapping (w_obj w)) (m_currentPtr (w_obj w)) (encode_record (m_swapped (w_obj w)) r) ->
  exists p', play_record recorder (w_obj w) r w =
      Ret true (World (w_loop w) p'
        (emit_all (deliveries (w_obj w) (m_currentPtr (w_obj w)) [r]) (w_sys w))) /\
    replaying (w_obj w) p' /\ m_currentPtr p' = m_currentPtr (w_obj w) + (16 + r_caplen r).
Proof.
  intros Hf Hok Hr Hst. pose proof Hst as Hst'.
  apply stored_record in Hst' as (_ & _ & _ & _ & Hdata); [|done].
  pose proof Hst as Hin. apply stored_in_file in Hin; [|by destruct (m_swapped (w_obj w))].
  rewrite encode_record_length in Hin. unfold play_record, record_time.
  rewrite bind_run, parseAndDispatch_deliver; try done; try apply Hf; try apply Hr; [|destruct Hin; split; lia].
  cbn [deliveries]. rewrite app_nil_r. destruct (r_caplen r =? r_origlen r).
  - destruct (deliver_recorded (pcap_timespec (m_isNanosecond (w_obj w)) (r_sec r) (r_frac r))
      (r_caplen r) (m_currentPtr (w_obj w) + 16) (m_linkType (w_obj w)) w Hok) as (p' & E & Hp' & _).
    exists (set_cursor (m_currentPtr (w_obj w) + 16 + r_caplen r) p'). rewrite E, bind_assign.
    split; [done|]. split; [by apply replaying_cursor|cbn; lia].
  - exists (set_cursor (m_currentPtr (w_obj w) + 16 + r_caplen r) (w_obj w)). rewrite bind_assign.
    split; [done|]. split; [by apply replaying_cursor, replaying_refl|cbn; lia].
Qed.

(** A step, in any mode. *)
Lemma internalStep_paced w r rs :
  reading (w_obj w) -> record_ok r ->
  stored (m_mapping (w_obj w)) (m_currentPtr (w_obj w)) (encode_record (m_swapped (w_obj w)) r ++ rs) ->
  internalStep recorder w = noexcept (pace (record_time (w_obj w) r) (play_record recorder (w_obj w) r)) w.
Proof.
  intros (Hf & Hng & Hok) Hr Hst%stored_app_l. unfold internalStep, noexcept.
  by rewrite bind_this, Hng, (step_pcap_record recorder w r).
Qed.

Lemma internalStep_record w r rs :
  replay_ready (w_obj w) -> record_ok r ->
  stored (m_mapping (w_obj w)) (m_currentPtr (w_obj w))
    (encode_record (m_swapped (w_obj w)) r ++ rs) ->
  exists p', internalStep recorder w =
      Ret true (World (w_loop w) p'
        (emit_all (deliveries (w_obj w) (m_currentPtr (w_obj w)) [r]) (w_sys w))) /\
    replaying (w_obj w) p' /\ m_currentPtr p' = m_currentPtr (w_obj w) + (16 + r_caplen r).
Proof.
  intros (Hf & Hmode & Hng & Hok) Hr Hst. rewrite (internalStep_paced w r rs) by done.
  apply stored_app_l in Hst. destruct (play_record_run w r Hf Hok Hr Hst) as (p' & E & Hp').
  exists p'. unfold noexcept. by rewrite pace_untimed, E.
Qed.

Definition encode_records (sw : bool) (rs : list pcap_record) : list Z :=
  concat (encode_record sw <$> rs).

Definition records_size (rs : list pcap_record) : Z :=
  foldr (fun r n => 16 + r_caplen r + n) 0 rs.

Lemma encode_records_length sw rs : Z.of_nat (length (encode_records sw rs)) = records_size rs.
Proof.
  induction rs as [|r rs IH]; [done|]. unfold encode_records in *. cbn [fmap list_fmap concat records_size foldr].
  rewrite length_app, Nat2Z.inj_add, encode_record_length, IH. done.
Qed.

Lemma replay_ready_step p p' : replay_ready p -> replaying p p' -> replay_ready p'.
Proof.
  intros (Hf & Hm & Hn & _) (Hok & c & port & h & ctx & ->). split_and!; [by destruct Hf|done..].
Qed.

Lemma deliveries_cons p a r rs :
  deliveries p a (r :: rs) = deliveries p a [r] ++ deliveries p (a + (16 + r_caplen r)) rs.
Proof. cbn [deliveries]. by rewrite app_nil_r, Z.add_assoc. Qed.

(** The first steps read the records one after the other. *)
Lemma steps_records w rs l k :
  replay_ready (w_obj w) -> Forall record_ok rs ->
  stored (m_mapping (w_obj w)) (m_currentPtr (w_obj w)) (encode_records (m_swapped (w_obj w)) rs ++ l) ->
  exists p', steps recorder (length rs + k) w =
      steps recorder k (World (w_loop w) p'
        (emit_all (deliveries (w_obj w) (m_currentPtr (w_obj w)) rs) (w_sys w))) /\
    replaying (w_obj w) p' /\ m_currentPtr p' = m_currentPtr (w_obj w) + records_size rs.
Proof.
  intros Hready Hrs. revert w Hready. induction Hrs as [|r rs Hr Hrs IH]; intros w Hready Hst.
  - exists (w_obj w). cbn [length plus records_size foldr]. split; [by destruct w|].
    split; [by apply replaying_refl, Hready|lia].
  - unfold encode_records in Hst. cbn [fmap list_fmap concat] in Hst. rewrite <- app_assoc in Hst.
    destruct (internalStep_record w r _ Hready Hr Hst) as (p1 & E & Hp1 & Hc1).
    apply stored_app_r in Hst. rewrite encode_record_length in Hst.
    cbn [length plus steps]. rewrite (bind_Ret _ _ _ _ _ E). clear E.
    destruct (IH (World (w_loop w) p1 (emit_all (deliveries (w_obj w) (m_currentPtr (w_obj w)) [r]) (w_sys w))))
      as (p2 & E2 & Hp2 & Hc2); cbn [w_obj w_loop w_sys] in *.
    { by eapply replay_ready_step. }
    { rewrite Hc1. destruct Hp1 as (_ & c & port & h & ctx & ->). exact Hst. }
    exists p2. rewrite E2. split_and!; [|by eapply replaying_trans|rewrite Hc2, Hc1; cbn [records_size foldr]; fold (records_size rs); lia].
    rewrite (deliveries_cons _ _ r rs). unfold emit_all. rewrite foldl_app.
    by rewrite Hc1, (deliveries_replaying _ _ _ _ Hp1).
Qed.

(** Replay of the records of a file, in either byte order and either
    resolution, from the first to the last: the handlers are called, in the
    order of the file, exactly for the packets that are owed a call, with
    the time stamp of their record; after the last record the replay is
    finished.  Fewer than 16 bytes may be left over at the end. *)
Theorem records_replayed w rs l n :
  replay_ready (w_obj w) -> Forall record_ok rs -> (length rs < n)%nat ->
  stored (m_mapping (w_obj w)) (m_currentPtr (w_obj w)) (encode_records (m_swapped (w_obj w)) rs ++ l) ->
  file_end (w_obj w) = m_currentPtr (w_obj w) + records_size rs + Z.of_nat (length l) ->
  (length l < 16)%nat ->
  exists p', steps recorder n w =
      Ret false (World (w_loop w) (set_finished true p')
        (emit_all (deliveries (w_obj w) (m_currentPtr (w_obj w)) rs) (w_sys w))) /\
    replaying (w_obj w) p'.
Proof.
  intros Hready Hrs Hn Hst Hend Hl.
  replace n with (length rs + S (n - S (length rs)))%nat by lia.
  destruct (steps_records w rs l (S (n - S (length rs))) Hready Hrs Hst) as (p1 & -> & Hp1 & Hc).
  pose proof (replay_ready_step _ _ Hready Hp1) as (_ & _ & Hng & _).
  exists p1. split; [|done].
  cbn [steps]. unfold internalStep. erewrite bind_Ret; [|].
  2: { unfold noexcept. rewrite bind_this. cbn [w_obj]. rewrite Hng, step_pcap_end; [done|].
    cbn [w_obj]. rewrite Hc. destruct Hp1 as (_ & c & port & h & ctx & ->).
    unfold file_end, m_mappedData, sizeof_pcap_sf_pkthdr in *. cbn in *. lia. }
  done.
Qed.
End Replay.

(** ** A record cut short *)

Section Cut.
Context {U Y : Type} {RK : ReactorKernel Y}.
Notation W := (world (task U) PcapReceiver Y).
Context (call_handler : Z -> Z -> Z -> Z -> Z -> timespec -> M W unit).
Implicit Types w : W.

(** C39 The captured length of a record is not compared with the size of the
    file.  When the file ends within the first 12 bytes of an Ethernet frame,
    so before its EtherType, and the header of the record announces a complete
    frame of at least 42 bytes, the step in FLOOD or STEP mode loads the
    EtherType from behind the end of the mapping. *)
Theorem cut_record_reads_outside w sec frac caplen :
  file_ok (w_obj w) -> mode (m_pcapConfig (w_obj w)) <> TIMED -> m_isPcapNg (w_obj w) = false ->
  m_linkType (w_obj w) = DLT_EN10MB ->
  is_u32 sec -> is_u32 frac -> is_u32 caplen -> 42 <= caplen ->
  let a := m_currentPtr (w_obj w) in
  let sw := m_swapped (w_obj w) in
  stored (m_mapping (w_obj w)) a (enc32 sw sec ++ enc32 sw frac ++ enc32 sw caplen ++ enc32 sw caplen) ->
  a + 16 <= file_end (w_obj w) <= a + 16 + 12 ->
  internalStep call_handler w = Crash OutOfBounds.
Proof.
  intros Hf Hmode Hng Hlt Hs Hfr Hc Hcap a sw Hst Hend.
  apply stored_word in Hst as [H0 Hst]; [|done]. apply stored_word in Hst as [H4 Hst]; [|done].
  apply stored_word in Hst as [H8 Hst]; [|done]. rewrite <- !Z.add_assoc in *.
  rewrite <- (app_nil_r (enc32 sw caplen)) in Hst. apply stored_word in Hst as [H12 _]; [|done].
  unfold internalStep, noexcept. rewrite bind_this, Hng. unfold step_pcap. rewrite bind_this.
  fold a. unfold sizeof_pcap_sf_pkthdr. destruct (Z.ltb_spec (file_end (w_obj w)) (a + 16)); [lia|].
  change (4 + (4 + 4)) with 12 in H12. change (4 + 4) with 8 in H8.
  rewrite !bind_field32. fold sw. rewrite H0, bind_field32. fold sw. rewrite H4, bind_field32. fold sw. rewrite H8, bind_field32. fold sw.
  rewrite H12, !swap32_involutive by done. rewrite (bind_Ret _ _ _ _ _ (too_early_never _ _ Hmode)).
  unfold parseAndDispatch. rewrite bind_assoc, bind_this, Hlt. destruct (Z.ltb_spec caplen caplen); [lia|].
  destruct (Z.leb_spec 42 caplen); [|lia]. cbn [Z.eqb Pos.eqb DLT_EN10MB OK andb].
  unfold isFastPathIPv4, mand. rewrite !bind_assoc, bind_ld8.
  destruct (load8 (m_mapping (w_obj w)) (a + 16 + 12)) as [b|] eqn:E; [|done].
  apply load8_bounds in E. apply in_file_end in E; [|done]. lia.
Qed.
End Cut.
