(* ===== verification/PcapOpen.v ===== *)
(** Opening a capture file: the detection of the format, the error paths of
    [open], and the replay of a whole file in the classic format. *)
From S2P Require Import Prelude Outcome Result Kernel SimKernel ScopedFd TimerQueue EventLoop Recorder.
From S2P Require Import PcapFormat Float64 PacketReceiver PcapReceiver PcapDispatch PcapFrames.
From S2P Require Import PcapReplay.

(** ** The global header *)

(** The header of a classic file: the magic number says the resolution and,
    read on this host, the byte order; the 16 bytes of version, time zone,
    accuracy and snapshot length are not looked at. *)
Definition pcap_header (swapped nano : bool) (rest : list Z) (network : Z) : list Z :=
  enc32 swapped (if nano then MAGIC_NANO_BE else MAGIC_MICRO_BE) ++ rest ++ enc32 swapped network.

Definition encode_file (swapped nano : bool) (rest : list Z) (network : Z) (rs : list pcap_record)
    (tail : list Z) : list Z :=
  pcap_header swapped nano rest network ++ encode_records swapped rs ++ tail.

Section Open.
Context {U Y : Type} {RK : ReactorKernel Y} {MK : MemoryKernel Y} {FK : FileKernel Y}.
Notation W := (world (task U) PcapReceiver Y).
Notation Mw := (M W).
Context (ndebug : bool).
Implicit Types (w : W) (p : PcapReceiver).

(** The thread check passes: it is compiled out, or this is the owner. *)
Definition owner_thread w : Prop :=
  ndebug = true \/ this_thread_id (w_sys w) = m_ownerThreadId (base (w_obj w)).

Lemma checkThread_passes w : owner_thread w -> checkThread ndebug w = Ret tt w.
Proof.
  intros [->|E]; [done|]. unfold checkThread. destruct ndebug; [done|].
  unfold this_base. run_steps. by rewrite E, Z.eqb_refl.
Qed.

(** The receiver [open] leaves for a file mapped at [addr]. *)
Definition mapped_at (f addr : Z) (bytes : list Z) p : PcapReceiver :=
  set_cursor addr (set_mapping (Mapping addr bytes) (set_fileSize (Z.of_nat (length bytes)) (set_fd f p))).

(** The calls [open] makes, for the file [bytes]. *)
Record opens (path : string) (y : Y) (f addr : Z) (bytes : list Z) (y' : Y) : Prop := {
  op_fd : fst (open_rdonly path y) = f /\ 0 <= f;
  op_size : let y1 := snd (open_rdonly path y) in
    fst (fstat_size f y1) = Some (Z.of_nat (length bytes));
  op_mmap : let y2 := snd (fstat_size f (snd (open_rdonly path y))) in
    fst (mmap_file (Z.of_nat (length bytes)) f y2) = Some (addr, bytes);
  op_end : y' = snd (madvise addr (Z.of_nat (length bytes))
    (snd (mmap_file (Z.of_nat (length bytes)) f (snd (fstat_size f (snd (open_rdonly path y)))))))
}.

(** [open] maps the file, then detects its format. *)
Lemma open_run path w f addr bytes y' :
  owner_thread w -> opens path (w_sys w) f addr bytes y' ->
  open ndebug path w =
    if Z.of_nat (length bytes) <? sizeof_pcap_file_header
    then Ret (ResultVoid.fail (ErrorCode EINVAL system_category))
           (World (w_loop w) (set_cursor (m_currentPtr (w_obj w)) (mapped_at f addr bytes (w_obj w))) y')
    else detect_format (World (w_loop w) (mapped_at f addr bytes (w_obj w)) y').
Proof.
  intros Ho [[Hfd Hf] Hs Hm ->]. unfold open.
  rewrite (bind_Ret _ _ _ _ _ (checkThread_passes w Ho)). run_steps. rewrite Hfd.
  destruct (Z.ltb_spec f 0); [lia|]. run_steps. cbn [w_sys with_sys with_obj] in *. rewrite Hs. run_steps.
  cbn [w_sys with_sys with_obj]. rewrite Hm. run_steps.
  destruct (_ <? sizeof_pcap_file_header); [|done]. by destruct w as [? [] ?].
Qed.

(** The receiver [detect_format] leaves for a classic file. *)
Definition classic (sw nano : bool) (network : Z) p : PcapReceiver :=
  set_cursor (m_mappedData p + sizeof_pcap_file_header) (set_linkType network (set_format false sw nano p)).

(** The detection in full, by the first word of the file: a section header
    with a known byte-order mark is a pcapng file; the four magic numbers of
    the classic format give its byte order and resolution; any other word
    is taken for a classic file, with the byte order and the resolution the
    receiver happened to have. *)
Definition format_of (magic bom : Z) p : option (bool * bool * bool) :=
  if magic =? MAGIC_PCAPNG_SHB then
    if bom =? PCAPNG_BOM then Some (true, false, true)
    else if bom =? PCAPNG_BOM_SWAP then Some (true, true, true)
    else None
  else if magic =? MAGIC_MICRO_LE then Some (false, true, false)
  else if magic =? MAGIC_NANO_LE then Some (false, true, true)
  else if magic =? MAGIC_NANO_BE then Some (false, false, true)
  else if magic =? MAGIC_MICRO_BE then Some (false, false, false)
  else Some (false, m_swapped p, m_isNanosecond p).

Lemma detect_format_run w magic bom network :
  m_currentPtr (w_obj w) = m_mappedData (w_obj w) ->
  load32 (m_mapping (w_obj w)) (m_mappedData (w_obj w)) = Some magic ->
  load32 (m_mapping (w_obj w)) (m_mappedData (w_obj w) + 8) = Some bom ->
  load32 (m_mapping (w_obj w)) (m_mappedData (w_obj w) + 20) = Some network ->
  detect_format w =
    match format_of magic bom (w_obj w) with
    | Some (true, sw, nano) => Ret ResultVoid.success (with_obj (set_format true sw nano) w)
    | Some (false, sw, nano) =>
        Ret ResultVoid.success (with_obj (classic sw nano (swap32 sw network)) w)
    | None => Ret (ResultVoid.fail (ErrorCode EINVAL system_category))
                (with_obj (fun p => set_format true (m_swapped p) (m_isNanosecond p) p) w)
    end.
Proof.
  intros Hc Hm Hb Hn. unfold detect_format, format_of. run_steps. rewrite Hm. destruct w as [l p y].
  cbn [w_obj] in *.
  assert (Hfin : forall sw nano, (network0 ← field32 (m_mappedData p + 20);
      assign (set_linkType network0) ;;
      assign (fun p0 => set_cursor (m_currentPtr p0 + sizeof_pcap_file_header) p0) ;;
      mret ResultVoid.success) (with_obj (set_format false sw nano) (World l p y)) =
      (Ret ResultVoid.success (with_obj (classic sw nano (swap32 sw network)) (World l p y)) : outcome W _)).
  { intros sw nano. rewrite bind_field32. cbn [with_obj w_obj set_format m_mapping]. rewrite Hn.
    run_steps. unfold classic, with_obj. cbn. by rewrite Hc. }
  destruct (magic =? MAGIC_PCAPNG_SHB).
  - run_steps. cbn [with_obj w_obj set_format m_mapping]. rewrite Hb.
    destruct (bom =? PCAPNG_BOM); [done|]. by destruct (bom =? PCAPNG_BOM_SWAP).
  - destruct (magic =? MAGIC_MICRO_LE); [rewrite bind_assign; apply Hfin|].
    destruct (magic =? MAGIC_NANO_LE); [rewrite bind_assign; apply Hfin|].
    destruct (magic =? MAGIC_NANO_BE); [rewrite bind_assign; apply Hfin|].
    destruct (magic =? MAGIC_MICRO_BE); rewrite bind_assign; apply Hfin.
Qed.

Lemma word_in bytes addr i :
  bytes_ok (Mapping addr bytes) -> 0 <= i -> i + 4 <= Z.of_nat (length bytes) ->
  exists v, load32 (Mapping addr bytes) (addr + i) = Some v.
Proof.
  intros Hb Hi Hl. destruct (load32_in (Mapping addr bytes) Hb (addr + i)) as (v & E & _); [|by exists v].
  split; cbn; lia.
Qed.

(** Opening, as the replays of whole files use it. *)
Lemma open_reads path w f addr bytes y' :
  owner_thread w -> opens path (w_sys w) f addr bytes y' ->
  Forall is_u8 bytes -> sizeof_pcap_file_header <= Z.of_nat (length bytes) ->
  exists magic bom network,
    load32 (Mapping addr bytes) addr = Some magic /\
    load32 (Mapping addr bytes) (addr + 8) = Some bom /\
    load32 (Mapping addr bytes) (addr + 20) = Some network /\
    let w1 := World (w_loop w) (mapped_at f addr bytes (w_obj w)) y' in
    open ndebug path w =
      match format_of magic bom (w_obj w) with
      | Some (true, sw, nano) => Ret ResultVoid.success (with_obj (set_format true sw nano) w1)
      | Some (false, sw, nano) =>
          Ret ResultVoid.success (with_obj (classic sw nano (swap32 sw network)) w1)
      | None => Ret (ResultVoid.fail (ErrorCode EINVAL system_category))
                  (with_obj (fun p => set_format true (m_swapped p) (m_isNanosecond p) p) w1)
      end.
Proof.
  intros Ho Hop Hb Hlen. unfold sizeof_pcap_file_header in *.
  destruct (word_in bytes addr 0 Hb) as [magic Em]; [lia..|]. rewrite Z.add_0_r in Em.
  destruct (word_in bytes addr 8 Hb) as [bom Eb]; [lia..|].
  destruct (word_in bytes addr 20 Hb) as [network En]; [lia..|].
  exists magic, bom, network. split_and!; try done. cbn zeta. rewrite (open_run _ _ _ _ _ _ Ho Hop).
  destruct (Z.ltb_spec (Z.of_nat (length bytes)) sizeof_pcap_file_header) as [Hlt|_];
    [unfold sizeof_pcap_file_header in Hlt; lia|].
  exact (detect_format_run (World (w_loop w) (mapped_at f addr bytes (w_obj w)) y')
    magic bom network eq_refl Em Eb En).
Qed.

(** C33 [open] on a file of at least 24 bytes: the file is mapped whole, and
    its first word (with the byte-order mark of a pcapng file) decides the
    format, the byte order, the resolution, the link type and where the
    cursor starts.  Every other word than the five known ones is accepted
    as a classic file. *)
Theorem open_spec path w f addr bytes y' :
  owner_thread w -> opens path (w_sys w) f addr bytes y' ->
  Forall is_u8 bytes -> sizeof_pcap_file_header <= Z.of_nat (length bytes) ->
  exists magic bom network,
    load32 (Mapping addr bytes) addr = Some magic /\
    load32 (Mapping addr bytes) (addr + 8) = Some bom /\
    load32 (Mapping addr bytes) (addr + 20) = Some network /\
    let w1 := World (w_loop w) (mapped_at f addr bytes (w_obj w)) y' in
    open ndebug path w =
      match format_of magic bom (w_obj w) with
      | Some (true, sw, nano) => Ret ResultVoid.success (with_obj (set_format true sw nano) w1)
      | Some (false, sw, nano) =>
          Ret ResultVoid.success (with_obj (classic sw nano (swap32 sw network)) w1)
      | None => Ret (ResultVoid.fail (ErrorCode EINVAL system_category))
                  (with_obj (fun p => set_format true (m_swapped p) (m_isNanosecond p) p) w1)
      end.
Proof. exact (open_reads path w f addr bytes y'). Qed.

(** C34 The error paths of [open]: a failure to open, to get the size of or to
    map the file is reported with the code the system gave, and leaves no
    descriptor open; a file too short for a header is refused, but stays
    mapped. *)
Theorem open_fails path w :
  owner_thread w ->
  let '(f, y1) := open_rdonly path (w_sys w) in
  let '(st, y2) := fstat_size f y1 in
  (f < 0 -> open ndebug path w =
     Ret (ResultVoid.fail (ErrorCode (errno y1) system_category))
         (World (w_loop w) (set_fd f (w_obj w)) y1)) /\
  (0 <= f -> st = None -> open ndebug path w =
     let y3 := snd (close f y2) in
     Ret (ResultVoid.fail (ErrorCode (errno y3) system_category))
         (World (w_loop w) (set_fd (-1) (w_obj w)) y3)) /\
  (forall size, 0 <= f -> st = Some size -> fst (mmap_file size f y2) = None -> open ndebug path w =
     let y4 := snd (close f (snd (mmap_file size f y2))) in
     Ret (ResultVoid.fail (ErrorCode (errno y4) system_category))
         (World (w_loop w) (set_fd (-1) (set_fileSize size (w_obj w))) y4)) /\
  (forall size addr bytes, 0 <= f -> st = Some size -> size < sizeof_pcap_file_header ->
     fst (mmap_file size f y2) = Some (addr, bytes) -> open ndebug path w =
     Ret (ResultVoid.fail (ErrorCode EINVAL system_category))
         (World (w_loop w)
           (set_mapping (Mapping addr bytes) (set_fileSize size (set_fd f (w_obj w))))
           (snd (madvise addr size (snd (mmap_file size f y2)))))).
Proof.
  intros Ho. destruct (open_rdonly path (w_sys w)) as [f y1] eqn:E1.
  destruct (fstat_size f y1) as [st y2] eqn:E2.
  unfold open. rewrite (bind_Ret _ _ _ _ _ (checkThread_passes w Ho)). run_steps. rewrite E1. cbn [fst snd].
  split; [|split; [|split]].
  - intros Hf. destruct (Z.ltb_spec f 0); [|lia]. done.
  - intros Hf ->. destruct (Z.ltb_spec f 0); [lia|]. run_steps. cbn [w_sys with_sys with_obj]. rewrite E2. done.
  - intros size Hf -> Hm. destruct (Z.ltb_spec f 0); [lia|]. run_steps. cbn [w_sys with_sys with_obj].
    rewrite E2. cbn [fst snd]. run_steps. cbn [w_sys with_sys with_obj]. rewrite Hm. done.
  - intros size addr bytes Hf -> Hs Hm. destruct (Z.ltb_spec f 0); [lia|]. run_steps.
    cbn [w_sys with_sys with_obj].
    rewrite E2. cbn [fst snd]. run_steps. cbn [w_sys with_sys with_obj]. rewrite Hm. run_steps.
    destruct (Z.ltb_spec size sizeof_pcap_file_header); [done|lia].
Qed.
End Open.

(** ** A whole file, from [open] to the last record *)

Lemma stored_self addr l : stored (Mapping addr l) addr l.
Proof.
  intros i Hi. unfold load8, at_. cbn [map_base map_bytes]. destruct (Z.ltb_spec (addr + i) addr); [lia|].
  replace (addr + i - addr) with i by lia.
  destruct (lookup_lt_is_Some_2 l (Z.to_nat i)) as [x E]; [lia|]. rewrite E. f_equal.
  symmetry. by apply nth_lookup_Some.
Qed.

Lemma enc32_u8 sw x : Forall is_u8 (enc32 sw x).
Proof. destruct sw; repeat constructor; apply byte_of_u8. Qed.

Lemma encode_records_u8 sw rs :
  Forall (fun r => Forall is_u8 (r_data r)) rs -> Forall is_u8 (encode_records sw rs).
Proof.
  induction 1 as [|r rs Hr Hrs IH]; [constructor|]. unfold encode_records in *. cbn [fmap list_fmap concat].
  apply Forall_app. split; [|done]. unfold encode_record. by rewrite !Forall_app; auto using enc32_u8.
Qed.

Section File.
Context {U Y : Type} {RK : ReactorKernel Y} {MK : MemoryKernel Y} {FK : FileKernel Y}.
Notation W := (world (task U) PcapReceiver Y).
Context (ndebug : bool) (emit : delivery -> Y -> Y).
Implicit Types (w : W) (p : PcapReceiver).

Lemma header_words addr (sw nano : bool) rest network l :
  length rest = 16%nat -> is_u32 network ->
  let m := Mapping addr (pcap_header sw nano rest network ++ l) in
  load32 m addr = Some (swap32 sw (if nano then MAGIC_NANO_BE else MAGIC_MICRO_BE)) /\
  load32 m (addr + 20) = Some (swap32 sw network) /\ stored m (addr + 24) l.
Proof.
  intros Hr Hn m. pose proof (stored_self addr (pcap_header sw nano rest network ++ l)) as H. fold m in H.
  unfold pcap_header in H. rewrite <- !app_assoc in H.
  apply stored_word in H as [H0 H]; [|by destruct nano]. split; [done|].
  apply stored_app_r in H. rewrite Hr in H. rewrite <- Z.add_assoc in H.
  apply stored_word in H as [H1 H]; [|done]. split; [done|]. by rewrite <- Z.add_assoc in H.
Qed.

Lemma format_of_encoded (sw nano : bool) bom p :
  sw && nano = false ->
  format_of (swap32 sw (if nano then MAGIC_NANO_BE else MAGIC_MICRO_BE)) bom p = Some (false, sw, nano).
Proof. destruct sw, nano; done || reflexivity. Qed.

(** The constant the code has for a byte-swapped nanosecond file is not the
    swap of the nanosecond magic number. *)
Lemma nano_le_wrong bom p :
  swap32 true MAGIC_NANO_BE <> MAGIC_NANO_LE /\
  format_of (swap32 true MAGIC_NANO_BE) bom p = Some (false, m_swapped p, m_isNanosecond p).
Proof. split; [by vm_compute|reflexivity]. Qed.

(** A file in the classic format; a byte-swapped nanosecond file is not
    recognised, see [swapped_nano_misread]. *)
Record file_given (sw nano : bool) (rest : list Z) (network : Z) (rs : list pcap_record) (tail : list Z) : Prop := {
  fg_magic : sw && nano = false;
  fg_rest : length rest = 16%nat /\ Forall is_u8 rest;
  fg_network : is_u32 network;
  fg_records : Forall record_ok rs /\ Forall (fun r => Forall is_u8 (r_data r)) rs;
  fg_tail : Forall is_u8 tail /\ (length tail < 16)%nat
}.

(** Opening such a file: it is recognised, its link type read, and its records
    are ahead of the cursor. *)
Lemma open_classic path w f addr (sw nano : bool) rest network rs tail y' :
  let file := encode_file sw nano rest network rs tail in
  owner_thread ndebug w -> opens path (w_sys w) f addr file y' -> file_given sw nano rest network rs tail ->
  let p1 := classic sw nano network (mapped_at f addr file (w_obj w)) in
  open ndebug path w = Ret ResultVoid.success (World (w_loop w) p1 y') /\ file_ok p1 /\
  stored (m_mapping p1) (addr + sizeof_pcap_file_header) (encode_records sw rs ++ tail) /\
  file_end p1 = addr + sizeof_pcap_file_header + records_size rs + Z.of_nat (length tail).
Proof.
  intros file Ho Hop [Hsn [Hrest Hrest8] Hnet [Hrs Hdata] [Htail Htl]] p1.
  assert (Hb : Forall is_u8 file).
  { unfold file, encode_file, pcap_header. rewrite !Forall_app.
    auto 10 using enc32_u8, encode_records_u8. }
  assert (Hlen : Z.of_nat (length file) = 24 + records_size rs + Z.of_nat (length tail)).
  { unfold file, encode_file, pcap_header. rewrite !length_app, !enc32_length, Hrest.
    rewrite <- (encode_records_length sw). lia. }
  assert (Hge : 0 <= records_size rs) by (rewrite <- (encode_records_length sw); lia).
  destruct (open_reads ndebug path w f addr file y' Ho Hop Hb) as (magic & bom & net & Em & _ & En & E);
    [unfold sizeof_pcap_file_header; lia|].
  destruct (header_words addr sw nano rest network (encode_records sw rs ++ tail) Hrest Hnet)
    as (Hm' & Hn' & Hst).
  change (pcap_header sw nano rest network ++ encode_records sw rs ++ tail) with file in *.
  rewrite Hm' in Em. rewrite Hn' in En. injection Em as <-. injection En as <-.
  rewrite format_of_encoded, swap32_involutive in E by done.
  split_and!; [exact E|by split|exact Hst|].
  unfold file_end, p1. cbn. unfold m_mappedData. cbn. unfold sizeof_pcap_file_header. lia.
Qed.

(** C9 The round trip of a capture file in the classic format: opening it
    succeeds, and stepping through it hands the packets to the subscribed
    handlers in the order of the file, each with the time stamp of its
    record, until the replay is finished; for both byte orders and both
    resolutions (but not for a byte-swapped nanosecond file, see
    [swapped_nano_misread]), any link type, any records, and any number of
    steps that is enough. *)
Theorem pcap_file_replayed path w f addr (sw nano : bool) rest network rs tail y' n :
  let file := encode_file sw nano rest network rs tail in
  owner_thread ndebug w -> opens path (w_sys w) f addr file y' ->
  file_given sw nano rest network rs tail ->
  mode (m_pcapConfig (w_obj w)) <> TIMED -> hot_ok (w_obj w) -> (length rs < n)%nat ->
  let p1 := classic sw nano network (mapped_at f addr file (w_obj w)) in
  exists p', (r ← open ndebug path; more ← steps (recorder emit) n; mret (r, more)) w =
      Ret (ResultVoid.success, false)
        (World (w_loop w) p' (emit_all emit (deliveries p1 (addr + 24) rs) y')) /\
    m_finished p' = true.
Proof.
  intros file Ho Hop Hfile Hmode Hok Hn p1.
  destruct (open_classic path w f addr sw nano rest network rs tail y' Ho Hop Hfile) as (E & Hfo & Hst & Hend).
  destruct Hfile as [_ _ _ [Hrs _] [_ Htl]]. rewrite (bind_Ret _ _ _ _ _ E).
  destruct (records_replayed emit (World (w_loop w) p1 y') rs tail n) as (p' & E' & Hfin);
    cbn [w_obj w_loop w_sys] in *; try done.
  exists (set_finished true p'). split; [|done]. by rewrite (bind_Ret _ _ _ _ _ E').
Qed.

(** A byte-swapped nanosecond file is not recognised: the magic number
    the code compares with is not the swapped one, so the file is taken for
    one in the byte order and resolution the receiver had, and the link type
    (like every later field) is read with its bytes in the wrong order. *)
Theorem swapped_nano_misread path w f addr rest network rs tail y' :
  let file := encode_file true true rest network rs tail in
  owner_thread ndebug w -> opens path (w_sys w) f addr file y' ->
  length rest = 16%nat -> Forall is_u8 rest -> is_u32 network ->
  Forall (fun r => Forall is_u8 (r_data r)) rs -> Forall is_u8 tail ->
  m_swapped (w_obj w) = false -> m_isNanosecond (w_obj w) = false ->
  exists p', open ndebug path w = Ret ResultVoid.success (World (w_loop w) p' y') /\
    m_swapped p' = false /\ m_isNanosecond p' = false /\ m_linkType p' = bswap32 network.
Proof.
  intros file Ho Hop Hrest Hrest8 Hnet Hdata Htail Hsw Hnano.
  assert (Hb : Forall is_u8 file).
  { unfold file, encode_file, pcap_header. rewrite !Forall_app.
    auto 10 using enc32_u8, encode_records_u8. }
  destruct (open_reads ndebug path w f addr file y' Ho Hop Hb) as (magic & bom & net & Em & _ & En & E).
  { unfold sizeof_pcap_file_header, file, encode_file, pcap_header.
    rewrite !length_app, !enc32_length, Hrest. lia. }
  destruct (header_words addr true true rest network (encode_records true rs ++ tail) Hrest Hnet)
    as (Hm' & Hn' & _).
  change (pcap_header true true rest network ++ encode_records true rs ++ tail) with file in *.
  rewrite Hm' in Em. rewrite Hn' in En. injection Em as <-. injection En as <-.
  pose proof (proj2 (nano_le_wrong bom (w_obj w))) as Hfmt. rewrite Hsw, Hnano in Hfmt.
  cbn [swap32] in Hfmt. rewrite Hfmt in E.
  rewrite E. eexists. split; [reflexivity|]. done.
Qed.
End File.
