(* ===== verification/PcapNg.v ===== *)
(** The pcapng reader: the resolution of the time stamps and their
    conversion, the search for the next packet block, the packet block. *)
From S2P Require Import Prelude Outcome Result Kernel SimKernel ScopedFd TimerQueue EventLoop PcapFormat.
From S2P Require Import Float64 PacketReceiver PcapReceiver PcapDispatch PcapFrames PcapReplay.

(** ** The resolution of an interface *)

Lemma times10_pow n d : 0 <= d -> d * 10 ^ Z.of_nat n < 2 ^ 64 -> times10 n d = d * 10 ^ Z.of_nat n.
Proof.
  revert d. induction n as [|n IH]; intros d Hd Hlt; [cbn; lia|].
  rewrite Nat2Z.inj_succ, Z.pow_succ_r in * by lia.
  assert (Hp : 1 <= 10 ^ Z.of_nat n) by (pose proof (Z.pow_pos_nonneg 10 (Z.of_nat n)); lia).
  assert (Hd10 : d * 10 < 2 ^ 64) by nia.
  cbn [times10]. unfold u64. rewrite (Z.mod_small (d * 10)) by lia. rewrite IH; nia.
Qed.

Lemma tsresol_all :
  forallb (fun res => (res <? 64) || (times10 (Z.to_nat res) 1 =? 0)) (seqZ 0 128) = true.
Proof. by vm_compute. Qed.

Lemma res_low res : is_u8 res ->
  (Z.land res 128 =? 0) = (res <? 128) /\ Z.land res 127 = res mod 128.
Proof.
  intros H.
  assert (Hall : Forall (fun res => (Z.land res 128 =? 0) = (res <? 128) /\ Z.land res 127 = res mod 128)
                   (seqZ 0 256)) by (vm_compute; repeat constructor).
  rewrite Forall_forall in Hall. apply Hall, elem_of_seqZ. unfold is_u8 in H. lia.
Qed.

(** A power of two below 2^64 is a shift. *)
Lemma tsresol_power2 {S} res (s : S) :
  is_u8 res -> 128 <= res < 192 -> tsresol_divisor res s = Ret (2 ^ (res - 128)) s.
Proof.
  intros H Hr. destruct (res_low res H) as [E1 E2]. unfold tsresol_divisor. rewrite E1, E2.
  unfold is_u8 in H. destruct (Z.ltb_spec res 128); [lia|].
  replace (res mod 128) with (res - 128) by zlia. destruct (Z.ltb_spec (res - 128) 64); [|lia].
  rewrite Z.shiftl_1_l. unfold u64. rewrite Z.mod_small; [done|].
  split; [apply Z.pow_nonneg; lia|]. apply Z.pow_lt_mono_r; lia.
Qed.

(** The resolution byte of an interface: below 128 a power of ten, exact up
    to 10^19 and zero from 10^64 on (the product wraps); from 128 on a power
    of two, exact up to 2^63 and without a meaning above. *)
Theorem tsresol_divisor_spec {S} res (s : S) :
  is_u8 res ->
  (res <= 19 -> tsresol_divisor res s = Ret (10 ^ res) s) /\
  (64 <= res < 128 -> tsresol_divisor res s = Ret 0 s) /\
  (128 <= res < 192 -> tsresol_divisor res s = Ret (2 ^ (res - 128)) s) /\
  (192 <= res -> tsresol_divisor res s = Crash BadShift).
Proof.
  intros H. split_and!; intros Hr; [| |by apply tsresol_power2|];
    destruct (res_low res H) as [E1 E2]; unfold tsresol_divisor; rewrite E1, E2;
    unfold is_u8 in H; destruct (Z.ltb_spec res 128); try lia.
  - assert (H10 : 10 ^ res <= 10 ^ 19) by (apply Z.pow_le_mono_r; lia).
    rewrite times10_pow; [|lia|rewrite Z2Nat.id by lia; lia].
    rewrite Z2Nat.id by lia. by rewrite Z.mul_1_l.
  - pose proof tsresol_all as Hall. rewrite forallb_forall in Hall.
    specialize (Hall res). rewrite <- list_elem_of_In, elem_of_seqZ in Hall.
    destruct (Z.ltb_spec res 64); [lia|]. cbn [orb] in Hall.
    rewrite (proj1 (Z.eqb_eq _ _) (Hall ltac:(lia))). done.
  - replace (res mod 128) with (res - 128) by zlia. by destruct (Z.ltb_spec (res - 128) 64); [lia|].
Qed.

(** ** The conversion of a time stamp *)

Lemma ts_raw_spec high low : is_u32 high -> is_u32 low -> ts_raw high low = high * 2 ^ 32 + low.
Proof.
  unfold is_u32. intros Hh Hl. unfold ts_raw, u64.
  assert (E : Z.shiftl high 32 mod 2 ^ 64 = Z.shiftl high 32).
  { rewrite Z.shiftl_mul_pow2 by lia. apply Z.mod_small. lia. }
  rewrite E, Z.lor_comm, lor_shiftl_add by lia. lia.
Qed.

(** The largest divisor for which the product with 10^9 cannot wrap. *)
Definition max_divisor : Z := 18446744073.

(** C32 A pcapng time stamp of a resolution [d] that is neither zero nor so
    fine that the 64-bit product wraps is converted exactly: whole seconds
    and the nanoseconds of the fraction, rounded down, below one second. *)
Theorem pcapng_timespec_exact {S} tsRaw d (s : S) :
  is_u64 tsRaw -> 2 <= d <= max_divisor ->
  exists ts, pcapng_timespec tsRaw d s = Ret ts s /\
    tv_sec ts = tsRaw / d /\ 0 <= tv_nsec ts < 1000000000 /\
    ns_of ts = tsRaw * 1000000000 / d.
Proof.
  unfold is_u64, max_divisor. intros Hr Hd. unfold pcapng_timespec.
  destruct (Z.eqb_spec d 0); [lia|]. eexists. split; [reflexivity|]. cbn [tv_sec tv_nsec ns_of].
  pose proof (Z.mod_pos_bound tsRaw d ltac:(lia)) as Hm. pose proof (Z.div_mod tsRaw d ltac:(lia)) as Hdm.
  set (q := tsRaw / d) in *. set (r := tsRaw mod d) in *.
  assert (Hq : 0 <= q < 2 ^ 63).
  { split; [apply Z.div_pos; lia|]. apply Z.div_lt_upper_bound; lia. }
  unfold u64. rewrite (Z.mod_small (r * 1000000000)) by lia.
  set (ns := r * 1000000000 / d).
  assert (Hn : 0 <= ns < 1000000000).
  { split; [apply Z.div_pos; lia|]. apply Z.div_lt_upper_bound; lia. }
  unfold to_s64. rewrite !u64_small by (unfold is_u64; lia).
  destruct (Z.ltb_spec q (2 ^ 63)), (Z.ltb_spec ns (2 ^ 63)); try lia.
  split_and!; try lia. unfold ns_of. cbn [tv_sec tv_nsec].
  replace (tsRaw * 1000000000) with (r * 1000000000 + q * 1000000000 * d) by lia.
  rewrite Z.div_add by lia. unfold ns. lia.
Qed.

(** Picosecond time stamps (resolution 12, which the format allows) wrap
    in the 64-bit product: half a second comes out as 1.9 ms. *)
Theorem picosecond_wraps {S} (s : S) :
  tsresol_divisor 12 s = Ret (10 ^ 12) s /\
  pcapng_timespec (10 ^ 12 / 2) (10 ^ 12) s = Ret (TimeSpec 0 1937910) s.
Proof. split; reflexivity. Qed.

(** ** The blocks *)

Section Blocks.
Context {U Y : Type} {RK : ReactorKernel Y}.
Notation W := (world (task U) PcapReceiver Y).
Notation Mw := (M W).
Implicit Types (w : W) (p : PcapReceiver).

Lemma field16_run {B} a (k : Z -> Mw B) w :
  bytes_ok (m_mapping (w_obj w)) ->
  (exists v, is_u16 v /\ (field16 a ≫= k) w = k v w) \/ (field16 a ≫= k) w = Crash OutOfBounds.
Proof.
  intros Hb. rewrite bind_field16. destruct (load16 (m_mapping (w_obj w)) a) as [v|] eqn:E; [left|by right].
  exists (swap16 (m_swapped (w_obj w)) v). split; [|done].
  destruct (m_swapped (w_obj w)); cbn; [apply bswap16_u16|by eapply load16_u16].
Qed.

Lemma field32_run {B} a (k : Z -> Mw B) w :
  bytes_ok (m_mapping (w_obj w)) ->
  (exists v, is_u32 v /\ (field32 a ≫= k) w = k v w) \/ (field32 a ≫= k) w = Crash OutOfBounds.
Proof.
  intros Hb. rewrite bind_field32. destruct (load32 (m_mapping (w_obj w)) a) as [v|] eqn:E; [left|by right].
  exists (swap32 (m_swapped (w_obj w)) v). split; [|done].
  apply swap32_u32. by eapply load32_u32.
Qed.

(** The two ways the reading of a malformed file has no meaning. *)
Definition bad_file (f : fault) : Prop := f = OutOfBounds \/ f = BadShift.

Lemma tsresol_run res w :
  (exists d, tsresol_divisor res w = Ret d w) \/ tsresol_divisor res w = Crash BadShift.
Proof.
  unfold tsresol_divisor. destruct (Z.land res 128 =? 0); [left; by eexists|].
  destruct (_ <? 64); [left; by eexists|by right].
Qed.

(** The options end: each takes at least four bytes. *)
Lemma parse_options_ends fuel optPtr blockEnd d w :
  bytes_ok (m_mapping (w_obj w)) -> blockEnd - optPtr < Z.of_nat fuel ->
  (exists d', parse_options fuel optPtr blockEnd d w = Ret d' w) \/
  (exists f, parse_options fuel optPtr blockEnd d w = Crash f /\ bad_file f) \/ fuel = O.
Proof.
  intros Hb. revert optPtr d. induction fuel as [|fuel IH]; intros optPtr d Hf; [auto|].
  cbn [parse_options]. destruct (Z.ltb_spec blockEnd (optPtr + 4)); [left; by eexists|].
  match goal with |- context [(field16 optPtr ≫= ?k) w] =>
    destruct (field16_run optPtr k w Hb) as [(code & _ & E)|E]; rewrite E; clear E end;
    [|right; left; eexists; split; [done|by left]].
  match goal with |- context [(field16 (optPtr + 2) ≫= ?k) w] =>
    destruct (field16_run (optPtr + 2) k w Hb) as [(vlen & Hv & E)|E]; rewrite E; clear E end;
    [|right; left; eexists; split; [done|by left]].
  destruct (code =? 0); [left; by eexists|].
  assert (Hpad : 0 <= Z.land (vlen + 3) (Z.lnot 3)) by (apply Z.land_nonneg; unfold is_u16 in Hv; lia).
  assert (Hnext : forall d', (exists d'', parse_options fuel (optPtr + 4 + Z.land (vlen + 3) (Z.lnot 3)) blockEnd d' w = Ret d'' w) \/
    (exists f, parse_options fuel (optPtr + 4 + Z.land (vlen + 3) (Z.lnot 3)) blockEnd d' w = Crash f /\ bad_file f) \/ S fuel = O).
  { intros d'. destruct (IH (optPtr + 4 + Z.land (vlen + 3) (Z.lnot 3)) d') as [H'|[H'| ->]]; auto; lia. }
  destruct ((code =? 9) && (vlen =? 1)); [|rewrite bind_mret; apply Hnext].
  rewrite bind_assoc, bind_ld8. destruct (load8 _ _) as [res|]; [|right; left; eexists; split; [done|by left]].
  destruct (tsresol_run res w) as [[d' E]|E]; rewrite bind_run, E; [apply Hnext|].
  right; left; eexists; split; [done|by right].
Qed.

(** A world that differs in the table of interfaces and the cursor only. *)
Definition skipped w w' : Prop :=
  exists c i n, w' = with_obj (fun p => set_cursor c (set_interfaces i n p)) w.

Lemma read_interface_ends len w :
  bytes_ok (m_mapping (w_obj w)) -> 0 <= len ->
  (exists i n, read_interface len w = Ret tt (with_obj (set_interfaces i n) w)) \/
  (exists f, read_interface len w = Crash f /\ bad_file f).
Proof.
  intros Hb Hlen. unfold read_interface. rewrite bind_this.
  match goal with |- context [(field16 ?a ≫= ?k) w] =>
    destruct (field16_run a k w Hb) as [(lt & _ & E)|E]; rewrite E; clear E end;
    [|right; eexists; split; [done|by left]].
  set (opt := _ + sizeof_PcapNgIDBBody).
  destruct (parse_options_ends (S (Z.to_nat len)) opt (m_currentPtr (w_obj w) + len - 4) 1000000 w Hb)
    as [[d E]|[(f & E & Hf)|E]]; [|rewrite bind_run, E; left; by eexists _, _| |done].
  - unfold opt, sizeof_PcapNgBlockHeader, sizeof_PcapNgIDBBody. lia.
  - right. exists f. rewrite bind_run, E. done.
Qed.

Lemma next_packet_block_ends fuel w :
  bytes_ok (m_mapping (w_obj w)) -> file_end (w_obj w) - m_currentPtr (w_obj w) < Z.of_nat fuel ->
  (exists w', next_packet_block fuel w = Ret None w' /\ m_finished (w_obj w') = true) \/
  (exists len w', next_packet_block fuel w = Ret (Some len) w' /\ skipped w w' /\
     m_currentPtr (w_obj w) <= m_currentPtr (w_obj w') /\
     sizeof_PcapNgBlockHeader <= len /\ m_currentPtr (w_obj w') + len <= file_end (w_obj w')) \/
  (exists f, next_packet_block fuel w = Crash f /\ bad_file f) \/ fuel = O.
Proof.
  unfold sizeof_PcapNgBlockHeader. revert w. induction fuel as [|fuel IH]; intros w Hb Hf; [auto|].
  cbn [next_packet_block]. rewrite bind_this. unfold sizeof_PcapNgBlockHeader.
  destruct (Z.ltb_spec (file_end (w_obj w)) (m_currentPtr (w_obj w) + 8));
    [left; eexists; split; [reflexivity|done]|].
  match goal with |- context [(field32 ?a ≫= ?k) w] =>
    destruct (field32_run a k w Hb) as [(type & _ & E)|E]; rewrite E; clear E end;
    [|right; right; left; eexists; split; [done|by left]].
  match goal with |- context [(field32 ?a ≫= ?k) w] =>
    destruct (field32_run a k w Hb) as [(len & _ & E)|E]; rewrite E; clear E end;
    [|right; right; left; eexists; split; [done|by left]].
  destruct (Z.ltb_spec len 8); [left; eexists; split; [reflexivity|done]|]. cbn [orb].
  destruct (Z.ltb_spec (file_end (w_obj w)) (m_currentPtr (w_obj w) + len));
    [left; eexists; split; [reflexivity|done]|].
  destruct (type =? PCAPNG_EPB).
  { right; left. exists len, w. split; [done|]. split; [|lia].
    exists (m_currentPtr (w_obj w)), (m_interfaces (w_obj w)), (m_interfaceCount (w_obj w)).
    by destruct w as [? [] ?]. }
  assert (Hnext : forall i n, let w1 := with_obj (fun p => set_cursor (m_currentPtr p + len) p) (with_obj (set_interfaces i n) w) in
    (exists w', next_packet_block fuel w1 = Ret None w' /\ m_finished (w_obj w') = true) \/
    (exists len w', next_packet_block fuel w1 = Ret (Some len) w' /\ skipped w w' /\
       m_currentPtr (w_obj w) <= m_currentPtr (w_obj w') /\
       8 <= len /\ m_currentPtr (w_obj w') + len <= file_end (w_obj w')) \/
    (exists f, next_packet_block fuel w1 = Crash f /\ bad_file f) \/ S fuel = O).
  { intros i n w1. destruct (IH w1) as [H'|[(l & w' & E & (c & i' & n' & Hw') & Hc & Hl & He)|[H'|H']]]; auto.
    - unfold w1, file_end, m_mappedData in *. cbn in *. lia.
    - right; left. exists l, w'. split; [done|]. split; [|unfold w1 in Hc; cbn in Hc; lia].
      exists c, i', n'. rewrite Hw'. by destruct w as [? [] ?].
    - exfalso. subst. unfold w1, file_end, m_mappedData in *. cbn in *. lia. }
  destruct (type =? PCAPNG_IDB).
  - destruct (read_interface_ends len w Hb) as [(i & n & E)|(f & E & Hf')]; [lia| |].
    + rewrite bind_run, E, bind_assign. apply Hnext.
    + right; right; left. exists f. by rewrite bind_run, E.
  - rewrite bind_mret, bind_assign.
    specialize (Hnext (m_interfaces (w_obj w)) (m_interfaceCount (w_obj w))).
    replace (with_obj (set_interfaces (m_interfaces (w_obj w)) (m_interfaceCount (w_obj w))) w) with w in Hnext
      by (by destruct w as [? [] ?]). apply Hnext.
Qed.

(** C31 The search of [stepPcapNg] for the next packet block ends, on every
    file and from every cursor inside it: either at a packet block that lies
    in the file, the interface blocks on the way being recorded, or with the
    replay finished; the only other outcomes are a read outside the file and
    a shift that has no meaning, in the options of an interface block. *)
Theorem pcapng_search_ends w :
  file_ok (w_obj w) -> m_mappedData (w_obj w) <= m_currentPtr (w_obj w) ->
  let search := next_packet_block (S (Z.to_nat (m_fileSize (w_obj w)))) w in
  (exists w', search = Ret None w' /\ m_finished (w_obj w') = true) \/
  (exists len w', search = Ret (Some len) w' /\ skipped w w' /\
     m_currentPtr (w_obj w) <= m_currentPtr (w_obj w') /\
     sizeof_PcapNgBlockHeader <= len /\ m_currentPtr (w_obj w') + len <= file_end (w_obj w')) \/
  (exists f, search = Crash f /\ bad_file f).
Proof.
  intros [Hb Hs] Hc search.
  destruct (next_packet_block_ends (S (Z.to_nat (m_fileSize (w_obj w)))) w Hb) as [H|[H|[H|H]]]; auto; [|done].
  unfold file_end. lia.
Qed.

(** C40 A packet block that names an interface the file has not described
    divides by zero: the entry the lookup inserts has the resolution zero. *)
Theorem unknown_interface_divides_by_zero call_handler w w1 len ifId :
  bytes_ok (m_mapping (w_obj w1)) ->
  next_packet_block (S (Z.to_nat (m_fileSize (w_obj w)))) w = Ret (Some len) w1 ->
  let epb := m_currentPtr (w_obj w1) + sizeof_PcapNgBlockHeader in
  in_file (m_mapping (w_obj w1)) epb sizeof_PcapNgEPBBody ->
  load32 (m_mapping (w_obj w1)) epb = Some ifId ->
  m_interfaces (w_obj w1) !! swap32 (m_swapped (w_obj w1)) ifId = None ->
  stepPcapNg call_handler w = Crash DivisionByZero.
Proof.
  intros Hb Hnext epb Hin Hif Hnone. unfold stepPcapNg. rewrite bind_this.
  rewrite (bind_Ret _ _ _ _ _ Hnext). unfold read_packet_block. rewrite bind_this. fold epb. rewrite bind_field32, Hif.
  unfold interface_at. rewrite bind_assoc, bind_this, Hnone. rewrite bind_assoc, bind_assign, bind_mret.
  set (w2 := with_obj _ w1). unfold sizeof_PcapNgEPBBody in Hin.
  destruct (load32_in (m_mapping (w_obj w1)) Hb (epb + 4)) as (h & Eh & _); [destruct Hin; split; lia|].
  destruct (load32_in (m_mapping (w_obj w1)) Hb (epb + 8)) as (l & El & _); [destruct Hin; split; lia|].
  rewrite bind_field32. change (m_mapping (w_obj w2)) with (m_mapping (w_obj w1)). rewrite Eh.
  rewrite bind_field32. change (m_mapping (w_obj w2)) with (m_mapping (w_obj w1)). by rewrite El.
Qed.
End Blocks.
