(* ===== verification/PcapNgReplay.v ===== *)
(** Reading a capture file in the pcapng format: an encoder of its blocks, and
    the round trip through [stepPcapNg] to the handlers. *)
From S2P Require Import Prelude Outcome Result Kernel SimKernel ScopedFd TimerQueue EventLoop Recorder.
From S2P Require Import PcapFormat Float64 PacketReceiver PcapReceiver PcapDispatch PcapFrames.
From S2P Require Import PcapReplay PcapOpen PcapNg.

(** ** The encoder *)

Definition enc16 (swapped : bool) (x : Z) : list Z :=
  if swapped then [byte_of 1 x; byte_of 0 x] else [byte_of 0 x; byte_of 1 x].

(** The number of bytes up to the next multiple of four. *)
Definition round4 (n : Z) : Z := 4 * ((n + 3) / 4).

Record ng_option := NgOption { o_code : Z; o_value : list Z }.

Definition o_len (o : ng_option) : Z := Z.of_nat (length (o_value o)).

Definition encode_option (sw : bool) (o : ng_option) : list Z :=
  enc16 sw (o_code o) ++ enc16 sw (o_len o) ++ o_value o ++ replicate (Z.to_nat (round4 (o_len o) - o_len o)) 0.

(** A list of options, with or without the end-of-options mark. *)
Definition encode_options (sw : bool) (os : list ng_option) (mark : bool) : list Z :=
  concat (encode_option sw <$> os) ++ (if mark then enc16 sw 0 ++ enc16 sw 0 else []).

(** The resolution the options give an interface. *)
Definition resolution (res : Z) : Z := if res <? 128 then times10 (Z.to_nat res) 1 else 2 ^ (res - 128).
Definition is_tsresol (o : ng_option) : bool := (o_code o =? 9) && (o_len o =? 1).
Definition option_divisor (d : Z) (o : ng_option) : Z :=
  if is_tsresol o then resolution (hd 0 (o_value o)) else d.
Definition divisor_of (os : list ng_option) : Z := foldl option_divisor 1000000 os.

Record option_ok (o : ng_option) : Prop := {
  oo_code : is_u16 (o_code o) /\ o_code o <> 0;
  oo_len : is_u16 (o_len o);
  oo_value : Forall is_u8 (o_value o);
  oo_res : is_tsresol o = true -> hd 0 (o_value o) < 192
}.

(** ** Options *)

Lemma enc16_length sw x : length (enc16 sw x) = 2%nat.
Proof. by destruct sw. Qed.

Lemma stored_half m a sw x l :
  is_u16 x -> stored m a (enc16 sw x ++ l) ->
  load16 m a = Some (swap16 sw x) /\ stored m (a + 2) l.
Proof.
  intros Hx H. split; [|apply stored_app_r in H; by rewrite enc16_length in H].
  assert (Hb : forall i, 0 <= i < 2 -> load8 m (a + i) = Some (at_ (enc16 sw x) i)).
  { intros i Hi. rewrite H; [|rewrite length_app, enc16_length; lia].
    f_equal. apply at_app_l. rewrite enc16_length. lia. }
  unfold load16. rewrite <- (Z.add_0_r a) at 1. rewrite !Hb by lia. cbn [mbind option_bind].
  f_equal. destruct sw; [done|]. by apply (le16_bytes x).
Qed.

Lemma swap16_involutive sw x : is_u16 x -> swap16 sw (swap16 sw x) = x.
Proof. destruct sw; [apply bswap16_involutive|done]. Qed.

Lemma round4_land n : 0 <= n -> Z.land (n + 3) (Z.lnot 3) = round4 n.
Proof. intros Hn. rewrite (land_lnot_ones _ 2) by lia. done. Qed.

Lemma round4_bounds n : 0 <= n -> n <= round4 n < n + 4.
Proof. unfold round4. zlia. Qed.

Lemma encode_option_length sw o : Z.of_nat (length (encode_option sw o)) = 4 + round4 (o_len o).
Proof.
  pose proof (round4_bounds (o_len o)). unfold encode_option, o_len in *.
  rewrite !length_app, !enc16_length, length_replicate. lia.
Qed.

Lemma tsresol_resolution {S} res (s : S) :
  is_u8 res -> res < 192 -> tsresol_divisor res s = Ret (resolution res) s.
Proof.
  intros H Hlt. unfold resolution. destruct (Z.ltb_spec res 128) as [Hl|Hg].
  - destruct (res_low res H) as [E1 _]. unfold tsresol_divisor. rewrite E1.
    destruct (Z.ltb_spec res 128); [done|lia].
  - apply tsresol_power2; [done|lia].
Qed.

Section Options.
Context {U Y : Type}.
Notation W := (world (task U) PcapReceiver Y).
Notation Mw := (M W).
Implicit Types w : W.

(** A field stored at [a] in the byte order of the file is read back. *)
Lemma field16_stored {B} a x l (k : Z -> Mw B) w :
  is_u16 x -> stored (m_mapping (w_obj w)) a (enc16 (m_swapped (w_obj w)) x ++ l) ->
  (field16 a ≫= k) w = k x w.
Proof.
  intros Hx [E _]%stored_half; [|done]. by rewrite bind_field16, E, swap16_involutive.
Qed.

Lemma field32_stored {B} a x l (k : Z -> Mw B) w :
  is_u32 x -> stored (m_mapping (w_obj w)) a (enc32 (m_swapped (w_obj w)) x ++ l) ->
  (field32 a ≫= k) w = k x w.
Proof.
  intros Hx [E _]%stored_word; [|done]. by rewrite bind_field32, E, swap32_involutive.
Qed.

Lemma option_value o d w a l :
  option_ok o -> stored (m_mapping (w_obj w)) a (o_value o ++ l) ->
  (if (o_code o =? 9) && (o_len o =? 1) then res ← ld8 a; tsresol_divisor res else mret d) w =
    Ret (option_divisor d o) w.
Proof.
  intros Ho Hst. unfold option_divisor. fold (is_tsresol o). destruct (is_tsresol o) eqn:E; [|done].
  pose proof (oo_res _ Ho E) as Hres. pose proof (oo_value _ Ho) as Hv. unfold is_tsresol, o_len in E. zprop.
  destruct (o_value o) as [|b v]; [done|]. rewrite bind_ld8. cbn [hd] in *.
  specialize (Hst 0 ltac:(cbn [app length]; lia)). rewrite Z.add_0_r in Hst. rewrite Hst.
  apply tsresol_resolution; [by inversion Hv|done].
Qed.

(** The options of an interface block are read back. *)
Lemma parse_options_encoded os mark fuel a d l w :
  Forall option_ok os ->
  let bytes := encode_options (m_swapped (w_obj w)) os mark in
  stored (m_mapping (w_obj w)) a (bytes ++ l) -> Z.of_nat (length bytes) < Z.of_nat fuel ->
  parse_options fuel a (a + Z.of_nat (length bytes)) d w = Ret (foldl option_divisor d os) w.
Proof.
  intros Hos. revert a d fuel. induction Hos as [|o os Ho Hos IH]; intros a d fuel bytes Hst Hf.
  - unfold bytes, encode_options in *. cbn [fmap list_fmap concat app foldl] in *.
    destruct fuel as [|fuel]; [lia|]. cbn [parse_options]. destruct mark.
    + rewrite length_app, !enc16_length. destruct (Z.ltb_spec (a + Z.of_nat (2 + 2)) (a + 4)); [lia|].
      rewrite <- app_assoc in Hst.
      rewrite (field16_stored a 0 _ _ w ltac:(unfold is_u16; lia) Hst).
      apply stored_half in Hst as [_ Hst]; [|unfold is_u16; lia].
      rewrite (field16_stored (a + 2) 0 _ _ w ltac:(unfold is_u16; lia) Hst). done.
    + destruct (Z.ltb_spec (a + Z.of_nat (length (@nil Z))) (a + 4)); [done|cbn in *; lia].
  - assert (Hb : bytes = encode_option (m_swapped (w_obj w)) o ++ encode_options (m_swapped (w_obj w)) os mark).
    { unfold bytes, encode_options. cbn [fmap list_fmap concat]. by rewrite app_assoc. }
    clearbody bytes. subst bytes. rewrite length_app, Nat2Z.inj_add, encode_option_length in *.
    pose proof (round4_bounds (o_len o) ltac:(unfold o_len; lia)) as Hr.
    assert (H0 : 0 <= o_len o) by (unfold o_len; lia).
    rewrite <- app_assoc in Hst. destruct fuel as [|fuel]; [lia|]. cbn [parse_options].
    pose proof (Nat2Z.is_nonneg (length (encode_options (m_swapped (w_obj w)) os mark))).
    destruct (Z.ltb_spec (a + (4 + round4 (o_len o) +
      Z.of_nat (length (encode_options (m_swapped (w_obj w)) os mark)))) (a + 4)); [lia|].
    pose proof Hst as Hst'. unfold encode_option in Hst'. rewrite <- !app_assoc in Hst'.
    destruct (oo_code _ Ho) as [Hc Hne]. pose proof (oo_len _ Ho) as Hl.
    rewrite (field16_stored a (o_code o) _ _ w Hc Hst'). apply stored_half in Hst' as [_ Hst']; [|done].
    rewrite (field16_stored (a + 2) (o_len o) _ _ w Hl Hst'). apply stored_half in Hst' as [_ Hst']; [|done].
    destruct (Z.eqb_spec (o_code o) 0); [done|]. rewrite <- Z.add_assoc in Hst'. change (2 + 2) with 4 in Hst'.
    rewrite (bind_Ret _ _ _ _ _ (option_value o d w (a + 4) _ Ho Hst')), round4_land by done.
    apply stored_app_r in Hst. rewrite encode_option_length, Z.add_assoc in Hst.
    cbn [foldl]. rewrite <- (IH (a + 4 + round4 (o_len o)) (option_divisor d o) fuel Hst); [|lia].
    f_equal. lia.
Qed.
End Options.

(** ** Blocks *)

Inductive ng_block :=
| NgInterface (link snap : Z) (os : list ng_option) (mark : bool)
| NgPacket (ifId high low origLen : Z) (data trailer : list Z)   (* trailer: padding, options *)
| NgOther (type : Z) (body : list Z).

Definition block_type (b : ng_block) : Z :=
  match b with NgInterface _ _ _ _ => PCAPNG_IDB | NgPacket _ _ _ _ _ _ => PCAPNG_EPB | NgOther t _ => t end.

Definition caplen_of (data : list Z) : Z := Z.of_nat (length data).

Definition block_body (sw : bool) (b : ng_block) : list Z :=
  match b with
  | NgInterface link snap os mark => enc16 sw link ++ enc16 sw 0 ++ enc32 sw snap ++ encode_options sw os mark
  | NgPacket ifId high low origLen data trailer =>
      enc32 sw ifId ++ enc32 sw high ++ enc32 sw low ++ enc32 sw (caplen_of data) ++ enc32 sw origLen ++
      data ++ trailer
  | NgOther _ body => body
  end.

Definition block_total (sw : bool) (b : ng_block) : Z := 12 + Z.of_nat (length (block_body sw b)).

Definition encode_block (sw : bool) (b : ng_block) : list Z :=
  enc32 sw (block_type b) ++ enc32 sw (block_total sw b) ++ block_body sw b ++ enc32 sw (block_total sw b).

Definition encode_blocks (sw : bool) (bs : list ng_block) : list Z := concat (encode_block sw <$> bs).

Record block_ok (sw : bool) (b : ng_block) : Prop := {
  bo_total : is_u32 (block_total sw b);
  bo_parts : match b with
    | NgInterface link snap os mark => is_u16 link /\ Forall option_ok os
    | NgPacket ifId high low origLen data trailer =>
        is_u32 ifId /\ is_u32 high /\ is_u32 low /\ is_u32 origLen /\ caplen_of data <= origLen
    | NgOther type body => is_u32 type /\ type <> PCAPNG_IDB /\ type <> PCAPNG_EPB
    end
}.

Lemma encode_block_length sw b : Z.of_nat (length (encode_block sw b)) = block_total sw b.
Proof. unfold encode_block, block_total. rewrite !length_app, !enc32_length. lia. Qed.

Section Blocks.
Context {U Y : Type} {RK : ReactorKernel Y}.
Notation W := (world (task U) PcapReceiver Y).
Notation Mw := (M W).
Implicit Types (w : W) (p : PcapReceiver).

(** A block at the cursor. *)
Definition at_block w (b : ng_block) (l : list Z) : Prop :=
  file_ok (w_obj w) /\ block_ok (m_swapped (w_obj w)) b /\
  stored (m_mapping (w_obj w)) (m_currentPtr (w_obj w)) (encode_block (m_swapped (w_obj w)) b ++ l).

Definition total_at w b : Z := block_total (m_swapped (w_obj w)) b.

Lemma at_block_end w b l : at_block w b l -> m_currentPtr (w_obj w) + total_at w b <= file_end (w_obj w).
Proof.
  intros (Hf & _ & Hst). apply stored_app_l in Hst. apply stored_in_file in Hst.
  - rewrite encode_block_length in Hst. by apply in_file_end in Hst as [_ ?].
  - unfold encode_block. by destruct (m_swapped (w_obj w)).
Qed.

Lemma at_block_start w b l : at_block w b l -> m_mappedData (w_obj w) <= m_currentPtr (w_obj w).
Proof.
  intros (Hf & _ & Hst). apply stored_app_l in Hst. apply stored_in_file in Hst.
  - by apply in_file_end in Hst as [? _].
  - unfold encode_block. by destruct (m_swapped (w_obj w)).
Qed.

Lemma total_ge w b : 12 <= total_at w b.
Proof. unfold total_at, block_total. lia. Qed.

(** One turn of the search, the header of the block being read. *)
Lemma search_turn w b l fuel :
  at_block w b l ->
  next_packet_block (S fuel) w =
    if block_type b =? PCAPNG_EPB then Ret (Some (total_at w b)) w
    else ((if block_type b =? PCAPNG_IDB then read_interface (total_at w b) else mret tt) ;;
          assign (fun p => set_cursor (m_currentPtr p + total_at w b) p) ;;
          next_packet_block fuel) w.
Proof.
  intros Hat. pose proof (at_block_end w b l Hat) as Hend. pose proof (total_ge w b) as Hge.
  destruct Hat as (Hf & Hok & Hst). unfold encode_block in Hst. rewrite <- !app_assoc in Hst.
  assert (Ht : is_u32 (block_type b)).
  { destruct b; cbn [block_type]; [unfold is_u32, PCAPNG_IDB; lia|unfold is_u32, PCAPNG_EPB; lia|]. apply Hok. }
  cbn [next_packet_block]. rewrite bind_this. unfold sizeof_PcapNgBlockHeader.
  destruct (Z.ltb_spec (file_end (w_obj w)) (m_currentPtr (w_obj w) + 8)); [lia|].
  rewrite (field32_stored _ _ _ _ w Ht Hst). apply stored_word in Hst as [_ Hst]; [|done].
  rewrite (field32_stored _ _ _ _ w (bo_total _ _ Hok) Hst). fold (total_at w b).
  destruct (Z.ltb_spec (total_at w b) 8); [lia|]. cbn [orb].
  destruct (Z.ltb_spec (file_end (w_obj w)) (m_currentPtr (w_obj w) + total_at w b)); [lia|].
  by destruct (block_type b =? PCAPNG_EPB).
Qed.

(** An interface block enters its interface in the table. *)
Lemma read_interface_encoded w link snap os mark l :
  at_block w (NgInterface link snap os mark) l ->
  read_interface (total_at w (NgInterface link snap os mark)) w =
    Ret tt (with_obj (fun p =>
      set_interfaces (<[m_interfaceCount p := MkInterfaceInfo link (divisor_of os)]> (m_interfaces p))
        (u32 (m_interfaceCount p + 1)) p) w).
Proof.
  intros (Hf & [_ [Hlink Hos]] & Hst). unfold encode_block in Hst. rewrite <- !app_assoc in Hst.
  apply stored_app_r in Hst. rewrite enc32_length in Hst. apply stored_app_r in Hst. rewrite enc32_length in Hst.
  rewrite <- Z.add_assoc in Hst. change (Z.of_nat 4 + Z.of_nat 4) with 8 in Hst.
  cbn [block_body] in Hst. rewrite <- !app_assoc in Hst.
  unfold read_interface. rewrite bind_this. unfold sizeof_PcapNgBlockHeader, sizeof_PcapNgIDBBody.
  rewrite (field16_stored _ _ _ _ w Hlink Hst).
  apply stored_app_r in Hst. rewrite enc16_length in Hst. apply stored_app_r in Hst. rewrite enc16_length in Hst.
  apply stored_app_r in Hst. rewrite enc32_length in Hst. rewrite <- !Z.add_assoc in Hst.
  change (8 + (Z.of_nat 2 + (Z.of_nat 2 + Z.of_nat 4))) with (8 + 8) in Hst. rewrite Z.add_assoc in Hst.
  set (opts := encode_options (m_swapped (w_obj w)) os mark) in *.
  assert (Ht : total_at w (NgInterface link snap os mark) = 20 + Z.of_nat (length opts)).
  { unfold total_at, block_total. cbn [block_body]. rewrite !length_app, !enc16_length, enc32_length.
    fold opts. lia. }
  rewrite Ht. replace (m_currentPtr (w_obj w) + (20 + Z.of_nat (length opts)) - 4)
    with (m_currentPtr (w_obj w) + 8 + 8 + Z.of_nat (length opts)) by lia.
  erewrite bind_Ret; [|apply (parse_options_encoded os mark _ _ 1000000 _ w Hos Hst)]; [done|].
  fold opts. lia.
Qed.
End Blocks.

(** ** The replay *)

(** The conversion of [pcapng_timespec] where the divisor is not zero. *)
Definition ng_time (high low d : Z) : timespec :=
  TimeSpec (to_s64 (ts_raw high low / d)) (to_s64 (u64 (ts_raw high low mod d * 1000000000) / d)).

(** The interfaces described so far. *)
Record ng_table := NgTable { nt_map : gmap Z InterfaceInfo; nt_count : Z }.

Definition table_of (p : PcapReceiver) : ng_table := NgTable (m_interfaces p) (m_interfaceCount p).

Definition describe (t : ng_table) (b : ng_block) : ng_table :=
  match b with
  | NgInterface link _ os _ =>
      NgTable (<[nt_count t := MkInterfaceInfo link (divisor_of os)]> (nt_map t)) (u32 (nt_count t + 1))
  | _ => t
  end.

(** Every packet block names an interface that was described, with a
    resolution that is not zero. *)
Fixpoint described (t : ng_table) (bs : list ng_block) : Prop :=
  match bs with
  | [] => True
  | b :: bs =>
      match b with
      | NgPacket ifId _ _ _ _ _ =>
          exists info, nt_map t !! ifId = Some info /\ tsResolutionDivisor info <> 0
      | _ => True
      end /\ described (describe t b) bs
  end.

Definition is_packet (b : ng_block) : bool := match b with NgPacket _ _ _ _ _ _ => true | _ => false end.
Definition packets (bs : list ng_block) : nat := length (List.filter is_packet bs).

(** The calls owed for one block at [a], and for the blocks from [a] on. *)
Definition block_calls (p : PcapReceiver) (t : ng_table) (a : Z) (b : ng_block) : list delivery :=
  match b with
  | NgPacket ifId high low origLen data _ =>
      match nt_map t !! ifId with
      | Some info =>
          if caplen_of data =? origLen
          then option_list (delivery_of (ng_time high low (tsResolutionDivisor info)) (caplen_of data)
                              (a + 28) (linkType info) p)
          else []
      | None => []
      end
  | _ => []
  end.

Fixpoint ng_calls (p : PcapReceiver) (sw : bool) (t : ng_table) (a : Z) (bs : list ng_block) : list delivery :=
  match bs with
  | [] => []
  | b :: bs => block_calls p t a b ++ ng_calls p sw (describe t b) (a + block_total sw b) bs
  end.

Section Replay.
Context {U Y : Type} {RK : ReactorKernel Y}.
Notation W := (world (task U) PcapReceiver Y).
Notation Mw := (M W).
Context (emit : delivery -> Y -> Y).
Implicit Types (w : W) (p : PcapReceiver).

Notation recorder := (Recorder.recorder emit).
Notation emit_all := (Recorder.emit_all emit).

(** A receiver of a pcapng file. *)
Definition ng_reading p : Prop :=
  file_ok p /\ m_isPcapNg p = true /\ m_linkType p <> DLT_EN10MB /\ hot_ok p.

Definition ng_ready p : Prop :=
  file_ok p /\ mode (m_pcapConfig p) <> TIMED /\ m_isPcapNg p = true /\
  m_linkType p <> DLT_EN10MB /\ hot_ok p.

Lemma interface_at_known {B} i info (k : InterfaceInfo -> Mw B) w :
  m_interfaces (w_obj w) !! i = Some info -> (interface_at i ≫= k) w = k info w.
Proof. intros E. unfold interface_at. by rewrite bind_assoc, bind_this, E. Qed.

(** The rest of the step for a packet block at [cur] that is not early. *)
Definition play_block (cur high low : Z) (info : InterfaceInfo) (total : Z) : Mw bool :=
  let epb := cur + sizeof_PcapNgBlockHeader in
  capLen ← field32 (epb + 12);
  origLen ← field32 (epb + 16);
  parseAndDispatch recorder (ng_time high low (tsResolutionDivisor info)) capLen origLen
    (epb + sizeof_PcapNgEPBBody) (linkType info) ;;
  assign (fun p => set_cursor (m_currentPtr p + total) p) ;; mret true.

(** Where the fields of a packet block are. *)
Lemma packet_fields w ifId high low origLen data trailer l :
  at_block w (NgPacket ifId high low origLen data trailer) l ->
  let sw := m_swapped (w_obj w) in
  let epb := m_currentPtr (w_obj w) + 8 in
  let st a x := is_u32 x /\ exists l', stored (m_mapping (w_obj w)) a (enc32 sw x ++ l') in
  st epb ifId /\ st (epb + 4) high /\ st (epb + 8) low /\ st (epb + 12) (caplen_of data) /\
  st (epb + 16) origLen /\ stored (m_mapping (w_obj w)) (epb + 20) data.
Proof.
  intros (Hf & [Htot (H1 & H2 & H3 & H4 & _)] & Hst) sw epb st.
  assert (Hcap : is_u32 (caplen_of data)).
  { clear - Htot. unfold block_total, is_u32, caplen_of in *. cbn [block_body] in Htot.
    rewrite !length_app in Htot. lia. }
  unfold encode_block in Hst. cbn [block_body] in Hst. rewrite <- !app_assoc in Hst.
  do 2 (apply stored_app_r in Hst; rewrite enc32_length in Hst).
  rewrite <- Z.add_assoc in Hst. change (Z.of_nat 4 + Z.of_nat 4) with 8 in Hst. fold epb in Hst.
  pose proof (stored_word _ _ _ _ _ H1 Hst) as [_ Hst1]. pose proof (stored_word _ _ _ _ _ H2 Hst1) as [_ Hst2].
  pose proof (stored_word _ _ _ _ _ H3 Hst2) as [_ Hst3]. pose proof (stored_word _ _ _ _ _ Hcap Hst3) as [_ Hst4].
  pose proof (stored_word _ _ _ _ _ H4 Hst4) as [_ Hst5]. apply stored_app_l in Hst5.
  rewrite <- !Z.add_assoc in *. change (4 + (4 + (4 + (4 + 4)))) with 20 in *.
  change (4 + (4 + (4 + 4))) with 16 in *. change (4 + (4 + 4)) with 12 in *. change (4 + 4) with 8 in *.
  unfold st. split_and!; try done; by eexists.
Qed.

(** A packet block is read in the byte order of the file, its time stamp
    converted with the resolution of its interface, and the packet is played
    unless it is early. *)
Lemma read_packet_encoded w ifId high low origLen data trailer l info :
  at_block w (NgPacket ifId high low origLen data trailer) l ->
  m_interfaces (w_obj w) !! ifId = Some info -> tsResolutionDivisor info <> 0 ->
  let total := total_at w (NgPacket ifId high low origLen data trailer) in
  read_packet_block recorder total w =
    pace (ng_time high low (tsResolutionDivisor info)) (play_block (m_currentPtr (w_obj w)) high low info total) w.
Proof.
  intros Hat Hinfo Hd total.
  destruct (packet_fields w _ _ _ _ _ _ _ Hat) as ([H1 [? S1]] & [H2 [? S2]] & [H3 [? S3]] & _).
  unfold read_packet_block. rewrite bind_this. unfold sizeof_PcapNgBlockHeader.
  rewrite (field32_stored _ _ _ _ w H1 S1), (interface_at_known _ _ _ w Hinfo).
  rewrite (field32_stored _ _ _ _ w H2 S2), (field32_stored _ _ _ _ w H3 S3).
  unfold pcapng_timespec. destruct (Z.eqb_spec (tsResolutionDivisor info) 0); [done|]. by rewrite bind_mret.
Qed.

(** The receivers that differ from [p] by their cursor, their (coherent)
    cache and their interfaces only. *)
Definition ng_replaying p p' : Prop :=
  hot_ok p' /\ exists t c port h ctx,
    p' = set_interfaces (nt_map t) (nt_count t) (set_cursor c (set_hot port h ctx p)).

Lemma ng_replaying_trans p p' p'' : ng_replaying p p' -> ng_replaying p' p'' -> ng_replaying p p''.
Proof.
  intros [_ (? & ? & ? & ? & ? & ->)] [H (t & c & port & h & ctx & ->)]. split; [done|].
  by exists t, c, port, h, ctx.
Qed.

Lemma ng_ready_step p p' : ng_ready p -> ng_replaying p p' -> ng_ready p'.
Proof.
  intros (Hf & Hm & Hn & Hl & _) (Hok & t & c & port & h & ctx & ->). split; [by destruct Hf|]. done.
Qed.

Lemma ng_calls_replaying p p' sw t a bs : ng_replaying p p' -> ng_calls p' sw t a bs = ng_calls p sw t a bs.
Proof.
  intros [_ (t' & c & port & h & ctx & ->)]. revert t a. induction bs as [|b bs IH]; intros t a; [done|].
  cbn [ng_calls]. by rewrite IH.
Qed.

(** A packet block makes the call it owes and is skipped. *)
Lemma play_block_run w ifId high low origLen data trailer l info :
  let b := NgPacket ifId high low origLen data trailer in
  ng_reading (w_obj w) -> at_block w b l -> m_interfaces (w_obj w) !! ifId = Some info ->
  exists p', play_block (m_currentPtr (w_obj w)) high low info (total_at w b) w =
      Ret true (World (w_loop w) p'
        (emit_all (block_calls (w_obj w) (table_of (w_obj w)) (m_currentPtr (w_obj w)) b) (w_sys w))) /\
    ng_replaying (w_obj w) p' /\ m_currentPtr p' = m_currentPtr (w_obj w) + total_at w b /\
    table_of p' = table_of (w_obj w).
Proof.
  intros b (Hf & _ & Hlt & Hok) Hat Hinfo.
  pose proof (at_block_end w b l Hat) as Hend. set (total := total_at w b) in *.
  destruct (packet_fields w _ _ _ _ _ _ _ Hat) as (_ & _ & _ & [H4 [? S4]] & [H5 [? S5]] & _).
  assert (Ht : total = 32 + caplen_of data + Z.of_nat (length trailer)).
  { unfold total, total_at, block_total, caplen_of. cbn [block_body b].
    rewrite !length_app, !enc32_length. lia. }
  destruct Hat as (_ & [Htot (_ & _ & _ & _ & Hle)] & Hst).
  apply stored_app_l, stored_in_file in Hst; [|unfold encode_block; by destruct (m_swapped (w_obj w))].
  rewrite encode_block_length in Hst. fold (total_at w b) in Hst. fold total in Hst.
  unfold play_block, sizeof_PcapNgBlockHeader, sizeof_PcapNgEPBBody.
  rewrite (field32_stored _ _ _ _ w H4 S4), (field32_stored _ _ _ _ w H5 S5).
  replace (m_currentPtr (w_obj w) + 8 + 20) with (m_currentPtr (w_obj w) + 28) by lia.
  unfold caplen_of in *. rewrite bind_run, parseAndDispatch_deliver; try done; try apply Hf.
  2: { destruct Hst. split; lia. }
  cbn [block_calls b table_of nt_map]. rewrite Hinfo. unfold caplen_of.
  destruct (Z.of_nat (length data) =? origLen).
  - destruct (deliver_recorded emit (ng_time high low (tsResolutionDivisor info)) (Z.of_nat (length data))
      (m_currentPtr (w_obj w) + 28) (linkType info) w Hok) as (p1 & E & [Hok1 (c & port & h & ctx & Ep)] & Hc).
    exists (set_cursor (m_currentPtr (w_obj w) + total) p1). rewrite E, bind_assign.
    unfold with_obj. cbn [w_obj w_loop w_sys]. rewrite Hc. split; [done|]. rewrite Ep in Hok1 |- *. split; [|done].
    split; [done|]. exists (table_of (w_obj w)), (m_currentPtr (w_obj w) + total), port, h, ctx.
    by destruct (w_obj w).
  - exists (set_cursor (m_currentPtr (w_obj w) + total) (w_obj w)). rewrite bind_assign.
    split; [done|]. split; [|done]. split; [done|].
    exists (table_of (w_obj w)), (m_currentPtr (w_obj w) + total), (m_hotPort (w_obj w)), (m_hotHandler (w_obj w)),
      (m_hotContext (w_obj w)). by destruct (w_obj w).
Qed.

Lemma packet_step w ifId high low origLen data trailer l :
  let b := NgPacket ifId high low origLen data trailer in
  ng_ready (w_obj w) -> at_block w b l -> described (table_of (w_obj w)) [b] ->
  exists p', read_packet_block recorder (total_at w b) w =
      Ret true (World (w_loop w) p'
        (emit_all (block_calls (w_obj w) (table_of (w_obj w)) (m_currentPtr (w_obj w)) b) (w_sys w))) /\
    ng_replaying (w_obj w) p' /\ m_currentPtr p' = m_currentPtr (w_obj w) + total_at w b /\
    table_of p' = table_of (w_obj w).
Proof.
  intros b (Hf & Hmode & Hng & Hlt & Hok) Hat [(info & Hinfo & Hd) _]. cbn [table_of nt_map] in Hinfo.
  destruct (play_block_run w _ _ _ _ _ _ l info (conj Hf (conj Hng (conj Hlt Hok))) Hat Hinfo) as (p' & E & Hp').
  exists p'. split; [|exact Hp']. unfold b in *. rewrite (read_packet_encoded w _ _ _ _ _ _ l info Hat Hinfo Hd).
  by rewrite pace_untimed, E.
Qed.

(** Another block is skipped, its interface entered. *)
Lemma skip_step w b l fuel :
  is_packet b = false -> hot_ok (w_obj w) -> at_block w b l ->
  exists p', next_packet_block (S fuel) w = next_packet_block fuel (World (w_loop w) p' (w_sys w)) /\
    ng_replaying (w_obj w) p' /\ m_currentPtr p' = m_currentPtr (w_obj w) + total_at w b /\
    table_of p' = describe (table_of (w_obj w)) b.
Proof.
  intros Hb Hok Hat. rewrite (search_turn w b l fuel Hat).
  assert (Hrep : forall t, ng_replaying (w_obj w)
    (set_cursor (m_currentPtr (w_obj w) + total_at w b) (set_interfaces (nt_map t) (nt_count t) (w_obj w)))).
  { intros t. split; [done|]. exists t, (m_currentPtr (w_obj w) + total_at w b), (m_hotPort (w_obj w)),
      (m_hotHandler (w_obj w)), (m_hotContext (w_obj w)). by destruct (w_obj w). }
  exists (set_cursor (m_currentPtr (w_obj w) + total_at w b)
    (set_interfaces (nt_map (describe (table_of (w_obj w)) b)) (nt_count (describe (table_of (w_obj w)) b)) (w_obj w))).
  split; [|split; [apply Hrep|split; [done|by destruct (describe (table_of (w_obj w)) b)]]].
  destruct b as [link snap os mark|ifId high low origLen data trailer|type body]; [|done|].
  - cbn [block_type]. change (PCAPNG_IDB =? PCAPNG_EPB) with false. change (PCAPNG_IDB =? PCAPNG_IDB) with true.
    rewrite (bind_Ret _ _ _ _ _ (read_interface_encoded w link snap os mark l Hat)). done.
  - destruct Hat as (_ & [_ (_ & H1 & H2)] & _). cbn [block_type].
    destruct (Z.eqb_spec type PCAPNG_EPB); [done|]. destruct (Z.eqb_spec type PCAPNG_IDB); [done|].
    by rewrite bind_mret, bind_assign.
Qed.

Lemma bind_noexcept {A B} (m : Mw A) (k : A -> Mw B) w b w' :
  (m ≫= k) w = Ret b w' -> (noexcept m ≫= k) w = Ret b w'.
Proof. rewrite !bind_run. unfold noexcept. by destruct (m w). Qed.

(** A step, from any state of the search for the next packet block. *)
Definition search_and_read (fuel : nat) : Mw bool :=
  block ← next_packet_block fuel;
  match block with None => mret false | Some len => read_packet_block recorder len end.

Definition go_on (n : nat) (more : bool) : Mw bool := if more then steps recorder n else mret false.

Lemma steps_ng n w p' y :
  m_isPcapNg (w_obj w) = true ->
  (search_and_read (S (Z.to_nat (m_fileSize (w_obj w)))) ≫= go_on n) w = Ret false (World (w_loop w) p' y) ->
  steps recorder (S n) w = Ret false (World (w_loop w) p' y).
Proof. intros Hng H. cbn [steps]. apply bind_noexcept. by rewrite bind_assoc, bind_this, Hng. Qed.

Definition blocks_ahead w (bs : list ng_block) (l : list Z) : Prop :=
  Forall (block_ok (m_swapped (w_obj w))) bs /\
  stored (m_mapping (w_obj w)) (m_currentPtr (w_obj w)) (encode_blocks (m_swapped (w_obj w)) bs ++ l) /\
  file_end (w_obj w) = m_currentPtr (w_obj w) +
    Z.of_nat (length (encode_blocks (m_swapped (w_obj w)) bs)) + Z.of_nat (length l).

Lemma blocks_ahead_head w b bs l : file_ok (w_obj w) -> blocks_ahead w (b :: bs) l ->
  at_block w b (encode_blocks (m_swapped (w_obj w)) bs ++ l).
Proof.
  intros Hf (Hok & Hst & _). inversion Hok. split; [done|]. split; [done|].
  unfold encode_blocks in *. cbn [fmap list_fmap concat] in Hst. by rewrite <- app_assoc in Hst.
Qed.

Lemma blocks_ahead_tail w b bs l l' p' y :
  blocks_ahead w (b :: bs) l -> ng_replaying (w_obj w) p' ->
  m_currentPtr p' = m_currentPtr (w_obj w) + total_at w b -> blocks_ahead (World l' p' y) bs l.
Proof.
  intros (Hok & Hst & Hend) Hp Hc.
  assert (Hsame : m_swapped p' = m_swapped (w_obj w) /\ m_mapping p' = m_mapping (w_obj w) /\
    file_end p' = file_end (w_obj w)) by (by destruct Hp as (_ & t & c & port & h & ctx & ->)).
  destruct Hsame as (Esw & Em & Ee). unfold blocks_ahead. cbn [w_obj]. rewrite Esw, Em, Ee, Hc.
  unfold encode_blocks in *. cbn [fmap list_fmap concat] in *.
  rewrite length_app, Nat2Z.inj_add, encode_block_length in Hend. rewrite <- app_assoc in Hst.
  apply stored_app_r in Hst. rewrite encode_block_length in Hst. fold (total_at w b) in Hst, Hend.
  split; [by inversion Hok|]. split; [exact Hst|]. lia.
Qed.

Lemma search_end w l fuel n :
  ng_ready (w_obj w) -> blocks_ahead w [] l -> (length l < 8)%nat ->
  file_end (w_obj w) - m_currentPtr (w_obj w) < Z.of_nat fuel ->
  (search_and_read fuel ≫= go_on n) w = Ret false (with_obj (set_finished true) w) /\
  ng_replaying (w_obj w) (w_obj w).
Proof.
  intros Hready (_ & _ & Hend) Hl Hfuel.
  change (Z.of_nat (length (encode_blocks (m_swapped (w_obj w)) []))) with 0 in Hend.
  destruct fuel as [|fuel]; [lia|]. unfold search_and_read. cbn [next_packet_block].
  rewrite !bind_assoc, bind_this. unfold sizeof_PcapNgBlockHeader.
  destruct (Z.ltb_spec (file_end (w_obj w)) (m_currentPtr (w_obj w) + 8)); [|lia].
  split; [done|]. split; [apply Hready|].
  exists (table_of (w_obj w)), (m_currentPtr (w_obj w)), (m_hotPort (w_obj w)), (m_hotHandler (w_obj w)),
    (m_hotContext (w_obj w)). by destruct (w_obj w).
Qed.

Lemma search_replays bs l w fuel n :
  ng_ready (w_obj w) -> blocks_ahead w bs l -> described (table_of (w_obj w)) bs -> (length l < 8)%nat ->
  file_end (w_obj w) - m_currentPtr (w_obj w) < Z.of_nat fuel -> (packets bs <= n)%nat ->
  exists p', (search_and_read fuel ≫= go_on n) w =
      Ret false (World (w_loop w) (set_finished true p')
        (emit_all (ng_calls (w_obj w) (m_swapped (w_obj w)) (table_of (w_obj w)) (m_currentPtr (w_obj w)) bs) (w_sys w))) /\
    ng_replaying (w_obj w) p'.
Proof.
  revert w fuel n. induction bs as [|b bs IH]; intros w fuel n Hready Hahead Hdesc Hl Hfuel Hn.
  - exists (w_obj w). by apply (search_end w l).
  - pose proof (blocks_ahead_head w b bs l (proj1 Hready) Hahead) as Hat.
    pose proof (at_block_end w b _ Hat) as Hend. pose proof (total_ge w b) as Hge.
    destruct fuel as [|fuel]; [lia|].
    assert (Hnext : forall p' y fuel' n', ng_replaying (w_obj w) p' ->
      m_currentPtr p' = m_currentPtr (w_obj w) + total_at w b ->
      table_of p' = describe (table_of (w_obj w)) b ->
      file_end (w_obj w) - m_currentPtr p' < Z.of_nat fuel' -> (packets bs <= n')%nat ->
      exists p2, (search_and_read fuel' ≫= go_on n') (World (w_loop w) p' y) =
        Ret false (World (w_loop w) (set_finished true p2)
          (emit_all (ng_calls (w_obj w) (m_swapped (w_obj w)) (describe (table_of (w_obj w)) b)
            (m_currentPtr (w_obj w) + total_at w b) bs) y)) /\ ng_replaying (w_obj w) p2).
    { intros p' y fuel' n' Hp Hc Ht Hf' Hn'.
      destruct (IH (World (w_loop w) p' y) fuel' n') as (p2 & E & Hp2); cbn [w_obj w_loop w_sys] in *.
      - by eapply ng_ready_step.
      - by eapply blocks_ahead_tail.
      - rewrite Ht. apply Hdesc.
      - done.
      - destruct Hp as (_ & t & c & port & h & ctx & ->). exact Hf'.
      - done.
      - exists p2. split; [|by eapply ng_replaying_trans]. rewrite E, Hc, Ht, (ng_calls_replaying _ _ _ _ _ _ Hp).
        by destruct Hp as (_ & t & c & port & h & ctx & ->). }
    cbn [ng_calls]. fold (total_at w b). rewrite emit_all_app.
    destruct (is_packet b) eqn:Hb.
    + assert (Hn' : exists n', n = S n' /\ (packets bs <= n')%nat).
      { unfold packets in Hn. cbn [List.filter] in Hn. rewrite Hb in Hn. cbn [length] in Hn.
        destruct n as [|n']; [lia|]. exists n'. split; [done|]. unfold packets. lia. }
      destruct Hn' as (n' & -> & Hn'). destruct b as [|ifId high low origLen data trailer|]; try done.
      destruct (packet_step w _ _ _ _ _ _ _ Hready Hat) as (p' & E & Hp & Hc & Ht); [by split; [apply Hdesc|]|].
      destruct (Hnext p' (emit_all (block_calls (w_obj w) (table_of (w_obj w)) (m_currentPtr (w_obj w))
        (NgPacket ifId high low origLen data trailer)) (w_sys w)) (S (Z.to_nat (m_fileSize (w_obj w)))) n')
        as (p2 & E2 & Hp2); [done|done|done| |done|].
      { pose proof (at_block_start w _ _ Hat) as Hst. unfold file_end. lia. }
      exists p2. split; [|done]. unfold search_and_read. rewrite bind_assoc, bind_run, (search_turn w _ _ fuel Hat).
      cbn [block_type]. rewrite Z.eqb_refl. rewrite (bind_Ret _ _ _ _ _ E). cbn [go_on].
      apply (steps_ng n' (World (w_loop w) p' _)); [cbn [w_obj]; by apply (ng_ready_step _ _ Hready Hp)|]. cbn [w_obj].
      assert (Es : m_fileSize p' = m_fileSize (w_obj w)) by (by destruct Hp as (_ & t & c & port & h & ctx & ->)).
      by rewrite Es.
    + destruct (skip_step w b _ fuel Hb ltac:(apply Hready) Hat) as (p' & E & Hp & Hc & Ht).
      assert (Hn' : (packets bs <= n)%nat).
      { unfold packets in *. cbn [List.filter] in Hn. by rewrite Hb in Hn. }
      destruct (Hnext p' (w_sys w) fuel n Hp Hc Ht) as (p2 & E2 & Hp2); [lia|done|].
      exists p2. split; [|done]. unfold search_and_read in *. rewrite bind_assoc in *.
      rewrite bind_run, E. rewrite bind_run in E2. rewrite E2.
      by destruct b.
Qed.

(** The round trip of a capture in the pcapng format: stepping through a
    file of interface blocks (with any options), packet blocks and blocks
    of other types, in either byte order, hands the packets to the
    subscribed handlers in the order of the file, each with its link type
    and with its time stamp in the resolution of the interface it names,
    until the replay is finished. *)
Theorem pcapng_replayed bs l w n :
  ng_ready (w_obj w) -> blocks_ahead w bs l -> described (table_of (w_obj w)) bs ->
  (length l < 8)%nat -> m_mappedData (w_obj w) <= m_currentPtr (w_obj w) -> (packets bs < n)%nat ->
  exists p', steps recorder n w =
      Ret false (World (w_loop w) (set_finished true p')
        (emit_all (ng_calls (w_obj w) (m_swapped (w_obj w)) (table_of (w_obj w)) (m_currentPtr (w_obj w)) bs) (w_sys w))) /\
    ng_replaying (w_obj w) p'.
Proof.
  intros Hready Hahead Hdesc Hl Hstart Hn. destruct n as [|n]; [lia|].
  assert (Hng : m_isPcapNg (w_obj w) = true) by apply Hready.
  destruct (search_replays bs l w (S (Z.to_nat (m_fileSize (w_obj w)))) n Hready Hahead Hdesc Hl)
    as (p' & E & Hp'); [unfold file_end; lia|lia|].
  exists p'. split; [by apply steps_ng|done].
Qed.
End Replay.

(** ** A whole file *)

Section File.
Context {U Y : Type} {RK : ReactorKernel Y} {MK : MemoryKernel Y} {FK : FileKernel Y}.
Notation W := (world (task U) PcapReceiver Y).
Context (ndebug : bool) (emit : delivery -> Y -> Y).
Implicit Types (w : W) (p : PcapReceiver).

(** The section header block: the byte-order mark, then version and length. *)
Definition section_header (sw : bool) (rest : list Z) : ng_block :=
  NgOther MAGIC_PCAPNG_SHB (enc32 sw PCAPNG_BOM ++ rest).

Definition encode_ng_file (sw : bool) (rest : list Z) (bs : list ng_block) (tail : list Z) : list Z :=
  encode_blocks sw (section_header sw rest :: bs) ++ tail.

Lemma ng_words addr sw rest bs tail :
  let m := Mapping addr (encode_ng_file sw rest bs tail) in
  is_u32 (block_total sw (section_header sw rest)) ->
  load32 m addr = Some MAGIC_PCAPNG_SHB /\ load32 m (addr + 8) = Some (swap32 sw PCAPNG_BOM).
Proof.
  intros m Ht. pose proof (stored_self addr (encode_ng_file sw rest bs tail)) as H. fold m in H.
  unfold encode_ng_file, encode_blocks in H. cbn [fmap list_fmap concat] in H.
  unfold encode_block at 1 in H. rewrite <- !app_assoc in H. cbn [block_type section_header block_body] in H.
  apply stored_word in H as [H0 H]; [|unfold is_u32, MAGIC_PCAPNG_SHB; lia].
  apply stored_word in H as [_ H]; [|done]. rewrite <- !app_assoc, <- Z.add_assoc in H.
  apply stored_word in H as [H8 _]; [|unfold is_u32, PCAPNG_BOM; lia].
  split; [|exact H8]. rewrite H0. by destruct sw.
Qed.

Lemma format_of_ng sw p : format_of MAGIC_PCAPNG_SHB (swap32 sw PCAPNG_BOM) p = Some (true, sw, true).
Proof. destruct sw; reflexivity. Qed.

(** Opening such a file: it is recognised, and its blocks are ahead of the
    cursor. *)
Lemma open_ng path w f addr (sw : bool) rest bs tail y' :
  let file := encode_ng_file sw rest bs tail in
  let blocks := section_header sw rest :: bs in
  owner_thread ndebug w -> opens path (w_sys w) f addr file y' ->
  (8 <= length rest)%nat -> Forall is_u8 file -> Forall (block_ok sw) blocks ->
  let p1 := set_format true sw true (mapped_at f addr file (w_obj w)) in
  open ndebug path w = Ret ResultVoid.success (World (w_loop w) p1 y') /\ file_ok p1 /\
  stored (m_mapping p1) addr (encode_blocks sw blocks ++ tail) /\
  file_end p1 = addr + Z.of_nat (length (encode_blocks sw blocks)) + Z.of_nat (length tail).
Proof.
  intros file blocks Ho Hop Hrest Hb Hblocks p1.
  assert (Hlen : sizeof_pcap_file_header <= Z.of_nat (length file)).
  { unfold file, encode_ng_file, encode_blocks. cbn [fmap list_fmap concat].
    rewrite !length_app, !Nat2Z.inj_add, encode_block_length. unfold block_total. cbn [block_body section_header].
    rewrite length_app, enc32_length. unfold sizeof_pcap_file_header. lia. }
  assert (Ht : is_u32 (block_total sw (section_header sw rest))) by (apply Forall_inv in Hblocks; by apply bo_total).
  destruct (open_reads ndebug path w f addr file y' Ho Hop Hb Hlen) as (magic & bom & net & Em & Ebom & _ & E).
  destruct (ng_words addr sw rest bs tail Ht) as [Hm' Hb']. fold file in Hm', Hb'.
  rewrite Hm' in Em. rewrite Hb' in Ebom. injection Em as <-. injection Ebom as <-.
  rewrite format_of_ng in E. split_and!; [exact E|by split|exact (stored_self addr file)|].
  unfold p1, file, encode_ng_file, file_end, m_mappedData. cbn. rewrite length_app, Nat2Z.inj_add. fold blocks. lia.
Qed.

(** C13 The round trip of a pcapng file: it is recognised in either byte order
    and opened, and stepping through its section header, interface blocks
    (with any options), packet blocks and blocks of other types hands the
    packets captured whole to the subscribed handlers in the order of the
    file, each with the link type and the time resolution of the interface it
    names, until the replay is finished. *)
Theorem pcapng_file_replayed path w f addr (sw : bool) rest bs tail y' n :
  let file := encode_ng_file sw rest bs tail in
  let blocks := section_header sw rest :: bs in
  owner_thread ndebug w -> opens path (w_sys w) f addr file y' ->
  (8 <= length rest)%nat -> Forall is_u8 file -> Forall (block_ok sw) blocks ->
  described (table_of (w_obj w)) blocks -> (length tail < 8)%nat ->
  mode (m_pcapConfig (w_obj w)) <> TIMED -> m_linkType (w_obj w) <> DLT_EN10MB -> hot_ok (w_obj w) ->
  (packets blocks < n)%nat ->
  let p1 := set_format true sw true (mapped_at f addr file (w_obj w)) in
  exists p', (r ← open ndebug path; more ← steps (recorder emit) n; mret (r, more)) w =
      Ret (ResultVoid.success, false)
        (World (w_loop w) p' (emit_all emit (ng_calls p1 sw (table_of (w_obj w)) addr blocks) y')) /\
    m_finished p' = true.
Proof.
  intros file blocks Ho Hop Hrest Hb Hblocks Hdesc Htail Hmode Hlt Hok Hn p1.
  destruct (open_ng path w f addr sw rest bs tail y' Ho Hop Hrest Hb Hblocks) as (E & Hfo & Hst & Hend).
  fold file blocks p1 in E, Hfo, Hst, Hend. rewrite (bind_Ret _ _ _ _ _ E).
  destruct (pcapng_replayed emit blocks tail (World (w_loop w) p1 y') n) as (p' & E' & _);
    cbn [w_obj].
  - split; [done|]. split; [done|]. split; [done|]. split; [done|exact Hok].
  - by split_and!.
  - exact Hdesc.
  - done.
  - apply Z.le_refl.
  - done.
  - exists (set_finished true p'). split; [|done]. cbn [with_obj w_loop w_obj w_sys]. by rewrite (bind_Ret _ _ _ _ _ E').
Qed.
End File.
