(* ===== verification/PacketFacts.v ===== *)
(** The properties of the base class of the receivers: the layout of the
    packet buffer, the guards of the subscriptions, and the release of the
    sockets. *)
From S2P Require Import Prelude Outcome Result Kernel SimKernel ScopedFd TimerQueue EventLoop.
From S2P Require Import EventLoopFacts SourceFacts PacketReceiver.

(** ** Rounding *)

Lemma aligned_size_spec b : 0 <= b -> b + 63 < 2 ^ 31 ->
  let a := aligned_size (b + 63) in a mod 64 = 0 /\ b <= a < b + 64.
Proof.
  intros H0 H1 a. unfold a, aligned_size. rewrite (land_lnot_ones _ 6) by lia. change (2 ^ 6) with 64.
  rewrite u64_small by (unfold is_u64; zlia). zlia.
Qed.

Lemma mapped_size_spec total : 0 <= total <= 2 ^ 63 ->
  let m := mapped_size total in
  m mod HUGEPAGE_SIZE = 0 /\ total <= m < total + HUGEPAGE_SIZE.
Proof.
  intros Ht m. unfold m, mapped_size.
  assert (Hu : u64 (total + HUGEPAGE_SIZE - 1) = total + 2097151).
  { unfold HUGEPAGE_SIZE. rewrite u64_small by (unfold is_u64; lia). lia. }
  rewrite Hu. change (HUGEPAGE_SIZE - 1) with (2 ^ 21 - 1). rewrite (land_lnot_ones _ 21) by lia.
  change (2 ^ 21) with 2097152. unfold HUGEPAGE_SIZE. cbn [Z.mul Pos.mul]. zlia.
Qed.

(** ** The buffer *)

Section Layout.
Context {T O Y : Type} {RK : ReactorKernel Y} {MK : MemoryKernel Y} {HB : HasBase O} {HL : HasBaseLaws O}.
Notation W := (world T O Y).
Implicit Types w : W.

(** The configurations whose sizes fit: up to 2^31 rows of almost 2 GB. *)
Definition config_ok (c : ReceiverConfig) : Prop :=
  0 <= batchSize c < 2 ^ 31 /\ 0 <= bufferSize c /\ bufferSize c + 63 < 2 ^ 31.

(** What the rest of the receiver relies on: one I/O vector per packet of
    the batch, each a cache-line aligned row of the flat buffer as long as
    configured, and all the rows, pairwise disjoint, inside the mapping. *)
Record buffer_ok (r : PacketReceiver) : Prop := {
  bo_stride : m_alignedBufferSize r mod 64 = 0 /\
    0 <= bufferSize (m_config r) <= m_alignedBufferSize r /\
    m_alignedBufferSize r < bufferSize (m_config r) + 64;
  bo_mapped : m_mappedSize r mod HUGEPAGE_SIZE = 0 /\
    batchSize (m_config r) * m_alignedBufferSize r <= m_mappedSize r;
  bo_base : m_cachedBasePtr r = m_hugeBuffer r;
  bo_rows : Z.of_nat (length (m_ioVectors r)) = batchSize (m_config r);
  bo_row : forall i v, m_ioVectors r !! i = Some v ->
    v = IOVec (m_hugeBuffer r + Z.of_nat i * m_alignedBufferSize r) (bufferSize (m_config r))
}.

(** The rows of a good buffer are inside the mapping and do not overlap. *)
Lemma rows_inside r i v : buffer_ok r -> m_ioVectors r !! i = Some v ->
  m_hugeBuffer r <= iov_base v /\ iov_base v + iov_len v <= m_hugeBuffer r + m_mappedSize r.
Proof.
  intros [[_ Ha] [_ Hm] _ Hlen Hrow] Hi. pose proof (lookup_lt_Some _ _ _ Hi) as Hlt.
  rewrite (Hrow i v Hi). cbn. split; [nia|].
  assert ((Z.of_nat i + 1) * m_alignedBufferSize r <= batchSize (m_config r) * m_alignedBufferSize r) by
    (apply Z.mul_le_mono_nonneg_r; lia). nia.
Qed.

Lemma rows_disjoint r i j v v' : buffer_ok r -> (i < j)%nat ->
  m_ioVectors r !! i = Some v -> m_ioVectors r !! j = Some v' ->
  iov_base v + iov_len v <= iov_base v'.
Proof.
  intros [[_ Ha] _ _ _ Hrow] Hij Hi Hj. rewrite (Hrow i v Hi), (Hrow j v' Hj). cbn.
  assert ((Z.of_nat i + 1) * m_alignedBufferSize r <= Z.of_nat j * m_alignedBufferSize r) by
    (apply Z.mul_le_mono_nonneg_r; lia). nia.
Qed.

(** No two packets of a batch share a byte, and none leaves the mapping. *)
Definition rows_safe (r : PacketReceiver) : Prop :=
  (forall i v, m_ioVectors r !! i = Some v ->
     m_hugeBuffer r <= iov_base v /\ iov_base v + iov_len v <= m_hugeBuffer r + m_mappedSize r) /\
  (forall i j v v', (i < j)%nat -> m_ioVectors r !! i = Some v -> m_ioVectors r !! j = Some v' ->
     iov_base v + iov_len v <= iov_base v').

Lemma buffer_rows r : buffer_ok r -> rows_safe r.
Proof. intros H. split; intros; [by eapply rows_inside|by eapply (rows_disjoint r i j)]. Qed.

Lemma io_vectors_spec base batch aligned buffer :
  0 <= batch < 2 ^ 31 -> 0 <= aligned < 2 ^ 31 -> 0 <= buffer < 2 ^ 31 ->
  Z.of_nat (length (io_vectors base batch aligned buffer)) = batch /\
  forall i v, io_vectors base batch aligned buffer !! i = Some v ->
    v = IOVec (base + Z.of_nat i * aligned) buffer.
Proof.
  intros Hb Ha Hbu. unfold io_vectors. rewrite length_fmap, length_seqZ, Z2Nat.id by lia. split; [done|].
  intros i v. rewrite list_lookup_fmap. destruct (seqZ 0 batch !! i) as [z|] eqn:E; [|done].
  apply lookup_seqZ in E as [-> Hi]. cbn. intros [= <-]. rewrite Z.add_0_l.
  rewrite !u64_small; [done|unfold is_u64; lia|unfold is_u64; nia].
Qed.

(** The constructor, as the derived receivers use it. *)
Lemma PacketReceiver_new_run c w :
  config_ok c ->
  let mapped := mapped_size (total_requested (batchSize c) (aligned_size (bufferSize c + 63))) in
  let '(huge, y1) := mmap_anon mapped (Z.lor MAP_PRIVATE_ANONYMOUS MAP_HUGETLB) (w_sys w) in
  let '(plain, y2) := mmap_anon mapped MAP_PRIVATE_ANONYMOUS y1 in
  let buffer := if huge =? MAP_FAILED then plain else huge in
  let y := if huge =? MAP_FAILED then y2 else y1 in
  if buffer =? MAP_FAILED
  then PacketReceiver_new c w =
         Throw (RuntimeError "Failed to allocate packet buffer via mmap") (with_sys y w)
  else exists r, PacketReceiver_new c w = Ret tt (World (w_loop w) (set_base r (w_obj w)) y) /\
         buffer_ok r /\ rows_safe r /\ m_hugeBuffer r = buffer /\ m_mappedSize r = mapped /\ m_config r = c /\
         m_ownerThreadId r = this_thread_id (w_sys w) /\ m_port_to_fd_map r = ∅.
Proof.
  intros (Hb & Hs & Hs') mapped. destruct (mmap_anon _ _ (w_sys w)) as [huge y1] eqn:E1.
  destruct (mmap_anon _ _ y1) as [plain y2] eqn:E2. cbn zeta.
  pose proof (aligned_size_spec (bufferSize c) Hs Hs') as [Ha1 Ha2].
  set (aligned := aligned_size (bufferSize c + 63)) in *.
  assert (Ht : total_requested (batchSize c) aligned = batchSize c * aligned).
  { apply u64_small. unfold is_u64. nia. }
  assert (Hm : mapped mod HUGEPAGE_SIZE = 0 /\ batchSize c * aligned <= mapped < batchSize c * aligned + HUGEPAGE_SIZE).
  { unfold mapped. rewrite Ht. apply mapped_size_spec. nia. }
  assert (Hok : forall buffer, buffer_ok (MkPacketReceiver c (this_thread_id (w_sys w)) ∅ aligned buffer mapped
      buffer (io_vectors buffer (batchSize c) aligned (bufferSize c)))).
  { intros buffer. destruct (io_vectors_spec buffer (batchSize c) aligned (bufferSize c)) as [Hl Hr]; [lia..|].
    split; cbn; [lia|lia|done|done|done]. }
  unfold PacketReceiver_new. run_steps. destruct (Z.ltb_spec (batchSize c) 0); [lia|].
  erewrite bind_Ret; [|apply s32_in; unfold is_s32; lia]. run_steps.
  fold aligned. fold mapped. rewrite E1. cbn [fst snd]. destruct (Z.eqb_spec huge MAP_FAILED) as [->|Hne].
  - run_steps. cbn [w_sys with_sys]. rewrite E2. cbn [fst snd].
    destruct (Z.eqb_spec plain MAP_FAILED) as [->|Hne']; [done|]. eexists. split; [reflexivity|].
    split_and!; try done; apply buffer_rows, Hok.
  - run_steps. destruct (Z.eqb_spec huge MAP_FAILED); [done|]. eexists. split; [reflexivity|].
    split_and!; try done; apply buffer_rows, Hok.
Qed.

(** C29 The constructor: with room for the buffer (in huge pages or, when
    there are none, in normal ones) the receiver is owned by the calling
    thread, has no socket, and its buffer is laid out as its users assume;
    without, [std::runtime_error] is thrown. *)
Theorem PacketReceiver_new_spec c w :
  config_ok c ->
  let mapped := mapped_size (total_requested (batchSize c) (aligned_size (bufferSize c + 63))) in
  let '(huge, y1) := mmap_anon mapped (Z.lor MAP_PRIVATE_ANONYMOUS MAP_HUGETLB) (w_sys w) in
  let '(plain, y2) := mmap_anon mapped MAP_PRIVATE_ANONYMOUS y1 in
  let buffer := if huge =? MAP_FAILED then plain else huge in
  let y := if huge =? MAP_FAILED then y2 else y1 in
  if buffer =? MAP_FAILED
  then PacketReceiver_new c w =
         Throw (RuntimeError "Failed to allocate packet buffer via mmap") (with_sys y w)
  else exists r, PacketReceiver_new c w = Ret tt (World (w_loop w) (set_base r (w_obj w)) y) /\
         buffer_ok r /\ rows_safe r /\ m_hugeBuffer r = buffer /\ m_mappedSize r = mapped /\ m_config r = c /\
         m_ownerThreadId r = this_thread_id (w_sys w) /\ m_port_to_fd_map r = ∅.
Proof. exact (PacketReceiver_new_run c w). Qed.
End Layout.

(** ** Subscriptions and sockets *)

Section Sockets.
Context {T O Y : Type} {RK : ReactorKernel Y} {RL : ReactorLaws Y} {MK : MemoryKernel Y}
  {HB : HasBase O} {HL : HasBaseLaws O}.
Notation W := (world T O Y).
Context (ndebug : bool).
Implicit Types w : W.

Definition owned_by_caller w : Prop := this_thread_id (w_sys w) = m_ownerThreadId (base (w_obj w)).

(** The thread check: with assertions compiled in, a call from another
    thread than the constructing one is stopped; with NDEBUG, which the
    build file of the library defines, every thread passes. *)
Theorem checkThread_spec w :
  checkThread true w = Ret tt w /\
  (owned_by_caller w -> checkThread false w = Ret tt w) /\
  (~ owned_by_caller w -> checkThread false w = Crash AssertionFailed).
Proof.
  unfold owned_by_caller, checkThread, this_base. split_and!; [done|..]; intros H; run_steps;
    destruct (Z.eqb_spec (this_thread_id (w_sys w)) (m_ownerThreadId (base (w_obj w)))); done.
Qed.

Lemma checkThread_run w : ndebug = true \/ owned_by_caller w -> checkThread ndebug w = Ret tt w.
Proof. intros [->|H]; [done|]. destruct ndebug; [done|by apply checkThread_spec]. Qed.

(** The guards of a subscription, in their order: a null handler, then
    the limit on the number of sockets (when there is one), then a port that
    is taken; otherwise the derived class may go on.  Nothing changes. *)
Theorem base_subscribe_spec port context handler w :
  ndebug = true \/ owned_by_caller w ->
  let r := base (w_obj w) in
  base_subscribe ndebug port context handler w =
    Ret (if handler =? 0 then Error (ErrorCode EINVAL system_category)
         else if (0 <? maxFds (m_config r)) && (maxFds (m_config r) <=? Z.of_nat (size (m_port_to_fd_map r)))
         then Error (ErrorCode EMFILE system_category)
         else if decide (port ∈ dom (m_port_to_fd_map r)) then Error (ErrorCode EADDRINUSE system_category)
         else Value 0) w.
Proof.
  intros Ho r. unfold base_subscribe. rewrite (bind_Ret _ _ _ _ _ (checkThread_run w Ho)).
  unfold this_base. run_steps. fold r. destruct (handler =? 0); [done|]. destruct (_ && _); [done|].
  destruct (decide (port ∈ dom (m_port_to_fd_map r))) as [Hin|Hin].
  - apply elem_of_dom in Hin as [s ->]. done.
  - apply not_elem_of_dom in Hin as ->. done.
Qed.

(** [unsubscribe]: a port without a socket is reported with ENOENT.  For
    any other the socket leaves the loop and the interest list, its entry
    leaves the map, the descriptor is closed, and the other ports keep their
    sockets; the result is the one of the loop. *)
Theorem base_unsubscribe_spec port w :
  ndebug = true \/ owned_by_caller w ->
  match m_port_to_fd_map (base (w_obj w)) !! port with
  | None => base_unsubscribe ndebug port w =
              Ret (ResultVoid.fail (ErrorCode ENOENT system_category)) w
  | Some s => 0 <= fd s ->
      exists r w1 w', removeSource (fd s) w = Ret r w1 /\
        base_unsubscribe ndebug port w = Ret r w' /\
        w_loop w' = w_loop w1 /\ w_sys w' = snd (close (fd s) (w_sys w1)) /\
        w_obj w' = set_base (set_port_map (delete port) (base (w_obj w))) (w_obj w) /\
        source_of (w_loop w') (fd s) = Monostate /\ registered (w_sys w') !! fd s = None
  end.
Proof.
  intros Ho. unfold base_unsubscribe. rewrite (bind_Ret _ _ _ _ _ (checkThread_run w Ho)).
  unfold this_base. run_steps. destruct (m_port_to_fd_map (base (w_obj w)) !! port) as [s|] eqn:E; [|done].
  intros Hs. pose proof (removeSource_run (fd s) w) as Hr. destruct (Z.ltb_spec (fd s) 0); [lia|].
  destruct Hr as (r & w1 & E1 & Hsrc & _ & _ & Hobj & Hreg & _).
  rewrite (bind_Ret _ _ _ _ _ E1). unfold update_base. run_steps.
  unfold ScopedFd.destroy, close_fd. cbn [w_obj with_obj].
  destruct (Z.leb_spec 0 (fd s)); [|lia]. eexists r, w1, _. split; [done|]. split; [reflexivity|].
  cbn [w_loop w_sys w_obj with_sys with_obj]. split_and!; try done; [by rewrite Hobj|].
  apply eq_None_not_Some. intros [p Hp]. eapply lookup_weaken in Hp; [|apply close_registered].
  cbn [w_sys with_obj] in Hp. rewrite Hreg, lookup_delete_eq in Hp. done.
Qed.
End Sockets.

(** ** The destructor *)

Lemma elem_of_ports_of (m : gmap Z ScopedFd) port : port ∈ ports_of m <-> is_Some (m !! port).
Proof.
  unfold ports_of. rewrite (merge_sort_Permutation Z.le). rewrite list_elem_of_fmap. split.
  - intros ([k s] & -> & H%elem_of_map_to_list). by exists s.
  - intros [s H]. exists (port, s). split; [done|]. by apply elem_of_map_to_list.
Qed.

Section Destructor.
Context {T O Y : Type} {RK : ReactorKernel Y} {RL : ReactorLaws Y} {MK : MemoryKernel Y}
  {HB : HasBase O} {HL : HasBaseLaws O}.
Notation W := (world T O Y).
Implicit Types w : W.

(** From [w] to [w'] sources only disappear. *)
Definition fewer_sources w w' : Prop :=
  w_obj w' = w_obj w /\ registered (w_sys w') ⊆ registered (w_sys w) /\
  forall f, source_of (w_loop w) f = Monostate -> source_of (w_loop w') f = Monostate.

Lemma fewer_sources_trans w w' w'' : fewer_sources w w' -> fewer_sources w' w'' -> fewer_sources w w''.
Proof. intros (E1 & R1 & S1) (E2 & R2 & S2). split_and!; [by rewrite E2|by etransitivity|auto]. Qed.

(** The descriptor is gone from the loop and from epoll. *)
Definition gone f w : Prop := source_of (w_loop w) f = Monostate /\ registered (w_sys w) !! f = None.

Lemma gone_fewer f w w' : fewer_sources w w' -> gone f w -> gone f w'.
Proof.
  intros (_ & R & Hs) [H1 H2]. split; [auto|]. apply eq_None_not_Some. intros [p Hp].
  eapply lookup_weaken in Hp; [|exact R]. by rewrite H2 in Hp.
Qed.

Lemma removeSource_gone f w : 0 <= f ->
  exists r w', removeSource f w = Ret r w' /\ fewer_sources w w' /\ gone f w'.
Proof.
  intros Hf. pose proof (removeSource_run f w) as H. destruct (Z.ltb_spec f 0); [lia|].
  destruct H as (r & w' & E & Hs & Hoth & _ & Hobj & Hreg & _). exists r, w'. split; [done|].
  split; [|split; [done|by rewrite Hreg, lookup_delete_eq]].
  split_and!; [done|rewrite Hreg; apply delete_subseteq|].
  intros f' Hf'. destruct (decide (f' = f)) as [->|Hne]; [done|by rewrite Hoth].
Qed.

Lemma remove_all (m : gmap Z ScopedFd) ps w :
  (forall port s, m !! port = Some s -> 0 <= fd s) ->
  exists w', for_each ps (fun port =>
      match m !! port with Some s => removeSource (fd s) ;; mret tt | None => mret tt end) w = Ret tt w' /\
    fewer_sources w w' /\ forall port s, port ∈ ps -> m !! port = Some s -> gone (fd s) w'.
Proof.
  intros Hm. revert w. induction ps as [|p ps IH]; intros w.
  { exists w. split_and!; try done. intros port s Hp. by apply elem_of_nil in Hp. }
  cbn [for_each]. destruct (m !! p) as [s|] eqn:E.
  - destruct (removeSource_gone (fd s) w) as (r & w1 & E1 & Hf1 & Hg1); [by eapply Hm|].
    rewrite bind_assoc, (bind_Ret _ _ _ _ _ E1), bind_mret.
    destruct (IH w1) as (w2 & E2 & Hf2 & Hg2). exists w2. split; [done|].
    split; [by eapply fewer_sources_trans|].
    intros port s' [->|Hp]%elem_of_cons Hs'; [|by eapply Hg2]. simplify_eq. by eapply gone_fewer.
  - rewrite bind_mret. destruct (IH w) as (w2 & E2 & Hf2 & Hg2). exists w2. split; [done|]. split; [done|].
    intros port s' [->|Hp]%elem_of_cons Hs'; [simplify_eq|by eapply Hg2].
Qed.

Lemma close_all (m : gmap Z ScopedFd) ps w :
  exists y, for_each ps (fun port =>
      match m !! port with Some s => ScopedFd.destroy close_fd s | None => mret tt end) w =
    Ret tt (with_sys y w) /\ registered y ⊆ registered (w_sys w).
Proof.
  revert w. induction ps as [|p ps IH]; intros w; [exists (w_sys w); split; [by destruct w|done]|].
  cbn [for_each].
  assert (Hone : exists y, match m !! p with Some s => ScopedFd.destroy close_fd s | None => mret tt end w =
      Ret tt (with_sys y w) /\ registered y ⊆ registered (w_sys w)).
  { destruct (m !! p) as [s|]; [|exists (w_sys w); split; [by destruct w|done]].
    unfold ScopedFd.destroy. destruct (0 <=? fd s); [|exists (w_sys w); split; [by destruct w|done]].
    eexists. split; [reflexivity|apply close_registered]. }
  destruct Hone as (y1 & E1 & Hy1). rewrite (bind_Ret _ _ _ _ _ E1).
  destruct (IH (with_sys y1 w)) as (y2 & E2 & Hy2). exists y2. split; [by rewrite E2|by etransitivity].
Qed.

(** The destructor returns. *)
Lemma PacketReceiver_delete_run w :
  (forall port s, m_port_to_fd_map (base (w_obj w)) !! port = Some s -> 0 <= fd s) ->
  exists w', PacketReceiver_delete w = Ret tt w'.
Proof.
  intros Hm. unfold PacketReceiver_delete, this_base. rewrite bind_gets.
  destruct (remove_all (m_port_to_fd_map (base (w_obj w))) (ports_of (m_port_to_fd_map (base (w_obj w)))) w Hm)
    as (w1 & E1 & _). rewrite (bind_Ret _ _ _ _ _ E1).
  assert (Hun : exists w2, (if negb (m_hugeBuffer (base (w_obj w)) =? 0) && negb (m_hugeBuffer (base (w_obj w)) =? MAP_FAILED)
      then sys (munmap (m_hugeBuffer (base (w_obj w))) (m_mappedSize (base (w_obj w)))) ;; mret tt else mret tt) w1 = Ret tt w2)
    by (destruct (_ && _); by eexists).
  destruct Hun as (w2 & E2). rewrite (bind_Ret _ _ _ _ _ E2).
  destruct (close_all (m_port_to_fd_map (base (w_obj w))) (ports_of (m_port_to_fd_map (base (w_obj w)))) w2) as (y3 & E3 & _).
  rewrite (bind_Ret _ _ _ _ _ E3). by eexists.
Qed.

(** C30 The destructor: it cannot fail, and it leaves no socket of the
    receiver behind: every descriptor of the map has left the loop and the
    interest list of epoll before its descriptor is closed, so no event can
    reach the destroyed object; nothing new is registered. *)
Theorem PacketReceiver_delete_spec w :
  (forall a n y, registered (snd (munmap a n y)) = registered y) ->
  let m := m_port_to_fd_map (base (w_obj w)) in
  (forall port s, m !! port = Some s -> 0 <= fd s) ->
  exists w', PacketReceiver_delete w = Ret tt w' /\
    m_port_to_fd_map (base (w_obj w')) = ∅ /\
    (forall port s, m !! port = Some s -> gone (fd s) w') /\
    registered (w_sys w') ⊆ registered (w_sys w).
Proof.
  intros Hun m Hm. unfold PacketReceiver_delete, this_base. rewrite bind_gets. fold m.
  destruct (remove_all m (ports_of m) w Hm) as (w1 & E1 & Hf1 & Hg1). rewrite (bind_Ret _ _ _ _ _ E1).
  assert (Hun' : exists y, (if negb (m_hugeBuffer (base (w_obj w)) =? 0) && negb (m_hugeBuffer (base (w_obj w)) =? MAP_FAILED)
      then sys (munmap (m_hugeBuffer (base (w_obj w))) (m_mappedSize (base (w_obj w)))) ;; mret tt else mret tt) w1 =
      Ret tt (with_sys y w1) /\ registered y = registered (w_sys w1)).
  { destruct (_ && _); [eexists; split; [reflexivity|apply Hun]|exists (w_sys w1); by destruct w1]. }
  destruct Hun' as (y2 & E2 & Hy2). rewrite (bind_Ret _ _ _ _ _ E2).
  destruct (close_all m (ports_of m) (with_sys y2 w1)) as (y3 & E3 & Hy3). rewrite (bind_Ret _ _ _ _ _ E3).
  cbn [w_sys with_sys] in Hy3. rewrite Hy2 in Hy3.
  eexists. split; [reflexivity|]. cbn [w_obj w_loop w_sys with_obj with_sys]. split_and!.
  - by rewrite base_set.
  - intros port s Hs. destruct (Hg1 port s) as [H1 H2]; [apply elem_of_ports_of; by eexists|done|].
    split; [done|]. cbn. apply eq_None_not_Some. intros [p Hp].
    eapply lookup_weaken in Hp; [|exact Hy3]. by rewrite H2 in Hp.
  - etransitivity; [exact Hy3|apply Hf1].
Qed.
End Destructor.
