(* ===== verification/PcapControl.v ===== *)
(** Subscription, pacing and scheduling of the capture replay. *)
From S2P Require Import Prelude Outcome Result Kernel SimKernel ScopedFd TimerQueue EventLoop.
From S2P Require Import EventLoopFacts TimerFacts Recorder PcapFormat Float64 PacketReceiver.
From S2P Require Import PcapReceiver PcapDispatch PcapFrames PcapReplay PcapOpen.

(** ** Subscription *)

Section Subscription.
Context {U Y : Type} {RK : ReactorKernel Y} {MK : MemoryKernel Y}.
Notation W := (world (task U) PcapReceiver Y).
Notation Mw := (M W).
Context (ndebug : bool).
Implicit Types (w : W) (p : PcapReceiver).

Lemma base_subscribe_empty port context handler w :
  owner_thread ndebug w -> m_port_to_fd_map (pcap_base (w_obj w)) = ∅ ->
  base_subscribe ndebug port context handler w =
    Ret (if handler =? 0 then Error (ErrorCode EINVAL system_category) else Value 0) w.
Proof.
  intros Ho Hmap. unfold base_subscribe. rewrite (bind_Ret _ _ _ _ _ (checkThread_passes ndebug w Ho)).
  unfold this_base. run_steps. cbn [base PcapReceiver_HasBase]. rewrite Hmap, map_size_empty, lookup_empty.
  destruct (handler =? 0); [done|].
  destruct (Z.ltb_spec 0 (maxFds (m_config (pcap_base (w_obj w))))); [|done].
  change (Z.of_nat 0) with 0.
  destruct (Z.leb_spec (maxFds (m_config (pcap_base (w_obj w)))) 0); [lia|done].
Qed.

Lemma pcap_subscribe_run port context handler w :
  owner_thread ndebug w -> m_port_to_fd_map (pcap_base (w_obj w)) = ∅ -> handler <> 0 ->
  subscribe ndebug port context handler w =
    Ret (Value port)
      (with_obj (fun p => set_portTable
         (<[htons port := MkSubscription context handler]> (m_portTable p)) p) w).
Proof.
  intros Ho Hmap Hne. unfold subscribe. rewrite bind_run, base_subscribe_empty by done.
  by destruct (Z.eqb_spec handler 0).
Qed.

(** [subscribe]: a null handler is refused with EINVAL, and nothing
    changes.  Any other call succeeds, whatever the port had before: the
    port's subscription becomes the new one, no other port's changes, and
    the limit on descriptors is never met, because no port of this receiver
    is ever entered in the base class's map. *)
Theorem pcap_subscribe_spec port context handler w :
  owner_thread ndebug w -> is_u16 port -> m_port_to_fd_map (pcap_base (w_obj w)) = ∅ ->
  if handler =? 0
  then subscribe ndebug port context handler w =
         Ret (Error (ErrorCode EINVAL system_category)) w
  else exists w', subscribe ndebug port context handler w = Ret (Value port) w' /\
    subscribed (w_obj w') (htons port) = Some (MkSubscription context handler) /\
    (forall port', is_u16 port' -> port' <> port ->
       subscribed (w_obj w') (htons port') = subscribed (w_obj w) (htons port')) /\
    m_port_to_fd_map (pcap_base (w_obj w')) = ∅ /\ w_loop w' = w_loop w /\ w_sys w' = w_sys w.
Proof.
  intros Ho Hport Hmap. destruct (Z.eqb_spec handler 0) as [->|Hne0].
  { unfold subscribe. by rewrite bind_run, base_subscribe_empty. }
  eexists. split; [by apply pcap_subscribe_run|].
  unfold subscribed. cbn [w_obj with_obj m_portTable set_portTable pcap_base].
  split_and!; [rewrite lookup_insert_eq; cbn; by destruct (Z.eqb_spec handler 0)| |done..].
  intros port' Hp' Hne. rewrite lookup_insert_ne; [done|].
  intros E. apply Hne. rewrite <- (bswap16_involutive port), <- (bswap16_involutive port') by done.
  unfold htons in E. by rewrite E.
Qed.

(** [unsubscribe] never succeeds on this receiver: it looks the port up in
    the base class's map, which is empty, and reports ENOENT; the
    subscription stays in the port table, and its packets are delivered as
    before. *)
Theorem pcap_unsubscribe_fails port w :
  owner_thread ndebug w -> m_port_to_fd_map (pcap_base (w_obj w)) = ∅ ->
  unsubscribe ndebug port w = Ret (ResultVoid.fail (ErrorCode ENOENT system_category)) w.
Proof.
  intros Ho Hmap. unfold unsubscribe, base_unsubscribe.
  rewrite bind_assoc, (bind_Ret _ _ _ _ _ (checkThread_passes ndebug w Ho)).
  unfold this_base. run_steps. cbn [base PcapReceiver_HasBase]. by rewrite Hmap, lookup_empty.
Qed.

Context (call_handler : Z -> Z -> Z -> Z -> Z -> timespec -> Mw unit).

(** The hot entry decides, whatever the table says. *)
Lemma encoded_packet_hot ts packet pk w :
  let n := Z.of_nat (length (encode_packet pk)) in
  let len := Z.of_nat (length (up_payload pk)) in
  packet_ok pk -> bytes_ok (m_mapping (w_obj w)) ->
  stored (m_mapping (w_obj w)) packet (encode_packet pk) ->
  (m_linkType (w_obj w) = DLT_EN10MB -> link_type (up_link pk) = DLT_EN10MB) ->
  m_hotPort (w_obj w) = htons (up_port pk) -> m_hotHandler (w_obj w) <> 0 ->
  parseAndDispatch call_handler ts n n packet (link_type (up_link pk)) w =
    call_handler (m_hotHandler (w_obj w)) (m_hotContext (w_obj w)) (packet + (n - len)) len OK ts w.
Proof.
  intros n len Hp Hm Hst Hlt Hport Hhot.
  destruct (encoded_located pk w packet Hp Hm Hst) as (Hin & Hn & Hloc & Hpb & Hul & Hlen & Hoff & Hlen0).
  fold n in Hin, Hn, Hloc, Hlen. fold len in Hul, Hlen, Hlen0.
  rewrite (parseAndDispatch_spec call_handler w packet n) by (done || lia). rewrite Z.eqb_refl.
  unfold dispatch_spec. rewrite Hloc. unfold udp_part. rewrite <- !(Z.add_assoc packet (udp_offset pk)).
  rewrite (ld16_frame _ _ _ Hm Hin) by lia. rewrite <- (Z.add_assoc _ 2 1). change (2 + 1) with 3.
  rewrite Hpb. unfold lookup_port. rewrite bind_assoc, bind_this, Hport, Z.eqb_refl.
  destruct (Z.eqb_spec (m_hotHandler (w_obj w)) 0); [done|]. cbn [negb orb]. rewrite bind_mret. cbn [negb].
  rewrite (ld16_frame _ _ _ Hm Hin) by lia. rewrite <- (Z.add_assoc _ 4 1). change (4 + 1) with 5.
  rewrite ntohs_le16, Hul by (by apply frame_u8). unfold sizeof_udphdr.
  destruct (Z.ltb_spec (8 + len) 8); [lia|]. destruct (Z.ltb_spec (n - udp_offset pk) (8 + len)); [lia|].
  unfold call_hot. rewrite bind_this. replace (udp_offset pk + 8) with (n - len) by lia.
  by replace (8 + len - 8) with len by lia.
Qed.

(** C35 Subscribing again does not reach the cache: while the port is the hot
    one, its datagrams go on to the handler and context of the earlier
    subscription, although the table has the new one. *)
Theorem resubscribe_keeps_hot ts packet pk context handler w :
  let n := Z.of_nat (length (encode_packet pk)) in
  let len := Z.of_nat (length (up_payload pk)) in
  owner_thread ndebug w -> m_port_to_fd_map (pcap_base (w_obj w)) = ∅ -> handler <> 0 ->
  packet_ok pk -> bytes_ok (m_mapping (w_obj w)) ->
  stored (m_mapping (w_obj w)) packet (encode_packet pk) ->
  (m_linkType (w_obj w) = DLT_EN10MB -> link_type (up_link pk) = DLT_EN10MB) ->
  m_hotPort (w_obj w) = htons (up_port pk) -> m_hotHandler (w_obj w) <> 0 ->
  exists w', subscribe ndebug (up_port pk) context handler w = Ret (Value (up_port pk)) w' /\
    subscribed (w_obj w') (htons (up_port pk)) = Some (MkSubscription context handler) /\
    parseAndDispatch call_handler ts n n packet (link_type (up_link pk)) w' =
      call_handler (m_hotHandler (w_obj w)) (m_hotContext (w_obj w)) (packet + (n - len)) len OK ts w'.
Proof.
  intros n len Ho Hmap Hne Hp Hm Hst Hlt Hport Hhot.
  pose proof (pcap_subscribe_run (up_port pk) context handler w Ho Hmap Hne) as E.
  eexists. split; [exact E|]. split.
  - unfold subscribed. cbn [w_obj with_obj m_portTable set_portTable]. rewrite lookup_insert_eq.
    cbn [sub_handler]. by destruct (Z.eqb_spec handler 0).
  - set (w' := with_obj _ w). exact (encoded_packet_hot ts packet pk w' Hp Hm Hst Hlt Hport Hhot).
Qed.
End Subscription.

(** ** Pacing *)

Section Pacing.
Context {U Y : Type} {RK : ReactorKernel Y} {RL : ReactorLaws Y}.
Notation W := (world (task U) PcapReceiver Y).
Notation Mw := (M W).
Implicit Types (w : W) (p : PcapReceiver).

(** A time stamp of a classic file: 32-bit seconds, a 32-bit fraction. *)
Definition file_time (ts : timespec) : Prop := is_u32 (tv_sec ts) /\ 0 <= tv_nsec ts < 2 ^ 32 * 1000.

Definition normal_speed p : Prop := f64_eqb (speedMultiplier (m_pcapConfig p)) f64_one = true.

(** The replay has started: the instant of its start is one of the clock,
    the time of its first packet one of the file. *)
Definition started p : Prop :=
  m_firstPacket p = false /\ file_time (m_pcapStartTs p) /\ 0 <= m_wallStartTs p < clock_limit.

Definition target_of p (ts : timespec) : Z := m_wallStartTs p + (ns_of ts - ns_of (m_pcapStartTs p)).

(** The difference of two time stamps: its nanoseconds are borrowed when they
    are negative. *)
Lemma difference_run ds dn w :
  - 2 ^ 32 <= ds <= 2 ^ 32 -> - 2 ^ 32 * 1000 <= dn <= 2 ^ 32 * 1000 ->
  exists s n, (if dn <? 0 then sec1 ← s64 (ds - 1); ns1 ← s64 (dn + 1000000000); mret (sec1, ns1) else mret (ds, dn)) w =
      Ret (s, n) w /\
    s * 1000000000 + n = ds * 1000000000 + dn /\
    - 2 ^ 32 - 1 <= s <= 2 ^ 32 /\ - 2 ^ 33 * 1000 <= n <= 2 ^ 33 * 1000.
Proof.
  intros Hds Hdn. destruct (Z.ltb_spec dn 0); [|exists ds, dn; split; [done|lia]].
  s64_step. s64_step. eexists _, _. split; [done|lia].
Qed.

(** The target time, as the scheduling uses it. *)
Lemma target_time_run ts w :
  normal_speed (w_obj w) -> file_time ts ->
  (m_firstPacket (w_obj w) = true ->
     calculateTargetTimeHighRes ts w =
       let '(now, y) := steady_now (w_sys w) in
       Ret now (World (w_loop w) (set_timing ts now false (w_obj w)) y)) /\
  (started (w_obj w) -> calculateTargetTimeHighRes ts w = Ret (target_of (w_obj w) ts) w).
Proof.
  intros Hspeed [Hs Hn]. unfold calculateTargetTimeHighRes. rewrite bind_this. split.
  - intros ->. run_steps. by destruct (steady_now (w_sys w)).
  - intros (Hf & [Hs0 Hn0] & Hw). rewrite Hf. unfold clock_limit, is_u32, target_of, ns_of in *.
    s64_step.
    s64_step.
    set (dn := tv_nsec ts - _) in *. set (ds := tv_sec ts - _) in *.
    destruct (difference_run ds dn w) as (s & n & E & Hsum & Hrs & Hrn); [lia..|]. rewrite (bind_Ret _ _ _ _ _ E), Hspeed. cbn [negb].
    rewrite bind_mret. cbn [fst snd].
    s64_step.
    s64_step.
    rewrite s64_in by (unfold is_s64; lia). f_equal. lia.
Qed.

(** At normal speed the first packet plays at once, and fixes the origin;
    every later packet plays at the distance of its time stamp from that of
    the first, to the nanosecond and without overflow, for all the time
    stamps a classic file can hold. *)
Theorem target_time_exact ts w :
  normal_speed (w_obj w) -> file_time ts ->
  (m_firstPacket (w_obj w) = true ->
     calculateTargetTimeHighRes ts w =
       let '(now, y) := steady_now (w_sys w) in
       Ret now (World (w_loop w) (set_timing ts now false (w_obj w)) y)) /\
  (started (w_obj w) -> calculateTargetTimeHighRes ts w = Ret (target_of (w_obj w) ts) w).
Proof. exact (target_time_run ts w). Qed.

(** In TIMED mode, with the target time [t]: the check reads the clock, and
    before [t] schedules the batch again. *)
Lemma too_early_eq ts t w :
  mode (m_pcapConfig (w_obj w)) = TIMED -> calculateTargetTimeHighRes ts w = Ret t w ->
  t <= clock (w_sys w) + 2 ^ 62 ->
  let now := now_of w in
  let delay := Z.quot (t - now) 1000000 in
  too_early ts w =
    (if now <? t then runAfter delay (Some ProcessBatch) ;; mret true else mret false)
      (with_sys (snd (steady_now (w_sys w))) w) /\
  (now < t -> 0 <= delay <= max_delay).
Proof.
  intros Hmode Ht Hd now delay. unfold too_early. rewrite bind_this, decide_True by done.
  rewrite (bind_Ret _ _ _ _ _ Ht), bind_clock_now. change (fst (steady_now (w_sys w))) with now.
  pose proof (steady_now_clock (w_sys w)) as [Hc1 _]. fold (now_of w) in Hc1. fold now in Hc1.
  split; [|unfold delay; intros Hlt; rewrite Z.quot_div_nonneg by lia; unfold max_delay; zlia].
  destruct (Z.ltb_spec now t); [|done]. by s64_step.
Qed.

(** The first packet is never early at any speed, and fixes the origin of the
    pacing. *)
Lemma too_early_origin ts w :
  mode (m_pcapConfig (w_obj w)) = TIMED -> m_firstPacket (w_obj w) = true ->
  let y := snd (steady_now (w_sys w)) in
  too_early ts w = Ret false (World (w_loop w) (set_timing ts (now_of w) false (w_obj w)) (snd (steady_now y))).
Proof.
  intros Hmode Hfirst y. unfold too_early. rewrite bind_this, decide_True by done.
  unfold calculateTargetTimeHighRes. rewrite bind_assoc, bind_this, Hfirst. run_steps. cbn [w_sys with_obj with_sys].
  pose proof (steady_now_clock (w_sys w)) as [_ Hc]. pose proof (steady_now_clock y) as [Hc1 _].
  fold y. destruct (Z.ltb_spec (fst (steady_now y)) (fst (steady_now (w_sys w)))); [fold y in Hc; lia|done].
Qed.

(** A later packet's target is within the range of a delay. *)
Lemma target_bound p ts (y : Y) :
  file_time ts -> started p -> m_wallStartTs p <= clock y -> target_of p ts <= clock y + 2 ^ 62.
Proof. intros [? ?] (_ & [? ?] & ?) ?. unfold target_of, ns_of, is_u32 in *. lia. Qed.

(** ... so that the packet is held back exactly while the clock is before [t]. *)
Lemma held_back ts t w :
  mode (m_pcapConfig (w_obj w)) = TIMED -> calculateTargetTimeHighRes ts w = Ret t w ->
  t <= clock (w_sys w) + 2 ^ 62 -> loop_ok (w_loop w) ->
  let now := now_of w in
  exists w', too_early ts w = Ret (now <? t) w' /\ w_obj w' = w_obj w /\
    if now <? t
    then exists now', let id := m_nextTimerId (w_loop w) in
      let delay := Z.quot (t - now) 1000000 in
      now <= now' /\ loop_ok (w_loop w') /\
      m_timers (w_loop w') =
        set_insert (MkTimer (now' + delay * 1000000) 0 (Some ProcessBatch) id false) (m_timers (w_loop w))
    else w_loop w' = w_loop w.
Proof.
  intros Hmode Ht Hd Hok now. destruct (too_early_eq ts t w Hmode Ht Hd) as [-> Hq]. fold now in Hq |- *.
  pose proof (steady_now_clock (w_sys w)) as [Hc1 Hc2]. fold (now_of w) in Hc1, Hc2. fold now in Hc1, Hc2.
  destruct (Z.ltb_spec now t) as [Hlt|Hge]; [|eexists; split; [reflexivity|done]].
  specialize (Hq Hlt). set (w1 := with_sys _ w).
  pose proof (runAfter_run (Z.quot (t - now) 1000000) (Some ProcessBatch) w1 Hok ltac:(lia)) as Hrun.
  destruct (Z.ltb_spec (Z.quot (t - now) 1000000) 0); [lia|].
  destruct Hrun as (w' & E & Htm & _ & _ & Hok' & Hobj). rewrite (bind_Ret _ _ _ _ _ E).
  exists w'. split; [done|]. split; [done|]. exists (now_of w1). split; [|done].
  rewrite <- Hc2. apply steady_now_clock.
Qed.

(** In TIMED mode a packet is never played before its time: [too_early]
    answers no only at or after the target; otherwise the receiver and its
    cursor stay as they are and the batch is scheduled again, a one-shot
    timer for the whole milliseconds that are left. *)
Theorem timed_never_early ts w :
  mode (m_pcapConfig (w_obj w)) = TIMED -> normal_speed (w_obj w) -> file_time ts ->
  started (w_obj w) -> m_wallStartTs (w_obj w) <= clock (w_sys w) -> loop_ok (w_loop w) ->
  let now := now_of w in
  exists w', too_early ts w = Ret (now <? target_of (w_obj w) ts) w' /\ w_obj w' = w_obj w /\
    if now <? target_of (w_obj w) ts
    then exists now', let id := m_nextTimerId (w_loop w) in
      let delay := Z.quot (target_of (w_obj w) ts - now) 1000000 in
      now <= now' /\ loop_ok (w_loop w') /\
      m_timers (w_loop w') =
        set_insert (MkTimer (now' + delay * 1000000) 0 (Some ProcessBatch) id false) (m_timers (w_loop w))
    else w_loop w' = w_loop w.
Proof.
  intros Hmode Hspeed Hts Hst Hwall Hok. apply held_back; [done|by apply target_time_run|by apply target_bound|done].
Qed.
End Pacing.

(** ** Scheduling *)

Section Scheduling.
Context {U Y : Type} {RK : ReactorKernel Y} {RL : ReactorLaws Y} {MK : MemoryKernel Y}.
Notation W := (world (task U) PcapReceiver Y).
Context (ndebug : bool) (emit : delivery -> Y -> Y).
Implicit Types (w : W) (p : PcapReceiver).

(** [start]: without a file nothing happens; otherwise the next packet
    becomes the origin of the pacing, and in the TIMED and FLOOD modes
    exactly one batch is scheduled, at once, on the loop; in the STEP mode
    none is. *)
Theorem start_spec w :
  owner_thread ndebug w -> loop_ok (w_loop w) ->
  let p1 := set_timing (m_pcapStartTs (w_obj w)) (m_wallStartTs (w_obj w)) true (w_obj w) in
  if m_mappedData (w_obj w) =? 0 then start ndebug w = Ret tt w
  else if decide (mode (m_pcapConfig (w_obj w)) = STEP)
  then start ndebug w = Ret tt (World (w_loop w) p1 (w_sys w))
  else exists w', start ndebug w = Ret tt w' /\ w_obj w' = p1 /\ loop_ok (w_loop w') /\
    m_timers (w_loop w') =
      set_insert (MkTimer (now_of w) 0 (Some ProcessBatch) (m_nextTimerId (w_loop w)) false)
        (m_timers (w_loop w)).
Proof.
  intros Ho Hok p1. unfold start. rewrite (bind_Ret _ _ _ _ _ (checkThread_passes ndebug w Ho)), bind_this.
  destruct (m_mappedData (w_obj w) =? 0); [done|]. rewrite bind_assign.
  change (m_mappedData (w_obj w)) with (m_mappedData (w_obj w)).
  destruct (decide (mode (m_pcapConfig (w_obj w)) = STEP)); [done|].
  set (w1 := with_obj _ w).
  pose proof (runAfter_run 0 (Some ProcessBatch) w1 Hok ltac:(unfold max_delay; lia)) as H.
  destruct (Z.ltb_spec 0 0); [lia|]. destruct H as (w' & E & Htm & _ & _ & Hok' & Hobj).
  rewrite (bind_Ret _ _ _ _ _ E). exists w'. split_and!; try done.
  rewrite Htm. do 2 f_equal. change (now_of w1) with (now_of w). lia.
Qed.

(** Records ahead of the cursor. *)
Definition ahead w (rs : list pcap_record) (l : list Z) : Prop :=
  Forall record_ok rs /\
  stored (m_mapping (w_obj w)) (m_currentPtr (w_obj w)) (encode_records (m_swapped (w_obj w)) rs ++ l).

Lemma encode_records_app sw rs1 rs2 :
  encode_records sw (rs1 ++ rs2) = encode_records sw rs1 ++ encode_records sw rs2.
Proof. unfold encode_records. by rewrite fmap_app, concat_app. Qed.

Lemma deliveries_app p a rs1 rs2 :
  deliveries p a (rs1 ++ rs2) = deliveries p a rs1 ++ deliveries p (a + records_size rs1) rs2.
Proof.
  revert a. induction rs1 as [|r rs1 IH]; intros a; [cbn; by rewrite Z.add_0_r|].
  cbn [app deliveries records_size foldr]. rewrite IH, app_assoc. do 2 f_equal. unfold records_size. lia.
Qed.

(** A burst of exactly the records ahead. *)
Lemma burst w rs1 rs2 l :
  replay_ready (w_obj w) -> ahead w (rs1 ++ rs2) l ->
  exists p', steps (recorder emit) (length rs1) w =
      Ret true (World (w_loop w) p' (emit_all emit (deliveries (w_obj w) (m_currentPtr (w_obj w)) rs1) (w_sys w))) /\
    replaying (w_obj w) p' /\ m_currentPtr p' = m_currentPtr (w_obj w) + records_size rs1 /\
    forall y l', ahead (World l' p' y) rs2 l.
Proof.
  intros Hready [Hrs Hst]. apply Forall_app in Hrs as [Hrs1 Hrs2].
  rewrite encode_records_app, <- app_assoc in Hst.
  destruct (steps_records emit w rs1 _ 0 Hready Hrs1 Hst) as (p' & E & Hp' & Hc).
  rewrite Nat.add_0_r in E. exists p'. split_and!; try done.
  intros y l'. split; [done|]. cbn [w_obj].
  apply stored_app_r in Hst. rewrite encode_records_length in Hst. rewrite Hc.
  by destruct Hp' as (_ & c & port & h & ctx & ->).
Qed.

(** One call of [processBatch] in FLOOD mode plays two bursts: after the
    20000 packets of [processBatchFlood] it goes on with 10000 of its own,
    and both leave a task behind, so that the number of tasks on the loop
    grows from pass to pass while the file lasts. *)
Theorem flood_schedules_twice w rs1 rs2 rs3 l :
  replay_ready (w_obj w) -> mode (m_pcapConfig (w_obj w)) = FLOOD ->
  m_mappedData (w_obj w) <> 0 -> m_finished (w_obj w) = false ->
  length rs1 = Z.to_nat 20000 -> length rs2 = Z.to_nat 10000 -> ahead w (rs1 ++ rs2 ++ rs3) l ->
  exists w', processBatch (recorder emit) w = Ret tt w' /\
    m_pendingTasks (w_loop w') =
      m_pendingTasks (w_loop w) ++ [Some ProcessBatchFlood; Some ProcessBatch] /\
    w_sys w' = emit_all emit (deliveries (w_obj w) (m_currentPtr (w_obj w)) (rs1 ++ rs2)) (w_sys w).
Proof.
  intros Hready Hmode Hmap Hfin Hl1 Hl2 Ha. unfold processBatch. rewrite bind_this, Hfin.
  destruct (Z.eqb_spec (m_mappedData (w_obj w)) 0); [done|]. cbn [orb]. rewrite Hmode.
  rewrite !decide_True by done. unfold processBatchFlood.
  destruct (burst w rs1 (rs2 ++ rs3) l Hready Ha) as (p1 & E1 & Hp1 & Hc1 & Ha1).
  rewrite bind_assoc. rewrite Hl1 in E1. rewrite (bind_Ret _ _ _ _ _ E1). cbn [negb].
  rewrite bind_assoc, bind_this. cbn [w_obj].
  assert (Hf1 : m_finished p1 = false) by (by destruct Hp1 as (_ & c & port & h & ctx & ->)).
  rewrite Hf1. unfold runInLoop. rewrite bind_loop_set. set (w1 := with_loop _ _).
  destruct (burst w1 rs2 rs3 l) as (p2 & E2 & Hp2 & _ & _);
    [by eapply replay_ready_step|apply Ha1|].
  rewrite Hl2 in E2. rewrite (bind_Ret _ _ _ _ _ E2). cbn [negb]. rewrite bind_this. cbn [w_obj].
  assert (Hf2 : m_finished p2 = false) by (by destruct Hp2 as (_ & c & port & h & ctx & ->)).
  rewrite Hf2. eexists. split; [reflexivity|]. cbn [w_loop w_sys with_loop]. split.
  - unfold w1. cbn [w_loop with_loop m_pendingTasks set_pending]. by rewrite <- app_assoc.
  - unfold w1. cbn [w_sys w_obj with_loop]. rewrite Hc1, (deliveries_replaying _ _ _ _ Hp1).
    unfold emit_all. by rewrite deliveries_app, foldl_app.
Qed.

(** A finished replay can be rewound: the second replay of the file makes
    the same calls, with the same time stamps, as the first. *)
Theorem rewind_replays w rs l n :
  owner_thread ndebug w -> (forall d y, this_thread_id (emit d y) = this_thread_id y) ->
  replay_ready (w_obj w) -> ahead w rs l ->
  m_currentPtr (w_obj w) = m_mappedData (w_obj w) + sizeof_pcap_file_header ->
  file_end (w_obj w) = m_currentPtr (w_obj w) + records_size rs + Z.of_nat (length l) ->
  (length l < 16)%nat -> (length rs < n)%nat ->
  let ds := deliveries (w_obj w) (m_currentPtr (w_obj w)) rs in
  exists p', (steps (recorder emit) n ;; rewind ndebug ;; steps (recorder emit) n) w =
    Ret false (World (w_loop w) p' (emit_all emit (ds ++ ds) (w_sys w))).
Proof.
  intros Ho Htid Hready [Hrs Hst] Hc Hend Hl Hn ds.
  destruct (records_replayed emit w rs l n Hready Hrs Hn Hst Hend Hl) as (p1 & E1 & Hp1).
  fold ds in E1. rewrite (bind_Ret _ _ _ _ _ E1). unfold rewind.
  set (w1 := World _ _ _).
  assert (Ho1 : owner_thread ndebug w1).
  { destruct Ho as [Ho|Ho]; [by left|right]. unfold w1. cbn [w_sys w_obj].
    assert (Hall : forall ds y, this_thread_id (emit_all emit ds y) = this_thread_id y).
    { intros ds'. induction ds' as [|d ds' IH]; intros y; [done|].
      unfold emit_all in *. cbn [foldl]. by rewrite IH, Htid. }
    rewrite Hall, Ho. by destruct Hp1 as (_ & c & port & h & ctx & ->). }
  rewrite bind_assoc, (bind_Ret _ _ _ _ _ (checkThread_passes ndebug w1 Ho1)).
  pose proof (replay_ready_step _ _ Hready Hp1) as (Hf & Hm & Hng & Hok).
  run_steps. unfold w1. cbn [w_obj with_obj set_cursor set_finished m_isPcapNg]. rewrite Hng. run_steps.
  set (w2 := with_obj _ _).
  assert (Hw2 : replaying (w_obj w) p1 -> m_currentPtr (w_obj w2) = m_currentPtr (w_obj w) /\
    m_mapping (w_obj w2) = m_mapping (w_obj w) /\ m_swapped (w_obj w2) = m_swapped (w_obj w) /\
    file_end (w_obj w2) = file_end (w_obj w) /\
    deliveries (w_obj w2) (m_currentPtr (w_obj w)) rs = ds).
  { intros (_ & c & port & h & ctx & ->). split_and!; try done. by apply deliveries_ext. }
  destruct (Hw2 Hp1) as (Hc2 & Hm2 & Hs2 & He2 & Hd2).
  destruct (records_replayed emit w2 rs l n) as (p2 & E2 & _);
    [split; [by destruct Hf|done]|done|done| | |done|].
  - rewrite Hm2, Hc2, Hs2. exact Hst.
  - rewrite He2, Hc2. exact Hend.
  - exists (set_finished true p2). rewrite E2, Hc2, Hd2. unfold w2, w1. cbn [w_sys w_loop with_obj].
    unfold emit_all. by rewrite foldl_app.
Qed.
End Scheduling.
