(* ===== verification/PcapSpeed.v ===== *)
(** Pacing at any speed: the target times [calculateTargetTimeHighRes]
    computes in [double] when the speed is not 1, and what the TIMED mode makes
    of them. *)
From S2P Require Import Prelude Outcome Result Kernel SimKernel ScopedFd TimerQueue EventLoop Recorder.
From S2P Require Import EventLoopFacts TimerFacts PcapFormat Float64 FloatRounding PacketReceiver PcapReceiver PcapDispatch PcapControl.
From Stdlib Require Import QArith Qabs Qpower Lqa Floats.SpecFloat.

Local Open Scope Q_scope.

(** ** Seconds and nanoseconds

    A number of nanoseconds that an operation has rounded is divided by 10^9,
    rounded again and truncated: the seconds are those of the truncated
    nanoseconds.  The quotient is never rounded up to a whole second: the
    distance of a dividend below a whole second from it is at least its
    last place, and that is more than what the quotient is off. *)

Definition giga : Q := inject_Z 1000000000.

Lemma giga_bounds : p2 29 < giga < p2 30.
Proof. by split. Qed.

Lemma rounds_nonneg q v : rounds q v -> Qabs q < p2 53 -> 0 <= q -> 0 <= v.
Proof. intros H Hq Hk. exact (rounds_above q v 0 H Hq Hk). Qed.

Lemma rounds_bound q v : rounds q v -> Qabs q < p2 53 -> Qabs v <= p2 53.
Proof.
  intros H Hq. rewrite p2_Z by done. apply Qabs_Qle_condition. pose proof (proj1 (Qabs_Qlt_condition _ _) Hq) as Hq'.
  rewrite p2_Z in Hq' by done. split.
  - rewrite <- inject_Z_opp. apply (rounds_above q); [done..|]. rewrite inject_Z_opp. lra.
  - apply (rounds_below q); [done..|]. lra.
Qed.

Lemma quotient_below q t v k :
  rounds q t -> Qabs q < p2 53 -> 0 <= t -> t < inject_Z k * giga -> rounds (t / giga) v -> v < inject_Z k.
Proof.
  intros (n & e & Ht & Hn & _ & _ & Hu) Hq H0 Hlt (n' & g & _ & _ & _ & [_ Hv] & Hg).
  apply small_exponent in Hu; [|done]. pose proof giga_bounds as [G1 G2]. pose proof (p2_pos 29) as G0.
  pose proof (p2_pos e) as Hpe. pose proof (p2_pos g) as Hpg.
  assert (Hx : t / giga * giga == t) by (field; intros E; lra). set (x := t / giga) in *.
  assert (Hx0 : 0 <= x) by (apply Qle_shift_div_l; lra).
  assert (Htop : t <= p2 (53 + e)).
  { rewrite Ht, p2_add. apply Qmult_le_compat_r; [|lra]. rewrite p2_Z by done. apply inject_le. lia. }
  assert (Hnext : t + p2 e <= inject_Z k * giga).
  { unfold giga in *. rewrite <- inject_Z_mult in *. rewrite Ht in *. by apply multiple. }
  assert (Hgap : x + p2 (e - 30) < inject_Z k).
  { assert (E : p2 (e - 30) * p2 30 == p2 e) by (rewrite <- p2_add; by rewrite Z.sub_simpl_r). pose proof (p2_pos (e - 30)) as He30.
    apply (Qmult_lt_r _ _ giga); [lra|]. rewrite Qmult_plus_distr_l, Hx.
    assert (p2 (e - 30) * giga < p2 (e - 30) * p2 30) by (by apply Qmult_lt_l). lra. }
  assert (Hkey : (g <= e - 29)%Z -> v < inject_Z k).
  { intros Hge. assert (Hp : p2 g <= p2 (e - 30 + 1)) by (apply p2_le; lia). rewrite p2_add in Hp.
    change (p2 1) with 2 in Hp. lra. }
  destruct Hg as [Hg| ->].
  - apply Hkey. rewrite Qabs_pos in Hg by done. assert (g + 52 + 29 < 53 + e)%Z; [|lia].
    apply p2_lt_inv. rewrite p2_add. pose proof (p2_pos (g + 52)). nra.
  - destruct (Z.le_gt_cases (-1074) (e - 29)) as [|Hsmall]; [by apply Hkey|].
    assert (Hb : p2 (53 + e) <= p2 (-1)) by (apply p2_le; lia). change (p2 (-1)) with (1 # 2) in Hb.
    assert (H74 : p2 (-1074) <= p2 (-1)) by (apply p2_le; lia). change (p2 (-1)) with (1 # 2) in H74.
    assert (Hk : (0 < k)%Z) by (rewrite Zlt_Qlt; change (inject_Z 0) with 0; nra).
    assert (1 <= inject_Z k) by (apply (inject_le 1); lia). assert (1 < giga) by done. assert (x <= 1 # 2) by nra. lra.
Qed.

Lemma seconds_nonneg q t v T S :
  rounds q t -> Qabs q < p2 53 -> 0 <= q -> truncates t T -> rounds (t / giga) v -> truncates v S ->
  S = Z.quot T 1000000000.
Proof.
  intros Hr Hq Hq0 HT Hv HS. pose proof (rounds_nonneg _ _ Hr Hq Hq0) as Ht0. pose proof (rounds_bound _ _ Hr Hq) as Hb.
  assert (HTt : (0 <= T)%Z /\ inject_Z T <= t < inject_Z T + 1).
  { destruct HT as [HT|[Ht HT]].
    - split; [|exact (proj2 HT)]. assert (0 < T + 1)%Z; [|lia]. rewrite Zlt_Qlt, inject_Z_plus. qlra.
    - assert (0 <= T < 1)%Z as HT0; [|assert (T = 0)%Z as -> by lia; split; [lia|qlra]].
      split; [|rewrite Zlt_Qlt; qlra]. assert (0 < T + 1)%Z; [|lia]. rewrite Zlt_Qlt, inject_Z_plus. qlra. }
  destruct HTt as [HT0 [HT1 HT2]]. rewrite Z.quot_div_nonneg by lia. set (k := (T / 1000000000)%Z).
  assert (Hk : (k * 1000000000 <= T < (k + 1) * 1000000000 /\ 0 <= k)%Z) by (unfold k; zlia).
  destruct Hk as [[Hk1 Hk2] Hk0]. assert (Hk3 : (T + 1 <= (k + 1) * 1000000000)%Z) by lia.
  apply inject_le in Hk1, Hk3. rewrite inject_Z_mult in Hk1, Hk3. rewrite !inject_Z_plus in Hk3. fold giga in Hk1, Hk3.
  assert (Hg : 1 < giga) by done. assert (Hx : t / giga * giga == t) by (field; intros E; lra).
  assert (Hx0 : 0 <= t / giga) by (apply Qle_shift_div_l; lra).
  assert (Hxb : Qabs (t / giga) < p2 53).
  { rewrite Qabs_pos by done. rewrite Qabs_pos in Hb by done. apply Qlt_shift_div_r; [lra|]. assert (0 < p2 53) by done. nra. }
  assert (Hlow : inject_Z k <= v) by (apply (rounds_above _ _ _ Hv Hxb); apply Qle_shift_div_l; lra).
  assert (Hup : v < inject_Z (k + 1)).
  { apply (quotient_below q t v _ Hr Hq Ht0); [|done]. rewrite inject_Z_plus. qlra. }
  rewrite inject_Z_plus in Hup. change (inject_Z 1) with 1 in Hup. apply (truncates_unique v); [|done|by split|done].
  apply (rounds_nonneg _ _ Hv Hxb Hx0).
Qed.

Lemma seconds_of_nanoseconds q t v T S :
  rounds q t -> Qabs q < p2 53 -> truncates t T -> rounds (t / giga) v -> truncates v S -> S = Z.quot T 1000000000.
Proof.
  intros Hr Hq HT Hv HS. destruct (Qlt_le_dec q 0) as [Hneg|Hpos]; [|by apply (seconds_nonneg q t v)].
  assert (Z.opp S = Z.quot (- T) 1000000000)%Z as E; [|rewrite Z.quot_opp_l in E by done; lia].
  apply (seconds_nonneg (- q) (- t) (- v)); [by apply rounds_opp|by rewrite Qabs_opp|lra|by apply truncates_opp| |by apply truncates_opp].
  apply rounds_opp in Hv. eapply rounds_proper; [|reflexivity|exact Hv]. unfold Qdiv. ring.
Qed.

(** The nanoseconds are next to the quotient. *)
Lemma truncated_near q t z : rounds q t -> Qabs q < p2 53 -> truncates t z -> q - 1 < inject_Z z < q + 1.
Proof.
  intros Hr Hq Hz. split.
  - destruct (Qlt_le_dec (q - 1) (inject_Z z)) as [|Hle]; [done|].
    assert (Hup : inject_Z (z + 1) <= t) by (apply (rounds_above q); [done|done|rewrite inject_Z_plus; qlra]).
    rewrite inject_Z_plus in Hup. destruct Hz as [Hz|Hz]; qlra.
  - destruct (Qlt_le_dec (inject_Z z) (q + 1)) as [|Hle]; [done|].
    assert (Hlow : t <= inject_Z (z - 1)).
    { apply (rounds_below q); [done|done|]. unfold Z.sub. rewrite inject_Z_plus. change (inject_Z (- (1))) with (-1). lra. }
    unfold Z.sub in Hlow. rewrite inject_Z_plus in Hlow. change (inject_Z (- (1))) with (-1) in Hlow.
    destruct Hz as [Hz|Hz]; lra.
Qed.

(** ** The difference in [double] *)

Lemma integer_value z : (Z.abs z < 2 ^ 53)%Z -> finite (f64_of_Z z) /\ val (f64_of_Z z) == inject_Z z.
Proof.
  intros Hz. assert (Hb : Qabs (inject_Z z) < p2 900).
  { change (Qabs (inject_Z z)) with (inject_Z (Z.abs z)). apply inject_lt in Hz. rewrite <- p2_Z in Hz by done.
    assert (p2 53 <= p2 900) by (by apply p2_le). lra. }
  destruct (f64_of_Z_rounds z Hb) as [Hf Hr]. split; [done|].
  apply (rounds_exact _ _ z 0 Hr); [change (p2 0) with 1; lra|done|done].
Qed.

Lemma giga_value : finite f64_1e9 /\ val f64_1e9 == giga.
Proof. by apply integer_value. Qed.

(** The product is exact: 10^9 has nine factors 2, so that 53 bits are enough
    for the seconds of a file. *)
Lemma total_value s n :
  (Z.abs s <= 2 ^ 32 + 1)%Z -> (Z.abs n < 2 ^ 53)%Z -> (Z.abs (s * 1000000000 + n) < 2 ^ 53)%Z ->
  let x := f64_add (f64_mul (f64_of_Z s) f64_1e9) (f64_of_Z n) in
  finite x /\ val x == inject_Z (s * 1000000000 + n).
Proof.
  intros Hs Hn Hd x. destruct (integer_value s) as [Fs Vs]; [lia|]. destruct (integer_value n Hn) as [Fn Vn].
  destruct giga_value as [Fg Vg]. assert (Hbig : p2 63 <= p2 900) by (by apply p2_le). rewrite p2_Z in Hbig by done.
  assert (Hb : forall z, (Z.abs z < 2 ^ 63)%Z -> Qabs (inject_Z z) < p2 900).
  { intros z Hz. change (Qabs (inject_Z z)) with (inject_Z (Z.abs z)). apply inject_lt in Hz. by eapply Qlt_le_trans. }
  assert (Ep : val (f64_of_Z s) * val f64_1e9 == inject_Z (s * 1000000000)) by (by rewrite Vs, Vg, inject_Z_mult).
  destruct (f64_mul_rounds _ _ Fs Fg) as [Fp Rp]; [rewrite Ep; apply Hb; lia|].
  assert (Vp : val (f64_mul (f64_of_Z s) f64_1e9) == inject_Z (s * 1000000000)).
  { rewrite <- Ep. apply (rounds_exact _ _ (s * 1953125) 9 Rp); [|lia|done].
    rewrite Ep. change (p2 9) with (inject_Z 512). rewrite <- inject_Z_mult. by replace (s * 1953125 * 512)%Z with (s * 1000000000)%Z by lia. }
  assert (Es : val (f64_mul (f64_of_Z s) f64_1e9) + val (f64_of_Z n) == inject_Z (s * 1000000000 + n))
    by (by rewrite Vp, Vn, inject_Z_plus).
  destruct (f64_add_rounds (f64_mul (f64_of_Z s) f64_1e9) (f64_of_Z n) Fp Fn) as [Fx Rx].
  - eapply rounds_proper; [|reflexivity|exact Rp]. by rewrite Ep, Vp.
  - destruct (f64_of_Z_rounds n) as [_ Rn]; [apply Hb; lia|]. eapply rounds_proper; [|reflexivity|exact Rn]. by rewrite Vn.
  - rewrite Es. apply Hb. lia.
  - split; [done|]. rewrite <- Es. apply (rounds_exact _ _ (s * 1000000000 + n) 0 Rx); [|done|done].
    rewrite Es. change (p2 0) with 1. lra.
Qed.

(** ** The scaled difference *)

Section Speed.
Context {U Y : Type} {RK : ReactorKernel Y} {RL : ReactorLaws Y}.
Notation W := (world (task U) PcapReceiver Y).
Implicit Types (w : W) (p : PcapReceiver).

(** A speed is a positive number. *)
Definition positive_speed p : Prop := exists m e, speedMultiplier (m_pcapConfig p) = S754_finite false m e.
Definition speed_of p : Q := val (speedMultiplier (m_pcapConfig p)).

Lemma speed_pos p : positive_speed p -> 0 < speed_of p.
Proof.
  intros (m & e & E). unfold speed_of. rewrite E. cbn [val]. rewrite Qmult_1_l.
  apply Qmult_lt_0_compat; [by apply (inject_lt 0)|apply p2_pos].
Qed.

Lemma scale_difference_run s n w :
  let d := (s * 1000000000 + n)%Z in let q := inject_Z d / speed_of (w_obj w) in
  positive_speed (w_obj w) -> (Z.abs s <= 2 ^ 32 + 1)%Z -> (Z.abs n < 2 ^ 53)%Z -> (Z.abs d < 2 ^ 53)%Z -> Qabs q < p2 53 ->
  exists t, scale_difference s n w = Ret (Z.quot t 1000000000, Z.rem t 1000000000) w /\ q - 1 < inject_Z t < q + 1.
Proof.
  intros d q Hsp Hs Hn Hd Hq. unfold scale_difference. rewrite bind_this.
  destruct (total_value s n Hs Hn Hd) as [Fx Vx]. fold d in Vx. set (x := f64_add _ _) in *.
  pose proof (speed_pos _ Hsp) as Hpos. destruct Hsp as (m & e & Esp). unfold speed_of in *. set (y := speedMultiplier _) in *.
  assert (Eq : val x / val y == q) by (unfold q; by rewrite Vx).
  assert (Hbig : p2 53 < p2 900) by (by apply Qpower_lt_compat_l). assert (H62 : p2 53 < p2 62) by done.
  destruct (f64_div_rounds x y Fx) as [Ft Rt]; [by exists false, m, e|rewrite Eq; lra|].
  assert (Rt' : rounds q (val (f64_div x y))) by (eapply rounds_proper; [exact Eq|reflexivity|exact Rt]).
  set (t := f64_div x y) in *. pose proof (rounds_bound _ _ Rt' Hq) as Ht.
  destruct (trunc_truncates t Ft) as (z & Ez & Hz); [lra|].
  destruct giga_value as [_ Vg]. assert (Hg : 1 < giga) by done.
  assert (Eg : val t / val f64_1e9 == val t / giga) by (by rewrite Vg).
  assert (Hvb : Qabs (val t / giga) <= Qabs (val t)).
  { unfold Qdiv. rewrite Qabs_Qmult. rewrite <- (Qmult_1_r (Qabs (val t))) at 2.
    rewrite !(Qmult_comm (Qabs (val t))). apply Qmult_le_compat_r; [by compute|apply Qabs_nonneg]. }
  destruct (f64_div_rounds t f64_1e9 Ft) as [Fv Rv]; [by vm_compute; eexists _, _, _|rewrite Eg; lra|].
  assert (Rv' : rounds (val t / giga) (val (f64_div t f64_1e9))) by (eapply rounds_proper; [exact Eg|reflexivity|exact Rv]).
  assert (Hvq : Qabs (val t / giga) < p2 53).
  { unfold Qdiv. rewrite Qabs_Qmult. assert (Hi : Qabs (/ giga) == / giga) by (by compute). rewrite Hi.
    apply Qlt_shift_div_r; [lra|]. assert (0 < p2 53) by done. nra. }
  pose proof (rounds_bound _ _ Rv' Hvq) as Hv.
  destruct (trunc_truncates (f64_div t f64_1e9) Fv) as (k & Ek & Hk); [lra|].
  rewrite Ek, Ez, (seconds_of_nanoseconds q (val t) (val (f64_div t f64_1e9)) z k Rt' Hq Hz Rv' Hk).
  exists z. split; [done|]. by apply (truncated_near q (val t)).
Qed.

Lemma unit_speed p : positive_speed p -> f64_eqb (speedMultiplier (m_pcapConfig p)) f64_one = true -> speed_of p == 1.
Proof.
  intros (m & e & E) Heq. unfold speed_of. rewrite E in Heq |- *. unfold f64_eqb, SFeqb in Heq.
  change f64_one with (S754_finite false 4503599627370496 (-52)) in Heq. cbn [SFcompare] in Heq.
  destruct (Z.compare_spec e (-52)) as [->|?|?]; [|done..].
  destruct (Pos.compare_cont Eq m 4503599627370496) eqn:Em; try done.
  apply Pos.compare_eq in Em. by rewrite Em.
Qed.

(** The target time of a packet whose time stamp is [d] nanoseconds after the
    first one is less than a nanosecond off the quotient of [d] and the speed.
    The differences of 104 days and less are exact in 53 bits. *)
Lemma scaled_target_run ts w :
  let p := w_obj w in let d := (ns_of ts - ns_of (m_pcapStartTs p))%Z in let q := inject_Z d / speed_of p in
  positive_speed p -> file_time ts -> started p -> (Z.abs d < 2 ^ 53)%Z -> Qabs q < inject_Z (2 ^ 53) ->
  exists t, calculateTargetTimeHighRes ts w = Ret (m_wallStartTs p + t)%Z w /\
    q - 1 < inject_Z t < q + 1 /\ (Z.abs t <= 2 ^ 53)%Z.
Proof.
  intros p d q Hsp Hts Hst Hd Hq. unfold p in *.
  destruct (f64_eqb (speedMultiplier (m_pcapConfig (w_obj w))) f64_one) eqn:Eone.
  { exists d. split; [by apply target_time_run|]. split; [|lia]. pose proof (unit_speed _ Hsp Eone) as E1.
    assert (E : q == inject_Z d) by (unfold q; rewrite E1; field). rewrite E. lra. }
  destruct Hts as [Hs Hn]. destruct Hst as (Hf & [Hs0 Hn0] & Hw). unfold calculateTargetTimeHighRes.
  rewrite bind_this, Hf, Eone. cbn [negb]. unfold clock_limit, is_u32, ns_of in *.
  s64_step. s64_step. set (dn := (tv_nsec ts - _)%Z) in *. set (ds := (tv_sec ts - _)%Z) in *.
  destruct (difference_run ds dn w) as (s & n & E & Hsum & Hrs & Hrn); [lia..|].
  rewrite (bind_Ret _ _ _ _ _ E). assert (Ed : (s * 1000000000 + n)%Z = d) by (unfold d, ds, dn in *; lia).
  destruct (scale_difference_run s n w Hsp) as (t & Et & Ht); [lia|lia|by rewrite Ed|rewrite Ed, p2_Z by done; exact Hq|].
  rewrite Ed in Ht. cbn [fst snd]. rewrite (bind_Ret _ _ _ _ _ Et). cbn [fst snd].
  assert (Htb : (Z.abs t <= 2 ^ 53)%Z).
  { apply Qabs_Qlt_condition in Hq. fold q in Ht. assert (- (2 ^ 53) < t + 1 /\ t < 2 ^ 53 + 1)%Z; [|lia].
    rewrite !Zlt_Qlt, !inject_Z_plus, inject_Z_opp. change (inject_Z 1) with 1. split; lra. }
  pose proof (Z.quot_rem' t 1000000000) as Hqr. pose proof (Z.rem_bound_abs t 1000000000 ltac:(done)) as Hrb.
  s64_step. s64_step. exists t. split; [|done]. rewrite s64_in by (unfold is_s64; lia). f_equal. lia.
Qed.

(** C19 Pacing at any speed.  In TIMED mode, with a positive speed, a packet
    whose time stamp is [d] nanoseconds after that of the first is held back
    exactly while the clock is before its target time, and that is less than a
    nanosecond off the quotient of [d] and the speed after the start of the
    replay, in spite of the four roundings of the [double] arithmetic; the
    conversions are defined and nothing overflows, as long as [d] and the
    quotient are below 2^53 ns (104 days). *)
Theorem speed_never_early ts w :
  let p := w_obj w in let d := (ns_of ts - ns_of (m_pcapStartTs p))%Z in let q := inject_Z d / speed_of p in
  mode (m_pcapConfig p) = TIMED -> positive_speed p -> file_time ts -> started p ->
  (m_wallStartTs p <= clock (w_sys w))%Z -> loop_ok (w_loop w) ->
  (Z.abs d < 2 ^ 53)%Z -> Qabs q < inject_Z (2 ^ 53) ->
  let now := now_of w in
  exists t w', Qabs (inject_Z (t - m_wallStartTs p) - q) < 1 /\
    too_early ts w = Ret (now <? t)%Z w' /\ w_obj w' = p /\
    if (now <? t)%Z
    then exists now', let id := m_nextTimerId (w_loop w) in
      let delay := Z.quot (t - now) 1000000 in
      (now <= now')%Z /\ loop_ok (w_loop w') /\
      m_timers (w_loop w') =
        set_insert (MkTimer (now' + delay * 1000000) 0 (Some ProcessBatch) id false) (m_timers (w_loop w))
    else w_loop w' = w_loop w.
Proof.
  intros p d q Hmode Hsp Hts Hst Hwall Hok Hd Hq now.
  destruct (scaled_target_run ts w Hsp Hts Hst Hd Hq) as (t & E & Ht & Hb). fold p in E.
  change (q - 1 < inject_Z t < q + 1) in Ht.
  assert (Hbound : (m_wallStartTs p + t <= clock (w_sys w) + 2 ^ 62)%Z) by (clear - Hwall Hb; lia).
  destruct (held_back ts (m_wallStartTs p + t)%Z w Hmode E Hbound Hok) as (w' & Hw').
  exists (m_wallStartTs p + t)%Z, w'. split; [|exact Hw'].
  replace (m_wallStartTs p + t - m_wallStartTs p)%Z with t by lia. clearbody q. apply Qabs_Qlt_condition. lra.
Qed.

(** The normal speed is positive. *)
Lemma normal_positive p : normal_speed p -> positive_speed p.
Proof.
  unfold normal_speed, positive_speed, f64_eqb, SFeqb. change f64_one with (S754_finite false 4503599627370496 (-52)).
  destruct (speedMultiplier (m_pcapConfig p)) as [s|s| |[] m e]; cbn [SFcompare]; [done|by destruct s|done|done|by eexists _, _].
Qed.

(** The differences the pacing of a packet takes fit: those of any file at
    the normal speed, up to 104 days at any other. *)
Definition span_fits p ts : Prop :=
  normal_speed p \/
  let d := (ns_of ts - ns_of (m_pcapStartTs p))%Z in
  positive_speed p /\ (Z.abs d < 2 ^ 53)%Z /\ Qabs (inject_Z d / speed_of p) < inject_Z (2 ^ 53).

Lemma any_target_run ts w :
  let p := w_obj w in let q := inject_Z (ns_of ts - ns_of (m_pcapStartTs p)) / speed_of p in
  span_fits p ts -> file_time ts -> started p ->
  exists t, calculateTargetTimeHighRes ts w = Ret (m_wallStartTs p + t)%Z w /\ q < inject_Z t + 1 /\ (t <= 2 ^ 62)%Z.
Proof.
  intros p q Hfit Hts Hst. unfold p in *. destruct Hfit as [Hn|(Hsp & Hd & Hq)].
  - exists (ns_of ts - ns_of (m_pcapStartTs (w_obj w)))%Z. split; [by apply target_time_run|]. split.
    + pose proof (unit_speed _ (normal_positive _ Hn) Hn) as E. unfold q. rewrite E. unfold Qdiv. change (/ 1) with 1. lra.
    + destruct Hts, Hst as (_ & [? ?] & _). unfold ns_of, is_u32 in *. lia.
  - destruct (scaled_target_run ts w Hsp Hts Hst Hd Hq) as (t & E & [Ht _] & Hb). exists t. split; [done|]. split; [|lia].
    unfold q. lra.
Qed.

(** A speed of 0 is not refused: the quotient is infinite (or, for a packet
    with the time stamp of the first one, not a number), and its conversion to
    an integer is undefined. *)
Lemma zero_speed_undefined ts w s :
  let d := (ns_of ts - ns_of (m_pcapStartTs (w_obj w)))%Z in
  speedMultiplier (m_pcapConfig (w_obj w)) = S754_zero s -> file_time ts -> started (w_obj w) -> (Z.abs d < 2 ^ 53)%Z ->
  calculateTargetTimeHighRes ts w = Crash BadConversion.
Proof.
  intros d Hsp [Hs Hn] (Hf & [Hs0 Hn0] & Hw) Hd. unfold calculateTargetTimeHighRes.
  rewrite bind_this, Hf, Hsp. unfold clock_limit, is_u32, ns_of in *.
  s64_step. s64_step. set (dn := (tv_nsec ts - _)%Z) in *. set (ds := (tv_sec ts - _)%Z) in *.
  destruct (difference_run ds dn w) as (s' & n & E & Hsum & Hrs & Hrn); [lia..|].
  rewrite (bind_Ret _ _ _ _ _ E). change (negb (f64_eqb (S754_zero s) f64_one)) with true. cbn [fst snd].
  destruct (total_value s' n) as [Fx _]; [lia|lia|unfold d, ds, dn in *; lia|].
  assert (Ec : scale_difference s' n w = Crash BadConversion); [|by rewrite bind_run, Ec].
  unfold scale_difference. rewrite bind_this, Hsp. destruct (f64_add _ _) as [sx| | |sx mx ex]; try done.
Qed.
End Speed.
