(* ===== verification/Playback.v ===== *)
(** The interface between the readers of capture files and the batches that
    play them: what one call of [internalStep] does to a file with some packets
    left ([Reader]; the two readers implement it), and what that is where
    packets are never early ([Playable]; the batches of the FLOOD mode are
    described against it). *)
From S2P Require Import Prelude Outcome Result Kernel SimKernel ScopedFd TimerQueue EventLoop Recorder.
From S2P Require Import PcapFormat Float64 PacketReceiver PcapReceiver PcapDispatch PcapReplay PcapOpen.

(** What playing a packet leaves alone. *)
Definition same_setup (p p' : PcapReceiver) : Prop :=
  m_pcapConfig p' = m_pcapConfig p /\ m_mapping p' = m_mapping p /\ pcap_base p' = pcap_base p.

#[export] Instance same_setup_order : PreOrder same_setup.
Proof. split; [by intros p|]. intros p1 p2 p3 (? & ? & ?) (? & ? & ?). split_and!; congruence. Qed.

(** Receivers of the same file with the same subscriptions. *)
Definition same_file (p p' : PcapReceiver) : Prop :=
  m_mapping p' = m_mapping p /\ m_fileSize p' = m_fileSize p /\ m_swapped p' = m_swapped p /\
  m_isNanosecond p' = m_isNanosecond p /\ m_linkType p' = m_linkType p /\ m_portTable p' = m_portTable p.

#[export] Instance same_file_order : PreOrder same_file.
Proof. unfold same_file. split; [by intros p|]. intros p1 p2 p3 ??. intuition congruence. Qed.

(** ... and the pacing, as long as it plays. *)
Definition same_timing (p p' : PcapReceiver) : Prop :=
  m_firstPacket p' = m_firstPacket p /\ m_pcapStartTs p' = m_pcapStartTs p /\ m_wallStartTs p' = m_wallStartTs p.

Definition same_pass (p p' : PcapReceiver) : Prop :=
  same_setup p p' /\ same_timing p p' /\ m_finished p' = m_finished p.

#[export] Instance same_pass_order : PreOrder same_pass.
Proof.
  split; [by intros p|]. intros p1 p2 p3 (? & (? & ? & ?) & ?) (? & (? & ? & ?) & ?).
  split; [by etransitivity|]. split; [split_and!; congruence|congruence].
Qed.

(** ** Readers *)

(** What a reader promises the batches.  [I tss ds p]: the receiver [p] has
    the packets with the time stamps [tss] left in its file, for which the
    calls [ds] are owed.  A step goes to the next packet, and unless it is
    early plays it and makes the calls owed for it, which carry its time stamp;
    at the end of the file it finishes the replay. *)
Class Reader {U Y : Type} {RK : ReactorKernel Y} (emit : delivery -> Y -> Y)
  (I : list timespec -> list delivery -> PcapReceiver -> Prop) : Prop := {
  read_more ts tss ds (w : world (task U) PcapReceiver Y) :
    I (ts :: tss) ds (w_obj w) ->
    exists d ds' p1 play, ds = d ++ ds' /\ Forall (fun c => dl_ts c = ts) d /\ I (ts :: tss) ds p1 /\ same_pass (w_obj w) p1 /\
      internalStep (recorder emit) w = noexcept (pace ts play) (World (w_loop w) p1 (w_sys w)) /\
      forall start wall first l y, let p1' := set_timing start wall first p1 in
        exists p2, play (World l p1' y) = Ret true (World l p2 (emit_all emit d y)) /\
          I tss ds' p2 /\ same_pass p1' p2;
  read_end ds (w : world (task U) PcapReceiver Y) :
    I [] ds (w_obj w) ->
    exists p', internalStep (recorder emit) w = Ret false (World (w_loop w) p' (w_sys w)) /\
      I [] [] p' /\ same_setup (w_obj w) p' /\ same_timing (w_obj w) p' /\ m_finished p' = true;
  read_nothing ds p : I [] ds p -> ds = []
}.
Arguments Reader U Y {RK} emit I.

(** Several passes over a file: [I k] is the file being played with [k] more
    passes to come, [R k] the file between two passes, with [k] to come.
    [rewind] starts a pass, with [all] of the file ahead; a pass is over when the
    replay is finished and nothing is left. *)
Class Rewindable {U Y A : Type} {RK : ReactorKernel Y} {MK : MemoryKernel Y} (ndebug : bool)
  (I : nat -> A -> list delivery -> PcapReceiver -> Prop) (R : nat -> PcapReceiver -> Prop)
  (all none : A) (ds0 : list delivery) : Prop := {
  rewind_pass k (w : world (task U) PcapReceiver Y) :
    owner_thread ndebug w -> R (S k) (w_obj w) ->
    exists p', rewind ndebug w = Ret tt (World (w_loop w) p' (w_sys w)) /\
      I k all ds0 p' /\ same_setup (w_obj w) p' /\ m_finished p' = false /\ m_firstPacket p' = true;
  pass_over k ds p : I k none ds p -> m_finished p = true -> R k p
}.
Arguments Rewindable U Y {A RK MK} ndebug I R all none ds0.

(** ** Without pacing *)

(** The same promise where no packet is ever early, which is in the modes
    other than TIMED: [n] packets are left, and a step plays one. *)
Class Playable {U Y : Type} {RK : ReactorKernel Y} (emit : delivery -> Y -> Y)
  (I : nat -> list delivery -> PcapReceiver -> Prop) : Prop := {
  play_more n ds (w : world (task U) PcapReceiver Y) :
    I (S n) ds (w_obj w) ->
    exists d ds' p', ds = d ++ ds' /\
      internalStep (recorder emit) w = Ret true (World (w_loop w) p' (emit_all emit d (w_sys w))) /\
      I n ds' p' /\ same_setup (w_obj w) p' /\ m_finished p' = m_finished (w_obj w);
  play_end ds (w : world (task U) PcapReceiver Y) :
    I 0%nat ds (w_obj w) ->
    exists p', internalStep (recorder emit) w = Ret false (World (w_loop w) p' (w_sys w)) /\
      I 0%nat [] p' /\ same_setup (w_obj w) p' /\ m_finished p' = true;
  play_nothing ds p : I 0%nat ds p -> ds = []
}.
Arguments Playable U Y {RK} emit I.

Definition untimed (p : PcapReceiver) : Prop := mode (m_pcapConfig p) <> TIMED.

Lemma untimed_kept p p' : untimed p -> same_setup p p' -> untimed p'.
Proof. unfold untimed. by intros ? (-> & _). Qed.

(** Of a reader, the number of packets left. *)
Definition counted (I : list timespec -> list delivery -> PcapReceiver -> Prop)
    (n : nat) (ds : list delivery) (p : PcapReceiver) : Prop :=
  exists tss, n = length tss /\ I tss ds p /\ untimed p.

#[export] Instance reader_playable {U Y} {RK : ReactorKernel Y} emit I {RI : Reader U Y emit I} :
  Playable U Y emit (counted I).
Proof.
  split.
  - intros n ds w (tss & Hn & HI & Hu). destruct tss as [|ts tss]; [done|]. injection Hn as ->.
    destruct (read_more ts tss ds w HI) as (d & ds' & p1 & play & -> & _ & _ & Hs1 & E & Hplay).
    destruct (Hplay (m_pcapStartTs p1) (m_wallStartTs p1) (m_firstPacket p1) (w_loop w) (w_sys w)) as (p2 & E2 & HI2 & Hs2).
    assert (Hp1 : set_timing (m_pcapStartTs p1) (m_wallStartTs p1) (m_firstPacket p1) p1 = p1) by (by destruct p1).
    rewrite Hp1 in E2, Hs2. assert (Hs : same_pass (w_obj w) p2) by (by etransitivity).
    exists d, ds', p2. split; [done|]. split; [|split; [|split; apply Hs]].
    + rewrite E. unfold noexcept.
      assert (Hu1 : untimed p1) by (eapply untimed_kept; [done|apply Hs1]).
      by rewrite pace_untimed, E2.
    + exists tss. split_and!; [done|done|]. eapply untimed_kept; [done|apply Hs].
  - intros ds w (tss & Hn & HI & Hu). destruct tss; [|done].
    destruct (read_end ds w HI) as (p' & E & HI' & Hs & _ & Hf). exists p'. split_and!; try done.
    exists []. split_and!; [done|done|by eapply untimed_kept].
  - intros ds p (tss & Hn & HI & _). destruct tss; [by eapply read_nothing|done].
Qed.

#[export] Instance reader_rewindable {U Y} {RK : ReactorKernel Y} {MK : MemoryKernel Y} ndebug
    (I : nat -> list timespec -> list delivery -> PcapReceiver -> Prop) R all ds0 {RI : Rewindable U Y ndebug I R all [] ds0} :
  Rewindable U Y ndebug (fun k => counted (I k)) (fun k p => R k p /\ untimed p) (length all) 0%nat ds0.
Proof.
  split.
  - intros k w Ho [HR Hu]. destruct (rewind_pass k w Ho HR) as (p' & E & HI & Hs & Hf & Hp).
    exists p'. split_and!; try done. exists all. split_and!; [done|done|by eapply untimed_kept].
  - intros k ds p (tss & Hn & HI & Hu) Hf. destruct tss; [|done]. split; [by eapply pass_over|done].
Qed.

(** The scheduled functions of a replay in FLOOD mode. *)
Definition flood_task {U} (t : option (task U)) : Prop :=
  t = Some ProcessBatch \/ t = Some ProcessBatchFlood.

Section Flood.
Context {U Y : Type} {RK : ReactorKernel Y} (emit : delivery -> Y -> Y).
Context (I : nat -> list delivery -> PcapReceiver -> Prop) {PI : Playable U Y emit I}.
Notation W := (world (task U) PcapReceiver Y).
Context (user_task : U -> M W unit).
Implicit Types (w : W) (p : PcapReceiver).

Notation run_task := (run_pcap_task (recorder emit) user_task).

(** [k] steps: they play [k] packets, or all that are left and then finish. *)
Lemma steps_play k n ds w :
  I n ds (w_obj w) ->
  exists d ds' p', ds = d ++ ds' /\
    steps (recorder emit) k w = Ret (bool_decide (k <= n)%nat) (World (w_loop w) p' (emit_all emit d (w_sys w))) /\
    I (n - k)%nat ds' p' /\ same_setup (w_obj w) p' /\
    m_finished p' = if bool_decide (k <= n)%nat then m_finished (w_obj w) else true.
Proof.
  revert n ds w. induction k as [|k IH]; intros n ds w HI.
  - exists [], ds, (w_obj w). rewrite Nat.sub_0_r, bool_decide_true by lia. by destruct w.
  - destruct n as [|n].
    + destruct (play_end ds w HI) as (p' & E & HI' & Hs & Hf). rewrite bool_decide_false by lia.
      exists [], [], p'. cbn [steps]. rewrite (bind_Ret _ _ _ _ _ E), (play_nothing _ _ HI). done.
    + destruct (play_more n ds w HI) as (d & ds' & p1 & -> & E & HI1 & Hs1 & Hf1).
      cbn [steps]. rewrite (bind_Ret _ _ _ _ _ E).
      destruct (IH n ds' (World (w_loop w) p1 (emit_all emit d (w_sys w))) HI1)
        as (d2 & ds2 & p2 & -> & E2 & HI2 & Hs2 & Hf2). cbn [w_loop w_obj w_sys] in *.
      exists (d ++ d2), ds2, p2. rewrite emit_all_app.
      rewrite (bool_decide_ext (S k <= S n)%nat (k <= n)%nat) by lia.
      split_and!; [by rewrite app_assoc|done|done|by etransitivity|by rewrite Hf2, Hf1].
Qed.

(** A replay in FLOOD mode with [n] packets left. *)
Definition flooding (n : nat) (ds : list delivery) p : Prop :=
  I n ds p /\ mode (m_pcapConfig p) = FLOOD /\ m_mappedData p <> 0 /\ (m_finished p = true -> n = 0%nat).

Lemma flooding_setup n ds p n' ds' p' :
  flooding n ds p -> I n' ds' p' -> same_setup p p' -> (m_finished p' = true -> n' = 0%nat) ->
  flooding n' ds' p'.
Proof.
  intros (_ & Hm & Hd & _) HI (Hc & Hp & _) Hf. unfold flooding, m_mappedData in *. by rewrite Hc, Hp.
Qed.

(** The outcome of a scheduled function: it makes the calls of the packets it
    plays, and either the replay is finished, or it made progress and left a
    task behind. *)
Definition played (n : nat) (ds : list delivery) w (w' : W) : Prop :=
  exists d n' ds' p' extra, ds = d ++ ds' /\
    w' = World (set_pending (m_pendingTasks (w_loop w) ++ extra) (w_loop w)) p' (emit_all emit d (w_sys w)) /\
    flooding n' ds' p' /\ same_setup (w_obj w) p' /\ Forall flood_task extra /\
    (m_finished p' = true \/ (n' < n)%nat /\ extra <> []).

Lemma pending_nil (l : EventLoop (task U)) : set_pending (m_pendingTasks l ++ []) l = l.
Proof. rewrite app_nil_r. by destruct l. Qed.

Lemma processBatchFlood_played n ds w :
  flooding n ds (w_obj w) ->
  exists w', processBatchFlood (recorder emit) w = Ret tt w' /\ played n ds w w'.
Proof.
  intros HF. unfold processBatchFlood.
  destruct (steps_play (Z.to_nat 20000) n ds w (proj1 HF)) as (d & ds' & p' & Hds & E & HI & Hs & Hf).
  rewrite (bind_Ret _ _ _ _ _ E). pose proof HF as (_ & _ & _ & Hfin).
  case_bool_decide as Hk; cbn [negb].
  - run_steps. cbn [this w_obj]. unfold this. run_steps. cbn [w_obj]. rewrite Hf.
    destruct (m_finished (w_obj w)) eqn:Efin; [specialize (Hfin eq_refl); lia|].
    eexists. split; [reflexivity|]. exists d, (n - Z.to_nat 20000)%nat, ds', p', [Some ProcessBatchFlood].
    split_and!; [done|done| |done|by repeat constructor; right|right; split; [lia|done]].
    eapply flooding_setup; [done..|]. rewrite Hf. done.
  - eexists. split; [reflexivity|]. exists d, (n - Z.to_nat 20000)%nat, ds', p', []. rewrite pending_nil.
    split_and!; [done|done| |done|constructor|by left]. eapply flooding_setup; [done..|lia].
Qed.

(** Outcomes compose, as long as the second function starts where the first
    one ended. *)
Lemma played_trans n ds w w1 w2 :
  played n ds w w1 ->
  (forall n1 ds1, flooding n1 ds1 (w_obj w1) -> played n1 ds1 w1 w2) -> played n ds w w2.
Proof.
  intros (d & n1 & ds1 & p1 & ex1 & -> & -> & HF1 & Hs1 & Hex1 & Hp1) H2.
  destruct (H2 n1 ds1 HF1) as (d2 & n2 & ds2 & p2 & ex2 & -> & -> & HF2 & Hs2 & Hex2 & Hp2).
  cbn [w_loop w_obj w_sys] in *. exists (d ++ d2), n2, ds2, p2, (ex1 ++ ex2).
  rewrite emit_all_app. split_and!; [by rewrite app_assoc| |done|by etransitivity|by apply Forall_app|].
  - cbn [m_pendingTasks set_pending]. by rewrite <- app_assoc.
  - destruct Hp2 as [?|[Hlt _]]; [by left|]. destruct Hp1 as [Hf|[Hlt1 Hne]].
    + destruct HF1 as (_ & _ & _ & H0). specialize (H0 Hf). lia.
    + right. split; [lia|]. by destruct ex1.
Qed.

Lemma processBatch_played n ds w :
  flooding n ds (w_obj w) ->
  exists w', processBatch (recorder emit) w = Ret tt w' /\ played n ds w w'.
Proof.
  intros HF. pose proof HF as (HI & Hm & Hd & Hfin). unfold processBatch. unfold this. run_steps.
  destruct (Z.eqb_spec (m_mappedData (w_obj w)) 0); [done|]. cbn [orb].
  destruct (m_finished (w_obj w)) eqn:Efin.
  { eexists. split; [reflexivity|]. exists [], n, ds, (w_obj w), []. rewrite pending_nil.
    split_and!; [done|by destruct w|done|done|constructor|by left]. }
  rewrite Hm, !decide_True by done.
  destruct (processBatchFlood_played n ds w HF) as (w1 & E1 & Hp1). rewrite (bind_Ret _ _ _ _ _ E1).
  assert (H2 : forall n1 ds1, flooding n1 ds1 (w_obj w1) -> exists w2,
    (all ← steps (recorder emit) (Z.to_nat 10000);
     if negb all then mret tt
     else p ← gets (fun w => w_obj w);
       if m_finished p then mret tt else runInLoop (Some ProcessBatch)) w1 = Ret tt w2 /\ played n1 ds1 w1 w2).
  { intros n1 ds1 HF1. pose proof HF1 as (HI1 & _ & _ & Hfin1).
    destruct (steps_play (Z.to_nat 10000) n1 ds1 w1 HI1) as (d & ds' & p' & Hds & E & HI' & Hs & Hf).
    rewrite (bind_Ret _ _ _ _ _ E). case_bool_decide as Hk; cbn [negb].
    - run_steps. cbn [w_obj]. rewrite Hf. destruct (m_finished (w_obj w1)) eqn:Ef1; [specialize (Hfin1 eq_refl); lia|].
      eexists. split; [reflexivity|]. exists d, (n1 - Z.to_nat 10000)%nat, ds', p', [Some ProcessBatch].
      split_and!; [done|done| |done|by repeat constructor; left|right; split; [lia|done]].
      eapply flooding_setup; [done..|]. by rewrite Hf.
    - eexists. split; [reflexivity|]. exists d, (n1 - Z.to_nat 10000)%nat, ds', p', []. rewrite pending_nil.
      split_and!; [done|done| |done|constructor|by left]. eapply flooding_setup; [done..|lia]. }
  pose proof Hp1 as (d1 & n1 & ds1 & p1 & ex1 & _ & Ew1 & HF1 & _).
  destruct (H2 n1 ds1) as (w2 & E2 & _); [by rewrite Ew1|].
  exists w2. split; [exact E2|]. eapply played_trans; [done|]. intros n' ds'' HF'.
  destruct (H2 n' ds'' HF') as (w2' & E2' & Hp2). rewrite E2 in E2'. by simplify_eq.
Qed.

(** Any scheduled function. *)
Lemma flood_task_played t n ds w :
  flood_task t -> flooding n ds (w_obj w) ->
  exists w', call_task run_task t w = Ret tt w' /\ played n ds w w'.
Proof. intros [->| ->] HF; [by apply processBatch_played|by apply processBatchFlood_played]. Qed.
End Flood.
