(* ===== verification/ClassicPlayback.v ===== *)
(** The reader of classic capture files implements the interface of
    [Playback]: a file with a given sequence of records, of which some are
    still ahead of the cursor; and a rewound file has all of them ahead. *)
From S2P Require Import Prelude Outcome Result Kernel SimKernel ScopedFd TimerQueue EventLoop Recorder.
From S2P Require Import PcapFormat Float64 PacketReceiver PcapReceiver PcapDispatch PcapFrames PcapReplay PcapOpen.
From S2P Require Import PcapControl Playback.

Lemma same_file_deliveries p p' a rs : same_file p p' -> deliveries p' a rs = deliveries p a rs.
Proof. intros (? & ? & ? & ? & ? & ?). by apply deliveries_ext. Qed.

Lemma replaying_same_file p p' : replaying p p' -> same_file p p' /\ same_pass p p'.
Proof. by intros (_ & c & port & h & ctx & ->). Qed.

Section Classic.
(** The receiver as [open] left it, and the records of its file, [tail] being
    what is left over at the end. *)
Context (p0 : PcapReceiver) (records : list pcap_record) (tail : list Z).

Definition first_record : Z := m_mappedData p0 + sizeof_pcap_file_header.

(** The file holds the records. *)
Record holds_records : Prop := {
  hr_records : Forall record_ok records;
  hr_stored : stored (m_mapping p0) first_record (encode_records (m_swapped p0) records ++ tail);
  hr_end : file_end p0 = first_record + records_size records + Z.of_nat (length tail);
  hr_tail : (length tail < 16)%nat
}.

(** The records ahead of the cursor have the time stamps [tss]. *)
Definition classic_left (tss : list timespec) (ds : list delivery) (p : PcapReceiver) : Prop :=
  reading p /\ same_file p0 p /\
  exists before rs, records = before ++ rs /\ tss = record_time p0 <$> rs /\
    m_currentPtr p = first_record + records_size before /\ ds = deliveries p0 (m_currentPtr p) rs.

Lemma records_size_app rs1 rs2 : records_size (rs1 ++ rs2) = records_size rs1 + records_size rs2.
Proof. induction rs1 as [|r rs1 IH]; [done|]. cbn [app records_size foldr] in *. unfold records_size in *. lia. Qed.

Lemma reading_step p p' : reading p -> replaying p p' -> reading p'.
Proof. intros (Hf & Hn & _) (Hok & c & port & h & ctx & ->). split_and!; [by destruct Hf|done..]. Qed.

Lemma reading_retimed start wall first p : reading p -> reading (set_timing start wall first p).
Proof. intros (Hf & Hn & Hok). split_and!; [by destruct Hf|done..]. Qed.

(** The record at the cursor. *)
Lemma classic_stored before r rs p :
  holds_records -> records = before ++ r :: rs -> same_file p0 p ->
  m_currentPtr p = first_record + records_size before ->
  record_ok r /\ stored (m_mapping p) (m_currentPtr p)
    (encode_record (m_swapped p) r ++ (encode_records (m_swapped p) rs ++ tail)).
Proof.
  intros [Hrs Hst _ _] Hsplit (Hm & _ & Hsw & _) Hc. rewrite Hsplit in *. split.
  - apply Forall_app in Hrs as [_ Hrs]. by apply Forall_cons in Hrs as [? _].
  - rewrite Hm, Hsw, Hc, <- (encode_records_length (m_swapped p0)).
    rewrite encode_records_app, <- app_assoc in Hst. apply stored_app_r in Hst.
    unfold encode_records in Hst at 2. cbn [fmap list_fmap concat] in Hst. by rewrite <- app_assoc in Hst.
Qed.

Context {U Y : Type} {RK : ReactorKernel Y} (emit : delivery -> Y -> Y) (HR : holds_records).

Lemma deliveries_time q a r : Forall (fun d => dl_ts d = record_time q r) (deliveries q a [r]).
Proof. cbn [deliveries]. rewrite app_nil_r. destruct (_ =? _); [apply delivery_time|constructor]. Qed.

#[export] Instance classic_reader : Reader U Y emit classic_left.
Proof.
  split.
  - intros ts tss ds w (Hready & Hf & before & rs & Hsplit & Hn & Hc & ->).
    destruct rs as [|r rs]; [done|]. injection Hn as -> ->.
    destruct (classic_stored before r rs _ HR Hsplit Hf Hc) as [Hr Hst].
    set (p := w_obj w) in *. set (c' := m_currentPtr p + (16 + r_caplen r)).
    exists (deliveries p0 (m_currentPtr p) [r]), (deliveries p0 c' rs), p, (play_record (recorder emit) p r).
    split; [by rewrite deliveries_cons|]. split; [by apply deliveries_time|]. split; [split; [done|split; [done|by exists before, (r :: rs)]]|]. split; [done|].
    split.
    + replace (World (w_loop w) p (w_sys w)) with w by (by destruct w).
      assert (Ht : record_time p0 r = record_time p r) by (unfold record_time; by destruct Hf as (_ & _ & _ & -> & _)).
      by rewrite Ht, (internalStep_paced emit w r _ Hready Hr Hst).
    + intros start wall first l y p1'. pose proof (reading_retimed start wall first p Hready) as Hready'. fold p1' in Hready'.
      destruct (play_record_run emit (World l p1' y) r) as (p2 & E & Hp2 & Hc2);
        [apply Hready'|apply Hready'|done|by eapply stored_app_l|].
      cbn [w_loop w_obj w_sys] in *. destruct (replaying_same_file _ _ Hp2) as [Hf2 Hs2].
      assert (Hf1 : same_file p0 p1') by exact Hf.
      exists p2. split; [|split; [|done]].
      * rewrite <- (same_file_deliveries p0 p1' _ _ Hf1). exact E.
      * split; [by eapply reading_step|]. split; [by etransitivity|].
        exists (before ++ [r]), rs. rewrite <- app_assoc.
        assert (Hcp : m_currentPtr p2 = c') by exact Hc2. rewrite Hcp. split_and!; try done.
        unfold c'. rewrite Hc, records_size_app. cbn. lia.
  - intros ds w (Hready & Hf & before & rs & Hsplit & Hn & Hc & ->).
    destruct rs as [|r rs]; [|done]. rewrite app_nil_r in Hsplit. subst before.
    pose proof Hf as (Hm & Hsz & _). pose proof (hr_end HR). pose proof (hr_tail HR).
    exists (set_finished true (w_obj w)). split; [|split; [|split_and!; done]].
    + unfold internalStep, noexcept. rewrite bind_this. destruct Hready as (_ & -> & _).
      rewrite step_pcap_end; [done|]. unfold file_end, m_mappedData in *. rewrite Hm, Hsz, Hc.
      unfold sizeof_pcap_sf_pkthdr. lia.
    + split; [|split; [done|]].
      * destruct Hready as (Hfo & ? & ?). split_and!; [by destruct Hfo|done..].
      * exists records, []. rewrite app_nil_r. by split_and!.
  - intros ds p (_ & _ & before & rs & _ & Hn & _ & ->). by destruct rs.
Qed.

(** What [rewind] leaves of a receiver of a classic file. *)
Definition rewound (p : PcapReceiver) : PcapReceiver :=
  set_timing (m_pcapStartTs p) (m_wallStartTs p) true
    (set_finished false (set_cursor (m_mappedData p + sizeof_pcap_file_header) p)).

Lemma rewound_left tss ds p :
  classic_left tss ds p ->
  classic_left (record_time p0 <$> records) (deliveries p0 first_record records) (rewound p).
Proof.
  intros ((Hfo & Hng & Hhot) & Hf & _). pose proof Hf as (Hm & _).
  assert (Hc : m_currentPtr (rewound p) = first_record) by (unfold first_record, m_mappedData; by rewrite <- Hm).
  split; [split_and!; [by destruct Hfo|done..]|]. split; [done|].
  exists [], records. rewrite Hc. split_and!; try done. cbn. lia.
Qed.
End Classic.

Section Rewind.
Context {U Y : Type} {RK : ReactorKernel Y} {MK : MemoryKernel Y} (ndebug : bool).
Implicit Types w : world (task U) PcapReceiver Y.

Lemma rewind_run w :
  owner_thread ndebug w -> m_isPcapNg (w_obj w) = false ->
  rewind ndebug w = Ret tt (with_obj rewound w).
Proof.
  intros Ho Hng. unfold rewind. rewrite (bind_Ret _ _ _ _ _ (checkThread_passes ndebug w Ho)).
  run_steps. cbn [w_obj with_obj set_cursor m_isPcapNg]. rewrite Hng. by run_steps.
Qed.

(** A classic file can be played any number of times. *)
#[export] Instance classic_rewindable (p0 : PcapReceiver) (records : list pcap_record) :
  Rewindable U Y ndebug (fun _ => classic_left p0 records) (fun _ p => exists tss ds, classic_left p0 records tss ds p)
    (record_time p0 <$> records) [] (deliveries p0 (first_record p0) records).
Proof.
  split.
  - intros _ w Ho (tss & ds & HI). exists (rewound (w_obj w)). split.
    + rewrite (rewind_run w Ho); [done|]. apply HI.
    + split; [by eapply rewound_left|done].
  - intros _ ds p HI _. by exists [], ds.
Qed.
End Rewind.
