(* ===== verification/NgPlayback.v ===== *)
(** The pcapng reader implements the interface of [Playback].  The table of
    interfaces outlives a pass: [rewind] does not clear it, so that the blocks of
    a second pass enter their interfaces again, under new numbers, and the
    packets of that pass find those of the first.  That is the case as long as the
    32-bit counter of interfaces does not wrap, which bounds the number of
    passes. *)
From S2P Require Import Prelude Outcome Result Kernel SimKernel ScopedFd TimerQueue EventLoop Recorder.
From S2P Require Import PcapFormat Float64 PacketReceiver PcapReceiver PcapDispatch PcapFrames PcapReplay PcapOpen.
From S2P Require Import PcapNg PcapNgReplay PcapControl Playback.

(** ** The table of interfaces *)

Definition is_interface (b : ng_block) : bool := match b with NgInterface _ _ _ _ => true | _ => false end.

(** The number of interface blocks. *)
Definition interfaces (bs : list ng_block) : Z := Z.of_nat (length (List.filter is_interface bs)).

(** The table after the blocks [bs] of a new receiver. *)
Definition table_after (bs : list ng_block) : ng_table := foldl describe (NgTable ∅ 0) bs.

Definition numbered (t : ng_table) : Prop := map_Forall (fun i _ => i < nt_count t) (nt_map t).

Lemma interfaces_app bs1 bs2 : interfaces (bs1 ++ bs2) = interfaces bs1 + interfaces bs2.
Proof. unfold interfaces. rewrite List.filter_app, length_app. lia. Qed.

Lemma interfaces_cons b bs : interfaces (b :: bs) = (if is_interface b then 1 else 0) + interfaces bs.
Proof. unfold interfaces. cbn [List.filter]. destruct (is_interface b); cbn [length]; lia. Qed.

Lemma interfaces_nonneg bs : 0 <= interfaces bs.
Proof. unfold interfaces. lia. Qed.

Lemma describe_count t b :
  0 <= nt_count t -> nt_count t + (if is_interface b then 1 else 0) < 2 ^ 32 ->
  nt_count (describe t b) = nt_count t + (if is_interface b then 1 else 0).
Proof. intros H0 H1. destruct b; cbn in *; [rewrite u32_small; [done|unfold is_u32; lia]|lia..]. Qed.

Lemma describe_grows t b :
  numbered t -> 0 <= nt_count t -> nt_count t + (if is_interface b then 1 else 0) < 2 ^ 32 ->
  numbered (describe t b) /\ nt_map t ⊆ nt_map (describe t b).
Proof.
  intros Hn H0 H1. pose proof (describe_count t b H0 H1) as Hc. destruct b as [link snap os mark| |]; [|done..]. split.
  - unfold numbered. rewrite Hc. cbn [describe nt_map is_interface] in *.
    intros i info [[<- _]|[_ Hi]]%lookup_insert_Some; [lia|]. specialize (Hn i info Hi). cbn in Hn. lia.
  - cbn [describe nt_map]. apply insert_subseteq. apply eq_None_not_Some. intros [info Hi]. specialize (Hn _ _ Hi). cbn in Hn. lia.
Qed.

Lemma table_grows bs t :
  numbered t -> 0 <= nt_count t -> nt_count t + interfaces bs < 2 ^ 32 ->
  numbered (foldl describe t bs) /\ nt_map t ⊆ nt_map (foldl describe t bs) /\
  nt_count (foldl describe t bs) = nt_count t + interfaces bs.
Proof.
  revert t. induction bs as [|b bs IH]; intros t Hn H0 H1.
  - split_and!; [done|done|]. cbn [foldl]. change (interfaces []) with 0. lia.
  - rewrite interfaces_cons in *. pose proof (interfaces_nonneg bs).
    assert (Hb : nt_count t + (if is_interface b then 1 else 0) < 2 ^ 32) by (destruct (is_interface b); lia).
    destruct (describe_grows t b Hn H0 Hb) as [Hn' Hs]. pose proof (describe_count t b H0 Hb) as Hc. cbn [foldl].
    destruct (IH (describe t b) Hn') as (Hn2 & Hs2 & Hc2); [destruct (is_interface b); lia..|].
    split_and!; [done|by etransitivity|lia].
Qed.

Lemma table_after_spec bs : interfaces bs < 2 ^ 32 -> numbered (table_after bs) /\ nt_count (table_after bs) = interfaces bs.
Proof.
  intros Hb. destruct (table_grows bs (NgTable ∅ 0)) as (H1 & _ & H2); [apply map_Forall_empty|cbn; lia|cbn; lia|].
  split; [done|]. unfold table_after. rewrite H2. cbn. lia.
Qed.

Lemma table_after_prefix bs1 bs2 :
  interfaces (bs1 ++ bs2) < 2 ^ 32 -> nt_map (table_after bs1) ⊆ nt_map (table_after (bs1 ++ bs2)).
Proof.
  intros Hb. rewrite interfaces_app in Hb. pose proof (interfaces_nonneg bs2).
  destruct (table_after_spec bs1) as [Hn Hc]; [lia|]. unfold table_after. rewrite foldl_app.
  apply table_grows; [done|..]; fold (table_after bs1); rewrite Hc; [apply interfaces_nonneg|done].
Qed.

Lemma described_app t bs1 bs2 : described t (bs1 ++ bs2) <-> described t bs1 /\ described (foldl describe t bs1) bs2.
Proof. revert t. induction bs1 as [|b bs1 IH]; intros t; cbn [app described foldl]; [tauto|]. rewrite IH. tauto. Qed.

(** The receiver's table in a pass over [all], behind the blocks [before]: that
    of a new receiver in the first pass, and in later ones a table that has the
    interfaces of the file under their numbers. *)
Definition knows (all before : list ng_block) (t : ng_table) : Prop :=
  t = table_after before \/
  nt_map (table_after all) ⊆ nt_map t /\ interfaces all <= nt_count t.

Lemma knows_lookup all before rs t i info :
  all = before ++ rs -> interfaces all < 2 ^ 32 -> knows all before t ->
  nt_map (table_after before) !! i = Some info -> nt_map t !! i = Some info.
Proof.
  intros -> Hb [->|[Hs _]] Hi; [done|]. eapply lookup_weaken; [|exact Hs].
  eapply lookup_weaken; [exact Hi|by apply table_after_prefix].
Qed.

Lemma knows_describe all before rs b t :
  all = before ++ b :: rs -> interfaces all < 2 ^ 32 -> 0 <= nt_count t ->
  nt_count t + (if is_interface b then 1 else 0) < 2 ^ 32 ->
  knows all before t -> knows all (before ++ [b]) (describe t b).
Proof.
  intros Hall Hb H0 H1 [->|[Hs Hc]]; [left; unfold table_after; by rewrite foldl_app|right].
  split; [|rewrite describe_count by done; destruct (is_interface b); lia].
  destruct b as [link snap os mark| |]; [|done..]. cbn [describe nt_map].
  destruct (table_after_spec all Hb) as [Hn Hk]. apply map_subseteq_spec. intros i info Hi.
  pose proof (Hn i info Hi) as Hlt. cbn in Hlt. rewrite lookup_insert_ne by lia. by eapply lookup_weaken.
Qed.

(** ** The calls owed *)

Lemma block_calls_same_file p p' t t' a b :
  same_file p p' -> (forall i info, nt_map t !! i = Some info -> nt_map t' !! i = Some info) ->
  described t [b] -> block_calls p' t' a b = block_calls p t a b.
Proof.
  intros (Hm & _ & _ & _ & _ & Ht) Hi [Hd _]. destruct b as [| |]; [done| |done].
  destruct Hd as (info & Hl & _). cbn [block_calls]. rewrite Hl, (Hi _ _ Hl).
  destruct (_ =? _); [|done]. unfold delivery_of, subscribed. by rewrite Hm, Ht.
Qed.

Lemma no_packets_no_calls p sw t a bs : packets bs = 0%nat -> ng_calls p sw t a bs = [].
Proof.
  revert t a. induction bs as [|b bs IH]; intros t a Hn; [done|]. cbn [ng_calls].
  destruct b; unfold packets in *; cbn [List.filter is_packet length] in Hn; try done; by apply IH.
Qed.

Lemma packets_cons b bs : packets (b :: bs) = ((if is_packet b then 1 else 0) + packets bs)%nat.
Proof. unfold packets. cbn [List.filter]. by destruct (is_packet b). Qed.

(** The time stamps of the packets, each in the resolution of its
    interface. *)
Definition block_time (t : ng_table) (b : ng_block) : list timespec :=
  match b with
  | NgPacket ifId high low _ _ _ => [ng_time high low (from_option tsResolutionDivisor 0 (nt_map t !! ifId))]
  | _ => []
  end.

Fixpoint ng_times (t : ng_table) (bs : list ng_block) : list timespec :=
  match bs with [] => [] | b :: bs => block_time t b ++ ng_times (describe t b) bs end.

Lemma ng_times_length t bs : length (ng_times t bs) = packets bs.
Proof.
  revert t. induction bs as [|b bs IH]; intros t; [done|]. cbn [ng_times]. rewrite length_app, IH, packets_cons.
  by destruct b.
Qed.

Lemma encode_blocks_app sw bs1 bs2 : encode_blocks sw (bs1 ++ bs2) = encode_blocks sw bs1 ++ encode_blocks sw bs2.
Proof. unfold encode_blocks. by rewrite fmap_app, concat_app. Qed.

Lemma encode_blocks_one sw b : encode_blocks sw [b] = encode_block sw b.
Proof. unfold encode_blocks. cbn. apply app_nil_r. Qed.

Lemma ng_replaying_same_file p p' :
  ng_replaying p p' -> same_file p p' /\ same_pass p p'.
Proof. by intros (_ & t & c & port & h & ctx & ->). Qed.

(** ** The reader *)

Section Ng.
(** The receiver as [open] left it, and the blocks of its file, [tail] being
    what is left over at the end. *)
Context (p0 : PcapReceiver) (blocks : list ng_block) (tail : list Z).
Implicit Types p : PcapReceiver.

Notation sw := (m_swapped p0).

(** The address behind the blocks [before]. *)
Definition behind (before : list ng_block) : Z :=
  m_mappedData p0 + Z.of_nat (length (encode_blocks sw before)).

(** The file holds the blocks. *)
Record holds_blocks : Prop := {
  hb_blocks : Forall (block_ok sw) blocks;
  hb_described : described (NgTable ∅ 0) blocks;
  hb_interfaces : interfaces blocks < 2 ^ 32;
  hb_stored : stored (m_mapping p0) (m_mappedData p0) (encode_blocks sw blocks ++ tail);
  hb_end : file_end p0 = behind blocks + Z.of_nat (length tail);
  hb_tail : (length tail < 8)%nat
}.

(** The table has the interfaces of the file, and there is room for those the
    blocks [rs] and [k] more passes enter. *)
Definition table_ok (k : nat) (before rs : list ng_block) (t : ng_table) : Prop :=
  knows blocks before t /\ 0 <= nt_count t /\
  nt_count t + interfaces rs + Z.of_nat k * interfaces blocks < 2 ^ 32.

(** The cursor is behind the blocks [before]; the blocks [rs] are ahead. *)
Definition ng_ahead (k : nat) (before rs : list ng_block) p : Prop :=
  ng_reading p /\ same_file p0 p /\ blocks = before ++ rs /\ m_currentPtr p = behind before /\
  table_ok k before rs (table_of p).

Definition owed (before rs : list ng_block) : list delivery :=
  ng_calls p0 sw (table_after before) (behind before) rs.

Definition times (before rs : list ng_block) : list timespec := ng_times (table_after before) rs.

Definition ng_left (k : nat) (tss : list timespec) (ds : list delivery) p : Prop :=
  exists before rs, ng_ahead k before rs p /\ tss = times before rs /\ ds = owed before rs /\
    (m_finished p = true -> rs = []).

(** Between two passes the cursor may be anywhere: [rewind] moves it. *)
Definition ng_between (k : nat) p : Prop :=
  ng_reading p /\ same_file p0 p /\ knows blocks [] (table_of p) /\ 0 <= nt_count (table_of p) /\
  nt_count (table_of p) + Z.of_nat k * interfaces blocks < 2 ^ 32.

Lemma behind_snoc before b : behind (before ++ [b]) = behind before + block_total sw b.
Proof. unfold behind. rewrite encode_blocks_app, length_app, encode_blocks_one, <- encode_block_length. lia. Qed.

Lemma owed_cons before b rs :
  owed before (b :: rs) = block_calls p0 (table_after before) (behind before) b ++ owed (before ++ [b]) rs.
Proof. unfold owed. cbn [ng_calls]. rewrite behind_snoc. unfold table_after. by rewrite foldl_app. Qed.

Lemma times_cons before b rs :
  times before (b :: rs) = block_time (table_after before) b ++ times (before ++ [b]) rs.
Proof. unfold times. cbn [ng_times]. unfold table_after. by rewrite foldl_app. Qed.

Lemma ng_reading_step p p' : ng_reading p -> ng_replaying p p' -> ng_reading p'.
Proof. intros (Hf & Hn & Hl & _) (Hok & t & c & port & h & ctx & ->). split_and!; [by destruct Hf|done..]. Qed.

Lemma ng_ahead_retimed k before rs start wall first p :
  ng_ahead k before rs p -> ng_ahead k before rs (set_timing start wall first p).
Proof. intros ((Hf & Hr) & Ha). split; [|done]. split; [by destruct Hf|done]. Qed.

Lemma table_ok_describe k before b rs t :
  blocks = before ++ b :: rs -> interfaces blocks < 2 ^ 32 -> table_ok k before (b :: rs) t ->
  table_ok k (before ++ [b]) rs (describe t b).
Proof.
  intros Hall Hb (Hk & H0 & H1). rewrite interfaces_cons in H1. pose proof (interfaces_nonneg rs).
  pose proof (interfaces_nonneg blocks).
  assert (Hc : nt_count t + (if is_interface b then 1 else 0) < 2 ^ 32) by (destruct (is_interface b); nia).
  unfold table_ok. rewrite describe_count by done. split_and!; [by eapply knows_describe|destruct (is_interface b); lia|lia].
Qed.

Context {U Y : Type} {RK : ReactorKernel Y} (emit : delivery -> Y -> Y) (HB : holds_blocks).
Notation W := (world (task U) PcapReceiver Y).
Implicit Types w : W.

Lemma ng_ahead_blocks k before rs w : ng_ahead k before rs (w_obj w) -> blocks_ahead w rs tail.
Proof.
  intros (_ & (Hm & Hsz & Hsw & _) & Hall & Hc & _). pose proof (hb_blocks HB) as Hok. pose proof (hb_stored HB) as Hst.
  pose proof (hb_end HB) as Hend. rewrite Hall in Hok, Hst, Hend. unfold blocks_ahead, behind in *.
  rewrite encode_blocks_app in *. rewrite <- app_assoc in Hst. apply stored_app_r in Hst. rewrite length_app in Hend.
  rewrite Hm, Hsw, Hc. split_and!; [by apply Forall_app in Hok as [_ ?]|done|].
  unfold file_end, m_mappedData in *. rewrite Hm, Hsz. lia.
Qed.

Lemma ng_ahead_next k before b rs w p' :
  ng_ahead k before (b :: rs) (w_obj w) -> ng_replaying (w_obj w) p' ->
  m_currentPtr p' = m_currentPtr (w_obj w) + total_at w b ->
  table_of p' = describe (table_of (w_obj w)) b -> ng_ahead k (before ++ [b]) rs p'.
Proof.
  intros (Hr & Hf & Hall & Hc & Ht) Hp Hc' Ht'. pose proof (ng_replaying_same_file _ _ Hp) as (Hf' & _).
  split_and!; [by eapply ng_reading_step|by etransitivity|by rewrite <- app_assoc| |].
  - rewrite Hc', Hc, behind_snoc. unfold total_at. by destruct Hf as (_ & _ & -> & _).
  - rewrite Ht'. apply table_ok_describe; [done|apply HB|done].
Qed.

(** The interface a packet block names is in the table. *)
Lemma ng_ahead_described k before b rs p :
  ng_ahead k before (b :: rs) p ->
  described (table_after before) [b] /\ described (table_of p) [b] /\
  forall i info, nt_map (table_after before) !! i = Some info -> nt_map (table_of p) !! i = Some info.
Proof.
  intros (_ & _ & Hall & _ & Hk & _). pose proof (hb_described HB) as Hd.
  rewrite Hall in Hd. apply described_app in Hd as [_ [Hd _]]. fold (table_after before) in Hd.
  assert (Hi : forall i info, nt_map (table_after before) !! i = Some info -> nt_map (table_of p) !! i = Some info).
  { intros i info. by eapply knows_lookup; [exact Hall|apply HB|]. }
  split; [by split|]. split; [|done]. split; [|done]. destruct b; try done. destruct Hd as (info & Hl & Hne). eauto.
Qed.

(** What a step does: it goes to a packet block and plays it unless it is
    early, or it finishes the replay. *)
Definition stepped (k : nat) w (before rs : list ng_block) (o : outcome W bool) : Prop :=
  (exists before' ifId high low origLen data trailer rs' info p1,
     let b := NgPacket ifId high low origLen data trailer in
     o = pace (ng_time high low (tsResolutionDivisor info))
           (play_block emit (m_currentPtr p1) high low info (block_total sw b)) (World (w_loop w) p1 (w_sys w)) /\
     ng_ahead k before' (b :: rs') p1 /\ nt_map (table_after before') !! ifId = Some info /\
     times before rs = times before' (b :: rs') /\ owed before rs = owed before' (b :: rs') /\
     same_pass (w_obj w) p1) \/
  (exists p', o = Ret false (World (w_loop w) (set_finished true p') (w_sys w)) /\
     times before rs = [] /\ ng_ahead k blocks [] p' /\ same_pass (w_obj w) p').

Lemma total_ahead k before b rs w : ng_ahead k before (b :: rs) (w_obj w) -> total_at w b = block_total sw b.
Proof. intros (_ & (_ & _ & Hsw & _) & _). unfold total_at. by rewrite Hsw. Qed.

(** The search, from any block on. *)
Lemma search_step k rs before w fuel :
  ng_ahead k before rs (w_obj w) -> file_end (w_obj w) - m_currentPtr (w_obj w) < Z.of_nat fuel ->
  stepped k w before rs (search_and_read emit fuel w).
Proof.
  revert before w fuel. induction rs as [|b rs IH]; intros before w fuel Ha Hfuel;
    pose proof (ng_ahead_blocks k before _ w Ha) as Hahead; pose proof Ha as (Hready & _ & Hall & _).
  - right. exists (w_obj w). rewrite app_nil_r in Hall. subst before. split_and!; try done.
    destruct Hahead as (_ & _ & Hend). pose proof (hb_tail HB). change (Z.of_nat (length (encode_blocks _ []))) with 0 in Hend.
    destruct fuel as [|fuel]; [lia|]. unfold search_and_read. cbn [next_packet_block].
    rewrite !bind_assoc, bind_this. unfold sizeof_PcapNgBlockHeader.
    by destruct (Z.ltb_spec (file_end (w_obj w)) (m_currentPtr (w_obj w) + 8)); [|lia].
  - pose proof (blocks_ahead_head w b rs tail (proj1 Hready) Hahead) as Hat.
    pose proof (at_block_end w b _ Hat). pose proof (total_ge w b). destruct fuel as [|fuel]; [lia|].
    destruct (is_packet b) eqn:Hb.
    + left. destruct b as [|ifId high low origLen data trailer|]; try done.
      destruct (ng_ahead_described k before _ rs _ Ha) as ([(info & Hinfo & Hne) _] & _ & Hi).
      exists before, ifId, high, low, origLen, data, trailer, rs, info, (w_obj w). split; [|done].
      unfold search_and_read. rewrite bind_run, (search_turn w _ _ fuel Hat).
      cbn [block_type]. rewrite Z.eqb_refl, <- (total_ahead k before _ rs w Ha).
      rewrite (read_packet_encoded emit w _ _ _ _ _ _ _ info Hat (Hi _ _ Hinfo) Hne). by destruct w.
    + destruct (skip_step w b _ fuel Hb ltac:(apply Hready) Hat) as (p' & E & Hp & Hc & Ht).
      destruct (ng_replaying_same_file _ _ Hp) as (Hf & Hs).
      assert (E2 : search_and_read emit (S fuel) w = search_and_read emit fuel (World (w_loop w) p' (w_sys w))).
      { unfold search_and_read. by rewrite bind_run, E, <- bind_run. }
      rewrite E2. clear E2. unfold stepped. rewrite times_cons, owed_cons.
      destruct (IH (before ++ [b]) (World (w_loop w) p' (w_sys w)) fuel)
        as [(b2 & ifId & high & low & origLen & data & trailer & rs2 & info & p1 & E2 & Ha2 & Hi2 & Ht2 & Ho2 & Hs2)|(p2 & E2 & Ht2 & Ha2 & Hs2)];
        [by eapply ng_ahead_next| |left|right].
      * cbn [w_obj]. destruct Hf as (Hm & Hsz & _). unfold file_end, m_mappedData in *. rewrite Hm, Hsz, Hc. lia.
      * exists b2, ifId, high, low, origLen, data, trailer, rs2, info, p1. rewrite Ht2, Ho2.
        split; [exact E2|]. split; [done|]. split; [done|]. split; [by destruct b|]. split; [by destruct b|]. by etransitivity.
      * exists p2. rewrite Ht2. split; [exact E2|]. split; [by destruct b|]. split; [done|]. by etransitivity.
Qed.

Lemma internalStep_stepped k rs before w :
  ng_ahead k before rs (w_obj w) ->
  exists m, stepped k w before rs (m w) /\ internalStep (recorder emit) w = noexcept m w.
Proof.
  intros Ha. exists (search_and_read emit (S (Z.to_nat (m_fileSize (w_obj w))))). split.
  - apply search_step; [done|].
    destruct Ha as (_ & (Hm & Hsz & _) & _ & Hc & _). unfold file_end, m_mappedData in *. rewrite Hm, Hsz, Hc.
    unfold behind. pose proof (Nat2Z.is_nonneg (length (encode_blocks sw before))). unfold m_mappedData. lia.
  - unfold internalStep, noexcept. rewrite bind_this. by destruct Ha as ((_ & -> & _) & _).
Qed.

(** The packet block at the cursor is played. *)
Lemma play_ahead k before ifId high low origLen data trailer rs info w :
  let b := NgPacket ifId high low origLen data trailer in
  ng_ahead k before (b :: rs) (w_obj w) -> nt_map (table_after before) !! ifId = Some info ->
  exists p2, play_block emit (m_currentPtr (w_obj w)) high low info (block_total sw b) w =
      Ret true (World (w_loop w) p2 (emit_all emit (block_calls p0 (table_after before) (behind before) b) (w_sys w))) /\
    ng_ahead k (before ++ [b]) rs p2 /\ same_pass (w_obj w) p2.
Proof.
  intros b Ha Hinfo. destruct (ng_ahead_described k before b rs _ Ha) as (Hd0 & Hd & Hi).
  pose proof Ha as (Hready & Hsf & _ & Hc & _).
  pose proof (blocks_ahead_head w b rs tail (proj1 Hready) (ng_ahead_blocks k before _ w Ha)) as Hat.
  destruct (play_block_run emit w _ _ _ _ _ _ _ info Hready Hat (Hi _ _ Hinfo)) as (p2 & E & Hp & Hc2 & Ht).
  destruct (ng_replaying_same_file _ _ Hp) as (Hf & Hs). exists p2. fold b in E, Hc2.
  split; [|split; [by eapply ng_ahead_next|done]].
  rewrite <- (total_ahead k before _ rs w Ha), E, Hc. do 3 f_equal. by apply block_calls_same_file.
Qed.

#[export] Instance ng_reader (k : nat) : Reader U Y emit (ng_left k).
Proof.
  split.
  - intros ts tss ds w (before & rs & Ha & Hn & -> & Hfin).
    assert (Hnf : m_finished (w_obj w) = true -> False) by (intros ->%Hfin; done).
    destruct (internalStep_stepped k rs before w Ha) as (m & Hm & E).
    destruct Hm as [(b2 & ifId & high & low & origLen & data & trailer & rs2 & info & p1 & E2 & Ha2 & Hi2 & Ht2 & Ho2 & Hs2)|(p2 & _ & Ht2 & _)];
      [|congruence].
    set (b := NgPacket ifId high low origLen data trailer) in *.
    rewrite Ht2, times_cons in Hn. cbn [b block_time] in Hn. rewrite Hi2 in Hn. injection Hn as Hts Htss. cbn [from_option] in Hts.
    exists (block_calls p0 (table_after b2) (behind b2) b), (owed (b2 ++ [b]) rs2), p1,
      (play_block emit (m_currentPtr p1) high low info (block_total sw b)).
    split; [by rewrite Ho2, owed_cons|]. split; [|split; [|split; [done|split]]].
    + cbn [b block_calls]. rewrite Hi2, <- Hts. destruct (_ =? _); [apply delivery_time|constructor].
    + exists b2, (b :: rs2). split; [done|]. split; [|split; [done|]].
      * rewrite times_cons. cbn [b block_time]. by rewrite Hi2, Hts, Htss.
      * destruct Hs2 as (_ & _ & ->). by intros ?%Hnf.
    + rewrite E. unfold noexcept. by rewrite E2, Hts.
    + intros start wall first l y p1'.
      destruct (play_ahead k b2 ifId high low origLen data trailer rs2 info (World l p1' y)) as (p2 & Ep & Ha3 & Hs3);
        [by apply ng_ahead_retimed|done|].
      exists p2. split; [exact Ep|]. split; [|exact Hs3].
      exists (b2 ++ [b]), rs2. split; [done|]. split; [done|]. split; [done|].
      destruct Hs3 as (_ & _ & ->). change (m_finished p1 = true -> rs2 = []). destruct Hs2 as (_ & _ & ->). by intros ?%Hnf.
  - intros ds w (before & rs & Ha & Hn & -> & Hfin).
    destruct (internalStep_stepped k rs before w Ha) as (m & Hm & E).
    destruct Hm as [(b2 & ifId & high & low & origLen & data & trailer & rs2 & info & p1 & _ & _ & _ & Ht2 & _)|(p2 & E2 & _ & Ha2 & (Hs2 & Ht2 & _))].
    { rewrite Ht2, times_cons in Hn. done. }
    exists (set_finished true p2). split; [rewrite E; unfold noexcept; by rewrite E2|]. split; [|split_and!; done].
    exists blocks, []. destruct Ha2 as ((Hfo & Hr) & Ha2). split_and!; try done. split; [by destruct Hfo|done].
  - intros ds p (before & rs & _ & Hn & -> & _). apply no_packets_no_calls.
    unfold times in Hn. by rewrite <- (ng_times_length (table_after before)), <- Hn.
Qed.

Context {MK : MemoryKernel Y} (ndebug : bool).

(** A pcapng file can be played [k] times, if the counter of interfaces has
    room for as many passes. *)
#[export] Instance ng_rewindable :
  Rewindable U Y ndebug ng_left ng_between (times [] blocks) [] (owed [] blocks).
Proof.
  split.
  - intros k w Ho ((Hfo & Hng & Hlt & Hhot) & Hf & Hk & H0 & H1). eexists. split.
    + unfold rewind. rewrite (bind_Ret _ _ _ _ _ (checkThread_passes ndebug w Ho)). run_steps.
      cbn [w_obj with_obj set_cursor m_isPcapNg]. rewrite Hng. by run_steps.
    + split; [|done]. exists [], blocks. pose proof Hf as (Hm & _).
      split; [|done]. split; [split_and!; [by destruct Hfo|done..]|]. split; [done|]. split; [done|]. split.
      * cbn. unfold behind, m_mappedData. rewrite Hm. cbn. lia.
      * split; [done|]. split; [done|]. cbn [table_of nt_count set_timing set_finished set_cursor] in *. cbn in *. lia.
  - intros k ds p (before & rs & (Hr & Hf & Hall & _ & Hk & H0 & H1) & _ & _ & Hfin) Hfinished.
    specialize (Hfin Hfinished). subst rs. rewrite app_nil_r in Hall. subst before.
    split; [done|]. split; [done|]. change (interfaces []) with 0 in H1. split; [|lia].
    destruct Hk as [Ht|Hk]; [|by right]. right. rewrite Ht. destruct (table_after_spec blocks (hb_interfaces HB)) as [_ Hc].
    split; [done|]. rewrite Hc. lia.
Qed.
End Ng.
