(* ===== verification/FloodRun.v ===== *)
(** Progress of the replay in FLOOD mode, through the loop: every turn of
    [runOnce] plays packets until the replay is finished. *)
From S2P Require Import Prelude Outcome Result Kernel SimKernel ScopedFd TimerQueue EventLoop Recorder.
From S2P Require Import EventLoopFacts TimerFacts SourceFacts DispatchFacts Waking.
From S2P Require Import PcapFormat Float64 PacketReceiver PcapReceiver PcapDispatch PcapReplay PcapOpen Playback.

Section FloodRun.
Context {U Y L : Type} {RK : ReactorKernel Y} {RL : ReactorLaws Y} {WK : WakingKernel Y}
  {emit : delivery -> Y -> Y} {AM : AppMemory L emit}.
Context (I : nat -> list delivery -> PcapReceiver -> Prop) {PI : Playable U Y emit I}.
Notation W := (world (task U) PcapReceiver Y).
Context (user_task : U -> M W unit) (handleRead : Z -> Z -> Z -> Z -> M W unit).
(** The pointer epoll holds for the timer descriptor. *)
Context (sp : source_ptr).
Implicit Types (w : W) (y : Y).

Notation run_task := (run_pcap_task (recorder emit) user_task).
Notation flooding := (flooding I).
Notation played := (played emit I).

(** ** The state between two turns *)

(** A one-shot timer for a batch, due. *)
Definition batch_timer y (t : Timer (task U)) : Prop :=
  callback t = Some ProcessBatch /\ repeat t = false /\ expiration t <= clock y.

(** The loop of a program that replays a capture and does nothing else. *)
Record calm (l : EventLoop (task U)) y : Prop := {
  calm_ok : loop_ok l;
  calm_fds : fd (m_epoll_fd l) = epoll_of y /\ fd (m_timer_fd l) = timer_of y;
  calm_source : registered y = {[timer_of y := sp]} /\ leads l sp TimerTag;
  calm_timers : Forall (batch_timer y) (m_timers l);
  calm_pending : Forall flood_task (m_pendingTasks l);
  calm_clock : 1 <= clock y
}.

(** ... with [n] packets left to play; until the replay is finished
    something is scheduled. *)
Record live (n : nat) (ds : list delivery) w : Prop := {
  live_calm : calm (w_loop w) (w_sys w);
  live_armed : armed w;
  live_flood : flooding n ds (w_obj w);
  live_goes : m_finished (w_obj w) = false -> m_timers (w_loop w) <> [] \/ m_pendingTasks (w_loop w) <> []
}.

Lemma calm_quiet l y y' : calm l y -> quiet y y' -> calm l y'.
Proof.
  intros [Hok Hf Hs Ht Hp Hc] (Hclk & Hr & He & Htm & _). split; [done| | | |done|lia].
  - by rewrite He, Htm.
  - by rewrite Hr, Htm.
  - eapply Forall_impl; [exact Ht|]. intros t (? & ? & ?). split_and!; [done..|lia].
Qed.

Lemma calm_emit l y ds : calm l y -> calm l (emit_all emit ds y).
Proof.
  destruct (emit_all_frame ds y) as (Hc & _ & Hr & He & Ht).
  intros [Hok Hf Hs Htm Hp Hclk]. split; [done|by rewrite He, Ht|by rewrite Hr, Ht| |done|by rewrite Hc].
  eapply Forall_impl; [exact Htm|]. intros t. unfold batch_timer. by rewrite Hc.
Qed.

(** The loop with other timers and tasks of the same kind. *)
Lemma calm_loop l l' y :
  calm l y -> loop_ok l' -> m_epoll_fd l' = m_epoll_fd l -> m_timer_fd l' = m_timer_fd l ->
  (forall p h, leads l p h -> leads l' p h) ->
  Forall (batch_timer y) (m_timers l') -> Forall flood_task (m_pendingTasks l') -> calm l' y.
Proof.
  intros [_ Hf (Hr & Hl) _ _ Hc] Hok He Ht Hleads Htm Hp. split; [done|by rewrite He, Ht|by auto|done|done|done].
Qed.

Lemma calm_set_pending l y ts :
  calm l y -> Forall flood_task ts -> calm (set_pending ts l) y.
Proof.
  intros Hc Hts. apply (calm_loop l); try done; [|apply Hc]. destruct (calm_ok _ _ Hc). by split.
Qed.

(** ** A step of the program *)

(** From [w] with [n] packets left and the calls [ds] owed to [w']: some of
    the calls were made, nothing else reached the application's memory, and a
    finished replay stays finished. *)
Record moved (n : nat) (ds : list delivery) w (n' : nat) (ds' : list delivery) (w' : W) : Prop := {
  moved_calls : exists d, ds = d ++ ds' /\ memory (w_sys w') = foldl note (memory (w_sys w)) d;
  moved_setup : same_setup (w_obj w) (w_obj w');
  moved_left : (n' <= n)%nat;
  moved_finished : m_finished (w_obj w) = true -> m_finished (w_obj w') = true
}.

Definition progressed (n n' : nat) (w' : W) : Prop := m_finished (w_obj w') = true \/ (n' < n)%nat.

Lemma moved_refl n ds w w' :
  w_obj w' = w_obj w -> memory (w_sys w') = memory (w_sys w) -> moved n ds w n ds w'.
Proof. intros Ho Hm. split; [by exists []|by rewrite Ho|done|by rewrite Ho]. Qed.

Lemma moved_trans n ds w n1 ds1 w1 n2 ds2 w2 :
  moved n ds w n1 ds1 w1 -> moved n1 ds1 w1 n2 ds2 w2 -> moved n ds w n2 ds2 w2.
Proof.
  intros [(d1 & -> & Hm1) Hs1 Hl1 Hf1] [(d2 & -> & Hm2) Hs2 Hl2 Hf2].
  split; [|by etransitivity|lia|auto]. exists (d1 ++ d2). by rewrite app_assoc, foldl_app, Hm2, Hm1.
Qed.

Lemma progressed_then n n1 w1 n2 ds1 ds2 w2 :
  progressed n n1 w1 -> moved n1 ds1 w1 n2 ds2 w2 -> progressed n n2 w2.
Proof. intros [Hf|Hlt] [_ _ Hle Hfin]; [left; auto|right; lia]. Qed.

Lemma then_progressed n ds w n1 ds1 w1 n2 w2 :
  moved n ds w n1 ds1 w1 -> progressed n1 n2 w2 -> progressed n n2 w2.
Proof. intros [_ _ Hle _] [Hf|Hlt]; [by left|right; lia]. Qed.

(** What a scheduled function does, in these terms. *)
Lemma played_moved n ds w w' :
  calm (w_loop w) (w_sys w) -> flooding n ds (w_obj w) -> played n ds w w' ->
  exists n' ds', moved n ds w n' ds' w' /\ progressed n n' w' /\ flooding n' ds' (w_obj w') /\
    calm (w_loop w') (w_sys w') /\ deadline (w_sys w') = deadline (w_sys w) /\
    m_timers (w_loop w') = m_timers (w_loop w) /\ m_events (w_loop w') = m_events (w_loop w) /\
    (m_finished (w_obj w') = true \/ m_pendingTasks (w_loop w') <> []) /\
    (m_pendingTasks (w_loop w) <> [] -> m_pendingTasks (w_loop w') <> []).
Proof.
  intros Hc HF (d & n' & ds' & p' & extra & -> & -> & HF' & Hs & Hex & Hp).
  exists n', ds'. cbn [w_loop w_obj w_sys]. assert (H0 : m_finished p' = true -> n' = 0%nat) by apply HF'.
  split_and!; try done.
  - split; cbn [w_obj w_sys]; [exists d; by rewrite emit_all_memory|done| |].
    + destruct Hp as [Hf|[? _]]; [rewrite (H0 Hf); lia|lia].
    + intros Hf. destruct HF as (_ & _ & _ & Hn). specialize (Hn Hf). destruct Hp as [?|[? _]]; [done|lia].
  - destruct Hp as [?|[? _]]; [by left|by right].
  - apply calm_emit, calm_set_pending; [done|]. apply Forall_app. split; [apply Hc|done].
  - apply emit_all_frame.
  - destruct Hp as [?|[_ Hne]]; [by left|right]. cbn. by destruct (m_pendingTasks (w_loop w)), extra.
  - cbn. by destruct (m_pendingTasks (w_loop w)).
Qed.

(** A list of scheduled functions, run one after the other. *)
Lemma tasks_moved ts n ds w :
  Forall flood_task ts -> calm (w_loop w) (w_sys w) -> flooding n ds (w_obj w) ->
  exists n' ds' w', for_each ts (call_task run_task) w = Ret tt w' /\
    moved n ds w n' ds' w' /\ flooding n' ds' (w_obj w') /\
    calm (w_loop w') (w_sys w') /\ deadline (w_sys w') = deadline (w_sys w) /\
    m_timers (w_loop w') = m_timers (w_loop w) /\ m_events (w_loop w') = m_events (w_loop w) /\
    (ts <> [] -> progressed n n' w' /\ (m_finished (w_obj w') = true \/ m_pendingTasks (w_loop w') <> [])) /\
    (m_pendingTasks (w_loop w) <> [] -> m_pendingTasks (w_loop w') <> []).
Proof.
  intros Hts. revert n ds w. induction Hts as [|t ts Ht Hts IH]; intros n ds w Hc HF.
  - exists n, ds, w. split; [done|]. split; [by apply moved_refl|]. split_and!; done.
  - destruct (flood_task_played emit I user_task t n ds w Ht HF) as (w1 & E1 & Hp1).
    destruct (played_moved n ds w w1 Hc HF Hp1) as (n1 & ds1 & Hm1 & Hg1 & HF1 & Hc1 & Hd1 & Ht1 & He1 & Hfp1 & Hpp1).
    destruct (IH n1 ds1 w1 Hc1 HF1) as (n2 & ds2 & w2 & E2 & Hm2 & HF2 & Hc2 & Hd2 & Ht2 & He2 & Hg2 & Hpp2).
    exists n2, ds2, w2. cbn [for_each]. rewrite (bind_Ret _ _ _ _ _ E1). split_and!; try done.
    + by eapply moved_trans.
    + by rewrite Hd2.
    + by rewrite Ht2.
    + by rewrite He2.
    + intros _. split; [by eapply progressed_then|].
      destruct Hfp1 as [Hf|Hne]; [left; by apply Hm2|right; auto].
    + auto.
Qed.

(** ** The timers *)

Lemma for_each_fire y ts w :
  Forall (batch_timer y) ts ->
  for_each ts (fire run_task) w = for_each (callback <$> ts) (call_task run_task) w.
Proof.
  intros Hts. revert w. induction Hts as [|t ts Ht _ IH]; intros w; [done|].
  destruct Ht as (Hcb & Hr & _). cbn [for_each fmap list_fmap].
  rewrite !bind_run, (fire_once _ _ _ _ Hcb Hr), Hcb. cbn [call_task].
  by destruct (run_task ProcessBatch w) as [[]| |].
Qed.

(** The event of the timer descriptor: all the timers are due. *)
Lemma handleTimerRead_moved n ds w :
  live n ds w ->
  exists n' ds' w', handleTimerRead run_task w = Ret tt w' /\ live n' ds' w' /\ moved n ds w n' ds' w' /\
    m_events (w_loop w') = m_events (w_loop w) /\
    (m_pendingTasks (w_loop w) <> [] -> m_pendingTasks (w_loop w') <> []) /\
    (fst (timerfd_read (fd (m_timer_fd (w_loop w))) (w_sys w)) = 8 -> m_timers (w_loop w) <> [] ->
       progressed n n' w').
Proof.
  intros [Hc Ha HF Hgo]. set (tfd := fd (m_timer_fd (w_loop w))).
  destruct (decide (fst (timerfd_read tfd (w_sys w)) = 8)) as [Hr|Hr].
  - pose proof (calm_ok _ _ Hc) as Hok.
    rewrite (handleTimerRead_eq run_task w (ok_sorted _ Hok) Hr).
    set (now := fst (steady_now (read_sys w))). set (y1 := snd (steady_now (read_sys w))).
    assert (Hq : quiet (w_sys w) y1).
    { unfold y1, read_sys. etransitivity; [apply frame_read|apply frame_now]. }
    assert (Hnow : clock (w_sys w) <= now).
    { destruct Hq as (Hcl & _). unfold y1 in Hcl. by rewrite (proj2 (steady_now_clock (read_sys w))) in Hcl. }
    assert (Hdue : due now (m_timers (w_loop w)) = m_timers (w_loop w) /\ not_due now (m_timers (w_loop w)) = []).
    { pose proof (calm_timers _ _ Hc) as Hall. unfold due, not_due. split.
      - apply filter_all. eapply Forall_impl; [exact Hall|]. intros t (_ & _ & ?). lia.
      - apply filter_none. eapply Forall_impl; [exact Hall|]. intros t (_ & _ & ?). lia. }
    destruct Hdue as [-> Hnd].
    set (l1 := expired_loop now (w_loop w)).
    assert (Hl1 : m_timers l1 = []) by exact Hnd.
    assert (Hok1 : loop_ok l1) by (by apply expired_loop_ok).
    assert (Hc1 : calm l1 y1).
    { apply (calm_loop (w_loop w)); try done; [by eapply calm_quiet|by rewrite Hl1|apply Hc]. }
    rewrite bind_run, (for_each_fire (w_sys w)) by apply Hc.
    destruct (tasks_moved (callback <$> m_timers (w_loop w)) n ds (World l1 (w_obj w) y1))
      as (n2 & ds2 & w2 & E2 & Hm2 & HF2 & Hc2 & Hd2 & Ht2 & Hev2 & Hg2 & Hp2); [|done|done|].
    { apply Forall_fmap. eapply Forall_impl; [exact (calm_timers _ _ Hc)|]. intros t (Hcb & _). exact (or_introl Hcb). }
    rewrite E2. clear E2. cbn [w_loop w_obj w_sys] in *.
    destruct (resetTimerFd_frame quiet w2 (calm_ok _ _ Hc2)) as (y3 & E3 & Hq3).
    exists n2, ds2, (World (w_loop w2) (w_obj w2) y3). split; [exact E3|].
    assert (Htm : m_timers (w_loop w2) = []) by (by rewrite Ht2).
    destruct Hq3 as (Hcl3 & Hr3 & He3 & Ht3 & Hmem3).
    split; [|split; [|split; [exact Hev2|split]]].
    + split; cbn [w_loop w_obj w_sys]; [|unfold armed; cbn [w_loop]; by rewrite Htm|done|].
      { eapply calm_quiet; [exact Hc2|]. by split_and!. }
      intros Hf. right. destruct (m_timers (w_loop w)) as [|t ts] eqn:Ets.
      * apply Hp2. destruct Hm2 as [_ _ _ Hfin]. cbn [w_obj] in Hfin.
        destruct (m_finished (w_obj w)); [by rewrite Hfin in Hf|]. by destruct (Hgo eq_refl).
      * destruct Hg2 as [_ [Hf2|Hne]]; [done|by rewrite Hf2 in Hf|done].
    + destruct Hm2 as [(d & Hd & Hmem) Hs Hl Hfin]. split; cbn [w_obj w_sys] in *; try done.
      exists d. split; [done|]. rewrite Hmem3, Hmem. f_equal. apply Hq.
    + exact Hp2.
    + intros _ Hne. destruct Hg2 as [Hg _]; [by destruct (m_timers (w_loop w))|]. exact Hg.
  - exists n, ds, (with_sys (snd (timerfd_read tfd (w_sys w))) w).
    pose proof (frame_read (R := quiet) tfd (w_sys w)) as Hq.
    split; [|split; [|split; [|split; [|split]]]]; try done.
    + unfold handleTimerRead. run_steps. fold tfd. apply Z.eqb_neq in Hr. by rewrite Hr.
    + split; cbn [w_loop w_obj w_sys with_sys]; [by eapply calm_quiet| |done|done].
      unfold armed in *. cbn. by rewrite read_fails.
    + apply moved_refl; [done|]. apply Hq.
Qed.
(** The dispatch of events that are all the timer's. *)
Lemma events_moved (js : list Z) n ds w :
  live n ds w -> Forall (fun i => m_events (w_loop w) !! Z.to_nat i = Some (Some sp)) js ->
  exists n' ds' w', for_each js (dispatch_event run_task handleRead) w = Ret tt w' /\
    live n' ds' w' /\ moved n ds w n' ds' w' /\
    (m_pendingTasks (w_loop w) <> [] -> m_pendingTasks (w_loop w') <> []) /\
    (js <> [] -> fst (timerfd_read (fd (m_timer_fd (w_loop w))) (w_sys w)) = 8 -> m_timers (w_loop w) <> [] ->
       progressed n n' w').
Proof.
  revert n ds w. induction js as [|i js IH]; intros n ds w Hl Hev.
  - exists n, ds, w. split; [done|]. split; [done|]. split; [by apply moved_refl|]. by split.
  - apply Forall_cons in Hev as [Hi Hev].
    assert (Hd : dispatch_event run_task handleRead i w = handleTimerRead run_task w).
    { rewrite (dispatch_event_run run_task handleRead i sp TimerTag w Hi); [done|]. apply deref_leads, Hl. }
    destruct (handleTimerRead_moved n ds w Hl) as (n1 & ds1 & w1 & E1 & Hl1 & Hm1 & He1 & Hp1 & Hg1).
    destruct (IH n1 ds1 w1 Hl1) as (n2 & ds2 & w2 & E2 & Hl2 & Hm2 & Hp2 & _); [by rewrite He1|].
    exists n2, ds2, w2. cbn [for_each]. rewrite bind_run, Hd, E1.
    split; [done|]. split; [done|]. split; [by eapply moved_trans|]. split; [auto|].
    intros _ Hr Ht. eapply progressed_then; [by apply Hg1|done].
Qed.

Lemma dispatch_moved evs n ds w :
  live n ds w -> Forall (eq sp) evs -> (length evs <= Z.to_nat MAX_EVENTS)%nat ->
  exists n' ds' w', dispatch_batch run_task handleRead evs w = Ret tt w' /\
    live n' ds' w' /\ moved n ds w n' ds' w' /\
    (m_pendingTasks (w_loop w) <> [] -> m_pendingTasks (w_loop w') <> []) /\
    (evs <> [] -> fst (timerfd_read (fd (m_timer_fd (w_loop w))) (w_sys w)) = 8 -> m_timers (w_loop w) <> [] ->
       progressed n n' w').
Proof.
  intros Hl Hevs Hlen. unfold dispatch_batch, for_n. rewrite bind_loop_set.
  set (f := fun l => set_events _ l).
  assert (Hl' : live n ds (with_loop f w)).
  { destruct Hl as [Hc Ha HF Hgo]. split; [|done|done|done].
    apply (calm_loop (w_loop w)); [done| |done|done|by intros []|apply Hc|apply Hc].
    destruct (calm_ok _ _ Hc) as [H1 H2 H3 H4]. split; [done..|].
    cbn. rewrite length_app, length_fmap, length_drop, H4. lia. }
  destruct (events_moved (seqZ 0 (Z.of_nat (length evs))) n ds (with_loop f w) Hl')
    as (n' & ds' & w' & E & Hl2 & Hm & Hp & Hg).
  { apply Forall_forall. intros i Hi%elem_of_seqZ. cbn. rewrite lookup_app_l by (rewrite length_fmap; lia).
    rewrite list_lookup_fmap. destruct (lookup_lt_is_Some_2 evs (Z.to_nat i)) as [q Hq]; [lia|].
    rewrite Hq. cbn. by rewrite (Forall_lookup_1 _ _ _ _ Hevs Hq). }
  exists n', ds', w'. split; [done|]. split; [done|]. split; [by destruct Hm; split|]. split; [done|].
  intros Hne. apply Hg. destruct evs; [done|]. cbn [length]. by rewrite seqZ_cons by lia.
Qed.

(** The deferred functions. *)
Lemma run_pending_moved n ds w :
  live n ds w ->
  exists n' ds' w', run_pending run_task w = Ret tt w' /\ live n' ds' w' /\ moved n ds w n' ds' w' /\
    (m_pendingTasks (w_loop w) <> [] -> progressed n n' w').
Proof.
  intros Hl. pose proof Hl as [Hc Ha HF Hgo]. unfold run_pending. rewrite bind_loop_get.
  destruct (m_pendingTasks (w_loop w)) as [|t ts] eqn:Ep.
  - exists n, ds, w. split; [done|]. split; [done|]. split; [by apply moved_refl|done].
  - rewrite bind_loop_set.
    destruct (tasks_moved (t :: ts) n ds (with_loop (set_pending []) w))
      as (n' & ds' & w' & E & Hm & HF' & Hc' & Hd & Ht & _ & Hg & _); [|by apply calm_set_pending|done|].
    { rewrite <- Ep. apply Hc. }
    destruct Hg as [Hg Hgo']; [done|]. exists n', ds', w'. split; [exact E|]. split; [|split].
    + split; [done| |done|].
      * unfold armed in *. rewrite Ht, Hd. exact Ha.
      * intros Hf. right. by destruct Hgo' as [Hf'|?]; [rewrite Hf' in Hf|].
    + by destruct Hm; split.
    + done.
Qed.

(** ** One turn of the loop *)

(** The wait returns, and with nothing deferred it reports the timer. *)
Lemma wait_returns n ds timeoutMs w :
  live n ds w -> m_finished (w_obj w) = false ->
  exists evs, fst (wait_result timeoutMs w) = Some evs /\ Forall (eq sp) evs /\ (length evs <= Z.to_nat MAX_EVENTS)%nat /\
    (m_pendingTasks (w_loop w) = [] ->
       evs <> [] /\ m_timers (w_loop w) <> [] /\
       fst (timerfd_read (fd (m_timer_fd (w_loop w))) (snd (wait_result timeoutMs w))) = 8).
Proof.
  intros [Hc Ha HF Hgo] Hf. destruct (calm_fds _ _ Hc) as [He Ht]. destruct (calm_source _ _ Hc) as [Hreg _].
  unfold wait_result. rewrite He. set (tmo := effective_timeout timeoutMs w).
  assert (Hall : forall evs, fst (epoll_wait (epoll_of (w_sys w)) MAX_EVENTS tmo (w_sys w)) = Some evs ->
    Forall (eq sp) evs /\ (length evs <= Z.to_nat MAX_EVENTS)%nat).
  { intros evs E. destruct (epoll_wait_ok _ _ _ _ _ E) as [Hlen Hin]. split; [|lia].
    apply Forall_forall. intros q Hq.
    destruct (Hin q Hq) as [f Hfq]. rewrite Hreg in Hfq. by apply lookup_singleton_Some in Hfq as [_ ->]. }
  destruct (m_pendingTasks (w_loop w)) as [|t ts] eqn:Ep.
  - assert (Hne : m_timers (w_loop w) <> []) by (by destruct (Hgo Hf)).
    assert (Hd : exists d, deadline (w_sys w) = Some d /\ d <= clock (w_sys w)).
    { unfold armed in Ha. pose proof (calm_timers _ _ Hc) as Htm. pose proof (calm_clock _ _ Hc).
      destruct (m_timers (w_loop w)) as [|b bs]; [done|]. destruct Ha as (d & Hd & Hle).
      apply Forall_cons in Htm as [(_ & _ & Hb) _]. exists d. split; [done|lia]. }
    destruct Hd as (d & Hd & Hle).
    destruct (wait_wakes MAX_EVENTS tmo (w_sys w) sp d) as (evs & E & Hin); try done.
    { rewrite Hreg, map_size_singleton. done. }
    { rewrite Hreg. apply lookup_singleton_eq. }
    exists evs. split; [done|]. split; [by apply Hall|]. split; [by apply Hall|]. intros _. split_and!; [by intros ->; inversion Hin|done|].
    destruct (fds_wait (epoll_of (w_sys w)) MAX_EVENTS tmo (w_sys w)) as [_ Ht2].
    rewrite Ht, <- Ht2. eapply read_due.
    + by rewrite (proj1 (epoll_wait_frame _ _ _ _)).
    + pose proof (wait_clock (epoll_of (w_sys w)) MAX_EVENTS tmo (w_sys w)). lia.
  - assert (Htmo : tmo = 0) by (unfold tmo, effective_timeout; by rewrite Ep).
    rewrite Htmo in *. destruct (wait_polls MAX_EVENTS (w_sys w)) as [evs E]; [done|].
    exists evs. split; [done|]. split; [by apply Hall|]. split; [by apply Hall|done].
Qed.

(** A turn plays packets, or finishes the replay. *)
Lemma runOnce_moved n ds timeoutMs w :
  live n ds w -> m_finished (w_obj w) = false ->
  exists n' ds' w', runOnce run_task handleRead timeoutMs w = Ret ResultVoid.success w' /\
    live n' ds' w' /\ moved n ds w n' ds' w' /\ progressed n n' w'.
Proof.
  intros Hl Hf. destruct (wait_returns n ds timeoutMs w Hl Hf) as (evs & E & Hevs & Hlen & Hwake).
  rewrite runOnce_wait, E. set (y1 := snd (wait_result timeoutMs w)) in *.
  assert (Hq : quiet (w_sys w) y1) by apply frame_wait.
  assert (Hl1 : live n ds (with_sys y1 w)).
  { destruct Hl as [Hc Ha HF Hgo]. split; [by eapply calm_quiet| |done|done].
    unfold armed in *. cbn [w_loop w_sys with_sys]. unfold y1, wait_result. by rewrite (proj1 (epoll_wait_frame _ _ _ _)). }
  destruct (dispatch_moved evs n ds (with_sys y1 w) Hl1 Hevs Hlen) as (n2 & ds2 & w2 & E2 & Hl2 & Hm2 & Hp2 & Hg2).
  destruct (run_pending_moved n2 ds2 w2 Hl2) as (n3 & ds3 & w3 & E3 & Hl3 & Hm3 & Hg3).
  exists n3, ds3, w3. rewrite (bind_Ret _ _ _ _ _ E2), (bind_Ret _ _ _ _ _ E3).
  split; [done|]. split; [done|]. split.
  - eapply moved_trans; [|exact Hm3]. eapply moved_trans; [|exact Hm2]. apply moved_refl; [done|]. apply Hq.
  - destruct (decide (m_pendingTasks (w_loop w) = [])) as [Ep|Ep].
    + destruct (Hwake Ep) as (? & ? & ?). eapply progressed_then; [|done]. by apply Hg2.
    + eapply then_progressed; [exact Hm2|]. by apply Hg3, Hp2.
Qed.
End FloodRun.
