(* ===== verification/PacedRun.v ===== *)
(** The replay in TIMED mode, through the loop: one pass over a file, played
    by batches that one-shot timers start.  Every packet is played at or after
    its target time, in the order of the file; between two turns either the
    replay is finished or exactly one timer for the next batch is scheduled. *)
From S2P Require Import Prelude Outcome Result Kernel SimKernel ScopedFd TimerQueue EventLoop Recorder.
From S2P Require Import EventLoopFacts TimerFacts SourceFacts DispatchFacts TurnRule Waking.
From S2P Require Import PcapFormat Float64 PacketReceiver PcapReceiver PcapDispatch PcapReplay PcapOpen PcapControl Playback.

(** ** When a packet is early *)

Section Early.
Context {U Y : Type} {RK : ReactorKernel Y} {RL : ReactorLaws Y} {WK : WakingKernel Y}.
Notation W := (world (task U) PcapReceiver Y).
Context (R : Y -> Y -> Prop) {RF : ReactorFrame R}.
Implicit Types w : W.

(** The first packet: time passes. *)
Lemma too_early_first ts w :
  mode (m_pcapConfig (w_obj w)) = TIMED -> normal_speed (w_obj w) -> file_time ts ->
  m_firstPacket (w_obj w) = true ->
  exists now y, too_early ts w = Ret false (World (w_loop w) (set_timing ts now false (w_obj w)) y) /\
    R (w_sys w) y /\ clock (w_sys w) <= now <= clock y.
Proof.
  intros Hmode _ _ Hfirst. rewrite (too_early_origin ts w) by done.
  eexists _, _. split; [done|]. split; [etransitivity; apply frame_now|].
  pose proof (steady_now_clock (w_sys w)) as [Hc1 Hc2].
  pose proof (steady_now_clock (snd (steady_now (w_sys w)))) as [Hc3 Hc4]. unfold now_of. lia.
Qed.

(** A later packet is early while the clock is before its target, and the
    next batch is then scheduled. *)
Lemma too_early_later ts w :
  mode (m_pcapConfig (w_obj w)) = TIMED -> normal_speed (w_obj w) -> file_time ts ->
  started (w_obj w) -> m_wallStartTs (w_obj w) <= clock (w_sys w) -> loop_ok (w_loop w) ->
  exists y, R (w_sys w) y /\
    ((target_of (w_obj w) ts <= clock y /\ too_early ts w = Ret false (World (w_loop w) (w_obj w) y)) \/
     (clock (w_sys w) < target_of (w_obj w) ts /\
      exists e, let l' := scheduled_timer e 0 false (Some ProcessBatch) (w_loop w) in
        too_early ts w = Ret true (World l' (w_obj w) y) /\ loop_ok l')).
Proof.
  intros Hmode Hspeed Hts Hst Hwall Hok. set (t := target_of (w_obj w) ts).
  destruct (too_early_eq ts t w Hmode) as [-> Hq]; [by apply target_time_run|by apply target_bound|].
  pose proof (steady_now_clock (w_sys w)) as [Hc1 Hc2]. fold (now_of w) in Hc1, Hc2.
  set (now := now_of w) in *. set (w1 := with_sys (snd (steady_now (w_sys w))) w).
  destruct (Z.ltb_spec now t) as [Hlt|Hge].
  - destruct (runAfter_frame R (Z.quot (t - now) 1000000) (Some ProcessBatch) w1 Hok (Hq Hlt)) as (y & E & HR & Hok').
    exists y. split; [etransitivity; [apply frame_now|]; etransitivity; [apply frame_now|exact HR]|]. right. split; [lia|].
    eexists. rewrite (bind_Ret _ _ _ _ _ E). split; [done|exact Hok'].
  - exists (snd (steady_now (w_sys w))). split; [apply frame_now|]. left. split; [lia|]. by destruct w.
Qed.
End Early.

(** ** A pass *)

Section Pass.
Context {U Y L : Type} {RK : ReactorKernel Y} {RL : ReactorLaws Y} {WK : WakingKernel Y}
  {emit : delivery -> Y -> Y} {AM : AppMemory L emit}.
Context (I : list timespec -> list delivery -> PcapReceiver -> Prop) {RI : Reader U Y emit I}.
Notation W := (world (task U) PcapReceiver Y).
Context (user_task : U -> M W unit) (handleRead : Z -> Z -> Z -> Z -> M W unit).
(** The pointer epoll holds for the timer descriptor. *)
Context (sp : source_ptr).
Implicit Types (w : W) (y : Y) (p : PcapReceiver).

Notation run_task := (run_pcap_task (recorder emit) user_task).
Notation quiet := (quiet (emit := emit)).

(** The receiver, the packets of the file with the calls owed for them, and the
    clock and the application's memory when the pass starts. *)
Context (p0 : PcapReceiver) (all : list timespec) (owed : list delivery) (c0 : Z) (m0 : L).

Record paced_setup : Prop := {
  ps_mode : mode (m_pcapConfig p0) = TIMED;
  ps_speed : normal_speed p0;
  ps_mapped : m_mappedData p0 <> 0;
  ps_times : Forall file_time all;
  ps_clock : 1 <= c0
}.
Context (HS : paced_setup).

(** The packets [past] have been played, each at or after its target time,
    which counts from the instant the first of them was played; the packets
    [future] are left, and the calls for them are still owed. *)
Record position (past future : list timespec) w : Prop := {
  po_all : all = past ++ future;
  po_calls : exists ds1 ds2, owed = ds1 ++ ds2 /\ I future ds2 (w_obj w) /\ memory (w_sys w) = foldl note m0 ds1;
  po_setup : same_setup p0 (w_obj w);
  po_origin : match past with
    | [] => m_firstPacket (w_obj w) = true
    | t :: _ => m_firstPacket (w_obj w) = false /\ m_pcapStartTs (w_obj w) = t /\
        c0 <= m_wallStartTs (w_obj w) <= clock (w_sys w)
    end;
  po_past : Forall (fun t => target_of (w_obj w) t <= clock (w_sys w)) past;
  po_finished : m_finished (w_obj w) = true -> future = []
}.

(** The loop of a program that replays a capture and does nothing else. *)
Record idle (l : EventLoop (task U)) y : Prop := {
  id_ok : loop_ok l;
  id_fds : fd (m_epoll_fd l) = epoll_of y /\ fd (m_timer_fd l) = timer_of y;
  id_source : registered y = {[timer_of y := sp]} /\ leads l sp TimerTag;
  id_pending : m_pendingTasks l = [];
  id_clock : c0 <= clock y
}.

Definition batch_timer (t : Timer (task U)) : Prop := callback t = Some ProcessBatch /\ repeat t = false.

(** Unless the replay is finished, the next batch is scheduled. *)
Definition resting w : Prop :=
  if m_finished (w_obj w) then m_timers (w_loop w) = []
  else exists t, m_timers (w_loop w) = [t] /\ batch_timer t.

(** What every step keeps: time passes, and once the pacing has an origin it
    stays. *)
Definition onward w w' : Prop :=
  clock (w_sys w) <= clock (w_sys w') /\ registered (w_sys w') = registered (w_sys w) /\
  m_events (w_loop w') = m_events (w_loop w) /\
  (m_firstPacket (w_obj w) = false -> same_timing (w_obj w) (w_obj w')).

#[export] Instance onward_order : PreOrder onward.
Proof.
  unfold onward, same_timing. split; [intros w; split_and!; done || lia|].
  intros w1 w2 w3 (? & ? & ? & H2) (? & ? & ? & H3). split_and!; [lia|congruence|congruence|].
  intros Hf. specialize (H2 Hf). destruct H2 as (E & ? & ?). rewrite Hf in E. specialize (H3 E). intuition congruence.
Qed.

Lemma idle_quiet l y y' : idle l y -> quiet y y' -> idle l y'.
Proof.
  intros [Hok Hf Hs Hp Hc] (Hclk & Hr & He & Htm & _).
  split; [done|by rewrite He, Htm|by rewrite Hr, Htm|done|lia].
Qed.

Lemma idle_emit l y ds : idle l y -> idle l (emit_all emit ds y).
Proof.
  destruct (emit_all_frame ds y) as (Hc & _ & Hr & He & Ht).
  intros [Hok Hf Hs Hp Hclk]. split; [done|by rewrite He, Ht|by rewrite Hr, Ht|done|by rewrite Hc].
Qed.

(** The loop with other timers. *)
Lemma idle_loop l l' y :
  idle l y -> loop_ok l' -> m_epoll_fd l' = m_epoll_fd l -> m_timer_fd l' = m_timer_fd l ->
  m_pendingTasks l' = m_pendingTasks l -> (forall q h, leads l q h -> leads l' q h) -> idle l' y.
Proof.
  intros [_ Hf (Hr & Hl) Hp Hc] Hok He Ht Hpend Hleads. split; [done|by rewrite He, Ht|by auto|by rewrite Hpend|done].
Qed.

Lemma target_timing p p' t : same_timing p p' -> target_of p' t = target_of p t.
Proof. unfold target_of. by intros (_ & -> & ->). Qed.

(** A receiver at the same place, in a later state. *)
Lemma position_later past future w l p' y :
  position past future w -> quiet (w_sys w) y ->
  (forall ds, I future ds (w_obj w) -> I future ds p') -> same_pass (w_obj w) p' ->
  position past future (World l p' y).
Proof.
  intros [Ha (ds1 & ds2 & Hds & HI & Hm) Hs Ho Hp Hf] (Hclk & _ & _ & _ & Hmem) HI' (Hs' & (Hfp & Hst & Hw) & Hfin).
  split; cbn [w_obj w_sys]; [done| |by etransitivity| | |by rewrite Hfin].
  - exists ds1, ds2. rewrite Hmem. auto.
  - rewrite Hfp, Hst, Hw. destruct past; [done|]. split_and!; [apply Ho..|lia].
  - eapply Forall_impl; [exact Hp|]. intros t Ht. cbn beta in *. rewrite (target_timing (w_obj w)) by done. lia.
Qed.

Lemma position_sys past future w y :
  position past future w -> quiet (w_sys w) y -> position past future (with_sys y w).
Proof. intros Hp Hq. destruct w as [l p y0]. eapply (position_later _ _ (World l p y0)); [exact Hp|done|done|done]. Qed.

(** The pacing has started with the first packet played. *)
Lemma position_started past future w :
  position past future w -> past <> [] -> started (w_obj w) /\ m_wallStartTs (w_obj w) <= clock (w_sys w).
Proof.
  intros [Ha _ _ Ho _ _] Hne. destruct past as [|t past]; [done|]. destruct Ho as (Hf & Hst & Hw).
  split; [|lia]. pose proof (ps_times HS) as Ht. rewrite Ha in Ht. apply Forall_cons in Ht as [Ht _].
  pose proof (clock_range (w_sys w)). pose proof (ps_clock HS). split_and!; [done|by rewrite Hst|lia|lia].
Qed.

Lemma idle_scheduled e (l : EventLoop (task U)) y :
  idle l y -> loop_ok (scheduled_timer e 0 false (Some ProcessBatch) l) ->
  idle (scheduled_timer e 0 false (Some ProcessBatch) l) y.
Proof. intros Hi Hok. by apply (idle_loop l). Qed.

Lemma scheduled_alone e (l : EventLoop (task U)) :
  m_timers l = [] ->
  m_timers (scheduled_timer e 0 false (Some ProcessBatch) l) = [MkTimer e 0 (Some ProcessBatch) (m_nextTimerId l) false].
Proof. intros Hl. unfold scheduled_timer, inserted. cbn. by rewrite Hl. Qed.

(** ** A step *)

Definition alone w : Prop := m_timers (w_loop w) = [] /\ m_finished (w_obj w) = false.

(** A packet has been played. *)
Definition advanced past future w' : Prop :=
  exists ts future', future = ts :: future' /\ position (past ++ [ts]) future' w' /\ alone w'.

(** The step went no further: the replay is finished, or the next packet is
    early and the batch is scheduled again. *)
Definition stopped past future w w' : Prop :=
  position past future w' /\ resting w' /\
  (m_finished (w_obj w') = true \/
   exists ts future', future = ts :: future' /\ past <> [] /\ clock (w_sys w) < target_of (w_obj w) ts).

(** The play of a packet that is not early. *)
Lemma play_position past ts future d ds2 play (w w1 : W) start wall y :
  position past (ts :: future) w -> quiet (w_sys w) y ->
  (exists ds1, owed = ds1 ++ d ++ ds2 /\ memory (w_sys w) = foldl note m0 ds1) ->
  same_pass (w_obj w) (w_obj w1) ->
  (past = [] -> start = ts /\ c0 <= wall <= clock y) ->
  (past <> [] -> start = m_pcapStartTs (w_obj w) /\ wall = m_wallStartTs (w_obj w) /\ target_of (w_obj w) ts <= clock y) ->
  let p1' := set_timing start wall false (w_obj w1) in
  (exists p2, play (World (w_loop w) p1' y) = Ret true (World (w_loop w) p2 (emit_all emit d y)) /\
     I future ds2 p2 /\ same_pass p1' p2) ->
  m_finished (w_obj w) = false ->
  exists p2, play (World (w_loop w) p1' y) = Ret true (World (w_loop w) p2 (emit_all emit d y)) /\
    position (past ++ [ts]) future (World (w_loop w) p2 (emit_all emit d y)) /\ m_finished p2 = false /\
    onward w (World (w_loop w) p2 (emit_all emit d y)).
Proof.
  intros [Ha _ Hs Ho Hp Hf] (Hclk & Hreg & _ & _ & Hmem) (ds1 & Hds & Hm1) (Hs1 & Ht1 & Hf1) Hfirst Hlater p1'
    (p2 & E & HI2 & (Hs2 & (Ht2a & Ht2b & Ht2c) & Hf2)) Hfin.
  destruct (emit_all_frame (emit := emit) d y) as (Hec & _ & Her & _ & _).
  assert (Hfin2 : m_finished p2 = false) by (rewrite Hf2; unfold p1'; cbn; by rewrite Hf1).
  exists p2. split; [done|]. cbn in Ht2a, Ht2b, Ht2c. split; [|split; [done|]].
  - split; cbn [w_obj w_sys].
    + by rewrite <- app_assoc.
    + exists (ds1 ++ d), ds2. split; [by rewrite <- app_assoc|]. split; [done|].
      by rewrite emit_all_memory, Hmem, Hm1, foldl_app.
    + etransitivity; [exact Hs|]. etransitivity; [exact Hs1|exact Hs2].
    + rewrite Ht2a, Ht2b, Ht2c, Hec. destruct past as [|t past]; cbn [app].
      * by destruct (Hfirst eq_refl) as [-> ?].
      * destruct (Hlater ltac:(done)) as (-> & -> & _). destruct Ho as (? & ? & ?). split_and!; try done; lia.
    + rewrite Hec. destruct past as [|t past].
      * apply Forall_singleton. destruct (Hfirst eq_refl) as [-> ?]. unfold target_of. rewrite Ht2b, Ht2c. lia.
      * destruct (Hlater ltac:(done)) as (E1 & E2 & Ht). unfold target_of in *. rewrite Ht2b, Ht2c, E1, E2.
        apply Forall_app. split; [|by apply Forall_singleton].
        eapply Forall_impl; [exact Hp|]. intros u Hu. cbn beta in *. lia.
    + congruence.
  - unfold onward. cbn [w_obj w_sys w_loop]. rewrite Hec, Her. split_and!; [done|done|done|].
    intros Hff. destruct past as [|t past]; [congruence|]. destruct (Hlater ltac:(done)) as (-> & -> & _).
    split_and!; [by rewrite Ht2a, Hff|done|done].
Qed.

Lemma setup_mode w : same_setup p0 (w_obj w) ->
  mode (m_pcapConfig (w_obj w)) = TIMED /\ normal_speed (w_obj w) /\ m_mappedData (w_obj w) <> 0.
Proof. destruct HS as [Hm Hsp Hd _ _]. intros (Hc & Hmap & _). unfold normal_speed, m_mappedData in *. by rewrite Hc, Hmap. Qed.

Lemma future_time past ts future w : position past (ts :: future) w -> file_time ts.
Proof.
  intros [Ha _ _ _ _ _]. pose proof (ps_times HS) as Ht. rewrite Ha in Ht.
  apply Forall_app in Ht as [_ Ht]. by apply Forall_cons in Ht as [? _].
Qed.

(** The verdict on the next packet. *)
Lemma pace_position past ts future w ds play :
  position past (ts :: future) w -> idle (w_loop w) (w_sys w) -> alone w -> I (ts :: future) ds (w_obj w) ->
  exists start wall y, quiet (w_sys w) y /\
    ((pace ts play w = play (World (w_loop w) (set_timing start wall false (w_obj w)) y) /\
      (past = [] -> start = ts /\ c0 <= wall <= clock y) /\
      (past <> [] -> start = m_pcapStartTs (w_obj w) /\ wall = m_wallStartTs (w_obj w) /\ target_of (w_obj w) ts <= clock y)) \/
     (past <> [] /\ clock (w_sys w) < target_of (w_obj w) ts /\
      exists e, let l' := scheduled_timer e 0 false (Some ProcessBatch) (w_loop w) in
        pace ts play w = Ret false (World l' (w_obj w) y) /\ loop_ok l')).
Proof.
  intros Hpos Hidle _ HI. destruct (setup_mode w (po_setup _ _ _ Hpos)) as (Hmode & Hspeed & _).
  pose proof (future_time _ _ _ _ Hpos) as Hts. pose proof (id_clock _ _ Hidle) as Hc0. unfold pace.
  destruct (decide (past = [])) as [->|Hne].
  - destruct (too_early_first quiet ts w Hmode Hspeed Hts (po_origin _ _ _ Hpos)) as (now & y & E & Hq & Hn).
    exists ts, now, y. split; [done|]. left. rewrite (bind_Ret _ _ _ _ _ E). split; [done|]. split; [|done].
    intros _. split; [done|lia].
  - destruct (position_started _ _ _ Hpos Hne) as [Hst Hwall].
    destruct (too_early_later quiet ts w Hmode Hspeed Hts Hst Hwall (id_ok _ _ Hidle)) as (y & Hq & [[Ht E]|(Ht & e & E & Hok)]).
    + exists (m_pcapStartTs (w_obj w)), (m_wallStartTs (w_obj w)), y. split; [done|]. left. rewrite (bind_Ret _ _ _ _ _ E).
      split; [|done]. destruct Hst as (Hfp & _). do 2 f_equal. clear - Hfp. destruct (w_obj w). cbn in *. by subst.
    + exists ts, 0, y. split; [done|]. right. split; [done|]. split; [done|]. exists e. by rewrite (bind_Ret _ _ _ _ _ E).
Qed.

Lemma step_paced past future w :
  position past future w -> idle (w_loop w) (w_sys w) -> alone w ->
  exists b w', internalStep (recorder emit) w = Ret b w' /\ idle (w_loop w') (w_sys w') /\ onward w w' /\
    if b : bool then advanced past future w' else stopped past future w w'.
Proof.
  intros Hpos Hidle Halone. pose proof Hpos as [Ha (ds1 & ds2 & Hds & HI & Hm) Hs Ho Hp Hf]. pose proof Halone as [Htm Hfin].
  destruct future as [|ts future].
  - destruct (read_end ds2 w HI) as (p' & E & HI' & Hs' & Ht' & Hf'). exists false, (World (w_loop w) p' (w_sys w)).
    split; [done|]. split; [done|]. split; [split_and!; done|]. split; [|split; [unfold resting; cbn; by rewrite Hf'|by left]].
    destruct Ht' as (T1 & T2 & T3). split; cbn [w_obj w_sys]; [done| |by etransitivity|by rewrite T1, T2, T3| |done].
    + exists ds1, []. rewrite (read_nothing _ _ HI) in Hds. done.
    + eapply Forall_impl; [exact Hp|]. intros t. cbn beta. by rewrite (target_timing (w_obj w) p').
  - destruct (read_more ts future ds2 w HI) as (d & ds' & p1 & play & -> & _ & HI1 & Hs1 & E & Hplay).
    set (w1 := World (w_loop w) p1 (w_sys w)) in *.
    assert (Hpos1 : position past (ts :: future) w1).
    { split; cbn [w1 w_obj w_sys]; [done|by exists ds1, (d ++ ds')|etransitivity; [done|apply Hs1]| | |by destruct Hs1 as (_ & _ & ->)];
        destruct Hs1 as (_ & (T1 & T2 & T3) & _); [by rewrite T1, T2, T3|].
      eapply Forall_impl; [exact Hp|]. intros t. cbn beta. by rewrite (target_timing (w_obj w) p1). }
    assert (Hfin1 : m_finished p1 = false) by (by destruct Hs1 as (_ & _ & ->)).
    destruct (pace_position past ts future w1 (d ++ ds') play Hpos1 Hidle (conj Htm Hfin1) HI1) as (start & wall & y & Hq & H).
    rewrite E. unfold noexcept. destruct H as [(Ep & Hfirst & Hlater)|(Hne & Ht & e & Ep & Hok)]; rewrite Ep.
    + destruct (play_position past ts future d ds' play w1 w1 start wall y Hpos1 Hq) as (p2 & E2 & Hpos2 & Hf2 & Hon);
        [exists ds1; by rewrite <- app_assoc in Hds || done|done|done|done|by apply Hplay|done|].
      rewrite E2. eexists true, _. split; [reflexivity|]. split; [apply idle_emit; by eapply idle_quiet|].
      split; [etransitivity; [|exact Hon]; split_and!; try done; intros _; apply Hs1|].
      exists ts, future. split; [done|]. by split; [|split].
    + eexists false, _. split; [reflexivity|]. cbn [w1 w_loop w_obj w_sys] in *.
      split; [apply idle_scheduled; [by eapply idle_quiet|done]|]. split.
      { destruct Hq as (? & ? & _). split_and!; try done. intros _. apply Hs1. }
      split; [by eapply (position_later _ _ w1)|]. split.
      * unfold resting. cbn [w_obj w_loop]. rewrite Hfin1. eexists. by split; [by apply scheduled_alone|].
      * right. exists ts, future. rewrite <- (target_timing (w_obj w) p1) by apply Hs1. done.
Qed.

(** ** A batch *)

(** A packet that was early when the clock showed what it shows in [w]. *)
Definition early (future : list timespec) w w' : Prop :=
  exists ts, ts ∈ future /\ clock (w_sys w) < target_of (w_obj w') ts.

Lemma position_first past future w : position past future w -> past <> [] -> m_firstPacket (w_obj w) = false.
Proof. intros [_ _ _ Ho _ _] Hne. destruct past; [done|]. apply Ho. Qed.

Lemma steps_paced k past future w :
  position past future w -> idle (w_loop w) (w_sys w) -> alone w ->
  exists b w' past' future', steps (recorder emit) k w = Ret b w' /\ idle (w_loop w') (w_sys w') /\ onward w w' /\
    position past' future' w' /\ (length future' <= length future)%nat /\
    if b : bool then alone w' /\ (length future' + k = length future)%nat
    else resting w' /\ (m_finished (w_obj w') = true \/ early future' w w').
Proof.
  revert past future w. induction k as [|k IH]; intros past future w Hpos Hidle Halone.
  - exists true, w, past, future. split_and!; done || lia.
  - cbn [steps]. destruct (step_paced past future w Hpos Hidle Halone) as (b & w1 & E & Hidle1 & Hon1 & H).
    rewrite (bind_Ret _ _ _ _ _ E). destruct b.
    + destruct H as (ts & future' & -> & Hpos1 & Halone1).
      destruct (IH _ _ w1 Hpos1 Hidle1 Halone1) as (b2 & w2 & past2 & future2 & E2 & Hidle2 & Hon2 & Hpos2 & Hle & H2).
      exists b2, w2, past2, future2. split_and!; try done; [by etransitivity|cbn; lia|]. destruct b2.
      * destruct H2 as [? ?]. split; [done|]. cbn. lia.
      * destruct H2 as [? [?|(u & Hu & Hlt)]]; (split; [done|]); [by left|right]. exists u. split; [done|].
        destruct Hon1 as (Hc & _). lia.
    + destruct H as (Hpos1 & Hrest & Hwhy). exists false, w1, past, future. split_and!; try done.
      destruct Hwhy as [?|(ts & future' & -> & Hne & Hlt)]; [by left|right]. exists ts. split; [set_solver|].
      destruct Hon1 as (_ & _ & _ & Ht). by rewrite (target_timing (w_obj w)) by (by apply Ht, (position_first past (ts :: future'))).
Qed.

Lemma processBatch_paced past future w :
  position past future w -> idle (w_loop w) (w_sys w) -> alone w ->
  exists w' past' future', processBatch (recorder emit) w = Ret tt w' /\ idle (w_loop w') (w_sys w') /\ onward w w' /\
    position past' future' w' /\ resting w' /\ (length future' <= length future)%nat /\
    (0 < batchSize (pc_receiver (m_pcapConfig p0)) ->
       m_finished (w_obj w') = true \/ early future' w w' \/
       (length future' < length future)%nat /\ Forall (fun t => expiration t <= clock (w_sys w')) (m_timers (w_loop w'))).
Proof.
  intros Hpos Hidle Halone. pose proof Halone as [Htm Hfin].
  destruct (setup_mode w (po_setup _ _ _ Hpos)) as (Hmode & _ & Hmap). unfold processBatch. unfold this. run_steps.
  destruct (Z.eqb_spec (m_mappedData (w_obj w)) 0); [done|]. rewrite Hfin. cbn [orb]. rewrite Hmode.
  destruct (decide (TIMED = FLOOD)) as [|_]; [done|]. destruct (decide (TIMED = TIMED)) as [_|]; [|done]. run_steps.
  destruct (steps_paced (Z.to_nat (batchSize (pc_receiver (m_pcapConfig (w_obj w))))) past future w Hpos Hidle Halone)
    as (b & w1 & past1 & future1 & E & Hidle1 & Hon1 & Hpos1 & Hle & H).
  assert (Hbatch : batchSize (pc_receiver (m_pcapConfig (w_obj w))) = batchSize (pc_receiver (m_pcapConfig p0))).
  { by destruct (po_setup _ _ _ Hpos) as (-> & _). }
  rewrite (bind_Ret _ _ _ _ _ E). destruct b; cbn [negb].
  - destruct H as [[Htm1 Hfin1] Hk]. run_steps. rewrite Hfin1.
    set (e := now_of w1 + 0 * 1000000).
    destruct (runAfter_frame quiet 0 (Some ProcessBatch) w1 (id_ok _ _ Hidle1)) as (y & E1 & Hq & Hok);
      [unfold max_delay; lia|]. fold e in E1, Hok. rewrite (bind_Ret _ _ _ _ _ E1).
    assert (Hq1 : quiet (w_sys w1) y) by (etransitivity; [apply frame_now|done]).
    assert (He : e <= clock y).
    { destruct Hq as (Hclk & _). rewrite (proj2 (steady_now_clock (w_sys w1))) in Hclk. unfold e, now_of. lia. }
    eexists _, past1, future1. split; [reflexivity|]. cbn [w_loop w_obj w_sys].
    split; [by apply idle_scheduled; [eapply idle_quiet|]|]. split.
    { etransitivity; [exact Hon1|]. destruct Hq1 as (? & ? & _). by split_and!. }
    split; [by apply (position_later _ _ w1)|]. split.
    { unfold resting. cbn [w_obj w_loop]. rewrite Hfin1. eexists. by split; [apply scheduled_alone|]. }
    split; [done|]. intros Hb. right. right. split; [lia|]. rewrite scheduled_alone by done. by apply Forall_singleton.
  - destruct H as [Hrest Hwhy]. exists w1, past1, future1. split_and!; try done. intros _. destruct Hwhy; auto.
Qed.

(** ** A turn of the loop *)

(** The program between two turns. *)
Record waiting past future w : Prop := {
  wa_position : position past future w;
  wa_idle : idle (w_loop w) (w_sys w);
  wa_resting : resting w;
  wa_armed : armed w
}.

Lemma idle_Inv w : idle (w_loop w) (w_sys w) -> Inv 0 w.
Proof.
  intros [Hok _ [Hreg Hl] _ _]. split; [done|]. split; [|by split; [intros i p Hi; lia|]].
  intros f p E. rewrite Hreg in E. apply lookup_singleton_Some in E as [_ <-].
  destruct sp; [done|]. cbn in *. by eexists.
Qed.

(** Arming the timer descriptor changes nothing else. *)
Lemma rearm past future w :
  position past future w -> idle (w_loop w) (w_sys w) -> resting w ->
  exists w', resetTimerFd w = Ret tt w' /\ waiting past future w' /\ onward w w' /\
    w_obj w' = w_obj w /\ w_loop w' = w_loop w /\ clock (w_sys w) <= clock (w_sys w').
Proof.
  intros Hpos Hidle Hrest. destruct (resetTimerFd_frame quiet w (id_ok _ _ Hidle)) as (y & E & Hq).
  pose proof (resetTimerFd_arms 0%nat w (idle_Inv w Hidle)) as Ha. unfold wp in Ha. rewrite E in Ha.
  exists (World (w_loop w) (w_obj w) y). split; [done|]. split; [|split; [|split_and!; [done..|apply Hq]]].
  - split; [by eapply position_later|by eapply idle_quiet|done|apply Ha].
  - destruct Hq as (? & ? & _). by split_and!.
Qed.

(** A batch that was due has been played: nothing is left, or a packet is
    early, or there are fewer packets left and the next batch is due. *)
Definition progress (future future' : list timespec) w w' : Prop :=
  m_finished (w_obj w') = true \/ early future' w w' \/
  (length future' < length future)%nat /\ Forall (fun t => expiration t <= clock (w_sys w')) (m_timers (w_loop w')).

Definition due_now w : Prop := Forall (fun t => expiration t <= clock (w_sys w)) (m_timers (w_loop w)).

Lemma waiting_later past future w y :
  waiting past future w -> quiet (w_sys w) y -> deadline y = deadline (w_sys w) -> waiting past future (with_sys y w).
Proof.
  intros [Hpos Hidle Hrest Ha] Hq Hd. split; [by apply position_sys|by eapply idle_quiet|done|].
  unfold armed in *. cbn. by rewrite Hd.
Qed.

Lemma progress_later future future' w w2 w3 :
  progress future future' w w2 -> w_obj w3 = w_obj w2 -> w_loop w3 = w_loop w2 ->
  clock (w_sys w2) <= clock (w_sys w3) -> progress future future' w w3.
Proof.
  unfold progress, early. intros H -> -> Hc. destruct H as [?|[?|[? Hd]]]; [by left|by right; left|right; right].
  split; [done|]. eapply Forall_impl; [exact Hd|]. intros t Ht. cbn beta in *. lia.
Qed.

(** The timers that are due: none, or that of the next batch. *)
Lemma due_batch now w :
  resting w -> m_finished (w_obj w) = false -> clock (w_sys w) <= now ->
  exists t, batch_timer t /\
    (due now (m_timers (w_loop w)) = [t] /\ not_due now (m_timers (w_loop w)) = [] \/
     due now (m_timers (w_loop w)) = [] /\ not_due now (m_timers (w_loop w)) = [t] /\ ~ due_now w).
Proof.
  unfold resting. intros Hrest Hf Hnow. rewrite Hf in Hrest. destruct Hrest as (t & Et & Hb). exists t. split; [done|].
  unfold due_now, due, not_due. rewrite Et, !filter_cons, !filter_nil.
  destruct (decide (expiration t <= now)), (decide (~ expiration t <= now)); try lia; [by left|right].
  split_and!; [done|done|]. intros [Hd _]%Forall_cons. lia.
Qed.

(** The timers that are due are fired. *)
Lemma fire_due past future w :
  waiting past future w -> fst (timerfd_read (fd (m_timer_fd (w_loop w))) (w_sys w)) = 8 ->
  let now := fst (steady_now (read_sys w)) in
  exists w2 past2 future2,
    for_each (due now (m_timers (w_loop w))) (fire run_task)
      (World (expired_loop now (w_loop w)) (w_obj w) (snd (steady_now (read_sys w)))) = Ret tt w2 /\
    idle (w_loop w2) (w_sys w2) /\ onward w w2 /\ position past2 future2 w2 /\ resting w2 /\
    (length future2 <= length future)%nat /\
    (m_finished (w_obj w) = true -> w_obj w2 = w_obj w) /\
    (due_now w -> m_finished (w_obj w) = false -> 0 < batchSize (pc_receiver (m_pcapConfig p0)) ->
     progress future future2 w w2).
Proof.
  intros [Hpos Hidle Hrest Ha] Hr now. set (y1 := snd (steady_now (read_sys w))).
  assert (Hq : quiet (w_sys w) y1) by (unfold y1, read_sys; etransitivity; [apply frame_read|apply frame_now]).
  assert (Hnow : clock (w_sys w) <= now).
  { destruct Hq as (Hcl & _). unfold y1 in Hcl. by rewrite (proj2 (steady_now_clock (read_sys w))) in Hcl. }
  set (l1 := expired_loop now (w_loop w)). set (w1 := World l1 (w_obj w) y1).
  assert (Hidle1 : idle l1 y1) by (apply (idle_loop (w_loop w)); [by eapply idle_quiet|by apply expired_loop_ok, Hidle|done..]).
  assert (Hpos1 : position past future w1) by (by apply (position_later _ _ w)).
  assert (Hon1 : onward w w1) by (destruct Hq as (? & ? & _); by split_and!).
  destruct (m_finished (w_obj w)) eqn:Ef.
  - unfold resting in Hrest. rewrite Ef in Hrest. exists w1, past, future. rewrite Hrest. split_and!; try done.
    unfold resting, w1, l1, expired_loop. cbn. by rewrite Ef, Hrest.
  - destruct (due_batch now w Hrest Ef Hnow) as (t & Hb & [[Hd Hl]|(Hd & Hl & Hnd)]); rewrite Hd.
    + destruct (processBatch_paced past future w1 Hpos1 Hidle1 (conj Hl Ef))
        as (w2 & past2 & future2 & E2 & Hidle2 & Hon2 & Hpos2 & Hrest2 & Hle & Hp).
      exists w2, past2, future2. split; [cbn [for_each]; rewrite bind_run; by rewrite (fire_once _ _ _ _ (proj1 Hb) (proj2 Hb)); cbn [run_pcap_task]; rewrite E2|].
      split; [done|]. split; [by etransitivity|]. split_and!; try done.
      intros _ _ Hbs. destruct (Hp Hbs) as [?|[(u & Hu & Hlu)|?]]; [by left|right; left|by right; right].
      exists u. split; [done|]. destruct Hq as (? & _). cbn [w1 w_sys] in Hlu. lia.
    + exists w1, past, future. split_and!; try done. unfold resting. cbn. rewrite Ef. by exists t.
Qed.

(** The event of the timer descriptor. *)
Lemma handleTimerRead_paced past future w :
  waiting past future w ->
  exists w' past' future', handleTimerRead run_task w = Ret tt w' /\ waiting past' future' w' /\ onward w w' /\
    (length future' <= length future)%nat /\
    (m_finished (w_obj w) = true -> w_obj w' = w_obj w) /\
    (fst (timerfd_read (fd (m_timer_fd (w_loop w))) (w_sys w)) <> 8 ->
     w_loop w' = w_loop w /\ w_obj w' = w_obj w /\ future' = future) /\
    (fst (timerfd_read (fd (m_timer_fd (w_loop w))) (w_sys w)) = 8 -> due_now w -> m_finished (w_obj w) = false ->
     0 < batchSize (pc_receiver (m_pcapConfig p0)) -> progress future future' w w').
Proof.
  intros Hw. pose proof Hw as [Hpos Hidle Hrest Ha]. set (tfd := fd (m_timer_fd (w_loop w))).
  destruct (decide (fst (timerfd_read tfd (w_sys w)) = 8)) as [Hr|Hr].
  - rewrite (handleTimerRead_eq run_task w (ok_sorted _ (id_ok _ _ Hidle)) Hr).
    destruct (fire_due past future w Hw Hr) as (w2 & past2 & future2 & E2 & Hidle2 & Hon2 & Hpos2 & Hrest2 & Hle & Hsame & Hp).
    rewrite (bind_Ret _ _ _ _ _ E2).
    destruct (rearm past2 future2 w2 Hpos2 Hidle2 Hrest2) as (w3 & E3 & Hw3 & Hon3 & Ho3 & Hl3 & Hc3).
    exists w3, past2, future2. split; [exact E3|]. split; [done|]. split; [by etransitivity|]. split; [done|].
    split; [by rewrite Ho3|]. split; [done|]. intros _ Hd Hf Hb. eapply progress_later; eauto.
  - exists (with_sys (snd (timerfd_read tfd (w_sys w))) w), past, future.
    pose proof (frame_read (R := quiet) tfd (w_sys w)) as Hq. split; [|split; [|split; [|done]]].
    + unfold handleTimerRead. run_steps. fold tfd. apply Z.eqb_neq in Hr. by rewrite Hr.
    + apply waiting_later; [done..|]. by apply read_fails.
    + destruct Hq as (? & ? & _). by split_and!.
Qed.

(** What a turn keeps; it fills the buffer of events anew. *)
Definition later w w' : Prop :=
  clock (w_sys w) <= clock (w_sys w') /\ (m_firstPacket (w_obj w) = false -> same_timing (w_obj w) (w_obj w')).

#[export] Instance later_order : PreOrder later.
Proof.
  unfold later, same_timing. split; [intros w; split_and!; done || lia|].
  intros w1 w2 w3 (? & H2) (? & H3). split; [lia|].
  intros Hf. specialize (H2 Hf). destruct H2 as (E & ? & ?). rewrite Hf in E. specialize (H3 E). intuition congruence.
Qed.

Lemma onward_later w w' : onward w w' -> later w w'.
Proof. by intros (? & _ & _ & ?). Qed.

Definition in_pass w : Prop := exists past future, waiting past future w.

Lemma waiting_events past future w v :
  waiting past future w -> length v = length (m_events (w_loop w)) -> waiting past future (with_loop (set_events v) w).
Proof.
  intros [Hpos Hidle Hrest Ha] Hv. split; [by apply (position_later _ _ w)| |done|done].
  apply (idle_loop (w_loop w)); try done.
  destruct (id_ok _ _ Hidle) as [H1 H2 H3 H4]. split; [done..|]. cbn. by rewrite Hv.
Qed.

Lemma waiting_wait past future w timeoutMs :
  waiting past future w ->
  let w' := with_sys (snd (wait_result timeoutMs w)) w in waiting past future w' /\ later w w'.
Proof.
  intros Hw w'. pose proof (frame_wait (R := quiet) (fd (m_epoll_fd (w_loop w))) MAX_EVENTS (effective_timeout timeoutMs w) (w_sys w)) as Hq.
  split; [|by split; [apply Hq|]]. apply waiting_later; [done|exact Hq|]. unfold wait_result. by rewrite (proj1 (epoll_wait_frame _ _ _ _)).
Qed.

Lemma paced_reacts : reacts run_task handleRead in_pass (fun _ => later).
Proof.
  split.
  - done.
  - intros _ _ w1 w2 w3 H1 H2. by etransitivity.
  - intros w f q (past & future & Hw) Hq. destruct (id_source _ _ (wa_idle _ _ _ Hw)) as [Hreg Hl].
    rewrite Hreg in Hq. apply lookup_singleton_Some in Hq as [_ <-].
    destruct (handleTimerRead_paced past future w Hw) as (w' & past' & future' & E & Hw' & Hon & _).
    exists TimerTag, w'. split; [done|]. split; [exact E|]. split; [by exists past', future'|].
    split; [by apply onward_later|]. by destruct Hon as (_ & ? & ? & _).
  - intros w v (past & future & Hw) Hv. split; [exists past, future; by apply waiting_events|done].
  - intros w timeoutMs (past & future & Hw). destruct (waiting_wait past future w timeoutMs Hw). by exists past, future.
  - intros w (past & future & Hw). apply (wa_idle _ _ _ Hw).
  - intros w (past & future & Hw). apply (id_ok _ _ (wa_idle _ _ _ Hw)).
Qed.

(** A turn never faults; it fails only with the wait. *)
Lemma turn_paced timeoutMs w :
  in_pass w ->
  exists res w', runOnce run_task handleRead timeoutMs w = Ret res w' /\ in_pass w' /\ later w w' /\
    (ResultVoid.has_value res = true \/ fst (wait_result timeoutMs w) = None).
Proof.
  intros Hw. destruct (turn_reacts run_task handleRead in_pass _ paced_reacts timeoutMs w Hw) as (res & w' & E & Hw' & H).
  exists res, w'. split; [done|]. split; [done|]. destruct Hw as (past & future & Hw).
  destruct (waiting_wait past future w timeoutMs Hw) as [_ Hl].
  destruct (fst (wait_result timeoutMs w)) as [evs|].
  - destruct H as [Hres Hlater]. split; [by etransitivity|by left].
  - subst w'. split; [done|by right].
Qed.

(** ** Catching up *)

(** Either the replay is finished, or all the packets left, and the next
    batch, are due. *)
Definition overdue (future : list timespec) w : Prop :=
  m_finished (w_obj w) = true \/
  m_firstPacket (w_obj w) = false /\ due_now w /\ Forall (fun t => target_of (w_obj w) t <= clock (w_sys w)) future.

Context (Hbatch : 0 < batchSize (pc_receiver (m_pcapConfig p0))).

Lemma future_suffix past future past' future' w w' :
  position past future w -> position past' future' w' -> (length future' <= length future)%nat -> future' `suffix_of` future.
Proof.
  intros [Ha _ _ _ _ _] [Ha' _ _ _ _ _] Hle.
  destruct (suffix_weak_total future' future all) as [?|Hs]; [by exists past'|by exists past|done|].
  by rewrite (suffix_length_eq _ _ Hs Hle).
Qed.

Lemma event_overdue past future w :
  waiting past future w -> overdue future w ->
  exists w' past' future', handleTimerRead run_task w = Ret tt w' /\ waiting past' future' w' /\ overdue future' w' /\
    m_events (w_loop w') = m_events (w_loop w) /\ (length future' <= length future)%nat /\
    (m_finished (w_obj w) = true -> m_finished (w_obj w') = true) /\
    (fst (timerfd_read (fd (m_timer_fd (w_loop w))) (w_sys w)) = 8 ->
     m_finished (w_obj w') = true \/ (length future' < length future)%nat).
Proof.
  intros Hw Hov.
  destruct (handleTimerRead_paced past future w Hw) as (w' & past' & future' & E & Hw' & Hon & Hle & Hsame & Hread & Hp).
  pose proof (future_suffix _ _ _ _ _ _ (wa_position _ _ _ Hw) (wa_position _ _ _ Hw') Hle) as Hsuf.
  exists w', past', future'. pose proof Hon as (Hclk & _ & Hev & Htim). split; [done|]. split; [done|].
  assert (Hfin : m_finished (w_obj w) = true -> m_finished (w_obj w') = true) by (intros Hf; by rewrite Hsame).
  set (r := fst (timerfd_read (fd (m_timer_fd (w_loop w))) (w_sys w))) in *.
  assert (H : overdue future' w' /\ (r = 8 -> m_finished (w_obj w') = true \/ (length future' < length future)%nat));
    [|destruct H; by split_and!].
  destruct (m_finished (w_obj w)) eqn:Ef; [specialize (Hfin eq_refl); by split; [left|left]|].
  destruct Hov as [Hf|(Hfirst & Hdue & Hall)]; [congruence|]. specialize (Htim Hfirst).
  assert (Hlate : Forall (fun t => target_of (w_obj w') t <= clock (w_sys w)) future').
  { destruct Hsuf as [k ->]. apply Forall_app in Hall as [_ Hall]. eapply Forall_impl; [exact Hall|].
    intros t Ht. cbn beta in *. by rewrite (target_timing (w_obj w)). }
  assert (Hfirst' : m_firstPacket (w_obj w') = false) by (destruct Htim as (-> & _); done).
  assert (Hgo : due_now w' -> overdue future' w').
  { intros Hd. right. split; [done|]. split; [done|]. eapply Forall_impl; [exact Hlate|]. intros t Ht. cbn beta in *. lia. }
  destruct (decide (r = 8)) as [Hr|Hr].
  - destruct (Hp Hr Hdue eq_refl Hbatch) as [?|[(u & Hu & Hlu)|[? Hd]]].
    + by split; [left|left].
    + rewrite Forall_forall in Hlate. specialize (Hlate u Hu). cbn beta in Hlate. lia.
    + by split; [apply Hgo|right].
  - destruct (Hread Hr) as (Hl & _ & _). split; [apply Hgo|done]. unfold due_now in *. rewrite Hl.
    eapply Forall_impl; [exact Hdue|]. intros t Ht. cbn beta in *. lia.
Qed.

(** Events that are all the timer's. *)
Lemma events_overdue (js : list Z) past future w :
  waiting past future w -> overdue future w ->
  Forall (fun i => m_events (w_loop w) !! Z.to_nat i = Some (Some sp)) js ->
  exists w' past' future', for_each js (dispatch_event run_task handleRead) w = Ret tt w' /\
    waiting past' future' w' /\ overdue future' w' /\ (length future' <= length future)%nat /\
    (m_finished (w_obj w) = true -> m_finished (w_obj w') = true) /\
    (js <> [] -> fst (timerfd_read (fd (m_timer_fd (w_loop w))) (w_sys w)) = 8 ->
     m_finished (w_obj w') = true \/ (length future' < length future)%nat).
Proof.
  revert past future w. induction js as [|i js IH]; intros past future w Hw Hov Hev.
  - exists w, past, future. by split_and!.
  - apply Forall_cons in Hev as [Hi Hev].
    assert (Hd : dispatch_event run_task handleRead i w = handleTimerRead run_task w).
    { rewrite (dispatch_event_run run_task handleRead i sp TimerTag w Hi); [done|]. apply deref_leads, (wa_idle _ _ _ Hw). }
    destruct (event_overdue past future w Hw Hov) as (w1 & past1 & future1 & E1 & Hw1 & Hov1 & He1 & Hle1 & Hf1 & Hp1).
    destruct (IH past1 future1 w1 Hw1 Hov1) as (w2 & past2 & future2 & E2 & Hw2 & Hov2 & Hle2 & Hf2 & _); [by rewrite He1|].
    exists w2, past2, future2. cbn [for_each]. rewrite bind_run, Hd, E1. split_and!; try done; [lia|auto|].
    intros _ Hr. destruct (Hp1 Hr) as [?|?]; [left; auto|right; lia].
Qed.

(** When the next batch is due the wait reports the timer. *)
Lemma wait_due timeoutMs past future w :
  waiting past future w -> due_now w -> m_finished (w_obj w) = false ->
  exists evs, fst (wait_result timeoutMs w) = Some evs /\ sp ∈ evs /\
    fst (timerfd_read (fd (m_timer_fd (w_loop w))) (snd (wait_result timeoutMs w))) = 8.
Proof.
  intros [_ [_ [He Ht] [Hreg _] _ Hc] Hrest Ha] Hdue Hf. unfold resting in Hrest. rewrite Hf in Hrest.
  destruct Hrest as (t & Et & _). pose proof (ps_clock HS) as Hc0.
  assert (Hd : exists d, deadline (w_sys w) = Some d /\ d <= clock (w_sys w)).
  { unfold armed in Ha. unfold due_now in Hdue. rewrite Et in *. destruct Ha as (d & Hd & Hle).
    apply Forall_cons in Hdue as [Hdue _]. exists d. split; [done|lia]. }
  destruct Hd as (d & Hd & Hle). unfold wait_result. rewrite He. set (tmo := effective_timeout timeoutMs w).
  destruct (wait_wakes MAX_EVENTS tmo (w_sys w) sp d) as (evs & E & Hin); try done.
  { rewrite Hreg, map_size_singleton. done. }
  { rewrite Hreg. apply lookup_singleton_eq. }
  exists evs. split; [done|]. split; [done|].
  destruct (fds_wait (epoll_of (w_sys w)) MAX_EVENTS tmo (w_sys w)) as [_ Ht2]. rewrite Ht, <- Ht2.
  eapply read_due; [by rewrite (proj1 (epoll_wait_frame _ _ _ _))|].
  pose proof (wait_clock (epoll_of (w_sys w)) MAX_EVENTS tmo (w_sys w)). lia.
Qed.

Lemma batch_overdue evs past future w :
  waiting past future w -> overdue future w -> Forall (eq sp) evs -> (length evs <= Z.to_nat MAX_EVENTS)%nat ->
  exists w' past' future', dispatch_batch run_task handleRead evs w = Ret tt w' /\
    waiting past' future' w' /\ overdue future' w' /\
    (evs <> [] -> fst (timerfd_read (fd (m_timer_fd (w_loop w))) (w_sys w)) = 8 ->
     m_finished (w_obj w') = true \/ (length future' < length future)%nat).
Proof.
  intros Hw Hov Hevs Hlen. unfold dispatch_batch, for_n. rewrite bind_loop_set. set (v := (Some <$> evs) ++ drop (length evs) (m_events (w_loop w))).
  assert (Hvlen : length v = length (m_events (w_loop w))).
  { destruct (id_ok _ _ (wa_idle _ _ _ Hw)) as [_ _ _ Hbuf].
    unfold v. cbn. rewrite length_app, length_fmap, length_drop, Hbuf. lia. }
  destruct (events_overdue (seqZ 0 (Z.of_nat (length evs))) past future (with_loop (set_events v) w))
    as (w2 & past2 & future2 & E2 & Hw2 & Hov2 & _ & _ & Hp2); [by apply waiting_events|done| |].
  { apply Forall_forall. intros i Hi%elem_of_seqZ. cbn. unfold v. rewrite lookup_app_l by (rewrite length_fmap; lia).
    rewrite list_lookup_fmap. destruct (lookup_lt_is_Some_2 evs (Z.to_nat i)) as [q Hq]; [lia|]. rewrite Hq. cbn.
    by rewrite (Forall_lookup_1 _ _ _ _ Hevs Hq). }
  exists w2, past2, future2. split; [done|]. split; [done|]. split; [done|]. intros Hne. apply Hp2.
  destruct evs as [|q evs]; [done|]. cbn [length]. by rewrite seqZ_cons by lia.
Qed.

(** With the replay overdue, a turn plays packets or finishes it. *)
Lemma turn_overdue timeoutMs past future w :
  waiting past future w -> overdue future w -> m_finished (w_obj w) = false ->
  exists w' past' future', runOnce run_task handleRead timeoutMs w = Ret ResultVoid.success w' /\
    waiting past' future' w' /\ overdue future' w' /\
    (m_finished (w_obj w') = true \/ (length future' < length future)%nat).
Proof.
  intros Hw Hov Hf. destruct Hov as [?|(Hfirst & Hdue & Hlate)]; [congruence|].
  destruct (wait_due timeoutMs past future w Hw Hdue Hf) as (evs & E & Hin & Hr).
  destruct (waiting_wait past future w timeoutMs Hw) as [Hw1 [Hclk _]].
  rewrite runOnce_wait, E. set (w1 := with_sys (snd (wait_result timeoutMs w)) w) in *.
  destruct (epoll_wait_ok _ _ _ _ _ E) as [Hlen Hreal].
  destruct (batch_overdue evs past future w1 Hw1) as (w2 & past2 & future2 & E2 & Hw2 & Hov2 & Hp2); [| |lia|].
  { right. split; [done|]. split; [eapply Forall_impl; [exact Hdue|]|eapply Forall_impl; [exact Hlate|]];
      intros u Hu; cbn in *; lia. }
  { apply Forall_forall. intros q Hq. destruct (Hreal q Hq) as [f Hfq].
    rewrite (proj1 (id_source _ _ (wa_idle _ _ _ Hw))) in Hfq. by apply lookup_singleton_Some in Hfq as [_ ->]. }
  rewrite (bind_Ret _ _ _ _ _ E2). unfold run_pending. rewrite bind_assoc, bind_loop_get.
  rewrite (id_pending _ _ (wa_idle _ _ _ Hw2)). run_steps.
  exists w2, past2, future2. split; [done|]. split; [done|]. split; [done|]. apply Hp2; [|exact Hr].
  intros ->. by inversion Hin.
Qed.
End Pass.
