(* ===== verification/ReplayBeside.v ===== *)
(** A replay beside an application: the loop runs the batches of a capture
    together with the timers, the tasks and the sockets of the application, in
    any interleaving.  What the replay keeps is an invariant of the kind the
    development of the loop is parametric in ([AppInvariant]); its scheduled
    functions are then safe operations, so that the replay and the application
    together are a client of the loop. *)
From S2P Require Import Prelude Outcome Result Kernel SimKernel ScopedFd TimerQueue EventLoop Recorder.
From S2P Require Import EventLoopFacts TimerFacts SourceFacts DispatchFacts Waking.
From S2P Require Import PcapFormat Float64 PacketReceiver PcapReceiver PcapDispatch PcapReplay PcapOpen PcapControl PcapSpeed Playback.
From Stdlib Require Import QArith Qabs Lqa.
Local Open Scope Z_scope.

(** The exact target time of a packet (the instant the pacing started, and
    the distance of the time stamps divided by the speed) has passed at the
    instant [c], up to the nanosecond the roundings cost; at the normal speed it
    has passed. *)
Definition on_time (p : PcapReceiver) (ts : timespec) (c : Z) : Prop :=
  (inject_Z (m_wallStartTs p) + inject_Z (ns_of ts - ns_of (m_pcapStartTs p)) / speed_of p < inject_Z c + 1)%Q.

Lemma unit_lt (p : PcapReceiver) a b c : (speed_of p == 1)%Q ->
  (inject_Z a + inject_Z b / speed_of p < inject_Z c + 1)%Q <-> a + b <= c.
Proof.
  intros E. rewrite E. assert (Hd : forall q, (q / 1 == q)%Q) by (intros; field). rewrite Hd, <- inject_Z_plus.
  change 1%Q with (inject_Z 1). rewrite <- inject_Z_plus, <- Zlt_Qlt. lia.
Qed.

Lemma on_time_normal p ts c : normal_speed p -> on_time p ts c <-> target_of p ts <= c.
Proof. intros Hn. apply unit_lt, (unit_speed _ (normal_positive _ Hn) Hn). Qed.

Lemma on_time_origin p ts wall first c : wall <= c -> on_time (set_timing ts wall first p) ts c.
Proof.
  intros Hw. unfold on_time, speed_of. cbn. rewrite Z.sub_diag. change (inject_Z 0) with 0%Q.
  rewrite Zle_Qle in Hw. unfold Qdiv. rewrite Qmult_0_l. lra.
Qed.

(** A call made at the instant [fst c], for a packet with the time stamp of
    the call, in a replay that started at the instant [c0] with a file whose
    first time stamp is [t0]: it is no earlier than the start and the distance
    of the time stamps divided by the speed of [p], up to a nanosecond. *)
Definition not_early (p : PcapReceiver) (c0 : Z) (t0 : timespec) (c : Z * delivery) : Prop :=
  (inject_Z c0 + inject_Z (ns_of (dl_ts (snd c)) - ns_of t0) / speed_of p < inject_Z (fst c) + 1)%Q.

(** At the normal speed there is no rounding. *)
Lemma not_early_normal p c0 t0 c :
  normal_speed p -> not_early p c0 t0 c <-> c0 + (ns_of (dl_ts (snd c)) - ns_of t0) <= fst c.
Proof. intros Hn. apply unit_lt, (unit_speed _ (normal_positive _ Hn) Hn). Qed.

Section Beside.
Context {U Y : Type} {RK : ReactorKernel Y} {RL : ReactorLaws Y} {WK : WakingKernel Y}
  {emit : delivery -> Y -> Y} {CT : CallTrace emit}.
Context (I : list timespec -> list delivery -> PcapReceiver -> Prop) {RI : Reader U Y emit I}.
Notation W := (world (task U) PcapReceiver Y).
Implicit Types (w : W) (y : Y) (p : PcapReceiver).

(** The receiver when the replay starts, the packets of the file, the calls
    owed for them; the instant of the start, and the calls made before it. *)
Context (p0 : PcapReceiver) (all : list timespec) (owed : list delivery) (c0 : Z) (tr0 : list (Z * delivery)).

(** ** What the replay keeps *)

(** In TIMED mode the calls [cs] were each made on time; the target times
    count from the instant the first packet was played. *)
Definition paced (past : list timespec) (cs : list (Z * delivery)) p y : Prop :=
  match past with
  | [] => m_firstPacket p = true /\ cs = []
  | t :: _ => m_firstPacket p = false /\ m_pcapStartTs p = t /\ 0 <= m_wallStartTs p <= clock y /\ c0 <= m_wallStartTs p
  end /\ Forall (fun c => on_time p (dl_ts (snd c)) (fst c)) cs.

(** The packets [past] have been played, and the calls [cs] made: exactly
    those owed for them, in their order; the packets [future] are left. *)
Record standing_at (past future : list timespec) (cs : list (Z * delivery)) p y : Prop := {
  st_all : all = past ++ future;
  st_calls : exists ds2, owed = cs.*2 ++ ds2 /\ I future ds2 p;
  st_trace : call_trace y = tr0 ++ cs;
  st_setup : same_setup p0 p;
  st_finished : m_finished p = true -> future = [];
  st_clock : c0 <= clock y;
  st_paced : mode (m_pcapConfig p0) = TIMED -> paced past cs p y
}.

Definition standing (past future : list timespec) p y : Prop := exists cs, standing_at past future cs p y.

(** Time passes, and nothing else. *)
Definition passing (y y' : Y) : Prop :=
  clock y <= clock y' /\ deadline y' = deadline y /\ registered y' = registered y /\ call_trace y' = call_trace y.

Lemma passing_now y : passing y (snd (steady_now y)).
Proof.
  pose proof (steady_now_clock y) as [? ?]. pose proof (steady_now_frame y) as [? ?].
  split_and!; [lia|done|done|apply trace_now].
Qed.

#[local] Instance passing_order : PreOrder passing.
Proof.
  split; [intros y; by split_and!|]. intros y1 y2 y3 (? & ? & ? & ?) (? & ? & ? & ?).
  split_and!; [lia|congruence..].
Qed.

Lemma on_time_later p ts c c' : on_time p ts c -> c <= c' -> on_time p ts c'.
Proof. unfold on_time. intros H Hc. rewrite Zle_Qle in Hc. lra. Qed.

Lemma paced_later past cs p y y' : paced past cs p y -> clock y <= clock y' -> paced past cs p y'.
Proof.
  intros [Ho Hp] Hc. split; [|done]. destruct past; [done|]. destruct Ho as (? & ? & ? & ?). split_and!; done || lia.
Qed.

Lemma paced_timing past cs p p' y :
  paced past cs p y -> same_timing p p' -> m_pcapConfig p' = m_pcapConfig p -> paced past cs p' y.
Proof. unfold paced, on_time, speed_of. by intros H (-> & -> & ->) ->. Qed.

Lemma standing_at_later past future cs p y y' :
  standing_at past future cs p y -> clock y <= clock y' -> call_trace y' = call_trace y -> standing_at past future cs p y'.
Proof.
  intros [Ha Hds Htr Hs Hf Hc Hp] Hclk Hm. split; [done|done|by rewrite Hm|done|done|lia|].
  intros Ht. eapply paced_later; [by apply Hp|done].
Qed.

Lemma standing_later past future p y y' :
  standing past future p y -> clock y <= clock y' -> call_trace y' = call_trace y -> standing past future p y'.
Proof. intros (cs & H) Hc Ht. exists cs. by eapply standing_at_later. Qed.

Lemma standing_pass past future cs p p' y :
  standing_at past future cs p y -> (forall ds, I future ds p -> I future ds p') -> same_pass p p' ->
  standing_at past future cs p' y.
Proof.
  intros [Ha (ds2 & Hds & HI) Htr Hs Hf Hc Hp] HI' (Hs' & Ht & Hfin).
  split; [done| |done|by etransitivity|by rewrite Hfin|done|].
  - exists ds2. auto.
  - intros Hmode. apply (paced_timing _ _ p); [by apply Hp|done|apply Hs'].
Qed.

#[local] Instance replay_invariant : AppInvariant PcapReceiver Y.
Proof.
  refine {| app_inv p y := exists past future, standing past future p y |}.
  all: intros; destruct_and?; match goal with H : exists _ _, _ |- _ => destruct H as (past & future & Hst) end;
    exists past, future; eapply standing_later; [exact Hst| |].
  - by apply passing_now.
  - apply trace_now.
  - apply settime_frame.
  - apply trace_settime.
  - apply read_frame.
  - apply trace_read.
  - apply wait_clock.
  - apply trace_wait.
  - by apply ctl_clock.
  - by apply trace_ctl.
  - apply (ctl_clock e f 0 (FastPtr 0)).
  - apply (trace_ctl e f 0 (FastPtr 0)).
Defined.

(** What the replay asks of its configuration and of its file. *)
Record pacing_ok : Prop := {
  pk_times : mode (m_pcapConfig p0) = TIMED -> Forall file_time all;
  pk_span : mode (m_pcapConfig p0) = TIMED -> forall t0 t, head all = Some t0 -> t ∈ all ->
    span_fits (set_timing t0 0 false p0) t
}.
Context (HP : pacing_ok).

Lemma standing_timed past future cs p y :
  standing_at past future cs p y -> mode (m_pcapConfig p) = TIMED -> mode (m_pcapConfig p0) = TIMED.
Proof. intros H. destruct (st_setup _ _ _ _ _ H) as (Hc & _). by rewrite Hc. Qed.

(** Behind the first packet the pacing has started, and the next one fits. *)
Lemma standing_started t past ts future cs p y :
  standing_at (t :: past) (ts :: future) cs p y -> mode (m_pcapConfig p) = TIMED ->
  started p /\ m_wallStartTs p <= clock y /\ file_time ts /\ span_fits p ts.
Proof.
  intros Hst Hmode. pose proof (standing_timed _ _ _ _ _ Hst Hmode) as Hmode0.
  destruct Hst as [Ha _ _ (Hc & _) _ _ Hp]. destruct (Hp Hmode0) as [(Hf & Hs & Hw & _) _].
  pose proof (pk_times HP Hmode0) as Hall. rewrite Ha in Hall. pose proof (clock_range y).
  apply Forall_cons in Hall as [Ht Hall]. apply Forall_app in Hall as [_ Hall]. apply Forall_cons in Hall as [Hts _].
  split; [split; [done|split; [by rewrite Hs|lia]]|]. split; [lia|]. split; [done|].
  assert (Hfit : span_fits (set_timing t 0 false p0) ts) by (apply (pk_span HP Hmode0); rewrite Ha; [done|set_solver]).
  unfold span_fits, normal_speed, positive_speed, speed_of in *. by rewrite Hc, Hs.
Qed.

(** ** A step *)

(** The pacing of the calls made so far, when the next packet is played at
    the instant [clock y]: its own calls are on time. *)
Definition verdict past cs ts p y : Prop :=
  mode (m_pcapConfig p0) = TIMED -> paced (past ++ [ts]) cs p y /\ on_time p ts (clock y).

(** The first packet starts the pacing. *)
Lemma verdict_first ts wall p y : c0 <= wall <= clock y -> 0 <= wall -> verdict [] [] ts (set_timing ts wall false p) y.
Proof. intros Hw H0 _. split; [|apply on_time_origin; lia]. split; [cbn; split_and!; done || lia|done]. Qed.

(** The verdict on the next packet: it is played, at or after its target, or it is
    early and the batch is scheduled again. *)
Lemma pace_verdict past ts future cs play w :
  standing_at past (ts :: future) cs (w_obj w) (w_sys w) ->
  exists y, passing (w_sys w) y /\
    ((exists start wall first, let p := set_timing start wall first (w_obj w) in
        pace ts play w = play (World (w_loop w) p y) /\ verdict past cs ts p y) \/
     exists delay, 0 <= delay <= max_delay /\
       pace ts play w = (runAfter delay (Some ProcessBatch) ;; mret false) (with_sys y w)).
Proof.
  intros Hst. destruct (decide (mode (m_pcapConfig (w_obj w)) = TIMED)) as [Hmode|Hmode].
  - pose proof (standing_timed _ _ _ _ _ Hst Hmode) as Hmode0.
    destruct (st_paced _ _ _ _ _ Hst Hmode0) as [Ho Hp]. pose proof (st_clock _ _ _ _ _ Hst) as Hc0. unfold pace.
    pose proof (steady_now_clock (w_sys w)) as [Hc1 Hc2]. pose proof (steady_now_range (w_sys w)) as Hr.
    destruct past as [|t past].
    + destruct Ho as [Ho ->].
      set (y1 := snd (steady_now (w_sys w))) in *. pose proof (steady_now_clock y1) as [Hc3 Hc4].
      exists (snd (steady_now y1)). split; [etransitivity; apply passing_now|]. left.
      exists ts, (now_of w), false. rewrite (bind_Ret _ _ _ _ _ (too_early_origin ts w Hmode Ho)).
      split; [done|]. apply verdict_first; unfold now_of; lia.
    + destruct (standing_started _ _ _ _ _ _ _ Hst Hmode) as (Hstart & Hwall & Hts & Hfit).
      destruct (any_target_run ts w Hfit Hts Hstart) as (d & Ed & Hd & Hb).
      assert (Hbound : m_wallStartTs (w_obj w) + d <= clock (w_sys w) + 2 ^ 62) by (clear - Hwall Hb; lia).
      destruct (too_early_eq ts (m_wallStartTs (w_obj w) + d) w Hmode Ed Hbound) as [E Hq].
      set (y := snd (steady_now (w_sys w))) in *. exists y. split; [apply passing_now|].
      rewrite bind_run, E. destruct (Z.ltb_spec (now_of w) (m_wallStartTs (w_obj w) + d)) as [Hlt|Hge].
      * right. eexists. split; [exact (Hq Hlt)|]. rewrite !bind_run. by destruct (runAfter _ _ _).
      * left. destruct Ho as (Hf & Hs & Hw & Hw0).
        exists (m_pcapStartTs (w_obj w)), (m_wallStartTs (w_obj w)), false.
        assert (Hp1 : set_timing (m_pcapStartTs (w_obj w)) (m_wallStartTs (w_obj w)) false (w_obj w) = w_obj w)
          by (rewrite <- Hf; by destruct (w_obj w)).
        rewrite Hp1. split; [done|]. intros _. unfold now_of in Hge. cbn [app].
        split; [by split; [split_and!; done || lia|]|].
        unfold on_time. assert (Hge' : m_wallStartTs (w_obj w) + d <= clock y) by lia.
        rewrite Zle_Qle, inject_Z_plus in Hge'. cbn zeta in Hd. lra.
  - exists (w_sys w). split; [done|]. left.
    exists (m_pcapStartTs (w_obj w)), (m_wallStartTs (w_obj w)), (m_firstPacket (w_obj w)).
    assert (Hp1 : set_timing (m_pcapStartTs (w_obj w)) (m_wallStartTs (w_obj w)) (m_firstPacket (w_obj w)) (w_obj w) = w_obj w)
      by (by destruct (w_obj w)).
    rewrite Hp1, pace_untimed by done. split; [by destruct w|].
    intros Hmode0. destruct (st_setup _ _ _ _ _ Hst) as (Hc & _). by rewrite Hc in Hmode.
Qed.

(** The world with another receiver, after some time has passed. *)
Lemma passing_armed w p y : deadline y = deadline (w_sys w) -> armed w -> armed (World (w_loop w) p y).
Proof. intros Hd. unfold armed. cbn. by rewrite Hd. Qed.

Lemma standing_Inv n past future w p y :
  Inv n w -> registered y = registered (w_sys w) -> standing past future p y -> Inv n (World (w_loop w) p y).
Proof. intros Hw Hr Hst. apply Inv_world; [done|by rewrite Hr|by exists past, future]. Qed.

(** A packet has been played, and the calls for it made. *)
Lemma standing_played past ts future cs p p1' p2 y d ds2 :
  standing_at past (ts :: future) cs p y -> owed = cs.*2 ++ d ++ ds2 -> Forall (fun c => dl_ts c = ts) d ->
  verdict past cs ts p1' y ->
  same_setup p p1' -> m_finished p1' = m_finished p -> I future ds2 p2 -> same_pass p1' p2 ->
  standing (past ++ [ts]) future p2 (emit_all emit d y).
Proof.
  intros [Ha _ Htr Hs Hf Hc0 _] Hds Hd Hp Hs1 Hf1 HI (Hs2 & Ht2 & Hf2). set (stamp := fun c : delivery => (clock y, c)).
  destruct (emit_all_frame (emit := emit) d y) as (Hc & _). exists (cs ++ (stamp <$> d)).
  split; [by rewrite <- app_assoc| | |by repeat (etransitivity; [done|])| |by rewrite Hc|].
  - exists ds2. split; [|done]. rewrite fmap_app, <- list_fmap_compose. cbn [compose stamp snd].
    rewrite list_fmap_id. by rewrite <- app_assoc.
  - by rewrite emit_all_trace, Htr, <- app_assoc.
  - rewrite Hf2, Hf1. intros H. by specialize (Hf H).
  - intros Hmode. destruct (Hp Hmode) as [[Ho Hcs] Hts]. apply (paced_later _ _ _ y); [|by rewrite Hc].
    apply (paced_timing _ _ p1'); [|done|apply Hs2]. split; [by destruct past|].
    apply Forall_app. split; [done|]. apply Forall_fmap. eapply Forall_impl; [exact Hd|]. intros c Hts'.
    unfold stamp. cbn. by rewrite Hts'.
Qed.

(** A step of the replay. *)
Lemma internalStep_safe : safe (internalStep (recorder emit) : M W bool).
Proof.
  apply safe_at_spec. intros n w Hw. destruct (Inv_app n w Hw) as (past & [|ts future] & cs & Hst);
    pose proof (st_calls _ _ _ _ _ Hst) as (ds2 & Hds & HI).
  - destruct (read_end ds2 w HI) as (p' & E & HI' & Hs' & Ht' & _).
    eapply safe_at_Ret; [exact E| |by apply passing_armed].
    apply (standing_Inv n past []); [done|done|]. exists cs. destruct Hst as [Ha _ Htr Hs _ Hc Hp].
    split; [done| |done|by etransitivity|done|done|intros Hmode; apply (paced_timing _ _ (w_obj w)); [by apply Hp|done|apply Hs']].
    exists []. by rewrite (read_nothing _ _ HI) in Hds.
  - destruct (read_more ts future ds2 w HI) as (d & ds' & p1 & play & -> & Hdts & HI1 & Hs1 & E & Hplay).
    assert (Hst1 : standing_at past (ts :: future) cs p1 (w_sys w)).
    { split; [apply Hst|by exists (d ++ ds')|apply Hst|etransitivity; [apply Hst|apply Hs1]| |apply Hst|].
      - destruct Hs1 as (_ & _ & ->). apply Hst.
      - intros Hmode. apply (paced_timing _ _ (w_obj w)); [by apply (st_paced _ _ _ _ _ Hst)|apply Hs1|apply Hs1]. }
    destruct (pace_verdict past ts future cs play (World (w_loop w) p1 (w_sys w)) Hst1)
      as (y & (Hc & Hd & Hr & Hmem) & [(start & wall & first & Ep & Hpaced)|(delay & Hdelay & Ep)]); cbn [w_sys w_loop w_obj] in *.
    + destruct (Hplay start wall first (w_loop w) y) as (p2 & E2 & HI2 & Hs2).
      destruct (emit_all_frame (emit := emit) d y) as (_ & Hde & Hre & _).
      eapply safe_at_Ret; [rewrite E; unfold noexcept; by rewrite Ep, E2| |apply passing_armed; by rewrite Hde].
      eapply standing_Inv; [done|by rewrite Hre|].
      eapply (standing_played past ts future cs p1 (set_timing start wall first p1) p2 y d ds'); try done.
      by eapply standing_at_later.
    + assert (Hw1 : Inv n (World (w_loop w) p1 y)).
      { eapply (standing_Inv n past (ts :: future)); [done|done|]. exists cs. by eapply standing_at_later. }
      eapply (safe_at_eq n w (World (w_loop w) p1 y) _ (runAfter delay (Some ProcessBatch) ;; mret false));
        [|apply safe_bind; [apply runAfter_safe; lia|intros _; apply safe_mret]|done|by apply passing_armed].
      rewrite E. unfold noexcept. rewrite Ep.
      pose proof (runAfter_run delay (Some ProcessBatch) (World (w_loop w) p1 y) (proj1 Hw1) (proj2 Hdelay)) as Hrun.
      destruct (Z.ltb_spec delay 0); [lia|]. destruct Hrun as (w' & E' & _).
      change (with_sys y (World (w_loop w) p1 (w_sys w))) with (World (w_loop w) p1 y). by rewrite (bind_Ret _ _ _ _ _ E').
Qed.

Lemma steps_safe k : safe (steps (recorder emit) k : M W bool).
Proof.
  induction k as [|k IH]; [apply safe_mret|]. cbn [steps]. apply safe_bind; [apply internalStep_safe|].
  intros []; [done|apply safe_mret].
Qed.

Lemma this_bind_safe {A} (k : PcapReceiver -> M W A) : (forall p, safe (k p)) -> safe (this ≫= k).
Proof. intros Hk. apply safe_bind; [apply safe_gets|done]. Qed.

Lemma processBatchFlood_safe : safe (processBatchFlood (recorder emit) : M W unit).
Proof.
  apply safe_bind; [apply steps_safe|]. intros []; [|apply safe_mret]. cbn [negb].
  apply this_bind_safe. intros p. destruct (m_finished p); [apply safe_mret|apply runInLoop_safe].
Qed.

Lemma processBatch_safe : safe (processBatch (recorder emit) : M W unit).
Proof.
  apply this_bind_safe. intros p. destruct (_ || _); [apply safe_mret|].
  apply safe_bind; [destruct (decide _); [apply processBatchFlood_safe|apply safe_mret]|]. intros [].
  apply safe_bind; [apply steps_safe|]. intros []; [|apply safe_mret]. cbn [negb].
  apply this_bind_safe. intros p'. destruct (m_finished p'); [apply safe_mret|].
  destruct (decide _); [apply runInLoop_safe|]. destruct (decide _); [|apply safe_mret].
  apply safe_bind; [apply runAfter_safe; unfold max_delay; lia|]. intros _. apply safe_mret.
Qed.

(** The application may step through the file itself. *)
Lemma step_safe {MK : MemoryKernel Y} ndebug :
  (forall w, same_setup p0 (w_obj w) -> owner_thread ndebug w) -> safe (step ndebug (recorder emit) : M W bool).
Proof.
  intros Ho. apply safe_at_spec. intros n w Hw.
  assert (Hown : owner_thread ndebug w) by (destruct (Inv_app n w Hw) as (past & future & cs & Hst); apply Ho, Hst).
  apply (safe_at_eq n w w _ (internalStep (recorder emit))); [|apply internalStep_safe|done|done].
  unfold step. by rewrite (bind_Ret _ _ _ _ _ (checkThread_passes ndebug w Hown)).
Qed.

(** The scheduled functions of the replay beside those of an application. *)
Context (user_task : U -> M W unit) (handleRead : Z -> Z -> Z -> Z -> M W unit).
Context (Huser : forall u, safe (user_task u)) (Hread : forall r f c h, safe (handleRead r f c h)).

#[local] Instance beside_client : ReactorClient (run_pcap_task (recorder emit) user_task) handleRead.
Proof. split; [|done]. intros [| |u]; [apply processBatch_safe|apply processBatchFlood_safe|apply Huser]. Qed.

(** Any number of turns. *)
Lemma turns_safe ts :
  safe (for_each ts (fun t => runOnce (run_pcap_task (recorder emit) user_task) handleRead t ;; mret tt) : M W unit).
Proof.
  apply safe_for_each. intros t. apply safe_bind; [apply (runOnce_run_safe _ _ t)|]. intros _. apply safe_mret.
Qed.
End Beside.

(** The calls the handlers of packets have seen since the replay started at
    the instant [c0], with the calls [tr0] before it.  The receiver stands
    behind the packets [past] of the file [all]: it has [future] and the calls
    [rest] still to make ([I], the invariant of the reader), and the handlers
    have seen exactly the other calls [owed], in the order of the file; nothing
    is left when the replay is finished; in TIMED mode no call was early. *)
Definition in_file_order {Y : Type} {RK : ReactorKernel Y} {RL : ReactorLaws Y} {WK : WakingKernel Y}
    {emit : delivery -> Y -> Y} {CT : CallTrace emit} (I : list timespec -> list delivery -> PcapReceiver -> Prop)
    (all : list timespec) (owed : list delivery) (c0 : Z) (tr0 : list (Z * delivery)) (p : PcapReceiver) (y : Y) : Prop :=
  exists cs past future rest, call_trace y = tr0 ++ cs /\ all = past ++ future /\ I future rest p /\
    owed = cs.*2 ++ rest /\ (m_finished p = true -> future = [] /\ rest = []) /\
    (mode (m_pcapConfig p) = TIMED -> forall t0, head all = Some t0 -> Forall (not_early p c0 t0) cs).

Section Together.
Context {U Y : Type} {RK : ReactorKernel Y} {RL : ReactorLaws Y} {WK : WakingKernel Y}
  {emit : delivery -> Y -> Y} {CT : CallTrace emit}.
Context (I : list timespec -> list delivery -> PcapReceiver -> Prop) {RI : Reader U Y emit I}.
Notation W := (world (task U) PcapReceiver Y).
Implicit Types w : W.

(** The instant the pacing started is not before the start. *)
Lemma paced_not_early c0 t past cs p (y : Y) : paced c0 (t :: past) cs p y -> Forall (not_early p c0 t) cs.
Proof.
  intros [(_ & Hs & _ & Hw) Hcs]. eapply Forall_impl; [exact Hcs|]. intros c Hc. unfold on_time, not_early in *.
  rewrite Hs in Hc. rewrite Zle_Qle in Hw. lra.
Qed.

Lemma standing_order p0 all owed c0 tr0 past future p y :
  standing I p0 all owed c0 tr0 past future p y -> in_file_order I all owed c0 tr0 p y.
Proof.
  intros (cs & [Ha (ds2 & Hds & HI) Htr (Hc & _) Hf _ Hp]). exists cs, past, future, ds2.
  split_and!; [done|done|done|done| |].
  - intros Hfin. specialize (Hf Hfin). subst. split; [done|]. by apply (read_nothing _ p).
  - rewrite Hc. intros Hmode t0 Hhead. specialize (Hp Hmode).
    destruct past as [|t past]; [destruct Hp as [[_ ->] _]; constructor|].
    rewrite Ha in Hhead. injection Hhead as <-. by eapply paced_not_early.
Qed.

(** The state in which the replay starts. *)
Lemma standing_start all owed w :
  I all owed (w_obj w) -> m_firstPacket (w_obj w) = true -> m_finished (w_obj w) = false ->
  standing I (w_obj w) all owed (clock (w_sys w)) (call_trace (w_sys w)) [] all (w_obj w) (w_sys w).
Proof.
  intros HI Hf Hfin. exists []. split; [done|by exists owed|symmetry; apply app_nil_r|done|by rewrite Hfin|done|].
  intros _. by split.
Qed.

(** C5 A replay shares the loop with an application.  The tasks, timers and
    sockets of the application may do anything that leaves the receiver and
    the calls of the packet handlers alone (arm and cancel timers, the
    replay's own among them, defer tasks, add sources, step the replay,
    throw).  Whatever they do, and whatever the kernel reports, any number of
    turns of the loop runs without a fault; when they are over, or an
    exception of the application has ended them, the handlers have seen exactly
    the calls owed for the file, in its order, but for those of the packets
    behind the cursor of the receiver, and all of them once the replay is
    finished ([in_file_order]); in
    TIMED mode, at any positive speed, every single call was made no earlier
    than the instant the replay started plus the distance of its packet's time
    stamp from the first one, divided by the speed (less than a nanosecond
    earlier, at a speed other than 1); and the loop is ready for another turn,
    with its timer armed if the turns returned. *)
Theorem replay_beside_application (user_task : U -> M W unit) (handleRead : Z -> Z -> Z -> Z -> M W unit)
    timeouts all owed w :
  let start := clock (w_sys w) in
  let before := call_trace (w_sys w) in
  let keeps := replay_invariant I (w_obj w) all owed start before in
  (forall u, safe (AI := keeps) (user_task u)) ->
  (forall r f c h, safe (AI := keeps) (handleRead r f c h)) ->
  loop_ok (w_loop w) -> sources_ok w -> armed w ->
  I all owed (w_obj w) -> m_firstPacket (w_obj w) = true -> m_finished (w_obj w) = false ->
  pacing_ok (w_obj w) all ->
  let done w' := loop_ok (w_loop w') /\ sources_ok w' /\
    in_file_order I all owed start before (w_obj w') (w_sys w') in
  wp (for_each timeouts (fun t =>
        runOnce (run_pcap_task (recorder emit) user_task) handleRead t ;; mret tt))
    (fun _ w' => done w' /\ armed w') (fun _ => done) w.
Proof.
  intros start before keeps Huser Hread Hok Hs Ha HI Hf Hfin HP fine.
  assert (HInv : Inv (AI := keeps) 0 w).
  { split_and!; [done|done|by intros i p Hi; lia|]. exists [], all. by apply standing_start. }
  assert (Hfine : forall w', Inv (AI := keeps) 0 w' -> fine w').
  { intros w' (Hl & Hs' & _ & past & future & Hst). split_and!; [done|done|]. by eapply standing_order. }
  eapply wp_conseq.
  - by apply (safe_armed _ (turns_safe I _ _ _ _ _ HP user_task handleRead Huser Hread timeouts) 0).
  - intros _ w' [Hw' Ha']. split; [by apply Hfine|done].
  - intros e w' Hw'. by apply Hfine.
Qed.
End Together.
