(* ===== verification/UDPReceiver.v ===== *)
(** Component [UDPReceiver.h], [UDPReceiver.cc]: the receiver of datagrams,
    with the message headers it hands to [recvmmsg]. *)
From S2P Require Import Prelude Outcome Result Kernel ScopedFd TimerQueue EventLoop PacketReceiver.

Definition sizeof_sockaddr_storage : Z := 128.
(** [CMSG_SPACE(sizeof(struct timespec))] *)
Definition sizeof_control_buffer : Z := 32.

(** [struct mmsghdr]: [msg_iov] points to the vector of the same index in
    [m_ioVectors], [msg_name] and [msg_control] to fixed buffers; the
    ancillary data is what the kernel last wrote. *)
Record mmsghdr := MkMmsghdr {
  msg_iov : Z;
  msg_namelen : Z;
  msg_controllen : Z;
  msg_flags : Z;
  msg_len : Z;
  msg_control : list cmsg
}.

Record UDPReceiver := MkUDPReceiver {
  udp_base : PacketReceiver;
  m_msgHeaders : list mmsghdr
}.

#[export] Instance UDPReceiver_HasBase : HasBase UDPReceiver := {
  base := udp_base; set_base b r := MkUDPReceiver b (m_msgHeaders r)
}.
#[export] Instance UDPReceiver_HasBaseLaws : HasBaseLaws UDPReceiver.
Proof. split; [done|by intros []|done]. Qed.

Definition set_headers (f : list mmsghdr -> list mmsghdr) (r : UDPReceiver) : UDPReceiver :=
  MkUDPReceiver (udp_base r) (f (m_msgHeaders r)).

Module UDPReceiver.
(** The message header after the constructor: zero but for its pointers. *)
Definition fresh_header (i : Z) : mmsghdr := MkMmsghdr i 0 0 0 0 [].

(** The reset of the lengths before a call. *)
Definition reset_header (h : mmsghdr) : mmsghdr :=
  MkMmsghdr (msg_iov h) sizeof_sockaddr_storage sizeof_control_buffer (msg_flags h) (msg_len h)
    (msg_control h).

(** What the kernel writes into a header. *)
Definition filled_header (h : mmsghdr) (m : rmsg) : mmsghdr :=
  MkMmsghdr (msg_iov h) (rm_namelen m) (rm_controllen m) (rm_flags m) (rm_len m) (rm_cmsgs m).

Definition fill_headers (hs : list mmsghdr) (ms : list rmsg) : list mmsghdr :=
  zip_with filled_header hs ms ++ drop (length ms) hs.

(** The time stamp of a message: the first ancillary record with one. *)
Fixpoint packet_time (cs : list cmsg) : timespec :=
  match cs with
  | [] => TimeSpec 0 0
  | c :: cs =>
      if (cmsg_level c =? SOL_SOCKET) && (cmsg_type c =? SCM_TIMESTAMPNS) then cmsg_data c
      else packet_time cs
  end.

Section Ops.
Context {T Y : Type} {RK : ReactorKernel Y} {MK : MemoryKernel Y} {SK : SocketKernel Y}.
Notation W := (world T UDPReceiver Y).
Notation Mw := (M W).
Context (ndebug : bool).
(** The address of the receiver, as its tag carries it. *)
Context (this_ptr : Z).

(** [UDPReceiver(EventLoop& loop, ReceiverConfig config)] *)
Definition UDPReceiver_new (config : ReceiverConfig) : Mw unit :=
  PacketReceiver_new config ;;
  modify (with_obj (set_headers (fun _ => fresh_header <$> seqZ 0 (batchSize config)))).

(** A scope that owns the descriptor [raw_fd]: the body says what it
    returns and what is left in the [ScopedFd]. *)
Definition with_ScopedFd (raw_fd : Z) (body : Mw (Result Z * ScopedFd)) : Mw (Result Z) :=
  r ← body;
  let '(res, udp_socket) := r in
  ScopedFd.destroy close_fd udp_socket ;; mret res.

(** [return std::error_code(errno, std::system_category())] *)
Definition fail_errno (udp_socket : ScopedFd) : Mw (Result Z * ScopedFd) :=
  e ← get_errno; mret (Error (ErrorCode e system_category), udp_socket).

(** [m_port_to_fd_map.emplace(localPort, std::move(udp_socket))]: an
    element is made only when there is none for the key. *)
Definition emplace_socket (localPort : Z) (udp_socket : ScopedFd) : Mw ScopedFd :=
  r ← this_base;
  match m_port_to_fd_map r !! localPort with
  | Some _ => mret udp_socket
  | None =>
      let '(moved, left_over) := ScopedFd.move udp_socket in
      update_base (set_port_map (<[localPort := moved]>)) ;; mret left_over
  end.

(** The part of [subscribe] behind the binding: the actual port, the
    registration with the loop, the transfer of the socket to the map. *)
Definition register_socket (s : ScopedFd) (context handler : Z) : Mw (Result Z * ScopedFd) :=
  name ← sys (getsockname (fd s));
  match name with
  | None => fail_errno s
  | Some (ss_family, port_net) =>
      let localPort := ntohs port_net in
      regResult ← addSource (fd s) EPOLLIN (UDPReceiverTag this_ptr (fd s) context handler);
      if negb (ResultVoid.has_value regResult)
      then mret (Error (ResultVoid.error regResult), s)
      else left_over ← emplace_socket localPort s; mret (Value localPort, left_over)
  end.

(** The part of [subscribe] that sets up the socket. *)
Definition setup_socket (isV6 : bool) (port : Z) (s : ScopedFd) (context handler : Z)
  : Mw (Result Z * ScopedFd) :=
  r1 ← sys (setsockopt (fd s) SOL_SOCKET SO_REUSEADDR 1);
  if r1 <? 0 then fail_errno s
  else
    r2 ← sys (setsockopt (fd s) SOL_SOCKET SO_REUSEPORT 1);
    if r2 <? 0 then fail_errno s
    else
      r3 ← sys (setsockopt (fd s) SOL_SOCKET SO_TIMESTAMPNS 1);
      if r3 <? 0 then fail_errno s
      else
        rb ← (if isV6 : bool then
                _ ← sys (setsockopt (fd s) IPPROTO_IPV6 IPV6_V6ONLY 0);
                sys (bind (fd s) AF_INET6 (htons port))
              else sys (bind (fd s) AF_INET (htons port)));
        if rb =? -1 then fail_errno s
        else register_socket s context handler.

(** [Result<int> subscribe(uint16_t port, void* context, PacketHandlerFn handler)] *)
Definition subscribe (port context handler : Z) : Mw (Result Z) :=
  baseRes ← base_subscribe ndebug port context handler;
  match baseRes with
  | Error e => mret (Error e)
  | Value _ =>
      raw6 ← sys (socket AF_INET6);
      e ← get_errno;
      raw ← (if (raw6 <? 0) && (e =? EAFNOSUPPORT)
             then r ← sys (socket AF_INET); mret (r, false)
             else mret (raw6, true));
      let '(raw_fd, isV6) := raw in
      if raw_fd <? 0 then
        e ← get_errno; mret (Error (ErrorCode e system_category))
      else with_ScopedFd raw_fd (setup_socket isV6 port (MkScopedFd raw_fd) context handler)
  end.

(** The members of the headers [recvmmsg] reads. *)
Definition row_buffer (vs : list iovec) (h : mmsghdr) : option rbuf :=
  v ← vs !! Z.to_nat (msg_iov h);
  Some (RBuf (iov_base v) (iov_len v) (msg_namelen h) (msg_controllen h)).

(** The call of a handler. *)
Context (call_handler : Z -> Z -> Z -> Z -> Z -> timespec -> Mw unit).

(** [m_msgHeaders[i].msg_hdr.msg_namelen = ...; ....msg_controllen = ...;] *)
Definition reset_lengths (i : Z) : Mw unit :=
  r ← gets (fun w => w_obj w);
  match m_msgHeaders r !! Z.to_nat i with
  | None => crash OutOfBounds
  | Some h => modify (with_obj (set_headers (<[Z.to_nat i := reset_header h]>)))
  end.

(** The body of the loop over the packets received. *)
Definition dispatch_message (context handler k : Z) : Mw unit :=
  r ← gets (fun w => w_obj w);
  match m_msgHeaders r !! Z.to_nat k with
  | None => crash OutOfBounds
  | Some h =>
      let status := if Z.land (msg_flags h) MSG_TRUNC =? 0 then OK else Z.lor OK TRUNCATED in
      let packetTime := packet_time (msg_control h) in
      if 0 <? msg_len h then
        let packetData := m_cachedBasePtr (udp_base r) + u64 (k * m_alignedBufferSize (udp_base r)) in
        call_handler handler context packetData (msg_len h) status packetTime
      else mret tt
  end.

(** [void handleRead(int fd, void* context, PacketHandlerFn handler)] *)
Definition handleRead (fd context handler : Z) : Mw unit :=
  checkThread ndebug ;;
  r ← this_base;
  for_n (batchSize (m_config r)) reset_lengths ;;
  r ← gets (fun w => w_obj w);
  match mapM (row_buffer (m_ioVectors (udp_base r))) (m_msgHeaders r) with
  | None => crash OutOfBounds
  | Some bufs =>
      received ← sys (recvmmsg fd bufs (batchSize (m_config (udp_base r))) MSG_DONTWAIT);
      match received with
      | None => mret tt
      | Some ms =>
          modify (with_obj (set_headers (fun hs => fill_headers hs ms))) ;;
          for_n (Z.of_nat (length ms)) (dispatch_message context handler)
      end
  end.
End Ops.
End UDPReceiver.
