(* ===== verification/UDPFacts.v ===== *)
(** The properties of the receiver of datagrams: a subscription succeeds or
    leaves nothing behind, and a read hands every datagram to the handler. *)
From S2P Require Import Prelude Outcome Result Kernel SimKernel ScopedFd TimerQueue EventLoop Recorder.
From S2P Require Import EventLoopFacts SourceFacts PacketReceiver PacketFacts UDPReceiver.

Import UDPReceiver.

(** ** Subscription *)

Section Subscribe.
Context {T Y : Type} {RK : ReactorKernel Y} {RL : ReactorLaws Y} {MK : MemoryKernel Y}
  {SK : SocketKernel Y} {SL : SocketLaws Y}.
Notation W := (world T UDPReceiver Y).
Context (ndebug : bool) (this_ptr : Z).
Implicit Types w : W.

Definition ports w : gmap Z ScopedFd := m_port_to_fd_map (udp_base (w_obj w)).

(** Nothing was registered, and the receiver is as before. *)
Definition untouched w w' : Prop :=
  w_obj w' = w_obj w /\ registered (w_sys w') = registered (w_sys w).

(** The socket [f] is registered with a pointer that leads to the receiver's
    tag. *)
Definition listening f context handler w w' : Prop :=
  exists p, ptr_of f p /\ registered (w_sys w') = <[f := p]> (registered (w_sys w)) /\
    deref_source p w' = Ret (UDPReceiverTag this_ptr f context handler) w'.

(** The descriptor of the new socket: IPv6 or, where the kernel has none,
    IPv4. *)
Definition new_socket (y : Y) : Z * Y :=
  let '(raw6, y6) := socket AF_INET6 y in
  if (raw6 <? 0) && (errno y6 =? EAFNOSUPPORT) then socket AF_INET y6 else (raw6, y6).

(** The receiver and the interest list are as before, and the last call
    closed the descriptor [f]. *)
Definition closed_again (f : Z) (w w' : W) : Prop :=
  w_obj w' = w_obj w /\ registered (w_sys w') ⊆ registered (w_sys w) /\
  exists y, w_sys w' = snd (close f y).

(** What the part of [subscribe] that owns the socket leaves: on an error
    the socket is still owned and the receiver is untouched; on success the
    socket listens, and it is in the map unless its port had one. *)
Definition owned_result f context handler w (res : Result Z) (s : ScopedFd) w' : Prop :=
  match res with
  | Error _ => s = MkScopedFd f /\ untouched w w'
  | Value p => listening f context handler w w' /\
      match ports w !! p with
      | Some _ => s = MkScopedFd f /\ w_obj w' = w_obj w
      | None => s = MkScopedFd (-1) /\
          w_obj w' = set_base (set_port_map (<[p := MkScopedFd f]>) (base (w_obj w))) (w_obj w)
      end
  end.

Lemma fail_errno_owned f context handler w0 w :
  untouched w0 w ->
  exists res s w', fail_errno (MkScopedFd f) w = Ret (res, s) w' /\
    owned_result f context handler w0 res s w'.
Proof. intros H. by eexists _, _, _. Qed.

Lemma register_socket_owned f context handler w0 w :
  0 <= f -> untouched w0 w ->
  exists res s w', register_socket this_ptr (MkScopedFd f) context handler w = Ret (res, s) w' /\
    owned_result f context handler w0 res s w'.
Proof.
  intros Hf [Hobj Hreg]. unfold register_socket. rewrite bind_sys.
  pose proof (getsockname_registered f (w_sys w)) as Hg. cbn [fd].
  destruct (fst (getsockname f (w_sys w))) as [[fam pn]|];
    [|apply fail_errno_owned; split; cbn; congruence].
  set (w1 := with_sys _ w).
  pose proof (addSource_run f EPOLLIN (UDPReceiverTag this_ptr f context handler) w1) as Hadd.
  destruct (Z.ltb_spec f 0); [lia|].
  destruct Hadd as (r & w2 & E & _ & _ & _ & Hobj2 & _ & Hres). rewrite (bind_Ret _ _ _ _ _ E).
  change (registered (w_sys w1)) with (registered (snd (getsockname f (w_sys w)))) in Hres.
  rewrite Hg, Hreg in Hres. change (w_obj w1) with (w_obj w) in Hobj2. rewrite Hobj in Hobj2.
  destruct (ResultVoid.has_value r); cbn [negb].
  - unfold emplace_socket, this_base. run_steps. cbn [base UDPReceiver_HasBase]. rewrite Hobj2.
    fold (ports w0). set (port := ntohs pn). destruct Hres as (p & Hptr & Hp & Hd).
    destruct (ports w0 !! port) as [s|] eqn:Ep; run_steps; (eexists _, _, _; split; [reflexivity|]).
    + split; [by exists p|]. by rewrite Ep.
    + split; [exists p; split; [done|]; split; [done|]|rewrite Ep; split; [done|]].
      * by apply deref_leads in Hd; apply deref_leads.
      * cbn [w_obj with_obj]. by rewrite Hobj2.
  - eexists _, _, _. split; [reflexivity|]. by destruct Hres.
Qed.

Lemma setup_socket_owned isV6 port f context handler w :
  0 <= f ->
  exists res s w', setup_socket this_ptr isV6 port (MkScopedFd f) context handler w = Ret (res, s) w' /\
    owned_result f context handler w res s w'.
Proof.
  intros Hf.
  assert (Hopt : forall l o v w', untouched w w' ->
    untouched w (with_sys (snd (setsockopt f l o v (w_sys w'))) w')).
  { intros l o v w' [Ho Hr]. split; [done|]. cbn. by rewrite setsockopt_registered. }
  unfold setup_socket. cbn [fd].
  assert (H0 : untouched w w) by done.
  rewrite bind_sys. apply (Hopt SOL_SOCKET SO_REUSEADDR 1) in H0. case_match; [by apply fail_errno_owned|].
  rewrite bind_sys. apply (Hopt SOL_SOCKET SO_REUSEPORT 1) in H0. case_match; [by apply fail_errno_owned|].
  rewrite bind_sys. apply (Hopt SOL_SOCKET SO_TIMESTAMPNS 1) in H0. case_match; [by apply fail_errno_owned|].
  set (w3 := with_sys _ (with_sys _ (with_sys _ w))) in *.
  assert (Hbind : exists rb w4, (if isV6 : bool then
      _ ← sys (setsockopt f IPPROTO_IPV6 IPV6_V6ONLY 0); sys (Kernel.bind f AF_INET6 (htons port))
      else sys (Kernel.bind f AF_INET (htons port))) w3 = Ret rb w4 /\ untouched w w4).
  { destruct isV6; [rewrite bind_sys; apply (Hopt IPPROTO_IPV6 IPV6_V6ONLY 0) in H0|];
      (eexists _, _; split; [reflexivity|]; destruct H0 as [Ho Hr]; split; [done|]);
      cbn; by rewrite bind_registered. }
  destruct Hbind as (rb & w4 & E & H4). rewrite (bind_Ret _ _ _ _ _ E).
  destruct (rb =? -1); [by apply fail_errno_owned|by apply register_socket_owned].
Qed.

(** The scope closes the socket it still owns. *)
Lemma close_owned f m w :
  registered (w_sys w) ⊆ m \/ (exists p, registered (w_sys w) = <[f := p]> m) ->
  0 <= f ->
  exists y, ScopedFd.destroy close_fd (MkScopedFd f) w = Ret tt (with_sys y w) /\ registered y ⊆ m /\
    y = snd (close f (w_sys w)).
Proof.
  intros Hm Hf. unfold ScopedFd.destroy, close_fd. cbn [fd]. destruct (Z.leb_spec 0 f); [|lia].
  eexists. split; [reflexivity|]. split; [|reflexivity]. pose proof (close_registered f (w_sys w)) as Hsub.
  destruct Hm as [Hm|[p Hp]]; [by etransitivity|]. apply map_subseteq_spec. intros i x Hi.
  destruct (decide (i = f)) as [->|Hne]; [by rewrite close_unregisters in Hi|].
  eapply lookup_weaken in Hi; [|exact Hsub]. by rewrite Hp, lookup_insert_ne in Hi.
Qed.

Lemma owned_scope f context handler w0 w (body : M W (Result Z * ScopedFd)) :
  0 <= f -> registered (w_sys w0) = registered (w_sys w) -> w_obj w0 = w_obj w ->
  (exists res s w', body w = Ret (res, s) w' /\ owned_result f context handler w res s w') ->
  exists res w', with_ScopedFd f body w = Ret res w' /\
    match res with
    | Error _ => closed_again f w0 w'
    | Value p =>
        match ports w0 !! p with
        | Some _ => closed_again f w0 w'
        | None => listening f context handler w0 w' /\
            w_obj w' = set_base (set_port_map (<[p := MkScopedFd f]>) (base (w_obj w0))) (w_obj w0)
        end
    end.
Proof.
  intros Hf Hreg Hobj (res & s & w1 & E & Hown). unfold with_ScopedFd, closed_again, listening, ports.
  rewrite (bind_Ret _ _ _ _ _ E), Hreg, Hobj. unfold owned_result, untouched, listening, ports in Hown.
  destruct res as [p|e].
  - destruct Hown as [(q & Hqp & Hq & Hd) Hown].
    destruct (m_port_to_fd_map (udp_base (w_obj w)) !! p) as [s0|] eqn:Ep.
    + destruct Hown as [-> Ho]. destruct (close_owned f (registered (w_sys w)) w1) as (y & Ey & Hy & ->); [eauto|done|].
      rewrite (bind_Ret _ _ _ _ _ Ey). eexists _, _. split; [reflexivity|]. cbn. rewrite Ep. eauto.
    + destruct Hown as [-> Ho]. eexists _, _. split; [reflexivity|]. cbn beta iota. rewrite Ep. split; [by exists q|done].
  - destruct Hown as (-> & Ho & Hr).
    destruct (close_owned f (registered (w_sys w)) w1) as (y & Ey & Hy & ->); [left; by rewrite Hr|done|].
    rewrite (bind_Ret _ _ _ _ _ Ey). eexists _, _. split; [reflexivity|]. cbn. eauto.
Qed.

(** The subscription, as the runs use it. *)
Lemma udp_subscribe_run port context handler w :
  ndebug = true \/ owned_by_caller w ->
  exists res w', subscribe ndebug this_ptr port context handler w = Ret res w' /\
    let '(f, y) := new_socket (w_sys w) in
    match res with
    | Error _ => w' = w \/ (f < 0 /\ w' = with_sys y w) \/ (0 <= f /\ closed_again f w w')
    | Value p => 0 <= f /\
        match ports w !! p with
        | Some _ => closed_again f w w'
        | None => listening f context handler w w' /\
            w_obj w' = set_base (set_port_map (<[p := MkScopedFd f]>) (base (w_obj w))) (w_obj w)
        end
    end.
Proof.
  intros Ho. unfold subscribe. rewrite (bind_Ret _ _ _ _ _ (base_subscribe_spec ndebug port context handler w Ho)).
  match goal with |- context [match ?r with Value _ => _ | Error e => _ end] => destruct r as [v|e] end;
    [|eexists _, _; split; [done|]; destruct (new_socket (w_sys w)); by left].
  run_steps. unfold new_socket.
  pose proof (proj1 (socket_registered AF_INET6 (w_sys w))) as Hr6.
  destruct (socket AF_INET6 (w_sys w)) as [raw6 y6]. cbn [fst snd w_sys with_sys] in *.
  set (made := if (raw6 <? 0) && (errno y6 =? EAFNOSUPPORT) then socket AF_INET y6 else (raw6, y6)).
  assert (Hraw : exists isV6, (if (raw6 <? 0) && (errno y6 =? EAFNOSUPPORT)
      then r ← sys (socket AF_INET); mret (r, false) else mret (raw6, true)) (with_sys y6 w) =
        Ret (fst made, isV6) (with_sys (snd made) w) /\ registered (snd made) = registered (w_sys w)).
  { subst made. destruct (_ && _); eexists; (split; [reflexivity|]); [|done].
    by rewrite (proj1 (socket_registered AF_INET y6)). }
  destruct Hraw as (isV6 & E & Hreg). rewrite (bind_Ret _ _ _ _ _ E). clearbody made. clear E.
  destruct made as [f y]. cbn [fst snd] in *. destruct (Z.ltb_spec f 0).
  - run_steps. eexists _, _. split; [reflexivity|]. right; left. done.
  - destruct (owned_scope f context handler w (with_sys y w)
      (setup_socket this_ptr isV6 port (MkScopedFd f) context handler))
      as (res & w' & E' & Hres); [done..|by apply setup_socket_owned|].
    exists res, w'. split; [done|]. destruct res as [p|e]; auto.
Qed.

(** C11 [subscribe] always returns, and succeeds or leaves nothing behind.
    On an error either nothing was done, or no socket could be made, or the
    map of ports is as before, nothing is registered that was not, and the
    last call closed the new socket.  On success the new socket listens
    (epoll holds a pointer that leads to the receiver's tag with this
    descriptor, context and handler) and is entered under the port the system
    reports.  Should the system give a port that is already in the map, the
    result is a success too, but the new socket is closed. *)
Theorem udp_subscribe_spec port context handler w :
  ndebug = true \/ owned_by_caller w ->
  exists res w', subscribe ndebug this_ptr port context handler w = Ret res w' /\
    let '(f, y) := new_socket (w_sys w) in
    match res with
    | Error _ => w' = w \/ (f < 0 /\ w' = with_sys y w) \/ (0 <= f /\ closed_again f w w')
    | Value p => 0 <= f /\
        match ports w !! p with
        | Some _ => closed_again f w w'
        | None => listening f context handler w w' /\
            w_obj w' = set_base (set_port_map (<[p := MkScopedFd f]>) (base (w_obj w))) (w_obj w)
        end
    end.
Proof. exact (udp_subscribe_run port context handler w). Qed.
End Subscribe.

(** ** Reading *)

Section Read.
Context {T Y : Type} {RK : ReactorKernel Y} {RL : ReactorLaws Y} {MK : MemoryKernel Y}
  {SK : SocketKernel Y} {SL : SocketLaws Y}.
Notation W := (world T UDPReceiver Y).
Context (ndebug : bool) (emit : delivery -> Y -> Y).
Implicit Types (w : W) (r : UDPReceiver).

(** A receiver as its constructor builds it: one header per row of the
    buffer, in order. *)
Record udp_ok r : Prop := {
  uo_buffer : buffer_ok (udp_base r);
  uo_batch : batchSize (m_config (udp_base r)) < 2 ^ 31 /\ m_alignedBufferSize (udp_base r) <= 2 ^ 31;
  uo_count : Z.of_nat (length (m_msgHeaders r)) = batchSize (m_config (udp_base r));
  uo_iov : forall i h, m_msgHeaders r !! i = Some h -> msg_iov h = Z.of_nat i
}.

(** The address of row [k]. *)
Definition row (r : UDPReceiver) (k : Z) : Z :=
  m_cachedBasePtr (udp_base r) + k * m_alignedBufferSize (udp_base r).

(** What every call of [recvmmsg] is given: each row with its full length,
    and room for an address and a time stamp, whatever earlier calls left
    in the headers. *)
Definition read_buffers r : list rbuf :=
  (fun k => RBuf (row r k) (bufferSize (m_config (udp_base r))) sizeof_sockaddr_storage
              sizeof_control_buffer) <$> seqZ 0 (batchSize (m_config (udp_base r))).

(** The call message [k] is owed: none for an empty datagram. *)
Definition message_call r (context handler k : Z) (m : rmsg) : list delivery :=
  if 0 <? rm_len m
  then [Delivery handler context (row r k) (rm_len m)
          (if Z.land (rm_flags m) MSG_TRUNC =? 0 then OK else TRUNCATED) (packet_time (rm_cmsgs m))]
  else [].

Fixpoint message_calls r (context handler k : Z) (ms : list rmsg) : list delivery :=
  match ms with
  | [] => []
  | m :: ms => message_call r context handler k m ++ message_calls r context handler (k + 1) ms
  end.

Lemma message_calls_base r r' context handler k ms :
  udp_base r' = udp_base r -> message_calls r' context handler k ms = message_calls r context handler k ms.
Proof.
  intros E. revert k. induction ms as [|m ms IH]; intros k; [done|]. cbn [message_calls].
  rewrite IH. unfold message_call, row. by rewrite E.
Qed.

Lemma reset_lengths_run w i h :
  m_msgHeaders (w_obj w) !! Z.to_nat i = Some h ->
  reset_lengths i w = Ret tt (with_obj (set_headers (<[Z.to_nat i := reset_header h]>)) w).
Proof. intros E. unfold reset_lengths. run_steps. by rewrite E. Qed.

Lemma reset_all w pre hs :
  m_msgHeaders (w_obj w) = pre ++ hs ->
  for_each (seqZ (Z.of_nat (length pre)) (Z.of_nat (length hs))) reset_lengths w =
    Ret tt (with_obj (set_headers (fun _ => pre ++ (reset_header <$> hs))) w).
Proof.
  revert w pre. induction hs as [|h hs IH]; intros w pre E.
  - cbn. rewrite app_nil_r in *. destruct w as [l [b hh] y]. cbn in *. by rewrite E.
  - cbn [length]. rewrite Nat2Z.inj_succ, seqZ_cons by lia. rewrite Z.pred_succ. cbn [for_each].
    erewrite bind_Ret; [|apply (reset_lengths_run w _ h); rewrite E, Nat2Z.id;
      by apply list_lookup_middle].
    rewrite Nat2Z.id. set (w1 := with_obj _ w).
    assert (E1 : m_msgHeaders (w_obj w1) = (pre ++ [reset_header h]) ++ hs).
    { unfold w1. cbn [w_obj with_obj set_headers m_msgHeaders]. rewrite E, insert_app_r_alt by lia.
      rewrite Nat.sub_diag, <- app_assoc. done. }
    specialize (IH w1 _ E1). rewrite length_app in IH. cbn [length] in IH.
    rewrite Nat2Z.inj_add in IH. change (Z.of_nat 1) with 1 in IH. rewrite Z.add_1_r in IH.
    rewrite IH. unfold w1, set_headers, with_obj. cbn. by rewrite <- app_assoc.
Qed.

Lemma read_buffers_spec r :
  udp_ok r ->
  mapM (row_buffer (m_ioVectors (udp_base r))) (reset_header <$> m_msgHeaders r) = Some (read_buffers r).
Proof.
  intros [[_ _ Hbase Hrows Hrow] _ Hcount Hiov]. apply mapM_Some. apply Forall2_same_length_lookup.
  unfold read_buffers. rewrite !length_fmap, length_seqZ. split; [lia|].
  intros i h b Hh Hb. apply list_lookup_fmap_Some in Hh as (h0 & -> & E).
  apply list_lookup_fmap_Some in Hb as (z & -> & Ez).
  apply lookup_seqZ in Ez as [-> Hi]. unfold row_buffer. cbn [msg_iov reset_header].
  rewrite (Hiov i h0 E), Nat2Z.id.
  destruct (lookup_lt_is_Some_2 (m_ioVectors (udp_base r)) i) as [v Hv]; [lia|].
  rewrite Hv. rewrite (Hrow i v Hv). cbn. unfold row. rewrite Hbase. done.
Qed.

Lemma fill_headers_length hs ms : (length ms <= length hs)%nat -> length (fill_headers hs ms) = length hs.
Proof. intros H. unfold fill_headers. rewrite length_app, length_zip_with, length_drop. lia. Qed.

Lemma fill_headers_lookup hs ms k m h :
  ms !! k = Some m -> hs !! k = Some h -> fill_headers hs ms !! k = Some (filled_header h m).
Proof.
  intros Hm Hh. pose proof (lookup_lt_Some _ _ _ Hm). pose proof (lookup_lt_Some _ _ _ Hh).
  unfold fill_headers. rewrite lookup_app_l by (rewrite length_zip_with; lia).
  rewrite lookup_zip_with, Hh. cbn. by rewrite Hm.
Qed.

Lemma fill_headers_iov hs ms i h :
  (forall i h, hs !! i = Some h -> msg_iov h = Z.of_nat i) -> (length ms <= length hs)%nat ->
  fill_headers hs ms !! i = Some h -> msg_iov h = Z.of_nat i.
Proof.
  intros Hiov Hl Hi. unfold fill_headers in Hi. apply lookup_app_Some in Hi as [Hi|[Hge Hi]].
  - rewrite lookup_zip_with in Hi. destruct (hs !! i) as [h0|] eqn:E; [|done]. cbn in Hi.
    destruct (ms !! i); [|done]. cbn in Hi. injection Hi as <-. cbn. by apply Hiov.
  - rewrite length_zip_with, lookup_drop in Hi. apply Hiov. rewrite <- Hi. f_equal.
    rewrite length_zip_with in Hge. lia.
Qed.

(** Header [k] holds message [m]. *)
Definition holds w (k : nat) (m : rmsg) : Prop :=
  exists h, m_msgHeaders (w_obj w) !! k = Some h /\
    msg_flags h = rm_flags m /\ msg_len h = rm_len m /\ msg_control h = rm_cmsgs m.

Lemma dispatch_message_run w context handler k m :
  buffer_ok (udp_base (w_obj w)) -> m_alignedBufferSize (udp_base (w_obj w)) <= 2 ^ 31 ->
  Z.of_nat k < 2 ^ 31 -> holds w k m ->
  dispatch_message (Recorder.recorder emit) context handler (Z.of_nat k) w =
    Ret tt (with_sys (emit_all emit (message_call (w_obj w) context handler (Z.of_nat k) m) (w_sys w)) w).
Proof.
  intros [[_ Hal] _ _ _ _] Hal' Hk (h & Hh & Hf & Hl & Hc). unfold dispatch_message, message_call. run_steps.
  rewrite Nat2Z.id, Hh, Hf, Hl, Hc. destruct (0 <? rm_len m); [|by destruct w].
  unfold Recorder.recorder, emit_all, row. cbn [foldl].
  rewrite u64_small by (unfold is_u64; nia). by destruct (_ =? 0).
Qed.

Lemma dispatch_all w context handler j ms :
  buffer_ok (udp_base (w_obj w)) -> m_alignedBufferSize (udp_base (w_obj w)) <= 2 ^ 31 ->
  Z.of_nat (j + length ms) <= 2 ^ 31 ->
  (forall i m, ms !! i = Some m -> holds w (j + i) m) ->
  for_each (seqZ (Z.of_nat j) (Z.of_nat (length ms))) (dispatch_message (Recorder.recorder emit) context handler) w =
    Ret tt (with_sys (emit_all emit (message_calls (w_obj w) context handler (Z.of_nat j) ms) (w_sys w)) w).
Proof.
  intros Hb Hal. revert w j Hb Hal. induction ms as [|m ms IH]; intros w j Hb Hal Hj Hms; [by destruct w|].
  cbn [length] in *. rewrite Nat2Z.inj_succ, seqZ_cons, Z.pred_succ by lia. cbn [for_each message_calls].
  rewrite (bind_Ret _ _ _ _ _ (dispatch_message_run w context handler j m Hb Hal ltac:(lia)
    ltac:(rewrite <- (Nat.add_0_r j); by apply Hms))).
  set (w1 := with_sys _ w). rewrite <- Nat2Z.inj_succ, (IH w1 (S j)); [|done|done|lia|].
  - rewrite emit_all_app. unfold w1. cbn [w_sys with_sys w_obj]. by rewrite Nat2Z.inj_succ.
  - intros i m' Hi. rewrite Nat.add_succ_comm. by apply Hms.
Qed.

(** The receiver after a read of [ms]. *)
Definition after_read r (ms : list rmsg) : UDPReceiver :=
  set_headers (fun hs => fill_headers (reset_header <$> hs) ms) r.

Lemma after_read_ok r ms : udp_ok r -> (length ms <= length (m_msgHeaders r))%nat -> udp_ok (after_read r ms).
Proof.
  intros [Hb Hs Hc Hi] Hl. split; [done|done| |].
  - cbn [after_read set_headers m_msgHeaders udp_base]. rewrite fill_headers_length; by rewrite length_fmap.
  - cbn [after_read set_headers m_msgHeaders]. intros i h. apply fill_headers_iov; [|by rewrite length_fmap].
    intros i' h' (h0 & -> & Hh)%list_lookup_fmap_Some. exact (Hi _ _ Hh).
Qed.

Lemma holds_after w ms k m :
  (length ms <= length (m_msgHeaders (w_obj w)))%nat -> ms !! k = Some m ->
  holds (with_obj (fun r => after_read r ms) w) k m.
Proof.
  intros Hl Hm. pose proof (lookup_lt_Some _ _ _ Hm).
  destruct (lookup_lt_is_Some_2 (m_msgHeaders (w_obj w)) k) as [h Hh]; [lia|].
  exists (filled_header (reset_header h) m). split; [|done]. cbn.
  apply fill_headers_lookup; [done|]. by rewrite list_lookup_fmap, Hh.
Qed.

(** The read, as the programs use it. *)
Lemma handleRead_run fd context handler w :
  ndebug = true \/ owned_by_caller w -> udp_ok (w_obj w) ->
  let '(received, y) := recvmmsg fd (read_buffers (w_obj w)) (batchSize (m_config (udp_base (w_obj w))))
                          MSG_DONTWAIT (w_sys w) in
  exists r', udp_ok r' /\ udp_base r' = udp_base (w_obj w) /\
    handleRead ndebug (Recorder.recorder emit) fd context handler w =
      Ret tt (World (w_loop w) r'
        (match received with
         | None => y
         | Some ms => emit_all emit (message_calls (w_obj w) context handler 0 ms) y
         end)).
Proof.
  intros Ho Hok. pose proof (uo_count _ Hok) as Hcount.
  set (batch := batchSize (m_config (udp_base (w_obj w)))) in *.
  destruct (recvmmsg _ _ _ _ _) as [received y] eqn:E.
  unfold handleRead. rewrite (bind_Ret _ _ _ _ _ (checkThread_run ndebug w Ho)).
  unfold this_base, for_n. run_steps. cbn [base UDPReceiver_HasBase]. fold batch.
  rewrite <- Hcount. rewrite (bind_Ret _ _ _ _ _ (reset_all w [] _ eq_refl)). cbn [app]. run_steps.
  cbn [w_obj with_obj set_headers m_msgHeaders udp_base]. rewrite read_buffers_spec by done. run_steps.
  cbn [w_sys with_obj]. fold batch. rewrite E. cbn [fst snd]. destruct received as [ms|].
  - destruct (recvmmsg_bound fd (read_buffers (w_obj w)) batch MSG_DONTWAIT (w_sys w) ms) as [Hl1 Hl2];
      [by rewrite E|].
    run_steps. set (w1 := with_obj _ _).
    assert (Ew : w1 = with_obj (fun r => after_read r ms) (with_sys y w)) by done. clearbody w1. subst w1.
    exists (after_read (w_obj w) ms). pose proof (uo_batch _ Hok). pose proof (uo_buffer _ Hok).
    split; [apply after_read_ok; [done|lia]|]. split; [done|].
    rewrite (dispatch_all _ context handler 0 ms); [|done|cbn; lia|cbn; lia|].
    { by rewrite (message_calls_base (w_obj w)). }
    intros i m Hm. apply holds_after; [cbn; lia|done].
  - exists (set_headers (fun hs => reset_header <$> hs) (w_obj w)). split; [|split; [done|]; destruct w as [? [] ?]; reflexivity].
    split; [apply Hok|apply Hok|cbn; rewrite length_fmap; apply Hok|].
    cbn. intros i h (h0 & -> & Hh)%list_lookup_fmap_Some. exact (uo_iov _ Hok _ _ Hh).
Qed.

(** C10 [handleRead]: one [recvmmsg] for the whole batch, always with full
    rows and full room for the ancillary data; when it fails nothing is
    called; otherwise every non-empty message is handed to the handler, in
    order, with the address of its own row, its length, whether it was cut,
    and its receive time (zero when there is none); the receiver is ready
    for the next read. *)
Theorem handleRead_spec fd context handler w :
  ndebug = true \/ owned_by_caller w -> udp_ok (w_obj w) ->
  let '(received, y) := recvmmsg fd (read_buffers (w_obj w)) (batchSize (m_config (udp_base (w_obj w))))
                          MSG_DONTWAIT (w_sys w) in
  exists r', udp_ok r' /\ udp_base r' = udp_base (w_obj w) /\
    handleRead ndebug (Recorder.recorder emit) fd context handler w =
      Ret tt (World (w_loop w) r'
        (match received with
         | None => y
         | Some ms => emit_all emit (message_calls (w_obj w) context handler 0 ms) y
         end)).
Proof. exact (handleRead_run fd context handler w). Qed.
End Read.

(** ** Construction *)

Section New.
Context {T Y : Type} {RK : ReactorKernel Y} {MK : MemoryKernel Y}.
Notation W := (world T UDPReceiver Y).
Implicit Types w : W.

(** The constructor, as the runs use it. *)
Lemma UDPReceiver_new_run c w :
  config_ok c ->
  wp (UDPReceiver_new c)
    (fun _ w' => udp_ok (w_obj w') /\ m_port_to_fd_map (udp_base (w_obj w')) = ∅ /\
       m_config (udp_base (w_obj w')) = c /\ w_loop w' = w_loop w)
    (fun e w' => e = RuntimeError "Failed to allocate packet buffer via mmap" /\ w_obj w' = w_obj w) w.
Proof.
  intros Hc. pose proof (PacketReceiver_new_run c w Hc) as H. destruct Hc as (Hb & Hs & Hs'). cbn zeta in H.
  destruct (mmap_anon _ _ (w_sys w)) as [huge y1]. destruct (mmap_anon _ _ y1) as [plain y2].
  unfold wp, UDPReceiver_new. rewrite bind_run.
  destruct ((if huge =? MAP_FAILED then plain else huge) =? MAP_FAILED); [by rewrite H|].
  destruct H as (r & -> & Hok & _ & _ & _ & Hcfg & _ & Hmap). cbn.
  split; [|done]. split; cbn.
  - done.
  - rewrite Hcfg. destruct Hok as [[_ Ha] _ _ _ _]. rewrite Hcfg in Ha. lia.
  - rewrite length_fmap, length_seqZ, Hcfg, Z2Nat.id by lia. done.
  - intros i h (z & -> & Ez)%list_lookup_fmap_Some. apply lookup_seqZ in Ez as [-> _]. done.
Qed.

(** The constructor makes a receiver that is ready to read: one message
    header per row of the buffer, in order, and no socket; it throws when
    there is no room for the buffer. *)
Theorem UDPReceiver_new_spec c w :
  config_ok c ->
  wp (UDPReceiver_new c)
    (fun _ w' => udp_ok (w_obj w') /\ m_port_to_fd_map (udp_base (w_obj w')) = ∅ /\
       m_config (udp_base (w_obj w')) = c /\ w_loop w' = w_loop w)
    (fun e w' => e = RuntimeError "Failed to allocate packet buffer via mmap" /\ w_obj w' = w_obj w) w.
Proof. exact (UDPReceiver_new_run c w). Qed.
End New.
