(* ===== verification/UDPBeside.v ===== *)
(** A UDP receiver beside an application: the handlers of packets are any code
    that works through the interfaces of the loop and of the receiver (timers,
    tasks, subscriptions and their removal, from inside a callback too).  That the
    receiver is in order is an invariant of the kind the development of the
    loop is parametric in ([AppInvariant]); every operation of the receiver
    keeps it, so that the server together with the application is a client of
    the loop. *)
From S2P Require Import Prelude Outcome Result Kernel SimKernel ScopedFd TimerQueue EventLoop Recorder.
From S2P Require Import EventLoopFacts TimerFacts SourceFacts Waking AppKernel PacketReceiver PacketFacts.
From S2P Require Import UDPReceiver UDPFacts.

Import UDPReceiver.

(** A call that has nothing to do with the timer and the interest list. *)
Definition keeps_timer {Y} `{WK : WakingKernel Y} (y y' : Y) : Prop :=
  deadline y' = deadline y /\ timer_of y' = timer_of y.

(** The calls on sockets, seen from the timer:
    - they leave it alone, closing any other descriptor does too;
    - a new descriptor is not the timer's, and is below 1024, the limit on the
      descriptors of a process (the default of RLIMIT_NOFILE);
    - without MSG_TRUNC among its flags [recvmmsg] reports at most the length
      of the buffer. *)
Class SocketTimerLaws (Y : Type) `{WK : WakingKernel Y} {SK : SocketKernel Y} : Prop := {
  socket_timer fam y : keeps_timer y (snd (socket fam y));
  socket_below fam y : 0 <= fst (socket fam y) -> fst (socket fam y) < MAX_FAST_FDS /\ fst (socket fam y) <> timer_of y;
  setsockopt_timer f l o v y : keeps_timer y (snd (setsockopt f l o v y));
  bind_timer f fam port y : keeps_timer y (snd (Kernel.bind f fam port y));
  getsockname_timer f y : keeps_timer y (snd (getsockname f y));
  recvmmsg_timer f bufs vlen flags y : keeps_timer y (snd (recvmmsg f bufs vlen flags y));
  close_timer f y : f <> timer_of y -> keeps_timer y (snd (close f y));
  recvmmsg_length f bufs vlen y ms i m b :
    fst (recvmmsg f bufs vlen MSG_DONTWAIT y) = Some ms -> ms !! i = Some m -> bufs !! i = Some b ->
    0 <= rb_len b -> 0 <= rm_len m <= rb_len b
}.

Section Beside.
Context {T Y : Type} {RK : ReactorKernel Y} {RL : ReactorLaws Y} {WK : WakingKernel Y} {MK : MemoryKernel Y}
  {FK : FileKernel Y} {SL : StartupLaws Y} {SK : SocketKernel Y} {SoL : SocketLaws Y} {STL : SocketTimerLaws Y}.
Notation W := (world T UDPReceiver Y).
Context (ndebug : bool) (this_ptr : Z).
Implicit Types (w : W) (y : Y) (r : UDPReceiver) (b : PacketReceiver).

(** The buffer of the receiver and the descriptor of the timer. *)
Context (b0 : PacketReceiver) (t0 : Z).

Definition same_buffer b : Prop :=
  m_config b = m_config b0 /\ m_alignedBufferSize b = m_alignedBufferSize b0 /\
  m_cachedBasePtr b = m_cachedBasePtr b0 /\ m_ownerThreadId b = m_ownerThreadId b0.

(** A descriptor the receiver may remove and close. *)
Definition own_fd (f : Z) : Prop := 0 <= f < MAX_FAST_FDS /\ f <> t0.

(** The receiver is in order. *)
Record udp_safe r y : Prop := {
  us_ok : udp_ok r;
  us_buffer : same_buffer (udp_base r);
  us_lengths : Forall (fun h => 0 <= msg_len h <= bufferSize (m_config b0)) (m_msgHeaders r);
  us_ports : forall port s, m_port_to_fd_map (udp_base r) !! port = Some s -> own_fd (fd s);
  us_timer : timer_of y = t0;
  us_owner : ndebug = true \/ this_thread_id y = m_ownerThreadId (udp_base r)
}.

Lemma udp_safe_sys r y y' : udp_safe r y -> timer_of y' = timer_of y -> udp_safe r y'.
Proof. intros [? ? ? ? Ht Ho] E. split; try done; [by rewrite E|by rewrite (one_thread y y')]. Qed.

#[local] Instance udp_invariant : AppInvariant UDPReceiver Y.
Proof.
  refine {| app_inv := udp_safe |}; intros; (eapply udp_safe_sys; [eassumption|]).
  - apply fds_now.
  - apply fds_settime.
  - apply fds_read.
  - apply fds_wait.
  - by apply fds_ctl.
  - apply (fds_ctl e f 0 (FastPtr 0)).
Defined.

(** The receiver with other headers. *)
Lemma udp_safe_headers r y hs :
  udp_safe r y -> length hs = length (m_msgHeaders r) ->
  (forall i h, hs !! i = Some h -> msg_iov h = Z.of_nat i) ->
  Forall (fun h => 0 <= msg_len h <= bufferSize (m_config b0)) hs -> udp_safe (set_headers (fun _ => hs) r) y.
Proof.
  intros [[Hb Hs Hc _] ? _ ? ? ?] Hlen Hiov Hl. split; try done. split; try done. cbn. by rewrite Hlen.
Qed.

(** The receiver with another map of ports. *)
Lemma udp_safe_ports r y f :
  udp_safe r y ->
  (forall port s, f (m_port_to_fd_map (udp_base r)) !! port = Some s -> own_fd (fd s)) ->
  udp_safe (set_base (set_port_map f (base r)) r) y.
Proof.
  intros [[Hb Hs Hc Hi] ? ? ? ? ?] Hf. split; try done. split; try done. destruct Hb as [? ? ? ? ?]. by split.
Qed.

Lemma udp_safe_batch r y : udp_safe r y -> Z.of_nat (length (m_msgHeaders r)) = batchSize (m_config b0).
Proof. intros [Hok (Hc & _) _ _ _ _]. rewrite (uo_count _ Hok). by rewrite Hc. Qed.

(** A call on sockets. *)
Lemma gives_call {A} (P : A -> Prop) (f : Y -> A * Y) :
  (forall y, timer_of y = t0 -> keeps_timer y (snd (f y)) /\ registered (snd (f y)) ⊆ registered y /\ P (fst (f y))) ->
  gives P (sys f : M W A).
Proof.
  intros Hf. apply gives_sys. intros r y Hr. destruct (Hf y (us_timer _ _ Hr)) as ([Hd Ht] & Hreg & HP).
  split_and!; [done|done| |done]. by eapply udp_safe_sys.
Qed.

Lemma safe_call {A} (f : Y -> A * Y) :
  (forall y, timer_of y = t0 -> keeps_timer y (snd (f y)) /\ registered (snd (f y)) ⊆ registered y) -> safe (sys f : M W A).
Proof. intros Hf. apply (gives_safe (fun _ => True)), gives_call. intros y Hy. by destruct (Hf y Hy). Qed.

Lemma setsockopt_safe f l o v : safe (sys (setsockopt f l o v) : M W Z).
Proof. apply safe_call. intros y _. by rewrite setsockopt_registered; split; [apply setsockopt_timer|]. Qed.

Lemma bind_safe f fam port : safe (sys (Kernel.bind f fam port) : M W Z).
Proof. apply safe_call. intros y _. by rewrite bind_registered; split; [apply bind_timer|]. Qed.

Lemma getsockname_safe f : safe (sys (getsockname f) : M W (option (Z * Z))).
Proof. apply safe_call. intros y _. by rewrite getsockname_registered; split; [apply getsockname_timer|]. Qed.

(** A socket the program owns: none (-1), or one that may be closed. *)
Definition own_socket (s : ScopedFd) : Prop := 0 <= fd s -> own_fd (fd s).

Lemma socket_gives fam : gives (fun f => 0 <= f -> own_fd f) (sys (socket fam) : M W Z).
Proof.
  apply gives_call. intros y Hy. rewrite (proj1 (socket_registered fam y)).
  split; [apply socket_timer|]. split; [done|]. intros Hf.
  destruct (socket_below fam y Hf) as [? Ht]. rewrite Hy in Ht. by split.
Qed.

Lemma destroy_safe s : own_socket s -> safe (ScopedFd.destroy close_fd s : M W unit).
Proof.
  intros Hs. unfold ScopedFd.destroy. destruct (Z.leb_spec 0 (fd s)); [|apply safe_mret].
  apply safe_bind; [|intros _; apply safe_mret]. apply safe_call. intros y Hy. split; [|apply close_registered].
  apply close_timer. rewrite Hy. by apply Hs.
Qed.

(** ** The operations of the receiver *)

Lemma checkThread_safe : safe (checkThread ndebug : M W unit).
Proof.
  apply safe_at_spec. intros n w Hw. eapply safe_at_Ret; [|done|done]. apply checkThread_run.
  exact (us_owner _ _ (Inv_app n w Hw)).
Qed.

Lemma this_gives : gives (fun b => same_buffer b /\ forall port s, m_port_to_fd_map b !! port = Some s -> own_fd (fd s))
  (this_base : M W PacketReceiver).
Proof.
  apply gives_gets. intros n w Hw. pose proof (Inv_app n w Hw) as Hr. split; [exact (us_buffer _ _ Hr)|exact (us_ports _ _ Hr)].
Qed.

Lemma base_subscribe_safe port context handler : safe (base_subscribe ndebug port context handler : M W (Result Z)).
Proof.
  apply safe_bind; [apply checkThread_safe|]. intros []. apply safe_bind; [apply safe_gets|]. intros b.
  repeat case_match; apply safe_mret.
Qed.

Lemma fail_errno_gives s : own_socket s -> gives (fun p => own_socket (snd p)) (fail_errno s : M W (Result Z * ScopedFd)).
Proof. intros Hs. apply gives_after; [apply safe_get_errno|]. intros e. by apply gives_mret. Qed.

Lemma emplace_socket_gives port s : own_fd (fd s) -> gives own_socket (emplace_socket port s : M W ScopedFd).
Proof.
  intros Hs. unfold emplace_socket. apply gives_after; [apply safe_gets|]. intros b.
  destruct (m_port_to_fd_map b !! port); [apply gives_mret; by intros _|]. unfold ScopedFd.move. cbn iota.
  apply gives_after; [|intros []; apply gives_mret; intros H; cbn in H; lia].
  apply safe_obj. intros r y Hr. apply udp_safe_ports; [done|]. intros port' s'. rewrite lookup_insert.
  case_decide; [intros [= <-]; exact Hs|apply (us_ports _ _ Hr)].
Qed.

Lemma register_socket_gives s context handler :
  own_fd (fd s) -> gives (fun p => own_socket (snd p)) (register_socket this_ptr s context handler : M W _).
Proof.
  intros Hs. assert (Hown : own_socket s) by (by intros _). unfold register_socket.
  apply gives_after; [apply getsockname_safe|]. intros [[fam pn]|]; [|by apply fail_errno_gives].
  apply gives_after; [apply addSource_safe|]. intros res. destruct (negb _); [by apply gives_mret|].
  eapply gives_bind; [by apply emplace_socket_gives|]. intros s' Hs'. by apply gives_mret.
Qed.

Lemma setup_socket_gives isV6 port s context handler :
  own_fd (fd s) -> gives (fun p => own_socket (snd p)) (setup_socket this_ptr isV6 port s context handler : M W _).
Proof.
  intros Hs. assert (Hown : own_socket s) by (by intros _). unfold setup_socket.
  do 3 (apply gives_after; [apply setsockopt_safe|]; intros ?; destruct (_ <? 0); [by apply fail_errno_gives|]).
  apply gives_after.
  - destruct isV6; [apply safe_bind; [apply setsockopt_safe|]; intros _|]; apply bind_safe.
  - intros rb. destruct (rb =? -1); [by apply fail_errno_gives|by apply register_socket_gives].
Qed.

(** [subscribe], from a callback or not. *)
Lemma subscribe_safe port context handler : safe (subscribe ndebug this_ptr port context handler : M W (Result Z)).
Proof.
  apply safe_bind; [apply base_subscribe_safe|]. intros [v|e]; [|apply safe_mret].
  eapply safe_bind_gives; [apply socket_gives|]. intros raw6 H6. apply safe_bind; [apply safe_get_errno|]. intros e.
  eapply (safe_bind_gives (fun p => 0 <= fst p -> own_fd (fst p))).
  - destruct (_ && _); [|by apply gives_mret].
    eapply gives_bind; [apply socket_gives|]. intros f Hf. by apply gives_mret.
  - intros [f isV6] Hf. cbn [fst] in Hf. destruct (Z.ltb_spec f 0).
    + apply safe_bind; [apply safe_get_errno|]. intros ?. apply safe_mret.
    + eapply safe_bind_gives; [by apply setup_socket_gives, Hf|]. intros [res s] Hs.
      apply safe_bind; [by apply destroy_safe|]. intros []. apply safe_mret.
Qed.

(** [unsubscribe], from a callback or not. *)
Lemma unsubscribe_safe port : safe (base_unsubscribe ndebug port : M W ResultVoid).
Proof.
  apply safe_bind; [apply checkThread_safe|]. intros []. eapply safe_bind_gives; [apply this_gives|]. intros b [_ Hb].
  destruct (m_port_to_fd_map b !! port) as [s|] eqn:E; [|apply safe_mret]. specialize (Hb port s E).
  apply safe_bind; [apply removeSource_safe, Hb|]. intros res.
  apply safe_bind; [|intros []; apply safe_bind; [by apply destroy_safe; intros _|intros []; apply safe_mret]].
  apply safe_obj. intros r y Hr. apply udp_safe_ports; [done|]. intros port' s'. rewrite lookup_delete.
  case_decide; [done|apply (us_ports _ _ Hr)].
Qed.
(** ** Reading *)

(** The handlers, called with the rows of the buffer. *)
Context (call_handler : Z -> Z -> Z -> Z -> Z -> timespec -> M W unit).

Definition row_of (k : Z) : Z := m_cachedBasePtr b0 + k * m_alignedBufferSize b0.

Definition safe_handlers : Prop := forall h ctx k len st ts,
  0 <= k < batchSize (m_config b0) -> 0 < len <= bufferSize (m_config b0) ->
  safe (call_handler h ctx (row_of k) len st ts).
Context (Hcall : safe_handlers).

Lemma header_at n w k :
  Inv n w -> 0 <= k < batchSize (m_config b0) ->
  exists h, m_msgHeaders (w_obj w) !! Z.to_nat k = Some h /\ msg_iov h = k /\ 0 <= msg_len h <= bufferSize (m_config b0).
Proof.
  intros Hw Hk. pose proof (Inv_app n w Hw) as Hr. pose proof (udp_safe_batch _ _ Hr) as Hb.
  destruct (lookup_lt_is_Some_2 (m_msgHeaders (w_obj w)) (Z.to_nat k)) as [h Hh]; [lia|]. exists h. split; [done|]. split.
  - rewrite (uo_iov _ (us_ok _ _ Hr) _ _ Hh). lia.
  - exact (Forall_lookup_1 _ _ _ _ (us_lengths _ _ Hr) Hh).
Qed.

Lemma reset_lengths_safe k : 0 <= k < batchSize (m_config b0) -> safe (reset_lengths k : M W unit).
Proof.
  intros Hk. apply safe_at_spec. intros n w Hw. destruct (header_at n w k Hw Hk) as (h & Hh & Hi & Hl).
  pose proof (Inv_app n w Hw) as Hr. eapply safe_at_Ret; [by apply reset_lengths_run| |done].
  apply Inv_world; [done|done|]. apply (udp_safe_headers _ _ (<[Z.to_nat k := reset_header h]> (m_msgHeaders (w_obj w)))).
  - done.
  - apply length_insert.
  - intros i h' Hi'. apply list_lookup_insert_Some in Hi' as [(<- & <- & _)|[_ Hi']].
    + cbn. rewrite Hi. lia.
    + by apply (uo_iov _ (us_ok _ _ Hr)).
  - apply Forall_insert; [apply Hr|done].
Qed.

Lemma dispatch_message_safe context handler k :
  0 <= k < batchSize (m_config b0) -> safe (dispatch_message call_handler context handler k).
Proof.
  intros Hk. apply safe_at_spec. intros n w Hw. destruct (header_at n w k Hw Hk) as (h & Hh & _ & Hl).
  destruct (us_buffer _ _ (Inv_app n w Hw)) as (Hc & Ha & Hp & _).
  pose proof (uo_buffer _ (us_ok _ _ (Inv_app n w Hw))) as [[_ Hs] _ _ _ _].
  destruct (uo_batch _ (us_ok _ _ (Inv_app n w Hw))) as [Hb1 Hb2].
  assert (E : dispatch_message call_handler context handler k w =
    (if 0 <? msg_len h then call_handler handler context (row_of k) (msg_len h)
       (if Z.land (msg_flags h) MSG_TRUNC =? 0 then OK else Z.lor OK TRUNCATED) (packet_time (msg_control h))
     else mret tt) w).
  { unfold dispatch_message. run_steps. rewrite Hh. destruct (0 <? msg_len h); [|done]. unfold row_of.
    rewrite Hp, Ha, Hc in *. rewrite u64_small; [done|]. unfold is_u64. nia. }
  eapply safe_at_eq; [exact E| |done|done]. destruct (Z.ltb_spec 0 (msg_len h)); [|apply safe_mret].
  apply Hcall; [done|lia].
Qed.

(** The buffers handed to [recvmmsg]. *)
Lemma row_buffers r y :
  udp_safe r y -> exists bufs, mapM (row_buffer (m_ioVectors (udp_base r))) (m_msgHeaders r) = Some bufs /\
    length bufs = length (m_msgHeaders r) /\ Forall (fun v => rb_len v = bufferSize (m_config b0)) bufs.
Proof.
  intros [[[_ _ _ Hrows Hrow] _ Hcount Hiov] (Hc & _) _ _ _ _].
  assert (H : forall i h, m_msgHeaders r !! i = Some h ->
    exists v, row_buffer (m_ioVectors (udp_base r)) h = Some v /\ rb_len v = bufferSize (m_config b0)).
  { intros i h Hh. pose proof (lookup_lt_Some _ _ _ Hh). unfold row_buffer. rewrite (Hiov i h Hh), Nat2Z.id.
    destruct (lookup_lt_is_Some_2 (m_ioVectors (udp_base r)) i) as [v Hv]; [lia|]. rewrite Hv.
    eexists. split; [reflexivity|]. by rewrite (Hrow i v Hv), Hc. }
  clear -H. induction (m_msgHeaders r) as [|h hs IH]; [by exists []|].
  destruct (H 0%nat h eq_refl) as (b & Eb & Hb). destruct IH as (bs & Ebs & Hl & Hbs); [intros i; apply (H (S i))|].
  exists (b :: bs). cbn. rewrite Eb. cbn. rewrite Ebs. cbn.
  split_and!; [done|by rewrite Hl|by constructor].
Qed.

(** Messages that fit the buffer. *)
Definition fitting (ms : list rmsg) : Prop :=
  Z.of_nat (length ms) <= batchSize (m_config b0) /\ Forall (fun m => 0 <= rm_len m <= bufferSize (m_config b0)) ms.

Lemma recvmmsg_gives f bufs :
  Z.of_nat (length bufs) = batchSize (m_config b0) -> 0 <= bufferSize (m_config b0) ->
  Forall (fun v => rb_len v = bufferSize (m_config b0)) bufs ->
  gives (fun res => match res with Some ms => fitting ms | None => True end)
    (sys (recvmmsg f bufs (batchSize (m_config b0)) MSG_DONTWAIT) : M W (option (list rmsg))).
Proof.
  intros Hlen Hsize Hb. apply gives_call. intros y _. rewrite recvmmsg_registered.
  split; [apply recvmmsg_timer|]. split; [done|].
  destruct (fst (recvmmsg f bufs (batchSize (m_config b0)) MSG_DONTWAIT y)) as [ms|] eqn:E; [|done].
  destruct (recvmmsg_bound _ _ _ _ _ _ E) as [Hl1 Hl2]. split; [done|]. apply Forall_lookup. intros i m Hm.
  pose proof (lookup_lt_Some _ _ _ Hm). destruct (lookup_lt_is_Some_2 bufs i) as [b Eb]; [lia|].
  pose proof (Forall_lookup_1 _ _ _ _ Hb Eb) as Hbl. cbn beta in Hbl. rewrite <- Hbl in *.
  by eapply recvmmsg_length.
Qed.

Lemma fill_headers_safe ms :
  fitting ms -> safe (modify (with_obj (set_headers (fun hs => fill_headers hs ms))) : M W unit).
Proof.
  intros [Hlen Hms]. apply safe_obj. intros r y Hr. pose proof (udp_safe_batch r y Hr) as Hb.
  assert (Hle : (length ms <= length (m_msgHeaders r))%nat) by lia.
  apply (udp_safe_headers r y (fill_headers (m_msgHeaders r) ms)); [done|by apply fill_headers_length| |].
  - intros i h. apply fill_headers_iov; [apply (us_ok _ _ Hr)|done].
  - unfold fill_headers. apply Forall_app. split; [|apply Forall_drop, Hr].
    apply Forall_lookup. intros i h Hi. apply lookup_zip_with_Some in Hi as (h0 & m & -> & _ & Hm).
    exact (Forall_lookup_1 _ _ _ _ Hms Hm).
Qed.

(** A readable socket. *)
Lemma handleRead_safe f context handler : safe (handleRead ndebug call_handler f context handler).
Proof.
  apply safe_bind; [apply checkThread_safe|]. intros [].
  eapply safe_bind_gives; [apply this_gives|]. intros b [(Hc & _) _]. rewrite Hc. clear b Hc.
  apply safe_bind.
  { apply safe_for_each_in. intros k Hk%elem_of_seqZ. apply reset_lengths_safe. lia. }
  intros []. eapply (safe_bind_gives (fun r => exists y, udp_safe r y)).
  { apply gives_gets. intros n w Hw. exists (w_sys w). exact (Inv_app n w Hw). }
  intros r [y Hr]. destruct (row_buffers r y Hr) as (bufs & -> & Hlen & Hb).
  pose proof (udp_safe_batch r y Hr) as Hbatch. destruct (us_buffer _ _ Hr) as (Hc & _).
  pose proof (uo_buffer _ (us_ok _ _ Hr)) as [[_ [[Hsize _] _]] _ _ _ _]. rewrite Hc in *.
  eapply safe_bind_gives; [apply recvmmsg_gives; [by rewrite Hlen|done|done]|].
  intros [ms|] Hms; [|apply safe_mret]. apply safe_bind; [by apply fill_headers_safe|]. intros [].
  apply safe_for_each_in. intros k Hk%elem_of_seqZ. apply dispatch_message_safe. destruct Hms. lia.
Qed.
End Beside.

Section Together.
Context {T Y : Type} {RK : ReactorKernel Y} {RL : ReactorLaws Y} {WK : WakingKernel Y} {MK : MemoryKernel Y}
  {FK : FileKernel Y} {SL : StartupLaws Y} {SK : SocketKernel Y} {SoL : SocketLaws Y} {STL : SocketTimerLaws Y}.
Notation W := (world T UDPReceiver Y).
Context (ndebug : bool).
Implicit Types w : W.

(** C6 A UDP server with any application.  The handlers of packets and the
    tasks of the application are arbitrary code that works through the
    interfaces of the loop and of the receiver: they may arm and cancel timers,
    defer tasks, subscribe and unsubscribe ports (the one they are called for
    among them), throw.  Each handler is only called with a row of the
    buffer and a length of at least one byte that fits the row, whatever earlier
    callbacks did; and any number of turns of the loop, with whatever
    events and messages the kernel reports, runs without a fault and leaves the
    loop and the receiver in order (one header per row, every socket of the
    map its own), when they return and when a callback throws.  The
    process has at most 1024 descriptors, so that no source is in the hash
    map. *)
Theorem udp_beside_application (run_task : T -> M W unit)
    (call_handler : Z -> Z -> Z -> Z -> Z -> timespec -> M W unit) timeouts w :
  let b := udp_base (w_obj w) in
  let keeps := udp_invariant ndebug b (timer_of (w_sys w)) in
  let in_order w' := loop_ok (w_loop w') /\ sources_ok w' /\
    udp_safe ndebug b (timer_of (w_sys w)) (w_obj w') (w_sys w') in
  (forall t, safe (AI := keeps) (run_task t)) ->
  (forall h ctx k len st ts, 0 <= k < batchSize (m_config b) -> 0 < len <= bufferSize (m_config b) ->
     safe (AI := keeps) (call_handler h ctx (row (w_obj w) k) len st ts)) ->
  in_order w -> armed w ->
  wp (for_each timeouts (fun t =>
        runOnce run_task (fun _ f ctx h => handleRead ndebug call_handler f ctx h) t ;; mret tt))
    (fun _ w' => in_order w' /\ armed w') (fun _ => in_order) w.
Proof.
  intros b keeps in_order Htask Hcall (Hok & Hs & Hu) Ha.
  assert (HInv : Inv (AI := keeps) 0 w) by (split_and!; [done|done|by intros i p Hi; lia|exact Hu]).
  assert (HC : ReactorClient (AI := keeps) run_task (fun _ f ctx h => handleRead ndebug call_handler f ctx h)).
  { split; [done|]. intros receiver f ctx h. by apply handleRead_safe. }
  assert (Hsafe : safe (AI := keeps) (for_each timeouts (fun t =>
      runOnce run_task (fun _ f ctx h => handleRead ndebug call_handler f ctx h) t ;; mret tt))).
  { apply safe_for_each. intros t. apply safe_bind; [apply (runOnce_run_safe _ _ t)|]. intros _. apply safe_mret. }
  eapply wp_conseq; [by apply (safe_armed _ Hsafe 0)| |].
  - intros _ w' [(? & ? & _ & ?) ?]. split; [split_and!|]; done.
  - intros e w' (? & ? & _ & ?). split_and!; done.
Qed.
End Together.

(** ** Kernels with the laws *)

#[export] Program Instance sim_socket_timer : SocketTimerLaws sim.
Next Obligation. intros fam y. cbn. destruct (_ && _); [done|]. unfold Sim.new_socket. by destruct (_ <? _). Qed.
Next Obligation.
  intros fam y. cbn. destruct (_ && _); cbn; [lia|]. unfold Sim.new_socket.
  destruct (Z.ltb_spec (Sim.fresh_fd y) 1024); cbn; [|lia]. intros _. split; [done|].
  destruct (fresh_fd_above y). lia.
Qed.
Next Obligation. done. Qed.
Next Obligation. done. Qed.
Next Obligation. done. Qed.
Next Obligation.
  intros f bufs vlen flags y. cbn. unfold Sim.do_recv. destruct (default [] (s_queue y !! f)); [done|].
  by destruct (vlen <? 0).
Qed.
Next Obligation. done. Qed.
Next Obligation.
  intros f bufs vlen y ms i m b. cbn [recvmmsg sim_socket]. unfold Sim.do_recv.
  destruct (default [] (s_queue y !! f)) as [|d q]; [done|]. destruct (vlen <? 0); [done|].
  set (n := (_ `min` Z.to_nat (Z.max 0 vlen) `min` length bufs)%nat). clearbody n. cbn [fst].
  intros E Hm Hb Hlen. apply (inj Some) in E as <-. apply lookup_zip_with_Some in Hm as (b' & d' & -> & Hb' & _).
  apply lookup_take_Some in Hb' as [Hb' _]. rewrite Hb in Hb'. injection Hb' as <-. cbn. lia.
Qed.

#[export] Program Instance app_socket_timer {K A : Type} `{STL : SocketTimerLaws K} : SocketTimerLaws (K * A).
Next Obligation. intros. exact (socket_timer fam (fst y)). Qed.
Next Obligation. intros. by apply (socket_below fam (fst y)). Qed.
Next Obligation. intros. exact (setsockopt_timer f l o v (fst y)). Qed.
Next Obligation. intros. exact (bind_timer f fam port (fst y)). Qed.
Next Obligation. intros. exact (getsockname_timer f (fst y)). Qed.
Next Obligation. intros. exact (recvmmsg_timer f bufs vlen flags (fst y)). Qed.
Next Obligation. intros. by apply (close_timer f (fst y)). Qed.
Next Obligation. intros. by eapply (recvmmsg_length f bufs vlen (fst y)). Qed.
