(* ===== verification/Unchanged.v ===== *)
(** What an operation leaves unchanged, by the shape of its code: [unchanged g
    m] says that [m] keeps [g] of the state, whether it returns or throws.
    The instances are the two parts a server's operations keep: the loop
    (everything but a subscription) and the memory of the application
    (everything but the handlers). *)
From S2P Require Import Prelude Outcome Result Kernel ScopedFd TimerQueue EventLoop AppKernel.
From S2P Require Import SourceFacts PacketReceiver UDPReceiver UDPFacts.

Import UDPReceiver.

(** ** The predicate *)

Section Unchanged.
Context {S X : Type} (g : S -> X).

Definition unchanged {A} (m : M S A) : Prop := forall s,
  match m s with Ret _ s' | Throw _ s' => g s' = g s | Crash _ => True end.

Lemma unchanged_Ret {A} (m : M S A) s a s' : unchanged m -> m s = Ret a s' -> g s' = g s.
Proof. intros H E. specialize (H s). by rewrite E in H. Qed.

Lemma unchanged_Throw {A} (m : M S A) s e s' : unchanged m -> m s = Throw e s' -> g s' = g s.
Proof. intros H E. specialize (H s). by rewrite E in H. Qed.

Lemma unchanged_mret {A} (a : A) : unchanged (mret a).
Proof. done. Qed.
Lemma unchanged_gets {A} (f : S -> A) : unchanged (gets f).
Proof. done. Qed.
Lemma unchanged_throw {A} e : unchanged (throw e : M S A).
Proof. done. Qed.
Lemma unchanged_crash {A} f : unchanged (crash f : M S A).
Proof. done. Qed.
Lemma unchanged_modify f : (forall s, g (f s) = g s) -> unchanged (modify f).
Proof. intros H s. apply H. Qed.
Lemma unchanged_s32 z : unchanged (s32 z).
Proof. unfold s32. by destruct (in_s32 z). Qed.

Lemma unchanged_s64 z : unchanged (s64 z).
Proof. unfold s64. by destruct (in_s64 z). Qed.

Lemma unchanged_bind {A B} (m : M S A) (k : A -> M S B) :
  unchanged m -> (forall a, unchanged (k a)) -> unchanged (m ≫= k).
Proof.
  intros Hm Hk s. rewrite bind_run. specialize (Hm s). destruct (m s) as [a s1|e s1|f]; [|done..].
  rewrite <- Hm. apply Hk.
Qed.

Lemma unchanged_for_each {A} (l : list A) (f : A -> M S unit) :
  (forall a, unchanged (f a)) -> unchanged (for_each l f).
Proof. intros Hf. induction l as [|a l IH]; [done|]. by apply unchanged_bind. Qed.

Lemma unchanged_on_throw {A} (m : M S A) (cleanup : M S unit) :
  unchanged m -> unchanged cleanup -> unchanged (on_throw m cleanup).
Proof.
  intros Hm Hc s. unfold on_throw. specialize (Hm s). destruct (m s) as [a s1|e s1|f]; [done| |done].
  specialize (Hc s1). rewrite <- Hm. by destruct (cleanup s1).
Qed.
End Unchanged.

Create HintDb unchanged.
#[export] Hint Resolve unchanged_mret unchanged_gets unchanged_throw unchanged_crash unchanged_s32 unchanged_s64 : unchanged.

(** Follows the code of an operation; leaves the calls it has no lemma for. *)
Ltac follow_code := repeat first
  [ solve [eauto with unchanged] | apply unchanged_bind; [|intros ?] | apply unchanged_for_each; intros ?
  | apply unchanged_on_throw | progress cbv zeta | case_match ].

(** ** The loop *)

Section Loop.
Context {T O Y : Type} {RK : ReactorKernel Y}.
Notation W := (world T O Y).
Notation kept := (unchanged (w_loop : W -> EventLoop T)).

Lemma loop_sys {A} (f : Y -> A * Y) : kept (sys f).
Proof. done. Qed.
Lemma loop_obj f : kept (modify (with_obj f)).
Proof. done. Qed.
Lemma loop_destroy s : kept (ScopedFd.destroy close_fd s).
Proof. unfold ScopedFd.destroy, close_fd. by destruct (0 <=? fd s). Qed.
End Loop.
#[export] Hint Resolve loop_sys loop_obj loop_destroy : unchanged.

(** An operation that stores at most one handler, for the descriptor [f]. *)
Definition stores {T O Y A} (f : Z) (m : M (world T O Y) A) : Prop :=
  forall w a w', m w = Ret a w' -> w_loop w' = w_loop w \/ exists h, w_loop w' = stored_source f h (w_loop w).

Section Stores.
Context {T Y : Type} {RK : ReactorKernel Y} {MK : MemoryKernel Y} {SK : SocketKernel Y}.
Notation W := (world T UDPReceiver Y).
Implicit Types w : W.

Lemma kept_stores f {A} (m : M W A) : unchanged w_loop m -> stores f m.
Proof. intros H w a w' E. left. by eapply unchanged_Ret. Qed.

Lemma stores_bind_l f {A B} (m : M W A) (k : A -> M W B) :
  unchanged w_loop m -> (forall a, stores f (k a)) -> stores f (m ≫= k).
Proof. intros Hm Hk w b w' (a & w1 & E1 & E2)%bind_Ret_inv. rewrite <- (unchanged_Ret _ _ _ _ _ Hm E1). by eapply Hk. Qed.

Lemma stores_bind_r f {A B} (m : M W A) (k : A -> M W B) :
  stores f m -> (forall a, unchanged w_loop (k a)) -> stores f (m ≫= k).
Proof. intros Hm Hk w b w' (a & w1 & E1 & E2)%bind_Ret_inv. rewrite (unchanged_Ret _ _ _ _ _ (Hk a) E2). by eapply Hm. Qed.

Context {RL : ReactorLaws Y} (ndebug : bool) (this_ptr : Z).

Lemma addSource_stores f mask h : stores f (addSource f mask h : M W _).
Proof.
  unfold addSource. destruct (f <? 0); [by apply kept_stores|].
  intros w a w' (p & w1 & E1 & E2)%bind_Ret_inv. destruct (store_source_run f h w) as (p' & E' & _).
  rewrite E1 in E'. injection E' as -> ->. right. exists h. run_steps_in E2.
  destruct (_ =? -1); by injection E2 as _ <-.
Qed.

Lemma register_socket_stores f context handler :
  stores f (register_socket this_ptr (MkScopedFd f) context handler : M W _).
Proof.
  unfold register_socket. apply stores_bind_l; [apply loop_sys|]. intros [[fam pn]|].
  - apply stores_bind_r; [apply addSource_stores|]. intros r.
    unfold emplace_socket, this_base, update_base. follow_code.
  - apply kept_stores. unfold fail_errno, get_errno. follow_code.
Qed.

Lemma setup_socket_stores isV6 port f context handler :
  stores f (setup_socket this_ptr isV6 port (MkScopedFd f) context handler : M W _).
Proof.
  assert (Hfail : stores f (fail_errno (MkScopedFd f) : M W _))
    by (apply kept_stores; unfold fail_errno, get_errno; follow_code).
  unfold setup_socket. cbn [fd].
  do 3 (apply stores_bind_l; [apply loop_sys|]; intros ?; destruct (_ <? 0); [exact Hfail|]).
  apply stores_bind_l; [follow_code|]. intros rb. destruct (rb =? -1); [exact Hfail|apply register_socket_stores].
Qed.

(** [subscribe] stores at most one handler, for its new socket. *)
Lemma udp_subscribe_stores port context handler w res w' :
  subscribe ndebug this_ptr port context handler w = Ret res w' ->
  w_loop w' = w_loop w \/
  0 <= fst (new_socket (w_sys w)) /\
    exists h, w_loop w' = stored_source (fst (new_socket (w_sys w))) h (w_loop w).
Proof.
  intros (r0 & w0 & E0 & E)%bind_Ret_inv.
  assert (Hid : unchanged id (base_subscribe ndebug port context handler : M W _))
    by (unfold base_subscribe, checkThread, this_base; follow_code).
  pose proof (unchanged_Ret _ _ _ _ _ Hid E0) as H0. unfold id in H0.
  subst w0. destruct r0 as [v|e]; [|left; by injection E as _ <-].
  run_steps_in E. unfold new_socket. destruct (socket AF_INET6 (w_sys w)) as [raw6 y6]. cbn [fst snd w_sys with_sys] in *.
  apply bind_Ret_inv in E as ([raw isV6] & w1 & E1 & E2).
  assert (H1 : raw = fst (if (raw6 <? 0) && (errno y6 =? EAFNOSUPPORT) then socket AF_INET y6 else (raw6, y6)) /\
    w_loop w1 = w_loop w) by (destruct (_ && _); by injection E1 as <- _ <-).
  destruct H1 as [-> Hl]. set (f := fst _) in *. rewrite <- Hl. destruct (Z.ltb_spec f 0) as [_|Hf].
  - left. by injection E2 as _ <-.
  - unfold with_ScopedFd in E2.
    apply (stores_bind_r f _ _ (setup_socket_stores isV6 port f context handler)) in E2 as [H|H]; [by left|by right|].
    intros [r s]. follow_code.
Qed.
End Stores.

(** ** The memory of the application *)

Definition app {T O K A} (w : world T O (K * A)) : A := snd (w_sys w).

Section App.
Context {T O K A : Type} {RK : ReactorKernel K} {MK : MemoryKernel K}.
Notation W := (world T O (K * A)).
Notation kept := (unchanged (app : W -> A)).

Lemma app_sys {R} (f : K -> R * K) : kept (sys (lift f)).
Proof. done. Qed.
Lemma app_loop f : kept (loop_set f).
Proof. done. Qed.
Lemma app_obj f : kept (modify (with_obj f)).
Proof. done. Qed.
Lemma app_destroy s : kept (ScopedFd.destroy close_fd s).
Proof. unfold ScopedFd.destroy, close_fd. by destruct (0 <=? fd s). Qed.

#[local] Hint Extern 1 (unchanged app (sys _)) => apply app_sys : unchanged.
#[local] Hint Resolve app_loop app_obj app_destroy : unchanged.

Lemma app_addSource f mask h : kept (addSource f mask h).
Proof. unfold addSource, store_source, loop_get, get_errno. follow_code. Qed.
Lemma app_removeSource f : kept (removeSource f).
Proof. unfold removeSource, loop_get, get_errno. follow_code. Qed.
Lemma app_value r : kept (ResultVoid.value r).
Proof. unfold ResultVoid.value. follow_code. Qed.
#[local] Hint Resolve app_addSource app_removeSource app_value : unchanged.

Lemma app_EventLoop_new : kept EventLoop_new.
Proof. unfold EventLoop_new. follow_code. Qed.
Lemma app_EventLoop_delete : kept EventLoop_delete.
Proof. unfold EventLoop_delete, loop_get. follow_code. Qed.

Context {HB : HasBase O}.
Lemma app_PacketReceiver_new c : kept (PacketReceiver_new c).
Proof. unfold PacketReceiver_new, update_base. follow_code. Qed.
Lemma app_PacketReceiver_delete : kept PacketReceiver_delete.
Proof. unfold PacketReceiver_delete, update_base, this_base. follow_code. Qed.
Lemma app_base_subscribe ndebug port context handler : kept (base_subscribe ndebug port context handler).
Proof. unfold base_subscribe, checkThread, this_base. follow_code. Qed.
End App.
#[export] Hint Extern 1 (unchanged app (sys _)) => apply app_sys : unchanged.
#[export] Hint Resolve app_loop app_obj app_destroy app_addSource app_removeSource app_value
  app_EventLoop_new app_EventLoop_delete app_PacketReceiver_new app_PacketReceiver_delete app_base_subscribe : unchanged.

Section UDPApp.
Context {T K A : Type} {RK : ReactorKernel K} {MK : MemoryKernel K} {SK : SocketKernel K}.
Notation W := (world T UDPReceiver (K * A)).
Notation kept := (unchanged (app : W -> A)).

Lemma app_UDPReceiver_new c : kept (UDPReceiver_new c).
Proof. unfold UDPReceiver_new. follow_code. Qed.

Lemma app_udp_subscribe ndebug this_ptr port context handler : kept (subscribe ndebug this_ptr port context handler).
Proof.
  unfold subscribe, with_ScopedFd, setup_socket, register_socket, emplace_socket, fail_errno, get_errno, this_base, update_base.
  follow_code.
Qed.
End UDPApp.
#[export] Hint Resolve app_UDPReceiver_new app_udp_subscribe : unchanged.
