(* ===== verification/PcapTypes.v ===== *)
(** The types of the capture replay: the members of [PcapReceiver] stay in the
    ranges of their C++ types under every sequence of public calls, whatever
    the bytes of the files, and every handler is called with arguments of the
    types of [PacketHandlerFn].  Executions that reach a fault are those other
    theorems are about; here they end. *)
From S2P Require Import Prelude Outcome Result Kernel ScopedFd TimerQueue EventLoop PcapFormat Float64.
From S2P Require Import EventLoopFacts PacketReceiver PcapReceiver PcapDispatch PcapNg Unchanged.

(** ** A judgement for executions that may fault *)

Section Sound.
Context {S : Type}.

Definition sound {A} (m : M S A) (Q : A -> S -> Prop) (E : S -> Prop) (s : S) : Prop :=
  match m s with Ret a s' => Q a s' | Throw _ s' => E s' | Crash _ => True end.

Lemma sound_bind {A B} (m : M S A) (k : A -> M S B) Q E s :
  sound m (fun a => sound (k a) Q E) E s -> sound (m ≫= k) Q E s.
Proof. unfold sound. rewrite bind_run. by destruct (m s). Qed.

Lemma sound_mret {A} (a : A) (Q : A -> S -> Prop) E s : Q a s -> sound (mret a) Q E s.
Proof. done. Qed.

Lemma sound_gets {A} (f : S -> A) (Q : A -> S -> Prop) E s : Q (f s) s -> sound (gets f) Q E s.
Proof. done. Qed.

Lemma sound_modify f (Q : unit -> S -> Prop) E s : Q tt (f s) -> sound (modify f) Q E s.
Proof. done. Qed.

Lemma sound_conseq {A} (m : M S A) (Q Q' : A -> S -> Prop) (E : S -> Prop) s :
  sound m Q E s -> (forall a s', Q a s' -> Q' a s') -> sound m Q' E s.
Proof. unfold sound. destruct (m s); auto. Qed.

Lemma sound_s64 (z : Z) (Q : Z -> S -> Prop) E s : (is_s64 z -> Q z s) -> sound (s64 z) Q E s.
Proof. unfold sound, s64. destruct (in_s64 z) eqn:Ez; [|done]. intros H. by apply H, in_s64_spec. Qed.

Lemma sound_noexcept {A} (m : M S A) Q E s : sound m Q E s -> sound (noexcept m) Q E s.
Proof. unfold sound, noexcept. by destruct (m s). Qed.

Lemma sound_unchanged {X A} (g : S -> X) (m : M S A) (Q : A -> S -> Prop) (E : S -> Prop) s :
  unchanged g m -> (forall a s', g s' = g s -> Q a s') -> (forall s', g s' = g s -> E s') -> sound m Q E s.
Proof. intros Hm HQ HE. unfold sound. specialize (Hm s). destruct (m s); auto. Qed.
End Sound.

(** ** The types *)

Definition timespec_typed (ts : timespec) : Prop := is_s64 (tv_sec ts) /\ is_s64 (tv_nsec ts).

Definition interface_typed (i : InterfaceInfo) : Prop := is_u16 (linkType i) /\ is_u64 (tsResolutionDivisor i).

(** The members that the code computes; [m_fd] and [m_fileSize] are results
    of the kernel, the pointers are addresses. *)
Record pcap_typed (p : PcapReceiver) : Prop := {
  ty_bytes : bytes_ok (m_mapping p);
  ty_linkType : is_u32 (m_linkType p);
  ty_ports : map_Forall (fun port _ => is_u16 port) (m_portTable p);
  ty_start : timespec_typed (m_pcapStartTs p);
  ty_wall : is_s64 (m_wallStartTs p);
  ty_interfaces : map_Forall (fun id i => is_u32 id /\ interface_typed i) (m_interfaces p);
  ty_count : is_u32 (m_interfaceCount p);
  ty_hot : is_u16 (m_hotPort p)
}.

(** The arguments of a handler: it is not null, the length is that of a UDP
    payload. *)
Definition call_typed (h len st : Z) (ts : timespec) : Prop :=
  h <> 0 /\ 0 <= len < 2 ^ 16 - 8 /\ st = OK /\ timespec_typed ts.

Section PcapTypes.
Context {U Y : Type} {RK : ReactorKernel Y} {RL : ReactorLaws Y} {MK : MemoryKernel Y} {FK : FileKernel Y}.
Notation W := (world (task U) PcapReceiver Y).
Context (ndebug : bool) (call_handler : Z -> Z -> Z -> Z -> Z -> timespec -> M W unit).
Implicit Types w : W.

Definition typed w : Prop := pcap_typed (w_obj w).

(** The handlers of the application keep the types, when they are called with
    arguments of theirs. *)
Hypothesis handler_sound : forall h c data len st ts w,
  call_typed h len st ts -> typed w -> sound (call_handler h c data len st ts) (fun _ => typed) typed w.
(** A mapped file is a sequence of bytes. *)
Hypothesis file_bytes : forall len f y addr bytes,
  fst (mmap_file len f y) = Some (addr, bytes) -> Forall is_u8 bytes.

(** ** The steps *)

Lemma sound_load8 a (Q : Z -> W -> Prop) E w : typed w -> (forall v, is_u8 v -> Q v w) -> sound (ld8 a) Q E w.
Proof.
  intros Hw HQ. unfold ld8, load, sound. rewrite bind_this. destruct (load8 (m_mapping (w_obj w)) a) eqn:Ev; [|done].
  apply HQ. eapply load8_u8; [apply Hw|done].
Qed.

Lemma sound_load16 a (Q : Z -> W -> Prop) E w : typed w -> (forall v, is_u16 v -> Q v w) -> sound (ld16 a) Q E w.
Proof.
  intros Hw HQ. unfold ld16, load, sound. rewrite bind_this. destruct (load16 (m_mapping (w_obj w)) a) eqn:Ev; [|done].
  apply HQ. eapply load16_u16; [apply Hw|done].
Qed.

Lemma sound_load32 a (Q : Z -> W -> Prop) E w : typed w -> (forall v, is_u32 v -> Q v w) -> sound (ld32 a) Q E w.
Proof.
  intros Hw HQ. unfold ld32, load, sound. rewrite bind_this. destruct (load32 (m_mapping (w_obj w)) a) eqn:Ev; [|done].
  apply HQ. eapply load32_u32; [apply Hw|done].
Qed.

Lemma sound_field32 a (Q : Z -> W -> Prop) E w : typed w -> (forall v, is_u32 v -> Q v w) -> sound (field32 a) Q E w.
Proof.
  intros Hw HQ. unfold field32, this. apply sound_bind. apply sound_bind, sound_load32; [done|].
  intros v Hv. apply HQ. auto with words.
Qed.

Lemma swap16_u16 sw x : is_u16 x -> is_u16 (swap16 sw x).
Proof. destruct sw; cbn; auto with words. Qed.

Lemma sound_field16 a (Q : Z -> W -> Prop) E w : typed w -> (forall v, is_u16 v -> Q v w) -> sound (field16 a) Q E w.
Proof.
  intros Hw HQ. unfold field16, this. apply sound_bind. apply sound_bind, sound_load16; [done|].
  intros v Hv. apply HQ. by apply swap16_u16.
Qed.

Lemma sound_clock (Q : Z -> W -> Prop) E w :
  typed w -> (forall v y, is_s64 v -> Q v (with_sys y w)) -> sound clock_now Q E w.
Proof.
  intros Hw HQ. unfold clock_now, sys, sound. pose proof (steady_now_range (w_sys w)) as Hr. unfold clock_limit in Hr.
  destruct (steady_now (w_sys w)) as [v y]. cbn in *. apply HQ. unfold is_s64. lia.
Qed.

(** The calls of the loop leave the receiver alone. *)
Notation kept := (unchanged (w_obj : W -> PcapReceiver)).

Lemma obj_sys {A} (f : Y -> A * Y) : kept (sys f).
Proof. done. Qed.
Lemma obj_loop f : kept (loop_set f).
Proof. done. Qed.
#[local] Hint Resolve obj_sys obj_loop : unchanged.

Lemma obj_resetTimerFd : kept resetTimerFd.
Proof. unfold resetTimerFd, loop_get, clock_now. follow_code. Qed.
#[local] Hint Resolve obj_resetTimerFd : unchanged.

Lemma obj_runAfter delay cb : kept (runAfter delay cb).
Proof. unfold runAfter, insertTimer, fresh_timer_id, clock_now, time_after, loop_get. follow_code. Qed.
Lemma obj_close f : kept (close_fd f).
Proof. unfold close_fd. follow_code. Qed.
Lemma obj_error : kept system_error.
Proof. unfold system_error, get_errno. follow_code. Qed.
Lemma obj_thread : kept (checkThread ndebug).
Proof. unfold checkThread, this_base. follow_code. Qed.
Lemma obj_base_subscribe port context handler : kept (base_subscribe ndebug port context handler).
Proof. unfold base_subscribe, checkThread, this_base. follow_code. Qed.

Lemma sound_kept {A} (m : M W A) (Q : A -> W -> Prop) w :
  kept m -> typed w -> (forall a w', w_obj w' = w_obj w -> typed w' -> Q a w') -> sound m Q typed w.
Proof. intros Hm Hw HQ. apply (sound_unchanged w_obj); unfold typed in *; [done|intros a w' E; apply HQ; by rewrite ?E|by intros w' ->]. Qed.

Lemma sound_sys {A} (f : Y -> A * Y) (Q : A -> W -> Prop) E w :
  Q (fst (f (w_sys w))) (with_sys (snd (f (w_sys w))) w) -> sound (sys f) Q E w.
Proof. done. Qed.

(** One step of an operation; what is left are the types of the values
    assigned, and the calls with lemmas of their own. *)
Ltac sound_step :=
  lazymatch goal with
  | |- sound (_ ≫= _) _ _ _ => apply sound_bind
  | |- sound (mret _) _ _ _ => apply sound_mret
  | |- sound (gets _) _ _ _ => apply sound_gets
  | |- sound this _ _ _ => apply sound_gets
  | |- sound (modify _) _ _ _ => apply sound_modify
  | |- sound (assign _) _ _ _ => apply sound_modify
  | |- sound (crash _) _ _ _ => exact I
  | |- sound (noexcept _) _ _ _ => apply sound_noexcept
  | |- sound (ld8 _) _ _ _ => apply sound_load8; [by eauto|intros ? ?]
  | |- sound (ld16 _) _ _ _ => apply sound_load16; [by eauto|intros ? ?]
  | |- sound (ld32 _) _ _ _ => apply sound_load32; [by eauto|intros ? ?]
  | |- sound (field16 _) _ _ _ => apply sound_field16; [by eauto|intros ? ?]
  | |- sound (field32 _) _ _ _ => apply sound_field32; [by eauto|intros ? ?]
  | |- sound (s64 _) _ _ _ => apply sound_s64; intros ?
  | |- sound clock_now _ _ _ => apply sound_clock; [by eauto|intros ? ? ?]
  | |- sound (if ?b then _ else _) _ _ _ => destruct b eqn:?
  | |- sound (let _ := _ in _) _ _ _ => cbv zeta
  end; cbn beta iota.
Ltac sound_steps := repeat sound_step.

(** The types after an assignment; what is left are those of the members
    assigned. *)
Ltac retype H := unfold typed in H |- *; cbn [w_obj with_obj with_sys] in *; destruct H; split; cbn; try assumption.

(** ** From a packet to its handler *)

Lemma lookup_port_sound dst w :
  is_u16 dst -> typed w ->
  sound (lookup_port dst) (fun found w' => typed w' /\ (found = true -> m_hotHandler (w_obj w') <> 0)) typed w.
Proof.
  intros Hd Hw. unfold lookup_port. sound_steps; try done.
  - split; [|intros _; cbn; by apply Z.eqb_neq]. retype Hw.
  - split; [done|]. intros _. apply orb_false_iff in Heqb as [_ H]. by apply Z.eqb_neq.
Qed.

Lemma call_hot_sound data len st ts w :
  call_typed (m_hotHandler (w_obj w)) len st ts -> typed w ->
  sound (call_hot call_handler data len st ts) (fun _ => typed) typed w.
Proof. intros Hc Hw. unfold call_hot. sound_steps. by apply handler_sound. Qed.

Lemma udp_payload v : (ntohs v <? sizeof_udphdr) = false -> 0 <= ntohs v - sizeof_udphdr < 2 ^ 16 - 8.
Proof. intros H%Z.ltb_ge. pose proof (bswap16_u16 v) as Hv. unfold ntohs, is_u16, sizeof_udphdr in *. lia. Qed.

Lemma slowPathParse_sound ts caplen len packet lt w :
  timespec_typed ts -> typed w ->
  sound (slowPathParse call_handler ts caplen len packet lt) (fun _ => typed) typed w.
Proof.
  intros Hts Hw. unfold slowPathParse. sound_step; [by apply sound_mret|]. apply sound_bind.
  apply sound_conseq with (fun _ => typed).
  { unfold slowPathLayer2. sound_steps; done. }
  intros [[[proto ptr] remaining]|] w1 Hw1; [|by apply sound_mret].
  unfold slowPathLayer3, slowPathLayer4. sound_steps; try done.
  eapply sound_conseq; [by apply lookup_port_sound|]. cbn beta. intros found w2 [Hw2 Hhot]. sound_steps; try done.
  apply call_hot_sound; [|done]. split; [apply Hhot; by apply negb_false_iff|]. split; [|done].
  by apply udp_payload.
Qed.

Lemma parseAndDispatch_sound ts caplen len packet lt w :
  timespec_typed ts -> typed w ->
  sound (parseAndDispatch call_handler ts caplen len packet lt) (fun _ => typed) typed w.
Proof.
  intros Hts Hw. unfold parseAndDispatch. cbv zeta. apply sound_bind, sound_gets, sound_bind.
  apply sound_conseq with (fun fast w' => typed w' /\ (fast = true -> (caplen <? len) = false)).
  { destruct (_ && _) eqn:Hfast; [|by split].
    apply andb_true_iff in Hfast as [[_ Hst]%andb_true_iff _]. unfold mand, isFastPathIPv4, mand.
    destruct (caplen <? len); [done|]. sound_steps; by split. }
  intros fast w1 [Hw1 Hst]. destruct fast; [|by apply slowPathParse_sound].
  rewrite (Hst eq_refl). sound_steps; try done.
  eapply sound_conseq; [by apply lookup_port_sound|]. cbn beta. intros found w2 [Hw2 Hhot]. sound_steps; try done.
  apply call_hot_sound; [|done]. split; [apply Hhot; by apply negb_false_iff|]. split; [|done].
  by apply udp_payload.
Qed.

(** ** Pacing *)

Lemma runAfter_sound delay cb w : typed w -> sound (runAfter delay cb) (fun _ => typed) typed w.
Proof. intros Hw. apply sound_kept; [apply obj_runAfter|done|done]. Qed.

Lemma obj_scale a b : kept (scale_difference a b).
Proof. unfold scale_difference, this. follow_code. Qed.

Lemma target_time_sound ts w :
  timespec_typed ts -> typed w -> sound (calculateTargetTimeHighRes ts) (fun _ => typed) typed w.
Proof.
  intros Hts Hw. unfold calculateTargetTimeHighRes. sound_steps; try done; try by retype Hw.
  all: eapply sound_kept; [apply obj_scale|done|]; intros a w' E Hw'; rewrite <- ?E; by sound_steps.
Qed.

Lemma too_early_sound ts w : timespec_typed ts -> typed w -> sound (too_early ts) (fun _ => typed) typed w.
Proof.
  intros Hts Hw. unfold too_early. apply sound_bind, sound_gets. case_decide; [|done].
  apply sound_bind. eapply sound_conseq; [by apply target_time_sound|]. intros target w1 Hw1. cbn beta. sound_steps; try done.
  eapply sound_conseq; [by apply runAfter_sound|]. done.
Qed.

(** ** The readers *)

Lemma pcap_timespec_typed nano sec fraction : is_u32 sec -> is_u32 fraction -> timespec_typed (pcap_timespec nano sec fraction).
Proof. unfold timespec_typed, pcap_timespec, is_u32, is_s64. destruct nano; cbn; lia. Qed.

Lemma to_s64_range z : is_s64 (to_s64 z).
Proof. unfold to_s64, is_s64, u64. case_match; pose proof (Z.mod_pos_bound z (2 ^ 64)); zify; lia. Qed.

Lemma times10_u64 n d : is_u64 d -> is_u64 (times10 n d).
Proof.
  revert d. induction n as [|n IH]; intros d Hd; [done|]. cbn [times10]. apply IH. unfold is_u64, u64.
  apply Z.mod_pos_bound. lia.
Qed.

Lemma tsresol_sound res w : typed w -> sound (tsresol_divisor res) (fun d w' => typed w' /\ is_u64 d) typed w.
Proof.
  intros Hw. unfold tsresol_divisor. sound_steps; (split; [done|]).
  - apply times10_u64. unfold is_u64. lia.
  - unfold is_u64, u64. apply Z.mod_pos_bound. lia.
Qed.

Lemma step_pcap_sound w : typed w -> sound (step_pcap call_handler) (fun _ => typed) typed w.
Proof.
  intros Hw. unfold step_pcap. sound_steps; [by retype Hw|].
  eapply sound_conseq; [apply too_early_sound; [by apply pcap_timespec_typed|done]|]. intros early w1 Hw1. cbn beta.
  sound_steps; [done|]. eapply sound_conseq; [apply parseAndDispatch_sound; [by apply pcap_timespec_typed|done]|].
  intros [] w2 Hw2. cbn beta. sound_steps. by retype Hw2.
Qed.

Lemma parse_options_sound fuel optPtr blockEnd divisor w :
  is_u64 divisor -> typed w ->
  sound (parse_options fuel optPtr blockEnd divisor) (fun d w' => typed w' /\ is_u64 d) typed w.
Proof.
  revert optPtr divisor w. induction fuel as [|fuel IH]; intros optPtr divisor w Hd Hw; [done|]. cbn [parse_options].
  sound_steps; try done.
  - eapply sound_conseq; [by apply tsresol_sound|]. intros d w1 [Hw1 Hd1]. by apply IH.
  - by apply IH.
Qed.

Lemma read_interface_sound len w : typed w -> sound (read_interface len) (fun _ => typed) typed w.
Proof.
  intros Hw. unfold read_interface. sound_steps. eapply sound_conseq; [apply parse_options_sound; [|done]|].
  { unfold is_u64. lia. }
  intros d w1 [Hw1 Hd]. cbn beta. sound_steps. retype Hw1.
  - apply map_Forall_insert_2; [|done]. by split_and!.
  - unfold is_u32, u32. apply Z.mod_pos_bound. lia.
Qed.

Lemma next_packet_block_sound fuel w : typed w -> sound (next_packet_block fuel) (fun _ => typed) typed w.
Proof.
  revert w. induction fuel as [|fuel IH]; intros w Hw; [done|]. cbn [next_packet_block]. sound_steps; try done; try by retype Hw.
  - eapply sound_conseq; [by apply read_interface_sound|]. intros [] w1 Hw1. cbn beta. sound_steps. apply IH. by retype Hw1.
  - apply IH. by retype Hw.
Qed.

Lemma interface_at_sound id w :
  is_u32 id -> typed w -> sound (interface_at id) (fun i w' => typed w' /\ interface_typed i) typed w.
Proof.
  intros Hid Hw. unfold interface_at. apply sound_bind, sound_gets.
  destruct (m_interfaces (w_obj w) !! id) as [i|] eqn:Ei.
  - split; [done|]. by apply (ty_interfaces _ Hw id i).
  - assert (H0 : interface_typed (MkInterfaceInfo 0 0)) by (unfold interface_typed, is_u16, is_u64; cbn; lia).
    sound_steps. split; [|done]. retype Hw. by apply map_Forall_insert_2.
Qed.

Lemma pcapng_timespec_sound tsRaw divisor w :
  typed w -> sound (pcapng_timespec tsRaw divisor) (fun ts w' => typed w' /\ timespec_typed ts) typed w.
Proof. intros Hw. unfold pcapng_timespec. sound_steps. split; [done|]. split; apply to_s64_range. Qed.

Lemma read_packet_block_sound len w : typed w -> sound (read_packet_block call_handler len) (fun _ => typed) typed w.
Proof.
  intros Hw. unfold read_packet_block. sound_steps. eapply sound_conseq; [by apply interface_at_sound|].
  intros info w1 [Hw1 Hi]. cbn beta. sound_steps. eapply sound_conseq; [by apply pcapng_timespec_sound|].
  intros ts w2 [Hw2 Hts]. cbn beta. sound_steps. eapply sound_conseq; [by apply too_early_sound|].
  intros early w3 Hw3. cbn beta. sound_steps; [done|]. eapply sound_conseq; [by apply parseAndDispatch_sound|].
  intros [] w4 Hw4. cbn beta. sound_steps. by retype Hw4.
Qed.

Lemma internalStep_sound w : typed w -> sound (internalStep call_handler) (fun _ => typed) typed w.
Proof.
  intros Hw. unfold internalStep. sound_steps; [|by apply step_pcap_sound].
  unfold stepPcapNg. sound_steps. eapply sound_conseq; [by apply next_packet_block_sound|].
  intros [len|] w1 Hw1; [by apply read_packet_block_sound|done].
Qed.

(** ** Batches *)

Lemma steps_sound n w : typed w -> sound (steps call_handler n) (fun _ => typed) typed w.
Proof.
  revert w. induction n as [|n IH]; intros w Hw; [done|]. cbn [steps]. sound_steps.
  eapply sound_conseq; [by apply internalStep_sound|]. intros more w1 Hw1. cbn beta. sound_steps; [by apply IH|done].
Qed.

Lemma processBatchFlood_sound w : typed w -> sound (processBatchFlood call_handler) (fun _ => typed) typed w.
Proof.
  intros Hw. unfold processBatchFlood. apply sound_bind. eapply sound_conseq; [by apply steps_sound|].
  intros all w1 Hw1. cbn beta. sound_steps; done.
Qed.

Lemma processBatch_sound w : typed w -> sound (processBatch call_handler) (fun _ => typed) typed w.
Proof.
  intros Hw. unfold processBatch. cbv zeta. apply sound_bind, sound_gets. sound_step; [done|]. apply sound_bind.
  apply sound_conseq with (fun _ => typed); [case_decide; [by apply processBatchFlood_sound|done]|].
  intros [] w1 Hw1. apply sound_bind. eapply sound_conseq; [by apply steps_sound|]. intros all w2 Hw2. cbn beta.
  sound_steps; try done. eapply sound_conseq; [by apply runAfter_sound|]. done.
Qed.

(** ** The public interface *)

(** A call of a public member function, or of a function the receiver gave
    the loop. *)
Inductive pcap_op :=
| Open (path : string)
| Rewind
| Subscribe (port context handler : Z)
| Unsubscribe (port : Z)
| Start
| Step
| Batch
| BatchFlood.

Definition run_op (op : pcap_op) : M W unit :=
  match op with
  | Open path => open ndebug path ;; mret tt
  | Rewind => rewind ndebug
  | Subscribe port context handler => subscribe ndebug port context handler ;; mret tt
  | Unsubscribe port => unsubscribe ndebug port ;; mret tt
  | Start => start ndebug
  | Step => step ndebug call_handler ;; mret tt
  | Batch => processBatch call_handler
  | BatchFlood => processBatchFlood call_handler
  end.

(** Ports are 16-bit numbers. *)
Definition op_typed (op : pcap_op) : Prop :=
  match op with Subscribe port _ _ | Unsubscribe port => is_u16 port | _ => True end.

Lemma typed_format ng sw nano w : typed w -> typed (with_obj (set_format ng sw nano) w).
Proof. intros Hw. by retype Hw. Qed.
#[local] Hint Resolve typed_format : core.

Lemma open_sound path w : typed w -> sound (open ndebug path) (fun _ => typed) typed w.
Proof.
  intros Hw. unfold open. apply sound_bind. apply sound_kept; [apply obj_thread|done|]. intros [] w1 _ Hw1.
  apply sound_bind. apply sound_kept; [done|done|]. intros f w2 _ Hw2. sound_step. sound_step.
  assert (H3 : typed (with_obj (set_fd f) w2)) by retype Hw2. set (w3 := with_obj _ w2) in *. clearbody w3.
  assert (Herr : forall w, typed w -> sound system_error (fun _ => typed) typed w)
    by (intros; apply sound_kept; [apply obj_error|done|done]).
  assert (Hfail : forall w, typed w -> sound (close_fd f ;; assign (set_fd (-1)) ;; system_error) (fun _ => typed) typed w).
  { intros w' Hw'. apply sound_bind. apply sound_kept; [apply obj_close|done|]. intros [] w4 _ Hw4. sound_steps.
    apply Herr. by retype Hw4. }
  sound_step; [by apply Herr|]. apply sound_bind. apply sound_kept; [done|done|]. intros [size|] w4 _ Hw4; [|by apply Hfail].
  sound_steps. set (w5 := with_obj _ w4). assert (Hw5 : typed w5) by retype Hw4. clearbody w5. apply sound_sys.
  pose proof (file_bytes size f (w_sys w5)) as Hb. destruct (fst (mmap_file size f (w_sys w5))) as [[addr bytes]|];
    [|by apply Hfail].
  sound_steps. apply sound_kept; [done|by retype Hw5; apply (Hb addr bytes)|]. intros _ w6 _ Hw6. sound_steps; [done|].
  set (w7 := with_obj _ w6). assert (Hw7 : typed w7) by retype Hw6. clearbody w7.
  unfold detect_format. sound_steps; by retype Hw7.
Qed.

(** The base class does not touch the members of this one. *)
Definition beside (b : PacketReceiver) w : PcapReceiver := set_pcap_base b (w_obj w).

Lemma beside_typed b w : pcap_typed (beside b w) <-> typed w.
Proof. split; intros []; by split. Qed.

Lemma beside_unsubscribe b port : unchanged (beside b) (base_unsubscribe ndebug port).
Proof.
  assert (Hsys : forall A (f : Y -> A * Y), unchanged (beside b) (sys f)) by done.
  assert (Hloop : forall f, unchanged (beside b) (loop_set f)) by done.
  assert (Hbase : forall f, unchanged (beside b) (update_base f)) by done.
  unfold base_unsubscribe, checkThread, this_base, removeSource, ScopedFd.destroy, close_fd, get_errno, loop_get. follow_code.
Qed.

Lemma unsubscribe_sound port w : is_u16 port -> typed w -> sound (unsubscribe ndebug port) (fun _ => typed) typed w.
Proof.
  intros Hp Hw. unfold unsubscribe. apply sound_bind.
  apply (sound_unchanged (beside (pcap_base (w_obj w)))); [apply beside_unsubscribe| |].
  - intros r w1 E. assert (Hw1 : typed w1) by (apply (beside_typed (pcap_base (w_obj w))); rewrite E; by apply beside_typed).
    sound_steps; [done|]. retype Hw1. by apply map_Forall_insert_2.
  - intros w1 E. apply (beside_typed (pcap_base (w_obj w))). rewrite E. by apply beside_typed.
Qed.

Lemma subscribe_sound port context handler w : typed w -> sound (subscribe ndebug port context handler) (fun _ => typed) typed w.
Proof.
  intros Hw. unfold subscribe. apply sound_bind. apply sound_kept; [apply obj_base_subscribe|done|]. intros r w1 _ Hw1.
  sound_steps; [done|]. retype Hw1. apply map_Forall_insert_2; [|done]. apply bswap16_u16.
Qed.

Lemma rewind_sound w : typed w -> sound (rewind ndebug) (fun _ => typed) typed w.
Proof.
  intros Hw. unfold rewind. apply sound_bind. apply sound_kept; [apply obj_thread|done|]. intros [] w1 _ Hw1.
  sound_steps; by retype Hw1.
Qed.

Lemma start_sound w : typed w -> sound (start ndebug) (fun _ => typed) typed w.
Proof.
  intros Hw. unfold start. apply sound_bind. apply sound_kept; [apply obj_thread|done|]. intros [] w1 _ Hw1.
  sound_steps; try done; [by retype Hw1|]. eapply sound_conseq; [apply runAfter_sound; by retype Hw1|]. done.
Qed.

Lemma run_op_sound op w : op_typed op -> typed w -> sound (run_op op) (fun _ => typed) typed w.
Proof.
  intros Hop Hw. destruct op; cbn [run_op op_typed] in *.
  - apply sound_bind. eapply sound_conseq; [by apply open_sound|]. done.
  - by apply rewind_sound.
  - apply sound_bind. eapply sound_conseq; [by apply subscribe_sound|]. done.
  - apply sound_bind. eapply sound_conseq; [by apply unsubscribe_sound|]. done.
  - by apply start_sound.
  - unfold step. apply sound_bind, sound_bind, sound_kept; [apply obj_thread|done|]. intros [] w1 _ Hw1.
    eapply sound_conseq; [by apply internalStep_sound|]. done.
  - by apply processBatch_sound.
  - by apply processBatchFlood_sound.
Qed.

(** C20 Types: a new receiver has its members in the ranges of their C++ types,
    and every sequence of public calls and of batches keeps them there, with
    any files, any bytes in them and any clock: the indices of the port table
    are 16-bit, interface numbers 32-bit, resolutions 64-bit, time stamps fit
    [timespec].  Each handler is called with a non-null function, a length
    under 65528, the status OK and a time stamp in range. *)
Theorem replay_types config w :
  sound (PcapReceiver_new config)
    (fun _ w1 => typed w1 /\ forall ops, Forall op_typed ops -> sound (for_each ops run_op) (fun _ => typed) typed w1)
    (fun _ => True) w.
Proof.
  unfold PcapReceiver_new. apply sound_bind. unfold sound at 1. destruct (PacketReceiver_new _ w) as [[] w0| |]; [|done..].
  apply sound_modify. set (w1 := with_obj _ w0).
  assert (Hw1 : typed w1).
  { unfold typed, w1, timespec_typed, is_u32, is_s64, is_u16. split; cbn; try apply map_Forall_empty; try done; try lia. constructor. }
  split; [done|]. clearbody w1. intros ops Hops. revert w1 Hw1. induction Hops as [|op ops Hop Hops IH]; intros w1 Hw1; [done|].
  cbn [for_each]. apply sound_bind. eapply sound_conseq; [by apply run_op_sound|]. intros [] w2 Hw2. by apply IH.
Qed.
End PcapTypes.
