(* ===== verification/UDPService.v ===== *)
(** A program that serves sockets through the loop: each event of a socket is
    one batch of messages for the handler it was subscribed with, for as long
    as the loop can wait, without a fault.  The program is any kernel paired
    with the memory its handlers write ([AppKernel]); what the kernel told it
    is in the kernel's own record ([KernelLog]), and what the program did is
    stated against that record. *)
From S2P Require Import Prelude Outcome Result Kernel SimKernel ScopedFd TimerQueue EventLoop Recorder.
From S2P Require Import EventLoopFacts TimerFacts SourceFacts DispatchFacts TurnRule Waking AppKernel.
From S2P Require Import PacketReceiver PacketFacts UDPReceiver UDPFacts Unchanged.

Import UDPReceiver.

Section Serve.
Context {T K A : Type} {RK : ReactorKernel K} {RL : ReactorLaws K} {WK : WakingKernel K} {MK : MemoryKernel K}
  {FK : FileKernel K} {SL : StartupLaws K} {SK : SocketKernel K} {SoL : SocketLaws K} {KL : KernelLog K}.
Notation Y := (K * A)%type.
Notation W := (world T UDPReceiver Y).
Context (ndebug : bool) (this_ptr : Z) (handle : A -> delivery -> A) (run_task : T -> M W unit).
Implicit Types (w : W) (r : UDPReceiver).
Notation emit := (app_emit (K := K) handle).

(** The function behind a receiver tag: there is one receiver. *)
Definition udp_handle (receiver f context handler : Z) : M W unit :=
  handleRead ndebug (Recorder.recorder emit) f context handler.

Lemma emit_all_app_memory ds (y : Y) : emit_all emit ds y = (fst y, foldl handle (snd y) ds).
Proof. revert y. induction ds as [|d ds IH]; intros y; [by destruct y|]. apply (IH (emit d y)). Qed.

(** The sockets served: their descriptors, with the context and the handler
    they were subscribed with. *)
Definition channels := gmap Z (Z * Z).

(** The pointers of the interest list [m] lead to the timer of the loop [l],
    if the descriptor is not a socket served, or to the receiver. *)
Definition watches (chs : channels) (l : EventLoop T) (m : gmap Z source_ptr) : Prop :=
  forall f p, m !! f = Some p -> ptr_of f p /\
    (chs !! f = None /\ leads l p TimerTag \/
     exists c h, chs !! f = Some (c, h) /\ leads l p (UDPReceiverTag this_ptr f c h)).

(** A receiver that can read and can be destroyed. *)
Definition receiver_ready w : Prop :=
  udp_ok (w_obj w) /\ (forall port s, ports w !! port = Some s -> 0 <= fd s) /\ (ndebug = true \/ owned_by_caller w).

(** A program whose loop has neither timers nor deferred tasks, and only
    watches its timer and the sockets served. *)
Record serving (chs : channels) w : Prop := {
  sv_ok : loop_ok (w_loop w);
  sv_idle : m_timers (w_loop w) = [] /\ m_pendingTasks (w_loop w) = [];
  sv_sources : watches chs (w_loop w) (registered (w_sys w));
  sv_receiver : receiver_ready w
}.

(** A turn, as the kernel saw it: what the wait reported, and the sockets that
    were read, each with the messages received, [None] for a read that
    failed. *)
Record turn_seen := Turn { t_wait : option (list source_ptr); t_reads : list (Z * option (list rmsg)) }.

Definition read_event (q : Z * option (list rmsg)) : sys_event := Received (fst q) (snd q).

(** Its entries in the record of the kernel. *)
Definition turn_events (t : turn_seen) : list sys_event := Waited (t_wait t) :: (read_event <$> t_reads t).

(** The descriptor of an event. *)
Definition ptr_fd (p : source_ptr) : Z := match p with FastPtr f | SlowPtr f _ => f end.

(** The sockets [fds] among the events, in their order. *)
Definition reported (fds : gset Z) (evs : list source_ptr) : list Z := filter (.∈ fds) (ptr_fd <$> evs).

(** Every socket the wait reported was read, once per event, in the order of the
    report, and nothing else. *)
Definition reads_reported (fds : gset Z) (t : turn_seen) : Prop :=
  (t_reads t).*1 = match t_wait t with Some evs => reported fds evs | None => [] end.

(** The messages of a read. *)
Definition received (q : Z * option (list rmsg)) : list rmsg := default [] (snd q).

(** The calls of the handlers for some reads of sockets. *)
Definition channel_calls r (chs : channels) (reads : list (Z * option (list rmsg))) : list delivery :=
  concat ((fun q => match chs !! fst q with Some (c, h) => message_calls r c h 0 (received q) | None => [] end) <$> reads).

(** From [w] to [w'] the kernel has recorded [evs], the handlers have been
    called for the messages of [reads], and nothing else happened. *)
Record served (chs : channels) w (evs : list sys_event) (reads : list (Z * option (list rmsg))) w' : Prop := {
  sd_serving : serving chs w';
  sd_base : udp_base (w_obj w') = udp_base (w_obj w);
  sd_registered : registered (w_sys w') = registered (w_sys w);
  sd_log : kernel_log (w_sys w') = kernel_log (w_sys w) ++ evs;
  sd_calls : app w' = foldl handle (app w) (channel_calls (w_obj w) chs reads)
}.

Lemma channel_calls_base r r' chs reads : udp_base r' = udp_base r -> channel_calls r' chs reads = channel_calls r chs reads.
Proof.
  intros E. unfold channel_calls. induction reads as [|[f ms] reads IH]; [done|]. cbn. rewrite IH. f_equal.
  destruct (chs !! f) as [[c h]|]; [by apply message_calls_base|done].
Qed.

Lemma channel_calls_app r chs rs1 rs2 :
  channel_calls r chs (rs1 ++ rs2) = channel_calls r chs rs1 ++ channel_calls r chs rs2.
Proof. unfold channel_calls. by rewrite fmap_app, concat_app. Qed.

Lemma served_nothing chs w : serving chs w -> served chs w [] [] w.
Proof. intros. split; [done..|symmetry; apply app_nil_r|done]. Qed.

Lemma served_trans chs w e1 rs1 w1 e2 rs2 w2 :
  served chs w e1 rs1 w1 -> served chs w1 e2 rs2 w2 -> served chs w (e1 ++ e2) (rs1 ++ rs2) w2.
Proof.
  intros [S1 B1 R1 L1 C1] [S2 B2 R2 L2 C2]. split; [done|congruence|congruence| |].
  - by rewrite L2, L1, <- app_assoc.
  - rewrite C2, C1, channel_calls_app, foldl_app. by rewrite (channel_calls_base _ (w_obj w1) _ _ B1).
Qed.

(** The kernel moved on; the interest list, the record and the memory did not
    change. *)
Definition aside (y y' : Y) : Prop :=
  registered y' = registered y /\ kernel_log y' = kernel_log y /\ snd y' = snd y.

#[export] Instance aside_frame : TimerFrame aside.
Proof.
  split; unfold aside.
  - split; [done|]. intros y1 y2 y3 (? & ? & ?) (? & ? & ?). split_and!; congruence.
  - intros y. split_and!; [apply steady_now_frame|apply log_now|done].
  - intros f flags v y. split_and!; [apply settime_frame|apply log_settime|done].
  - intros f y. split_and!; [apply read_frame|apply log_read|done].
Qed.

Lemma same_owner w w' :
  m_ownerThreadId (udp_base (w_obj w')) = m_ownerThreadId (udp_base (w_obj w)) ->
  ndebug = true \/ owned_by_caller w -> ndebug = true \/ owned_by_caller w'.
Proof.
  intros Hb [?|Ho]; [by left|right]. unfold owned_by_caller in *. cbn [base UDPReceiver_HasBase] in *.
  by rewrite Hb, (one_thread (w_sys w)).
Qed.

(** The receiver keeps its sockets, its sizes and its thread. *)
Lemma ready_kept w w' :
  udp_ok (w_obj w') -> udp_base (w_obj w') = udp_base (w_obj w) -> receiver_ready w -> receiver_ready w'.
Proof.
  intros Hu Hb (_ & Hs & Ho). split_and!; [done| |apply (same_owner w); [by rewrite Hb|done]].
  unfold ports. by rewrite Hb.
Qed.

Lemma serving_aside chs w y :
  serving chs w -> registered y = registered (w_sys w) -> serving chs (with_sys y w).
Proof.
  intros [Hok Hi Hs Hr] Hreg. split; [done|done|cbn [w_sys w_loop with_sys]; by rewrite Hreg|].
  by apply (ready_kept w); [apply Hr|..].
Qed.

Lemma served_aside chs w y : serving chs w -> aside (w_sys w) y -> served chs w [] [] (with_sys y w).
Proof.
  intros Hs (Hr & Hl & Hm). split; [by apply serving_aside|done|done|by rewrite app_nil_r|done].
Qed.

(** ** One turn of the loop *)

(** The event of the timer descriptor, without timers. *)
Lemma timer_event_idle w :
  loop_ok (w_loop w) -> m_timers (w_loop w) = [] ->
  exists y, handleTimerRead run_task w = Ret tt (with_sys y w) /\ aside (w_sys w) y.
Proof.
  intros Hok Ht. unfold handleTimerRead. run_steps. set (tfd := fd (m_timer_fd (w_loop w))).
  pose proof (frame_read (R := aside) tfd (w_sys w)) as H1.
  destruct (negb _); [by eexists|]. run_steps. cbn [w_sys with_sys w_loop id].
  pose proof (frame_now (R := aside) (snd (timerfd_read tfd (w_sys w)))) as H2. rewrite Ht. cbn [extract_expired].
  run_steps. cbn [for_each]. run_steps.
  match goal with |- context [resetTimerFd ?w1] =>
    destruct (resetTimerFd_frame aside w1) as (y & E & H3) end.
  { destruct Hok as [H3 H4 H5 H6]. rewrite Ht in *. by split. }
  exists y. rewrite E. split.
  - unfold with_sys. cbn. f_equal. f_equal. rewrite <- Ht. by destruct (w_loop w).
  - cbn in H3. etransitivity; [exact H1|]. by etransitivity.
Qed.

(** The event of a socket: one read of it. *)
Lemma udp_handle_served chs w f c h :
  serving chs w -> chs !! f = Some (c, h) ->
  exists ms w', udp_handle this_ptr f c h w = Ret tt w' /\ w_loop w' = w_loop w /\
    served chs w [Received f ms] [(f, ms)] w'.
Proof.
  intros Hs Hf. pose proof (handleRead_run ndebug emit f c h w (proj2 (proj2 (sv_receiver _ _ Hs))) (proj1 (sv_receiver _ _ Hs))) as H.
  set (bufs := read_buffers (w_obj w)) in *. set (batch := batchSize (m_config (udp_base (w_obj w)))) in *.
  pose proof (recvmmsg_registered f bufs batch MSG_DONTWAIT (w_sys w)) as Hr.
  pose proof (log_recv f bufs batch MSG_DONTWAIT (w_sys w)) as Hl.
  assert (Hm : snd (snd (recvmmsg f bufs batch MSG_DONTWAIT (w_sys w))) = app w) by done.
  destruct (recvmmsg _ _ _ _ _) as [ms y]. cbn [fst snd] in *. destruct H as (r' & Hok & Hb & Erun).
  assert (Hserve : forall y' : Y, registered y' = registered (w_sys w) -> serving chs (World (w_loop w) r' y')).
  { intros y' Hy'. destruct Hs as [H1 H2 H3 H4]. split; [done|done|cbn [w_sys w_loop]; by rewrite Hy'|].
    by apply (ready_kept w). }
  exists ms. eexists. split; [exact Erun|]. split; [done|].
  destruct ms as [ms|].
  - rewrite emit_all_app_memory. split; [by apply (Hserve (_, _))|exact Hb|exact Hr|exact Hl|].
    unfold app. cbn. unfold channel_calls. cbn. by rewrite Hf, app_nil_r, Hm.
  - split; [by apply Hserve|exact Hb|exact Hr|exact Hl|].
    unfold channel_calls. cbn. rewrite Hf. exact Hm.
Qed.

(** What a program does for the events [evs]: it reads the sockets among
    them. *)
Definition serves (chs : channels) (evs : list source_ptr) w w' : Prop :=
  serving chs w -> exists reads, reads.*1 = reported (dom chs) evs /\ served chs w (read_event <$> reads) reads w'.

Lemma ptr_of_fd f p : ptr_of f p -> ptr_fd p = f.
Proof. by intros [[-> _]|(n & -> & _)]. Qed.

Lemma serving_reacts chs : reacts run_task udp_handle (serving chs) (serves chs).
Proof.
  split.
  - intros w Hs. exists []. split; [done|by apply served_nothing].
  - intros e1 e2 w1 w2 w3 H12 H23 Hs. destruct (H12 Hs) as (rs1 & Hf1 & H1).
    destruct (H23 (sd_serving _ _ _ _ _ H1)) as (rs2 & Hf2 & H2). exists (rs1 ++ rs2).
    unfold reported in *. rewrite !fmap_app, filter_app, Hf1, Hf2. split; [done|]. by eapply served_trans.
  - intros w f p Hs Hp. destruct (sv_sources _ _ Hs f p Hp) as [Hpf%ptr_of_fd [[Hf Hl]|(c & h & Hc & Hl)]].
    + destruct (timer_event_idle w (sv_ok _ _ Hs) (proj1 (sv_idle _ _ Hs))) as (y & E & Hy).
      pose proof (served_aside chs w y Hs Hy) as H. exists TimerTag, (with_sys y w). split; [done|]. split; [exact E|].
      split; [apply H|]. split; [|split; [apply Hy|done]]. intros _. exists []. split; [|exact H].
      unfold reported. cbn [fmap list_fmap]. rewrite Hpf, filter_cons_False; [done|]. by apply not_elem_of_dom.
    + destruct (udp_handle_served chs w f c h Hs Hc) as (ms & w' & E & Hloop & H).
      exists (UDPReceiverTag this_ptr f c h), w'. split; [done|]. split; [exact E|]. split; [apply H|].
      split; [|split; [apply H|by rewrite Hloop]]. intros _. exists [(f, ms)]. split; [|exact H].
      unfold reported. cbn [fmap list_fmap]. rewrite Hpf, filter_cons_True; [done|]. by eapply elem_of_dom_2.
  - intros w v [[H1 H2 H3 H4] Hi Hs Hr] Hv.
    assert (Hs' : serving chs (with_loop (set_events v) w)) by (split; [split; [done..|cbn; by rewrite Hv]|done|done|done]).
    split; [done|]. intros _. exists []. split; [done|]. split; [done..|symmetry; apply app_nil_r|done].
  - intros w t Hs. apply serving_aside; [done|]. apply epoll_wait_frame.
  - intros w Hs. apply (sv_idle _ _ Hs).
  - intros w Hs. apply (sv_ok _ _ Hs).
Qed.

(** A turn: it returns; it reads the sockets the wait reports, and fails only
    with the wait. *)
Lemma turn_served chs timeoutMs w :
  serving chs w ->
  exists res t w', runOnce run_task udp_handle timeoutMs w = Ret res w' /\
    served chs w (turn_events t) (t_reads t) w' /\ reads_reported (dom chs) t /\
    (ResultVoid.has_value res = true \/ t_wait t = None).
Proof.
  intros Hs. destruct (turn_reacts run_task udp_handle _ _ (serving_reacts chs) timeoutMs w Hs) as (res & w' & E & Hs' & H).
  assert (Hw : served chs w [Waited (fst (wait_result timeoutMs w))] [] (with_sys (snd (wait_result timeoutMs w)) w)).
  { pose proof (epoll_wait_frame (fd (m_epoll_fd (w_loop w))) MAX_EVENTS (effective_timeout timeoutMs w) (w_sys w)) as [_ Hr].
    split; [by apply serving_aside|done|exact Hr|apply log_wait|done]. }
  destruct (fst (wait_result timeoutMs w)) as [evs|].
  - destruct H as [Hres H]. destruct (H (sd_serving _ _ _ _ _ Hw)) as (reads & Hf & Hr).
    exists res, (Turn (Some evs) reads), w'. split; [done|]. split; [exact (served_trans _ _ _ _ _ _ _ _ Hw Hr)|].
    split; [done|by left].
  - subst w'. exists res, (Turn None []), (with_sys (snd (wait_result timeoutMs w)) w). split; [done|]. split; [exact Hw|].
    split; [done|by right].
Qed.

(** ** Turns of a program *)

(** The body of [while (true)]. *)
Definition turn (timeoutMs : Z) : M W unit :=
  r ← runOnce run_task udp_handle timeoutMs; ResultVoid.value r.

(** [while (true) loop.runOnce(timeoutMs).value();], for [n] turns at most;
    still running after them. *)
Fixpoint run_forever (n : nat) (timeoutMs : Z) : M W unit :=
  match n with
  | O => crash OutOfFuel
  | S n => turn timeoutMs ;; run_forever n timeoutMs
  end.

(** The first [n] turns. *)
Fixpoint turns (n : nat) (timeoutMs : Z) : M W unit :=
  match n with
  | O => mret tt
  | S n => turn timeoutMs ;; turns n timeoutMs
  end.

(** The loop runs as long as its turns return. *)
Lemma run_forever_turns n timeoutMs w :
  run_forever n timeoutMs w =
    match turns n timeoutMs w with
    | Ret _ _ => Crash OutOfFuel
    | Throw e w' => Throw e w'
    | Crash f => Crash f
    end.
Proof.
  revert w. induction n as [|n IH]; intros w; [done|]. cbn [run_forever turns]. rewrite !bind_run.
  by destruct (turn timeoutMs w).
Qed.

(** The turns of a program as the kernel saw them: the sockets [fds] were
    read as the waits reported them. *)
Record turns_seen (fds : gset Z) (y y' : Y) (ts : list turn_seen) : Prop := {
  tn_log : kernel_log y' = kernel_log y ++ (ts ≫= turn_events);
  tn_reads : Forall (reads_reported fds) ts
}.

(** [n] turns were made; or fewer, and the last one could not wait. *)
Definition turns_end (n : nat) (timeoutMs : Z) w (ts : list turn_seen) w' : Prop :=
  turns n timeoutMs w = Ret tt w' /\ length ts = n \/
  exists ec ts' t, turns n timeoutMs w = Throw (BadResultAccess ec) w' /\
    ts = ts' ++ [t] /\ (length ts' < n)%nat /\ t_wait t = None.

(** Only sockets of the program are read. *)
Lemma turns_read fds y y' ts : turns_seen fds y y' ts -> Forall (fun q => fst q ∈ fds) (ts ≫= t_reads).
Proof.
  intros [_ Hr]. induction Hr as [|t ts Ht _ IH]; [constructor|]. rewrite bind_cons. apply Forall_app. split; [|done].
  assert (H : Forall (.∈ fds) (t_reads t).*1).
  { rewrite Ht. destruct (t_wait t); [|constructor]. apply Forall_forall. by intros f [? _]%list_elem_of_filter. }
  by apply Forall_fmap in H.
Qed.

Lemma turns_seen_cons fds y1 y2 y3 t ts :
  kernel_log y2 = kernel_log y1 ++ turn_events t -> reads_reported fds t ->
  turns_seen fds y2 y3 ts -> turns_seen fds y1 y3 (t :: ts).
Proof.
  intros Hl Hr [Hl' Hr']. split; [|by constructor]. by rewrite Hl', Hl, bind_cons, <- app_assoc.
Qed.

(** Every turn serves; only a failed wait ends the loop. *)
Lemma turns_served chs n timeoutMs w :
  serving chs w ->
  exists ts w', turns_end n timeoutMs w ts w' /\ turns_seen (dom chs) (w_sys w) (w_sys w') ts /\ serving chs w' /\
    app w' = foldl handle (app w) (channel_calls (w_obj w) chs (ts ≫= t_reads)).
Proof.
  revert w. induction n as [|n IH]; intros w Hs.
  { exists [], w. split; [by left|]. split; [by split; [symmetry; apply app_nil_r|]|done]. }
  destruct (turn_served chs timeoutMs w Hs) as (res & t & w1 & E1 & H1 & Hr & Hres).
  assert (Ht : turn timeoutMs w = ResultVoid.value res w1) by (unfold turn; by rewrite (bind_Ret _ _ _ _ _ E1)).
  unfold ResultVoid.value in Ht. unfold ResultVoid.has_value in Hres. unfold turns_end. cbn [turns]. rewrite bind_run, Ht.
  destruct (ec_bool (m_ec res)).
  - exists [t], w1. destruct Hres as [?|Hw]; [done|]. split; [|split; [|split; [apply H1|]]].
    + right. eexists _, [], t. split; [done|]. split; [done|]. split; [cbn; lia|done].
    + apply (turns_seen_cons _ _ (w_sys w1)); [apply H1|done|]. split; [symmetry; apply app_nil_r|done].
    + rewrite bind_cons. cbn [mbind list_bind]. rewrite app_nil_r. apply H1.
  - destruct (IH w1 (sd_serving _ _ _ _ _ H1)) as (ts & w2 & Hend & Hseen & Hs2 & Ha). exists (t :: ts), w2.
    split; [|split; [|split; [done|]]].
    + destruct Hend as [[E Hn]|(ec & ts' & t' & E & -> & Hn & Hw)]; [left; cbn; by rewrite Hn|right].
      exists ec, (t :: ts'), t'. split; [done|]. split; [done|]. split; [cbn; lia|done].
    + apply (turns_seen_cons _ _ (w_sys w1)); [apply H1|done|done].
    + rewrite Ha, (channel_calls_base (w_obj w) (w_obj w1) _ _ (sd_base _ _ _ _ _ H1)).
      by rewrite bind_cons, channel_calls_app, foldl_app, (sd_calls _ _ _ _ _ H1).
Qed.

(** ** Before the loop runs *)

(** The constructors of the loop and of the receiver. *)
Definition make_receiver (config : ReceiverConfig) : M W unit := EventLoop_new ;; UDPReceiver_new config.

Lemma UDPReceiver_new_frame c w w' :
  config_ok c -> UDPReceiver_new c w = Ret tt w' ->
  registered (w_sys w') = registered (w_sys w) /\ owned_by_caller w'.
Proof.
  intros Hc E. pose proof (PacketReceiver_new_run c w Hc) as H. cbn zeta in H.
  set (mapped := mapped_size _) in H. set (f1 := Z.lor MAP_PRIVATE_ANONYMOUS MAP_HUGETLB) in H.
  pose proof (mmap_undisturbed mapped f1 (w_sys w)) as (_ & _ & Hr1 & _).
  destruct (mmap_anon mapped f1 (w_sys w)) as [huge y1]. cbn [snd] in *.
  pose proof (mmap_undisturbed mapped MAP_PRIVATE_ANONYMOUS y1) as (_ & _ & Hr2 & _).
  destruct (mmap_anon mapped MAP_PRIVATE_ANONYMOUS y1) as [plain y2]. cbn [snd] in *.
  unfold UDPReceiver_new in E. rewrite bind_run in E.
  destruct ((if huge =? MAP_FAILED then plain else huge) =? MAP_FAILED); [by rewrite H in E|].
  destruct H as (r & E1 & _ & _ & _ & _ & _ & Ho & _). rewrite E1 in E. injection E as <-.
  unfold owned_by_caller. cbn [w_sys w_obj with_obj set_headers base set_base UDPReceiver_HasBase udp_base].
  split; [destruct (huge =? MAP_FAILED); congruence|]. by rewrite Ho, (one_thread (w_sys w)).
Qed.

Lemma make_receiver_serving config w w' :
  config_ok config -> make_receiver config w = Ret tt w' ->
  serving ∅ w' /\ app w' = app w /\ ports w' = ∅ /\ m_config (udp_base (w_obj w')) = config.
Proof.
  intros Hc E.
  assert (Happ : unchanged app (make_receiver config)) by (unfold make_receiver; follow_code).
  pose proof (unchanged_Ret _ _ _ _ _ Happ E) as Hm. apply bind_Ret_inv in E as ([] & w1 & E1 & E2).
  pose proof (EventLoop_new_run w) as Hl. pose proof (UDPReceiver_new_run config w1 Hc) as Hr.
  destruct (UDPReceiver_new_frame config w1 w' Hc E2) as [Hreg Ho].
  unfold wp in Hl, Hr. rewrite E1 in Hl. rewrite E2 in Hr.
  destruct Hl as ((Hok & _) & _ & Ht & Hp & _ & _ & sp & Hptr & Hsp & Hd), Hr as (Hu & Hports & Hcfg & Hloop).
  split; [|by split_and!]. split; [by rewrite Hloop|by rewrite Hloop| |].
  - intros f p. rewrite Hreg, Hsp, Hloop. intros [<- <-]%lookup_singleton_Some.
    apply deref_leads in Hd. by split; [|left; split; [apply lookup_empty|]].
  - split_and!; [done| |by right]. intros port s. unfold ports. by rewrite Hports.
Qed.

(** A new socket is not in the interest list. *)
Lemma new_socket_fresh (y : Y) :
  registered (snd (new_socket y)) = registered y /\
  (0 <= fst (new_socket y) -> registered y !! fst (new_socket y) = None).
Proof.
  unfold new_socket. pose proof (socket_registered AF_INET6 y) as [H1 H2].
  destruct (socket AF_INET6 y) as [raw6 y6]. cbn [fst snd] in *.
  destruct (_ && _); cbn [fst snd]; [|done]. rewrite <- H1. apply socket_registered.
Qed.

Lemma stored_idle (l : EventLoop T) f h :
  loop_ok l -> m_timers l = [] /\ m_pendingTasks l = [] ->
  loop_ok (stored_source f h l) /\ m_timers (stored_source f h l) = [] /\ m_pendingTasks (stored_source f h l) = [].
Proof.
  intros [H1 H2 H3 H4] Hi. unfold stored_source.
  destruct (f <? MAX_FAST_FDS); [|destruct (m_slowSources l !! f) as [[node h']|]]; by split; [split|].
Qed.

(** Handlers stored for other descriptors, and descriptors that left. *)
Lemma watches_stored chs chs' l l' m m' f :
  watches chs l m -> m' ⊆ m -> m !! f = None ->
  (l' = l \/ exists h, l' = stored_source f h l) ->
  (forall g, g <> f -> chs' !! g = chs !! g) -> watches chs' l' m'.
Proof.
  intros Hw Hm Hf Hl Hch g p Hg. pose proof (lookup_weaken _ _ _ _ Hg Hm) as Hg'.
  assert (Hne : g <> f) by congruence. destruct (Hw g p Hg') as [Hp Hlead]. split; [done|]. rewrite (Hch g Hne).
  destruct Hl as [->|(h & ->)]; [done|].
  destruct Hlead as [[Hn Hlead]|(c & h' & Hc & Hlead)]; [left; split; [done|]|right; exists c, h'; split; [done|]];
    by apply (stored_source_leads f _ l g).
Qed.

(** The receiver with one more socket. *)
Lemma ready_socket w w' f port :
  0 <= f -> receiver_ready w -> w_obj w' = set_base (set_port_map (<[port := MkScopedFd f]>) (base (w_obj w))) (w_obj w) ->
  receiver_ready w'.
Proof.
  intros Hf (Hu & Hs & Ho) E. unfold receiver_ready, ports. rewrite E. split_and!.
  - destruct Hu as [[] ? ? ?]. by split; [split|..].
  - cbn. intros p s [[<- <-]|[_ H]]%lookup_insert_Some; [done|by eapply Hs].
  - apply (same_owner w); [by rewrite E|done].
Qed.

(** A subscription adds its socket to those served. *)
Lemma subscribe_serving chs port context handler w :
  serving chs w ->
  exists res w', subscribe ndebug this_ptr port context handler w = Ret res w' /\
    app w' = app w /\
    (Result.has_value res = true -> ports w = ∅ ->
       0 <= fst (new_socket (w_sys w)) /\ is_Some (registered (w_sys w') !! fst (new_socket (w_sys w)))) /\
    serving (if Result.has_value res then <[fst (new_socket (w_sys w)) := (context, handler)]> chs else chs) w'.
Proof.
  intros [Hok Hi Hw Hr].
  destruct (udp_subscribe_run ndebug this_ptr port context handler w (proj2 (proj2 Hr))) as (res & w' & E & Hres).
  exists res, w'. split; [done|]. split; [by apply (unchanged_Ret _ _ _ _ _ (app_udp_subscribe _ _ _ _ _) E)|].
  pose proof (udp_subscribe_stores ndebug this_ptr port context handler w res w' E) as Hst.
  pose proof (new_socket_fresh (w_sys w)) as [Hy Hfresh].
  destruct (new_socket (w_sys w)) as [f y]. cbn [fst snd] in *.
  assert (Hidle : loop_ok (w_loop w') /\ m_timers (w_loop w') = [] /\ m_pendingTasks (w_loop w') = []).
  { destruct Hst as [->|(_ & h & ->)]; [done|by apply stored_idle]. }
  assert (Hst' : w_loop w' = w_loop w \/ exists h, w_loop w' = stored_source f h (w_loop w)) by naive_solver.
  assert (Hclosed : 0 <= f -> closed_again f w w' -> forall chs', (forall g, g <> f -> chs' !! g = chs !! g) ->
    serving chs' w').
  { intros Hf (Ho & Hreg & _) chs' Hch. split; [apply Hidle|apply Hidle| |].
    - by apply (watches_stored chs _ (w_loop w) _ (registered (w_sys w)) _ f); [..|apply Hfresh| |].
    - by apply (ready_kept w); rewrite ?Ho; [apply Hr|..]. }
  destruct res as [p|e]; cbn [Result.has_value].
  - destruct Hres as [Hf Hres]. assert (Hch : forall g, g <> f -> <[f := (context, handler)]> chs !! g = chs !! g)
      by (intros g Hne; by apply lookup_insert_ne).
    destruct (ports w !! p) eqn:Ep; [split; [intros _ He; by rewrite He in Ep|by apply Hclosed]|].
    destruct Hres as [(q & Hq & Hreg & Hd) Ho]. split; [intros _ _; rewrite Hreg, lookup_insert_eq; by split; [|eexists]|].
    split; [apply Hidle|apply Hidle| |by eapply ready_socket].
    intros g p'. rewrite Hreg. intros [[<- <-]|[Hne Hg]]%lookup_insert_Some.
    + split; [done|]. right. exists context, handler. split; [apply lookup_insert_eq|by apply deref_leads].
    + eapply watches_stored; [exact Hw|reflexivity|by apply Hfresh|exact Hst'|exact Hch|exact Hg].
  - split; [done|]. destruct Hres as [->|[[Hf ->]|[Hf Hres]]]; [by split| |by apply Hclosed].
    by apply serving_aside; [split|].
Qed.
End Serve.
