(* ===== verification/ServerApp.v ===== *)
(** What the example servers [simple_echo.cc] and [multi_port_gateway.cc] have
    in common: the two output streams, the objects of [main] and their
    destruction, and the [try] block around everything. *)
From S2P Require Import Prelude Outcome Result Kernel SimKernel ScopedFd TimerQueue EventLoop Recorder.
From S2P Require Import EventLoopFacts TimerFacts SourceFacts Waking AppKernel.
From S2P Require Import PacketReceiver PacketFacts UDPReceiver UDPFacts Unchanged UDPService.

Import UDPReceiver.
Local Open Scope string_scope.
Local Open Scope Z_scope.

(** The lines on [std::cout] and on [std::cerr], oldest first. *)
Record console := MkConsole { out : list string; err : list string }.

Definition say (line : string) (c : console) : console := MkConsole (out c ++ [line]) (err c).
Definition complain (line : string) (c : console) : console := MkConsole (out c) (err c ++ [line]).

(** The address of the receiver, as its sources carry it. *)
Definition receiver_ptr : Z := 1.

Section ServerApp.
Context {K : Type} {RK : ReactorKernel K} {MK : MemoryKernel K} {SK : SocketKernel K}.
Notation W := (world Empty_set UDPReceiver (K * console)).
Notation Mw := (M W).
(** [ec.message()] and the texts of the exceptions of the standard library. *)
Context (message : error_code -> string) (std_what : exn -> string).

(** [e.what()]; a [BadResultAccess] is made with a text of its own. *)
Definition what (e : exn) : string :=
  match e with
  | RuntimeError text => text
  | BadResultAccess ec => "Bad Result access: " +:+ message ec
  | _ => std_what e
  end.

Definition on_console (f : console -> console) : Mw unit :=
  modify (fun w => with_sys (fst (w_sys w), f (snd (w_sys w))) w).
Definition print (line : string) : Mw unit := on_console (say line).
Definition print_error (line : string) : Mw unit := on_console (complain line).

(** The programs schedule no function. *)
Definition no_task (t : Empty_set) : Mw unit := match t with end.

(** An object that is destroyed when its scope [m] is left, by an exception
    or not. *)
Definition finally {A} (m : Mw A) (destroy : Mw unit) : Mw A := fun w =>
  match m w with
  | Ret a w' => (destroy ;; mret a) w'
  | o => on_throw (fun _ => o) destroy w
  end.

(** [EventLoop loop; UDPReceiver receiver(loop);] and the rest of the block. *)
Definition with_objects {A} (body : Mw A) : Mw A :=
  EventLoop_new ;;
  finally (UDPReceiver_new default_config ;; finally body PacketReceiver_delete) EventLoop_delete.

Lemma finally_run {A} (m : Mw A) (destroy : Mw unit) w :
  match m w with
  | Ret a w1 => forall w2, destroy w1 = Ret tt w2 -> finally m destroy w = Ret a w2
  | Throw e w1 => forall w2, destroy w1 = Ret tt w2 -> finally m destroy w = Throw e w2
  | Crash f => finally m destroy w = Crash f
  end.
Proof.
  unfold finally. destruct (m w) as [a w1|e w1|f]; [| |done]; intros w2 E.
  - by rewrite (bind_Ret _ _ _ _ _ E).
  - unfold on_throw. by rewrite E.
Qed.

(** [catch (const std::exception& e)] *)
Definition try_main (body : Mw Z) : Mw Z := fun w =>
  match body w with
  | Throw e w' => (print_error ("Error: " +:+ what e) ;; mret 1) w'
  | o => o
  end.
End ServerApp.

(** ** The objects *)

Section Objects.
Context {K : Type} {RK : ReactorKernel K} {RL : ReactorLaws K} {WK : WakingKernel K} {MK : MemoryKernel K}
  {FK : FileKernel K} {SL : StartupLaws K} {SK : SocketKernel K} {SoL : SocketLaws K} {KL : KernelLog K}.
Notation W := (world Empty_set UDPReceiver (K * console)).
Context (ndebug : bool).
Implicit Types w : W.

Lemma default_config_ok : config_ok default_config.
Proof. unfold config_ok. cbn. lia. Qed.

(** The outcome of a block between the constructors and the destructors. *)
Definition unwound {A} (r : outcome W A) (r' : outcome W A) : Prop :=
  match r with
  | Ret a w2 => receiver_ready ndebug w2 -> exists w', r' = Ret a w' /\ app w' = app w2
  | Throw e w2 => receiver_ready ndebug w2 -> exists w', r' = Throw e w' /\ app w' = app w2
  | Crash f => r' = Crash f
  end.

(** The loop and the receiver are made, or an exception leaves nothing; the
    block runs between, and its outcome is that of the whole. *)
Lemma with_objects_run {A} (body : M W A) w :
  match make_receiver default_config w with
  | Crash _ => False
  | Throw e w1 => exists w', with_objects body w = Throw e w' /\ app w' = app w
  | Ret _ w1 => serving ndebug receiver_ptr ∅ w1 /\ app w1 = app w /\ unwound (body w1) (with_objects body w)
  end.
Proof.
  unfold make_receiver, with_objects. pose proof (EventLoop_new_run w) as Hl. unfold wp in Hl. rewrite !bind_run.
  pose proof (app_EventLoop_new (w : W)) as Ha. destruct (EventLoop_new w) as [[] w0|e w0|] eqn:E0; [| |done].
  2: { by exists w0. }
  pose proof (UDPReceiver_new_run default_config w0 default_config_ok) as Hr. unfold wp in Hr.
  pose proof (app_UDPReceiver_new default_config w0) as Ha0.
  assert (Hdel : forall w3, exists w4, EventLoop_delete w3 = Ret tt w4 /\ app w4 = app w3).
  { intros w3. destruct (destroy_two_run (m_timer_fd (w_loop w3)) (m_epoll_fd (w_loop w3)) w3) as (y & Ey).
    assert (E : EventLoop_delete w3 = Ret tt (with_sys y w3)) by (unfold EventLoop_delete; by rewrite bind_loop_get).
    eexists. split; [exact E|]. by apply (unchanged_Ret _ _ _ _ _ app_EventLoop_delete E). }
  set (block := UDPReceiver_new default_config ≫= _). pose proof (finally_run block EventLoop_delete w0) as Hf.
  assert (Hblock : block w0 = match UDPReceiver_new default_config w0 with
    | Ret _ w1 => finally body PacketReceiver_delete w1 | Throw e w1 => Throw e w1 | Crash f => Crash f end) by done.
  destruct (UDPReceiver_new default_config w0) as [[] w1|e w1|] eqn:E1; [| |done].
  - destruct (make_receiver_serving ndebug receiver_ptr default_config w w1 default_config_ok) as (Hs & Hm & _).
    { unfold make_receiver. by rewrite (bind_Ret _ _ _ _ _ E0). }
    split; [done|]. split; [done|]. pose proof (finally_run body PacketReceiver_delete w1) as Hf1. unfold unwound.
    destruct (body w1) as [a w2|e w2|f]; [| |by rewrite Hblock, Hf1 in Hf]; intros (_ & Hsock & _);
      destruct (PacketReceiver_delete_run (HB := UDPReceiver_HasBase) w2 Hsock) as (w3 & E3);
      pose proof (unchanged_Ret _ _ _ _ _ app_PacketReceiver_delete E3) as Hm3;
      destruct (Hdel w3) as (w4 & E4 & Hm4); rewrite Hblock, (Hf1 w3 E3) in Hf;
      exists w4; rewrite Hm4; (split; [by apply Hf|done]).
  - destruct (Hdel w1) as (w4 & E4 & Hm4). rewrite Hblock in Hf. exists w4. split; [by apply Hf|]. congruence.
Qed.

(** [main]: the exit status and the last line. *)
Context (message : error_code -> string) (std_what : exn -> string).
Notation what := (what message std_what).

Definition server_main (body : M W unit) : M W Z := try_main message std_what (with_objects body ;; mret 0).

Definition complained (e : exn) (c : console) : console := complain ("Error: " +:+ what e) c.

Lemma server_main_run body w :
  match make_receiver default_config w with
  | Crash _ => False
  | Throw e w1 => exists w', server_main body w = Ret 1 w' /\ app w' = complained e (app w)
  | Ret _ w1 => serving ndebug receiver_ptr ∅ w1 /\ app w1 = app w /\
      match body w1 with
      | Crash f => server_main body w = Crash f
      | Throw e w2 => receiver_ready ndebug w2 ->
          exists w', server_main body w = Ret 1 w' /\ app w' = complained e (app w2)
      | Ret _ w2 => receiver_ready ndebug w2 -> exists w', server_main body w = Ret 0 w' /\ app w' = app w2
      end
  end.
Proof.
  assert (Hthrow : forall e w', with_objects body w = Throw e w' ->
    exists w'', server_main body w = Ret 1 w'' /\ app w'' = complained e (app w')).
  { intros e w' E. unfold server_main, try_main. rewrite bind_run, E. by eexists. }
  pose proof (with_objects_run body w) as H. destruct (make_receiver default_config w) as [[] w1|e w1|]; [| |done].
  - destruct H as (Hs & Ha & H). split; [done|]. split; [done|]. unfold unwound in H.
    destruct (body w1) as [[] w2|e w2|f].
    + intros Hr. destruct (H Hr) as (w' & E & Hm). exists w'. split; [|done].
      unfold server_main, try_main. by rewrite bind_run, E.
    + intros Hr. destruct (H Hr) as (w' & E & Hm). destruct (Hthrow e w' E) as (w'' & E' & Hm').
      exists w''. by rewrite Hm', Hm.
    + unfold server_main, try_main. by rewrite bind_run, H.
  - destruct H as (w' & E & Hm). destruct (Hthrow e w' E) as (w'' & E' & Hm'). exists w''. by rewrite Hm', Hm.
Qed.
End Objects.

(** ** The lines of a read *)

(** The messages received in some turns, in order. *)
Definition datagrams (ts : list turn_seen) : list rmsg := (ts ≫= t_reads) ≫= received.

Section Lines.
(** A handler that writes some lines for every message, which depend on its
    context. *)
Context (handle : console -> delivery -> console) (h : Z) (outs errs : Z -> rmsg -> list string).
Hypothesis handle_lines : forall r ctx k m c,
  foldl handle c (message_call r ctx h k m) = MkConsole (out c ++ outs ctx m) (err c ++ errs ctx m).

Lemma message_lines r ctx k ms c :
  foldl handle c (message_calls r ctx h k ms) = MkConsole (out c ++ (ms ≫= outs ctx)) (err c ++ (ms ≫= errs ctx)).
Proof.
  revert k c. induction ms as [|m ms IH]; intros k c.
  - cbn. rewrite !app_nil_r. by destruct c.
  - cbn [message_calls]. rewrite foldl_app, handle_lines, IH, !bind_cons. cbn. by rewrite <- !app_assoc.
Qed.

(** The lines for a read: those of the context of its socket. *)
Definition read_lines (lines : Z -> rmsg -> list string) (chs : channels) (q : Z * option (list rmsg)) : list string :=
  match chs !! fst q with Some (ctx, _) => received q ≫= lines ctx | None => [] end.

Lemma no_lines chs (reads : list (Z * option (list rmsg))) : reads ≫= read_lines (fun _ _ => []) chs = [].
Proof.
  induction reads as [|[f ms] reads IH]; [done|]. rewrite bind_cons, IH, app_nil_r. unfold read_lines. cbn [fst snd].
  destruct (chs !! f) as [[ctx h']|]; [|done]. by induction (received _).
Qed.

Lemma channel_lines r (chs : channels) reads c :
  map_Forall (fun _ p => snd p = h) chs ->
  foldl handle c (channel_calls r chs reads) =
    MkConsole (out c ++ (reads ≫= read_lines outs chs)) (err c ++ (reads ≫= read_lines errs chs)).
Proof.
  intros Hh. revert c. induction reads as [|[f ms] reads IH]; intros c.
  - cbn. rewrite !app_nil_r. by destruct c.
  - unfold channel_calls in *. cbn [fmap list_fmap concat]. rewrite foldl_app, IH, !bind_cons. unfold read_lines. cbn [fst snd].
    destruct (chs !! f) as [[ctx h']|] eqn:E; [|by cbn].
    pose proof (Hh f (ctx, h') E) as Hh'. cbn in Hh'. subst h'. rewrite message_lines. cbn. by rewrite <- !app_assoc.
Qed.
End Lines.
