(* ===== verification/EchoApp.v ===== *)
(** Program [examples/simple_echo.cc]: prints the size of every datagram that
    arrives at one port.  It runs until the loop cannot wait any more. *)
From stdpp Require Import pretty.
From S2P Require Import Prelude Outcome Result Kernel SimKernel ScopedFd TimerQueue EventLoop Recorder.
From S2P Require Import EventLoopFacts TimerFacts SourceFacts Waking AppKernel.
From S2P Require Import PacketReceiver PacketFacts UDPReceiver UDPFacts Unchanged UDPService ServerApp.

Import UDPReceiver.
Local Open Scope string_scope.
Local Open Scope Z_scope.

(** The addresses of [myHandler] and of [EchoHandler::onPacketReceived]. *)
Definition myHandler_ptr : Z := 1.
Definition onPacketReceived_ptr : Z := 1.

(** [void onData(const uint8_t*, size_t size, uint32_t status)] *)
Definition onData (size status : Z) (c : console) : console :=
  let c := if Z.land status TRUNCATED =? 0 then c else complain "[Warning] Packet truncated!" c in
  say ("Received " +:+ pretty size +:+ " bytes") c.

(** A call of a packet handler: [onPacketReceived] is the only function of
    the program whose address is taken. *)
Definition onPacketReceived (c : console) (d : delivery) : console :=
  if dl_handler d =? onPacketReceived_ptr then onData (dl_len d) (dl_status d) c else c.

Definition echo_port : Z := 12345.

Section EchoApp.
Context {K : Type} {RK : ReactorKernel K} {MK : MemoryKernel K} {SK : SocketKernel K}.
Notation W := (world Empty_set UDPReceiver (K * console)).
Notation Mw := (M W).
Context (ndebug : bool) (message : error_code -> string) (std_what : exn -> string).

(** What [main] does before its loop. *)
Definition echo_open : Mw unit :=
  result ← subscribe ndebug receiver_ptr echo_port myHandler_ptr onPacketReceived_ptr;
  (if negb (Result.has_value result)
   then print_error ("Failed to start Echo Server: " +:+ message (Result.error result)) else mret tt) ;;
  print ("Starting Echo Server on port " +:+ pretty echo_port +:+ " (IPv4 and IPv6)...").

(** [int main()], for [n] turns of its loop. *)
Definition echo_main (n : nat) : Mw Z :=
  server_main message std_what
    (echo_open ;; run_forever ndebug onPacketReceived no_task n 1000).
End EchoApp.

(** ** Its behaviour *)

(** The lines for a datagram; an empty one is not handed over. *)
Definition echo_outs (ctx : Z) (m : rmsg) : list string :=
  if 0 <? rm_len m then ["Received " +:+ pretty (rm_len m) +:+ " bytes"] else [].
Definition echo_errs (ctx : Z) (m : rmsg) : list string :=
  if (0 <? rm_len m) && negb (Z.land (rm_flags m) MSG_TRUNC =? 0) then ["[Warning] Packet truncated!"] else [].

Lemma onPacketReceived_lines r ctx k m c :
  foldl onPacketReceived c (message_call r ctx onPacketReceived_ptr k m) =
    MkConsole (out c ++ echo_outs ctx m) (err c ++ echo_errs ctx m).
Proof.
  unfold message_call, echo_outs, echo_errs. destruct (0 <? rm_len m); [|by cbn; rewrite !app_nil_r; destruct c].
  destruct (Z.land (rm_flags m) MSG_TRUNC =? 0); cbn; by rewrite ?app_nil_r.
Qed.

Section EchoFacts.
Context {K : Type} {RK : ReactorKernel K} {RL : ReactorLaws K} {WK : WakingKernel K} {MK : MemoryKernel K}
  {FK : FileKernel K} {SL : StartupLaws K} {SK : SocketKernel K} {SoL : SocketLaws K} {KL : KernelLog K}.
Notation W := (world Empty_set UDPReceiver (K * console)).
Context (ndebug : bool) (message : error_code -> string) (std_what : exn -> string).
Implicit Types w : W.
Notation turns := (turns ndebug onPacketReceived no_task).
Notation serving := (serving ndebug receiver_ptr).

Definition started : string := "Starting Echo Server on port 12345 (IPv4 and IPv6)...".

(** The socket of the subscription, if there is one. *)
Definition echo_channels (ok : bool) w : channels :=
  if ok then {[fst (new_socket (w_sys w)) := (myHandler_ptr, onPacketReceived_ptr)]} else ∅.

Lemma echo_open_run w :
  serving ∅ w -> ports w = ∅ ->
  exists (res : Result Z) w2, echo_open ndebug message w = Ret tt w2 /\ serving (echo_channels (Result.has_value res) w) w2 /\
    (Result.has_value res = true -> is_Some (registered (w_sys w2) !! fst (new_socket (w_sys w)))) /\
    app w2 = say started (if Result.has_value res then app w
                          else complain ("Failed to start Echo Server: " +:+ message (Result.error res)) (app w)).
Proof.
  intros Hs Hp. unfold echo_open.
  destruct (subscribe_serving ndebug receiver_ptr ∅ echo_port myHandler_ptr onPacketReceived_ptr w Hs)
    as (res & w1 & E & Ha & Hreg & Hs1). rewrite (bind_Ret _ _ _ _ _ E).
  exists res. unfold echo_channels. rewrite <- Ha.
  assert (Hcon : forall f w0 chs, serving chs w0 -> serving chs (with_sys (fst (w_sys w0), f (snd (w_sys w0))) w0))
    by (intros; by apply serving_aside).
  destruct (Result.has_value res); cbn [negb]; unfold print_error, print, on_console; run_steps;
    (eexists; split; [reflexivity|]); (split; [repeat apply Hcon; exact Hs1|]); (split; [|done]); [|done].
  intros _. by apply Hreg.
Qed.

(** The echo server, from [main] on: nothing it does can fault.  Either
    the loop or the receiver cannot be made and it returns 1; or it opens its
    port (or reports that it could not, and goes on without) and turns for as
    long as the loop can wait.  When a wait fails it returns 1.  In both cases
    the last line of the error stream gives the reason, and everything printed
    before is kept. *)
Theorem echo_main_runs n w :
  match make_receiver default_config w with
  | Crash _ => False
  | Throw e _ => exists w', echo_main ndebug message std_what n w = Ret 1 w' /\
      app w' = complained message std_what e (app w)
  | Ret _ w1 => exists w2, echo_open ndebug message w1 = Ret tt w2 /\
      match turns n 1000 w2 with
      | Crash _ => False
      | Ret _ _ => echo_main ndebug message std_what n w = Crash OutOfFuel
      | Throw e w3 => exists w', echo_main ndebug message std_what n w = Ret 1 w' /\
          app w' = complained message std_what e (app w3)
      end
  end.
Proof.
  unfold echo_main. set (body := echo_open _ _ ;; _).
  pose proof (server_main_run ndebug message std_what body w) as H.
  destruct (make_receiver default_config w) as [[] w1|e w1|] eqn:E1; [|done..]. destruct H as (Hs & _ & H).
  destruct (make_receiver_serving ndebug receiver_ptr _ w w1 default_config_ok E1) as (_ & _ & Hp & _).
  destruct (echo_open_run w1 Hs Hp) as (res & w2 & E & Hs2 & _). exists w2. split; [done|].
  assert (Hb : body w1 = run_forever ndebug onPacketReceived no_task n 1000 w2) by (unfold body; by rewrite (bind_Ret _ _ _ _ _ E)).
  rewrite Hb, run_forever_turns in H.
  destruct (turns_served ndebug receiver_ptr onPacketReceived no_task _ n 1000 w2 Hs2)
    as (ts & w3 & [[E3 _]|(ec & _ & _ & E3 & _)] & _ & H3 & _); rewrite E3 in H |- *; [done|]. apply H, H3.
Qed.

(** The sockets of the server. *)
Definition echo_sockets (res : Result Z) w : gset Z :=
  if Result.has_value res then {[fst (new_socket (w_sys w))]} else ∅.

(** C24 What the echo server prints.  In any number of turns its one socket,
    which is in the interest list if it could be opened, is read once for every
    time a wait reported it, and nothing else is read ([turns_seen], against the
    kernel's own record); for every datagram the kernel returned in these reads
    that is not empty there is one line with its size, and a warning if it was
    truncated, in the order they were received; nothing else is printed.
    Without a socket it prints nothing and keeps turning. *)
Theorem echo_serves n w w1 w2 :
  make_receiver default_config w = Ret tt w1 -> echo_open ndebug message w1 = Ret tt w2 ->
  exists (res : Result Z) ts w3,
    app w2 = say started (if Result.has_value res then app w
                          else complain ("Failed to start Echo Server: " +:+ message (Result.error res)) (app w)) /\
    (Result.has_value res = true -> is_Some (registered (w_sys w2) !! fst (new_socket (w_sys w1)))) /\
    turns_end ndebug onPacketReceived no_task n 1000 w2 ts w3 /\
    turns_seen (echo_sockets res w1) (w_sys w2) (w_sys w3) ts /\
    out (app w3) = (out (app w2) ++ (datagrams ts ≫= echo_outs myHandler_ptr))%list /\
    err (app w3) = (err (app w2) ++ (datagrams ts ≫= echo_errs myHandler_ptr))%list.
Proof.
  intros E1 E2. destruct (make_receiver_serving ndebug receiver_ptr _ w w1 default_config_ok E1) as (Hs & Ha & Hp & _).
  destruct (echo_open_run w1 Hs Hp) as (res & w2' & E2' & Hs2 & Hreg & Hw2).
  rewrite E2 in E2'. injection E2' as <-. rewrite Ha in Hw2.
  destruct (turns_served ndebug receiver_ptr onPacketReceived no_task _ n 1000 w2 Hs2) as (ts & w3 & Hend & Hseen & _ & Hm).
  exists res, ts, w3. split; [done|]. split; [done|]. split; [done|].
  assert (Hdom : dom (echo_channels (Result.has_value res) w1) = echo_sockets res w1).
  { unfold echo_channels, echo_sockets. destruct (Result.has_value res); [apply dom_singleton_L|apply dom_empty_L]. }
  rewrite Hdom in Hseen. split; [done|].
  rewrite (channel_lines _ onPacketReceived_ptr echo_outs echo_errs onPacketReceived_lines) in Hm.
  2: { unfold echo_channels. destruct (Result.has_value res); [by apply map_Forall_singleton|done]. }
  assert (Hlines : forall lines : Z -> rmsg -> list string,
    (ts ≫= t_reads) ≫= read_lines lines (echo_channels (Result.has_value res) w1) = datagrams ts ≫= lines myHandler_ptr).
  { intros lines. unfold datagrams. pose proof (turns_read _ _ _ _ Hseen) as Hch. clear -Hch.
    induction Hch as [|[f ms] reads Hf _ IH]; [done|].
    rewrite !bind_cons, list.bind_app, IH. f_equal. unfold read_lines, echo_sockets in *. cbn [fst snd] in *.
    destruct (Result.has_value res); [|by apply not_elem_of_empty in Hf]. apply elem_of_singleton in Hf as ->.
    assert (E : echo_channels true w1 !! fst (new_socket (w_sys w1)) = Some (myHandler_ptr, onPacketReceived_ptr))
      by apply lookup_singleton_eq. by rewrite E. }
  rewrite Hm. cbn [out err]. by rewrite !Hlines.
Qed.
End EchoFacts.
