(* ===== verification/GatewayApp.v ===== *)
(** Program [examples/multi_port_gateway.cc]: two labelled streams of
    datagrams on two ports, monitored through one receiver. *)
From stdpp Require Import pretty.
From S2P Require Import Prelude Outcome Result Kernel SimKernel ScopedFd TimerQueue EventLoop Recorder.
From S2P Require Import EventLoopFacts TimerFacts SourceFacts Waking AppKernel.
From S2P Require Import PacketReceiver PacketFacts UDPReceiver UDPFacts Unchanged UDPService ServerApp.

Import UDPReceiver.
Local Open Scope string_scope.
Local Open Scope Z_scope.

(** The addresses of [streamA], of [streamB] and of [GenericHandler::bridge]. *)
Definition streamA_ptr : Z := 1.
Definition streamB_ptr : Z := 2.
Definition bridge_ptr : Z := 1.

(** The member [m_label] of the object at an address. *)
Definition m_label (this : Z) : string := if this =? streamA_ptr then "PRIMARY_RADAR" else "SECONDARY_DATA".

(** [void process(const uint8_t*, size_t size, uint32_t status)] *)
Definition process (this size status : Z) (c : console) : console :=
  say ("[Channel: " +:+ m_label this +:+ "] Received " +:+ pretty size +:+ " bytes." +:+
       (if Z.land status TRUNCATED =? 0 then "" else " (TRUNCATED)")) c.

(** A call of a packet handler: [bridge] is the only function of the program
    whose address is taken. *)
Definition bridge (c : console) (d : delivery) : console :=
  if dl_handler d =? bridge_ptr then process (dl_context d) (dl_len d) (dl_status d) c else c.

Section GatewayApp.
Context {K : Type} {RK : ReactorKernel K} {MK : MemoryKernel K} {SK : SocketKernel K}.
Notation W := (world Empty_set UDPReceiver (K * console)).
Notation Mw := (M W).
Context (ndebug : bool) (message : error_code -> string) (std_what : exn -> string).

(** The subscription of a stream, and the report when it fails. *)
Definition subscribe_stream (name : string) (port this : Z) : Mw bool :=
  res ← subscribe ndebug receiver_ptr port this bridge_ptr;
  (if negb (Result.has_value res)
   then print_error ("Stream " +:+ name +:+ " failed: " +:+ message (Result.error res)) else mret tt) ;;
  mret (Result.has_value res).

(** What [main] does before its loop; whether it has something to monitor. *)
Definition gateway_open : Mw bool :=
  resA ← subscribe_stream "A" 5001 streamA_ptr;
  resB ← subscribe_stream "B" 5002 streamB_ptr;
  if resA || resB then print "Monitoring streams on IPv4/IPv6 dual-stack." ;; mret true else mret false.

(** [int main()], for [n] turns of its loop. *)
Definition gateway_main (n : nat) : Mw Z :=
  server_main message std_what
    (monitor ← gateway_open;
     if monitor : bool then run_forever ndebug bridge no_task n (-1) else mret tt).
End GatewayApp.

(** ** Its behaviour *)



Section GatewayFacts.
Context {K : Type} {RK : ReactorKernel K} {RL : ReactorLaws K} {WK : WakingKernel K} {MK : MemoryKernel K}
  {FK : FileKernel K} {SL : StartupLaws K} {SK : SocketKernel K} {SoL : SocketLaws K} {KL : KernelLog K}.
Notation W := (world Empty_set UDPReceiver (K * console)).
Context (ndebug : bool) (message : error_code -> string) (std_what : exn -> string).
Implicit Types w : W.
Notation turns := (turns ndebug bridge no_task).
Notation serving := (serving ndebug receiver_ptr).

Definition streams (ok : bool) (f this : Z) (chs : channels) : channels :=
  if ok then <[f := (this, bridge_ptr)]> chs else chs.

Lemma serving_console f w0 chs : serving chs w0 -> serving chs (with_sys (fst (w_sys w0), f (snd (w_sys w0))) w0).
Proof. intros. by apply serving_aside. Qed.

Lemma subscribe_stream_run name port this chs w :
  serving chs w ->
  exists ok w2, subscribe_stream ndebug message name port this w = Ret ok w2 /\
    (ok = true -> ports w = ∅ ->
       0 <= fst (new_socket (w_sys w)) /\ is_Some (registered (w_sys w2) !! fst (new_socket (w_sys w)))) /\
    serving (streams ok (fst (new_socket (w_sys w))) this chs) w2 /\
    out (app w2) = out (app w).
Proof.
  intros Hs. unfold subscribe_stream.
  destruct (subscribe_serving ndebug receiver_ptr chs port this bridge_ptr w Hs) as (res & w1 & E & Ha & Hr & Hs1).
  rewrite (bind_Ret _ _ _ _ _ E). rewrite <- Ha. exists (Result.has_value res). unfold streams.
  destruct (Result.has_value res); cbn [negb]; unfold print_error, on_console; run_steps;
    (eexists; split; [reflexivity|]); (split; [done|]); (split; [|done]); [exact Hs1|by apply serving_console].
Qed.

(** What the two subscriptions left. *)
Record opened w1 (okA okB : bool) (fA fB : Z) w2 : Prop := {
  op_serving : serving (streams okB fB streamB_ptr (streams okA fA streamA_ptr ∅)) w2;
  op_out : out (app w2) = (out (app w1) ++ if okA || okB then ["Monitoring streams on IPv4/IPv6 dual-stack."] else [])%list;
  op_distinct : okA = true -> okB = true -> fA <> fB
}.

Lemma gateway_open_run w1 :
  serving ∅ w1 -> ports w1 = ∅ ->
  exists okA okB fB w2, gateway_open ndebug message w1 = Ret (okA || okB) w2 /\
    opened w1 okA okB (fst (new_socket (w_sys w1))) fB w2.
Proof.
  intros Hs Hp. unfold gateway_open.
  destruct (subscribe_stream_run "A" 5001 streamA_ptr ∅ w1 Hs) as (okA & wA & EA & HrA & HsA & HoA).
  rewrite (bind_Ret _ _ _ _ _ EA).
  destruct (subscribe_stream_run "B" 5002 streamB_ptr _ wA HsA) as (okB & wB & EB & _ & HsB & HoB).
  rewrite (bind_Ret _ _ _ _ _ EB). exists okA, okB, (fst (new_socket (w_sys wA))).
  assert (Hne : okA = true -> okB = true -> fst (new_socket (w_sys w1)) <> fst (new_socket (w_sys wA))).
  { intros HA HB Heq. destruct (HrA HA Hp) as [H0 [q Hq]].
    pose proof (new_socket_fresh (w_sys wA)) as [_ Hf]. rewrite Heq in *. by rewrite (Hf H0) in Hq. }
  destruct (okA || okB) eqn:E; unfold print, on_console; run_steps; (eexists; split; [reflexivity|]); split; try done.
  - by apply serving_console.
  - unfold app in *. cbn [w_sys with_sys snd say out]. by rewrite HoB, HoA, E.
  - rewrite E, app_nil_r. congruence.
Qed.

(** C16 The gateway, from [main] on: nothing it does can fault.  It returns 1
    when the loop or the receiver cannot be made; 0 when neither stream could
    be opened; otherwise it turns for as long as the loop can wait, and
    returns 1 when a wait fails, the reason being the last line of the error
    stream. *)
Theorem gateway_main_runs n w :
  match make_receiver default_config w with
  | Crash _ => False
  | Throw e _ => exists w', gateway_main ndebug message std_what n w = Ret 1 w' /\
      app w' = complained message std_what e (app w)
  | Ret _ w1 => exists monitor w2, gateway_open ndebug message w1 = Ret monitor w2 /\
      if monitor : bool then
        match turns n (-1) w2 with
        | Crash _ => False
        | Ret _ _ => gateway_main ndebug message std_what n w = Crash OutOfFuel
        | Throw e w3 => exists w', gateway_main ndebug message std_what n w = Ret 1 w' /\
            app w' = complained message std_what e (app w3)
        end
      else exists w', gateway_main ndebug message std_what n w = Ret 0 w' /\ app w' = app w2
  end.
Proof.
  unfold gateway_main. set (body := gateway_open _ _ ≫= _).
  pose proof (server_main_run ndebug message std_what body w) as H. unfold server_main in *.
  destruct (make_receiver default_config w) as [[] w1|e w1|] eqn:E1; [|done..]. destruct H as (Hs & _ & H).
  destruct (make_receiver_serving ndebug receiver_ptr _ w w1 default_config_ok E1) as (_ & _ & Hp & _).
  destruct (gateway_open_run w1 Hs Hp) as (okA & okB & fB & w2 & E & [Hs2 _ _]). exists (okA || okB), w2. split; [done|].
  assert (Hb : body w1 = (if okA || okB then run_forever ndebug bridge no_task n (-1) else mret tt) w2)
    by (unfold body; by rewrite (bind_Ret _ _ _ _ _ E)).
  rewrite Hb in H. destruct (okA || okB); [|apply H, Hs2]. rewrite run_forever_turns in H.
  destruct (turns_served ndebug receiver_ptr bridge no_task _ n (-1) w2 Hs2)
    as (ts & w3 & [[E3 _]|(ec & _ & _ & E3 & _)] & _ & H3 & _); rewrite E3 in H |- *; [done|]. apply H, H3.
Qed.




End GatewayFacts.
