(* ===== verification/UDPWitness.v ===== *)
(** Concrete runs of the receiver of datagrams on the simulated kernel, from
    the construction to the handlers, and the witnesses of the properties of
    [PacketReceiver] and [UDPReceiver]. *)
From S2P Require Import Prelude Outcome Result Kernel SimKernel ScopedFd TimerQueue EventLoop Recorder.
From S2P Require Import EventLoopFacts TimerFacts SourceFacts DispatchFacts ReactorWitness.
From S2P Require Import Waking PacketReceiver PacketFacts UDPReceiver UDPFacts UDPBeside.

Import UDPReceiver.

Notation udp_world := (world Z UDPReceiver sim).

(** A receiver before its constructor runs, on a fresh loop. *)
Definition raw_base : PacketReceiver := MkPacketReceiver default_config 0 ∅ 0 0 0 0 [].
Definition udp_boot : udp_world :=
  World (w_loop demo_start) (MkUDPReceiver raw_base []) (w_sys demo_start).

Definition small_config : ReceiverConfig := MkReceiverConfig 2 4 2000.
Definition udp_made : udp_world := final (UDPReceiver_new small_config) udp_boot.

(** Handler 77 with context 5 listens on port 9000. *)
Definition udp_listening : udp_world := final (subscribe true 1 9000 5 77) udp_made.

(** Three datagrams arrive on the socket: one is empty, one too long. *)
Definition arrive (f : Z) (ds : list datagram) (w : udp_world) : udp_world :=
  with_sys (Sim.set_sockets (s_bound (w_sys w)) (<[f := ds]> (s_queue (w_sys w))) (w_sys w)) w.
Definition three : list datagram :=
  [Datagram (replicate 5 65) (TimeSpec 10 1); Datagram [] (TimeSpec 10 2);
   Datagram (replicate 2500 66) (TimeSpec 10 3)].
Definition udp_ready : udp_world := arrive 5 three udp_listening.

Definition udp_read (receiver fd ctx handler : Z) : M udp_world unit :=
  handleRead true (recorder Sim.add_log) fd ctx handler.
Definition udp_task (t : Z) : M udp_world unit := mret tt.

(** One turn of the loop delivers the two that are not empty. *)
Example udp_run_log :
  s_log (w_sys (final (runOnce udp_task udp_read 10) udp_ready)) =
    [Delivery 77 5 4194304 5 OK (TimeSpec 10 1);
     Delivery 77 5 (4194304 + 2 * 2048) 2000 TRUNCATED (TimeSpec 10 3)].
Proof. vm_compute. reflexivity. Qed.

(** ** Witnesses *)

Lemma small_config_ok : config_ok small_config.
Proof. unfold config_ok, small_config. cbn. lia. Qed.

Lemma PacketReceiver_new_spec_witness :
  config_ok small_config /\
  exists r y, PacketReceiver_new small_config udp_boot =
      Ret tt (World (w_loop udp_boot) (set_base r (w_obj udp_boot)) y) /\
    buffer_ok r /\ rows_safe r /\ m_mappedSize r = 2097152.
Proof.
  split; [apply small_config_ok|].
  pose proof (PacketReceiver_new_spec small_config udp_boot small_config_ok) as H. cbn zeta in H.
  destruct (mmap_anon _ (Z.lor MAP_PRIVATE_ANONYMOUS MAP_HUGETLB) (w_sys udp_boot)) as [huge y1] eqn:E1.
  vm_compute in E1. injection E1 as <- <-.
  destruct (mmap_anon _ MAP_PRIVATE_ANONYMOUS _) as [plain y2].
  change (4194304 =? MAP_FAILED) with false in H. cbn iota in H.
  destruct H as (r & E & Hb & Hr & _ & Hm & _). exists r. eexists.
  split; [exact E|]. split; [exact Hb|]. split; [exact Hr|]. rewrite Hm. vm_compute. reflexivity.
Defined.

Lemma UDPReceiver_new_spec_witness :
  config_ok small_config /\
  exists w', UDPReceiver_new small_config udp_boot = Ret tt w' /\ udp_ok (w_obj w').
Proof.
  split; [apply small_config_ok|].
  pose proof (UDPReceiver_new_spec small_config udp_boot small_config_ok) as H. unfold wp in H.
  destruct (UDPReceiver_new small_config udp_boot) as [[] w'|e w'|f] eqn:E.
  - exists w'. split; [reflexivity|apply H].
  - exfalso. vm_compute in E. discriminate E.
  - destruct H.
Defined.

Lemma udp_made_ok : udp_ok (w_obj udp_made) /\ owned_by_caller udp_made /\
  m_port_to_fd_map (base (w_obj udp_made)) = ∅.
Proof.
  pose proof (UDPReceiver_new_run small_config udp_boot small_config_ok) as H. unfold wp in H.
  unfold udp_made, final. destruct (UDPReceiver_new small_config udp_boot) as [[] w'|e w'|f] eqn:E.
  - split; [apply H|]. split; [vm_compute in E; injection E as <-; reflexivity|apply H].
  - exfalso. vm_compute in E. discriminate E.
  - destruct H.
Qed.

Lemma udp_subscribe_spec_witness :
  owned_by_caller udp_made /\
  exists w' f, subscribe false 1 9000 5 77 udp_made = Ret (Value 9000) w' /\
    listening 1 f 5 77 udp_made w'.
Proof.
  assert (Ho : owned_by_caller udp_made) by apply udp_made_ok. split; [exact Ho|].
  destruct (udp_subscribe_spec false 1 9000 5 77 udp_made (or_intror Ho)) as (res & w' & E & H).
  assert (Eres : exists w'', subscribe false 1 9000 5 77 udp_made = Ret (Value 9000) w'')
    by (vm_compute; eexists; reflexivity).
  destruct Eres as (w'' & Eres). rewrite Eres in E. injection E as <- <-.
  unfold ports in H. change (udp_base (w_obj udp_made)) with (base (w_obj udp_made)) in H.
  rewrite (proj2 (proj2 udp_made_ok)), lookup_empty in H. destruct (new_socket _) as [f y]. destruct H as (_ & Hl & _).
  exists w'', f. split; [exact Eres|exact Hl].
Defined.

Lemma udp_ready_ok : udp_ok (w_obj udp_ready) /\ owned_by_caller udp_ready.
Proof.
  assert (E : exists m, w_obj udp_ready = set_base (set_port_map m (base (w_obj udp_made))) (w_obj udp_made)).
  { destruct (udp_subscribe_run true 1 9000 5 77 udp_made (or_introl eq_refl)) as (res & w' & E & H).
    unfold udp_ready, arrive, udp_listening, final. rewrite E. cbn [w_obj with_sys].
    assert (Hsame : w_obj udp_made = set_base (set_port_map (fun m => m) (base (w_obj udp_made))) (w_obj udp_made))
      by (by destruct (w_obj udp_made) as [[] ?]).
    destruct (new_socket (w_sys udp_made)) as [f y].
    destruct res as [p|e]; [destruct H as [_ H]|destruct H as [->|[(_ & ->)|(_ & -> & _)]]; by exists (fun m => m)].
    destruct (ports udp_made !! p); [destruct H as [-> _]; by exists (fun m => m)|].
    destruct H as (_ & ->). by eexists. }
  destruct E as [m E]. split.
  - rewrite E. destruct (proj1 udp_made_ok) as [[] ? ? ?]. by repeat split.
  - unfold owned_by_caller. rewrite E. apply udp_made_ok.
Qed.

Lemma handleRead_spec_witness :
  udp_ok (w_obj udp_ready) /\ owned_by_caller udp_ready /\
  exists r' y, udp_ok r' /\
    handleRead false (recorder Sim.add_log) 5 5 77 udp_ready = Ret tt (World (w_loop udp_ready) r' y).
Proof.
  destruct udp_ready_ok as [Hok Ho]. split; [exact Hok|]. split; [exact Ho|].
  pose proof (handleRead_spec false Sim.add_log 5 5 77 udp_ready (or_intror Ho) Hok) as H.
  destruct (recvmmsg _ _ _ _ _) as [received y]. destruct H as (r' & Hr' & _ & E).
  exists r'. eexists. split; [exact Hr'|exact E].
Defined.

Lemma listening_owned : owned_by_caller udp_listening.
Proof. vm_compute. reflexivity. Qed.

Lemma base_unsubscribe_spec_witness :
  owned_by_caller udp_listening /\
  exists s r w', m_port_to_fd_map (base (w_obj udp_listening)) !! 9000 = Some s /\
    base_unsubscribe false 9000 udp_listening = Ret r w' /\
    registered (w_sys w') !! fd s = None.
Proof.
  pose proof listening_owned as Ho. split; [exact Ho|].
  pose proof (base_unsubscribe_spec false 9000 udp_listening (or_intror Ho)) as H.
  assert (E : m_port_to_fd_map (base (w_obj udp_listening)) !! 9000 = Some (MkScopedFd 5)) by (vm_compute; reflexivity).
  rewrite E in H. destruct H as (r & w1 & w' & _ & Eu & _ & _ & _ & _ & Hreg); [cbn; lia|].
  exists (MkScopedFd 5), r, w'. split; [exact E|]. split; [exact Eu|exact Hreg].
Defined.

Lemma PacketReceiver_delete_spec_witness :
  exists w', PacketReceiver_delete udp_listening = Ret tt w' /\ gone 5 w'.
Proof.
  assert (Hm : forall port s, m_port_to_fd_map (base (w_obj udp_listening)) !! port = Some s -> 0 <= fd s).
  { assert (E : map_to_list (m_port_to_fd_map (base (w_obj udp_listening))) = [(9000, MkScopedFd 5)])
      by (vm_compute; reflexivity).
    intros port s H. apply elem_of_map_to_list in H. rewrite E in H.
    apply list_elem_of_singleton in H. injection H as -> ->. cbn. lia. }
  assert (Hun : forall a n (y : sim), registered (snd (munmap a n y)) = registered y) by reflexivity.
  destruct (PacketReceiver_delete_spec udp_listening Hun Hm) as (w' & E & _ & Hg & _).
  exists w'. split; [exact E|]. apply (Hg 9000 (MkScopedFd 5)). vm_compute. reflexivity.
Defined.

Lemma base_subscribe_spec_witness :
  owned_by_caller udp_listening /\
  base_subscribe false 9000 5 77 udp_listening =
    Ret (Error (ErrorCode EADDRINUSE system_category)) udp_listening.
Proof.
  pose proof listening_owned as Ho. split; [exact Ho|].
  rewrite (base_subscribe_spec false 9000 5 77 udp_listening (or_intror Ho)). vm_compute. reflexivity.
Defined.

(** ** A server beside an application *)

(** The handler 77 gives up the port it listens on, listens on another one and
    sets a timer; the handler 78 defers a task.  The calls are recorded. *)
Definition hopping (h c data len st : Z) (ts : timespec) : M udp_world unit :=
  if h =? 77 then base_unsubscribe true 9000 ;; subscribe true 1 9001 6 78 ;; runAfter 2 (Some 1) ;; mret tt
  else runInLoop (Some 2).

(** The task 1 subscribes one more port, the task 2 throws. *)
Definition hop_task (t : Z) : M udp_world unit :=
  if t =? 1 then subscribe true 1 9002 7 78 ;; mret tt else throw (UserException t).

Definition hop_turns (ts : list Z) : M udp_world unit :=
  for_each ts (fun t => runOnce hop_task (fun _ f c h => handleRead true hopping f c h) t ;; mret tt).

(** The handler runs for both messages of its batch, although the first call has
    closed the socket they came from. *)
Example hop_run :
  let w := final (hop_turns (replicate 8 10)) udp_ready in
  map_to_list (fd <$> m_port_to_fd_map (udp_base (w_obj w))) = [(9001, 6); (9002, 7)] /\
  m_timers (w_loop w) = [] /\ s_closed (w_sys w) = [5].
Proof. vm_compute. repeat split; reflexivity. Qed.

Lemma hop_safe b t h c data len st ts :
  safe (AI := udp_invariant true b t) (hopping h c data len st ts).
Proof.
  unfold hopping. destruct (h =? 77); [|apply runInLoop_safe].
  apply safe_bind; [apply unsubscribe_safe|]. intros _. apply safe_bind; [apply subscribe_safe|]. intros _.
  apply safe_bind; [apply runAfter_safe; unfold max_delay; lia|]. intros _. apply safe_mret.
Qed.

Lemma hop_task_safe b t z : safe (AI := udp_invariant true b t) (hop_task z).
Proof.
  unfold hop_task. destruct (z =? 1); [|apply safe_throw].
  apply safe_bind; [apply subscribe_safe|]. intros _. apply safe_mret.
Qed.

(** The receiver, before and after its subscription. *)
Lemma hop_made : udp_safe true (udp_base (w_obj udp_made)) (timer_of (w_sys udp_made)) (w_obj udp_made) (w_sys udp_made).
Proof.
  destruct udp_made_ok as (Hok & _ & Hm).
  assert (Hl : m_msgHeaders (w_obj udp_made) = fresh_header <$> [0; 1; 2; 3]) by (vm_compute; reflexivity).
  split; [exact Hok|repeat split; reflexivity|rewrite Hl; vm_compute; repeat constructor; discriminate| |reflexivity|left; reflexivity].
  intros port s H. change (udp_base (w_obj udp_made)) with (base (w_obj udp_made)) in H. rewrite Hm, lookup_empty in H. done.
Qed.

Lemma made_loop :
  w_loop udp_made = w_loop demo_start /\ registered (w_sys udp_made) = registered (w_sys demo_start) /\
  deadline (w_sys udp_made) = deadline (w_sys demo_start).
Proof. vm_compute. repeat split; reflexivity. Qed.

Definition hop_keeps : AppInvariant UDPReceiver sim :=
  udp_invariant true (udp_base (w_obj udp_made)) (timer_of (w_sys udp_made)).

Lemma made_Inv : Inv (AI := hop_keeps) 0 udp_made /\ armed udp_made.
Proof.
  destruct demo_start_ok as [(Hl & Hs & _) Ha]. destruct made_loop as (El & Er & Ed). pose proof hop_made as Hu.
  split; [split; [|split; [|split; [intros i p Hi; lia|exact Hu]]]|].
  - rewrite El. exact Hl.
  - intros f p. unfold valid_ptr. rewrite El, Er. exact (Hs f p).
  - unfold armed in *. rewrite El, Ed. exact Ha.
Qed.

Lemma listening_Inv : Inv (AI := hop_keeps) 0 udp_listening /\ armed udp_listening.
Proof.
  destruct made_Inv as [HI Ha]. unfold udp_listening.
  apply (final_safe (AI := hop_keeps)); [apply subscribe_safe|exact HI|exact Ha|vm_compute; eexists _, _; reflexivity].
Qed.

Lemma same_made :
  udp_base (w_obj udp_made) = set_port_map (fun _ => ∅) (udp_base (w_obj udp_ready)) /\
  timer_of (w_sys udp_made) = timer_of (w_sys udp_ready).
Proof. vm_compute. repeat split; reflexivity. Qed.

(** Datagrams that arrive change nothing the invariants are about. *)
Lemma arrive_in_order f ds b t w :
  Inv (AI := udp_invariant true b t) 0 w -> armed w ->
  let w' := arrive f ds w in
  loop_ok (w_loop w') /\ sources_ok w' /\ udp_safe true b t (w_obj w') (w_sys w') /\ armed w'.
Proof. intros (Hl & Hs & _ & [? ? ? ? ? ?]) Ha. split; [exact Hl|]. split; [exact Hs|]. split; [by split|exact Ha]. Qed.

(** The invariant does not read the map of ports of the first receiver. *)
Lemma udp_safe_first g b b' t t' r y :
  b' = set_port_map g b -> t' = t -> udp_safe true b' t' r y -> udp_safe true b t r y.
Proof. intros -> -> [? ? ? ? ? ?]. by split. Qed.

Lemma hop_ready :
  (loop_ok (w_loop udp_ready) /\ sources_ok udp_ready /\
   udp_safe true (udp_base (w_obj udp_ready)) (timer_of (w_sys udp_ready)) (w_obj udp_ready) (w_sys udp_ready)) /\
  armed udp_ready.
Proof.
  destruct listening_Inv as [HI Ha]. destruct same_made as [Eb Et].
  destruct (arrive_in_order 5 three _ _ _ HI Ha) as (Hl & Hs & Hu & Ha'). fold udp_ready in Hl, Hs, Hu, Ha'.
  split; [|exact Ha']. split; [exact Hl|]. split; [exact Hs|]. exact (udp_safe_first _ _ _ _ _ _ _ Eb Et Hu).
Qed.

Lemma udp_beside_application_witness :
  armed udp_ready /\
  wp (hop_turns (replicate 8 10))
    (fun _ w' => udp_ok (w_obj w') /\ armed w') (fun _ w' => udp_ok (w_obj w')) udp_ready.
Proof.
  destruct hop_ready as [Ho Ha]. split; [exact Ha|].
  pose proof (udp_beside_application true hop_task hopping (replicate 8 10) udp_ready
    (hop_task_safe _ _) (fun h c k len st ts _ _ => hop_safe _ _ h c _ len st ts) Ho Ha) as H.
  eapply wp_conseq; [exact H| |].
  - intros _ w' [(_ & _ & Hu) Ha']. split; [exact (us_ok _ _ _ _ _ Hu)|exact Ha'].
  - intros e w' (_ & _ & Hu). exact (us_ok _ _ _ _ _ Hu).
Defined.
