(* ===== verification/ServerWitness.v ===== *)
(** The servers [simple_echo] and [multi_port_gateway] run on the simulated
    kernel, and the witnesses of their properties. *)
From stdpp Require Import pretty.
From S2P Require Import Prelude Outcome Result Kernel SimKernel ScopedFd TimerQueue EventLoop Recorder.
From S2P Require Import EventLoopFacts TimerFacts ReactorWitness Waking AppKernel.
From S2P Require Import PacketReceiver PacketFacts UDPReceiver UDPFacts UDPWitness Unchanged UDPService.
From S2P Require Import ServerApp EchoApp GatewayApp.

Local Open Scope string_scope.
Local Open Scope Z_scope.

Notation server_world := (world Empty_set UDPReceiver (sim * console)).

(** Before [main]: datagrams will be waiting in the sockets 5 and 6. *)
Definition server_boot (ipv6 : bool) : server_world :=
  World (MkEventLoop (MkScopedFd (-1)) (MkScopedFd (-1)) [] ∅ ∅ 0 [] [] ∅ 1) (MkUDPReceiver raw_base [])
    (Sim.set_sockets ∅ (<[6 := [Datagram [7; 8] (TimeSpec 11 0)]]> {[5 := three]}) (sim_boot 3600000000000),
     MkConsole [] []).

Definition text (ec : error_code) : string := "error " +:+ pretty (ec_value ec).
Definition std_text (e : exn) : string := "std::exception".

Definition served_console {A} (m : M server_world A) : option (list string * list string) :=
  match m (server_boot true) with Ret _ w => Some (out (app w), err (app w)) | _ => None end.

(** Two turns of the echo server: the datagram of 2500 bytes is cut. *)
Example echo_run :
  served_console (make_receiver default_config ;; echo_open true text ;; turns true onPacketReceived no_task 2 1000) =
    Some (["Starting Echo Server on port 12345 (IPv4 and IPv6)..."; "Received 5 bytes"; "Received 2048 bytes"],
          ["[Warning] Packet truncated!"]).
Proof. vm_compute. reflexivity. Qed.

(** Two turns of the gateway. *)
Example gateway_run :
  served_console (make_receiver default_config ;; gateway_open true text ;; turns true bridge no_task 2 (-1)) =
    Some (["Monitoring streams on IPv4/IPv6 dual-stack.";
           "[Channel: PRIMARY_RADAR] Received 5 bytes.";
           "[Channel: PRIMARY_RADAR] Received 2048 bytes. (TRUNCATED)";
           "[Channel: SECONDARY_DATA] Received 2 bytes."], []).
Proof. vm_compute. reflexivity. Qed.

Definition server_made : server_world := final (make_receiver default_config) (server_boot true).
Definition echo_opened : server_world := final (echo_open true text) server_made.
Definition gateway_opened : server_world := final (gateway_open true text) server_made.

Lemma server_made_run : make_receiver default_config (server_boot true) = Ret tt server_made.
Proof. vm_compute. reflexivity. Qed.

Lemma echo_opened_run : echo_open true text server_made = Ret tt echo_opened.
Proof. vm_compute. reflexivity. Qed.

Lemma gateway_opened_run : gateway_open true text server_made = Ret true gateway_opened.
Proof. vm_compute. reflexivity. Qed.

(** What the kernel of the gateway recorded in two turns. *)
Example gateway_record :
  exists w3, turns true bridge no_task 2 (-1) gateway_opened = Ret tt w3 /\
    kernel_log (w_sys w3) =
      [Waited (Some [FastPtr 5; FastPtr 6]);
       Received 5 (Some [RMsg 5 0 16 32 [CMsg SOL_SOCKET SCM_TIMESTAMPNS (TimeSpec 10 1)]; RMsg 0 0 16 32 [CMsg SOL_SOCKET SCM_TIMESTAMPNS (TimeSpec 10 2)];
                         RMsg 2048 MSG_TRUNC 16 32 [CMsg SOL_SOCKET SCM_TIMESTAMPNS (TimeSpec 10 3)]]);
       Received 6 (Some [RMsg 2 0 16 32 [CMsg SOL_SOCKET SCM_TIMESTAMPNS (TimeSpec 11 0)]]); Waited (Some [])].
Proof. eexists. vm_compute. split; reflexivity. Qed.

Lemma echo_serves_witness :
  make_receiver default_config (server_boot true) = Ret tt server_made /\
  echo_open true text server_made = Ret tt echo_opened /\
  exists fds ts (w3 : server_world), turns_seen fds (w_sys echo_opened) (w_sys w3) ts /\ out (app w3) =
    ("Starting Echo Server on port 12345 (IPv4 and IPv6)..." :: (datagrams ts ≫= echo_outs myHandler_ptr))%list.
Proof.
  split; [exact server_made_run|]. split; [exact echo_opened_run|].
  destruct (echo_serves true text 2 (server_boot true) server_made echo_opened server_made_run echo_opened_run)
    as (res & ts & w3 & _ & _ & _ & Hseen & Hout & _).
  exists (echo_sockets res server_made), ts, w3. split; [exact Hseen|]. rewrite Hout.
  assert (E : out (app echo_opened) = ["Starting Echo Server on port 12345 (IPv4 and IPv6)..."]) by (vm_compute; reflexivity).
  rewrite E. reflexivity.
Defined.


Lemma gateway_turns_run :
  exists w3, turns true bridge no_task 2 (-1) gateway_opened = Ret tt w3.
Proof. eexists. vm_compute. reflexivity. Qed.

(** After two turns the gateway is still running. *)
Lemma gateway_main_runs_witness :
  make_receiver default_config (server_boot true) = Ret tt server_made /\
  gateway_main true text std_text 2 (server_boot true) = Crash OutOfFuel.
Proof.
  split; [exact server_made_run|].
  pose proof (gateway_main_runs true text std_text 2 (server_boot true)) as H. rewrite server_made_run in H.
  destruct H as (monitor & w2 & E & H). rewrite gateway_opened_run in E. apply Ret_inj in E as [<- <-].
  destruct gateway_turns_run as (w3 & E3). rewrite E3 in H. exact H.
Defined.
