(* ===== verification/PcapWitness.v ===== *)
(** Concrete runs of the capture replay on the simulated kernel: the file is
    encoded, opened and stepped through; and the witnesses of the properties
    of [PcapReceiver]. *)
From S2P Require Import Prelude Outcome Result Kernel SimKernel ScopedFd TimerQueue EventLoop Recorder.
From S2P Require Import EventLoopFacts TimerFacts SourceFacts ReactorWitness PacketReceiver PcapFormat.
From S2P Require Import Float64 PcapReceiver PcapDispatch PcapFrames PcapReplay PcapOpen PcapNg.
From S2P Require Import PcapControl.

Notation pcap_world := (world (task Z) PcapReceiver sim).

(** ** The capture *)

Definition demo_packet (l : layer2) (port : Z) (payload : list Z) : udp_packet :=
  UdpPacket l (replicate (match l with Cooked => 14 | _ => 12 end) 2) (replicate 8 0) (replicate 10 0)
    (replicate 4 1) 5000 port 0 payload.

Lemma demo_packet_ok l port payload :
  is_u16 port -> Z.of_nat (length payload) <= 65527 -> packet_ok (demo_packet l port payload).
Proof.
  intros Hp Hl. split; cbn; try done; [by destruct l|]. exists 1%nat. split; [lia|done].
Qed.

Definition record_of (sec frac : Z) (p : udp_packet) : pcap_record :=
  PcapRecord sec frac (Z.of_nat (length (encode_packet p))) (encode_packet p).

Definition packet1 := demo_packet Ethernet 9000 [72; 105].
Definition packet2 := demo_packet (Vlan 7) 9000 [33].
Definition packet3 := demo_packet Ethernet 9001 [1; 2; 3].
Definition demo_records : list pcap_record :=
  [record_of 100 5 packet1; record_of 101 6 packet2; record_of 101 7 packet3].

(** In the other byte order, with microseconds. *)
Definition demo_file : list Z :=
  encode_file true false (replicate 16 0) DLT_EN10MB demo_records [9; 9].

(** A byte-swapped file with nanoseconds, a file cut inside its last packet,
    a file with an unknown magic number, and a pcapng file whose packet block
    names an interface that was not described. *)
Definition nano_file : list Z := encode_file true true (replicate 16 0) DLT_EN10MB demo_records [].
Definition cut_file : list Z :=
  pcap_header false false (replicate 16 0) DLT_EN10MB ++
  (enc32 false 1 ++ enc32 false 2 ++ enc32 false 60 ++ enc32 false 60) ++ [1; 2; 3; 4; 5].
Definition ng_file : list Z :=
  enc32 false MAGIC_PCAPNG_SHB ++ enc32 false 28 ++ enc32 false PCAPNG_BOM ++ [1; 0; 0; 0] ++
  replicate 8 255 ++ enc32 false 28 ++
  enc32 false PCAPNG_EPB ++ enc32 false 32 ++ enc32 false 0 ++ enc32 false 0 ++ enc32 false 5 ++
  enc32 false 0 ++ enc32 false 0 ++ enc32 false 32.

(** ** The receiver *)

Definition raw_pcap : PcapReceiver :=
  MkPcapReceiver (MkPacketReceiver default_config 0 ∅ 0 0 0 0 []) (MkPcapConfig default_config STEP f64_one)
    (-1) (Mapping 0 []) 0 0 0 ∅ (TimeSpec 0 0) 0 true false false false ∅ 0 true 0 0 0.
Definition no_tasks : EventLoop (task Z) :=
  MkEventLoop (MkScopedFd (-1)) (MkScopedFd (-1)) [] ∅ ∅ 0 [] [] ∅ 1.
Definition pcap_boot : pcap_world :=
  World no_tasks raw_pcap (Sim.set_files
    [("demo.pcap"%string, demo_file); ("nano.pcap"%string, nano_file); ("cut.pcap"%string, cut_file);
     ("demo.pcapng"%string, ng_file)] ∅ (sim_boot 3600000000000)).
Definition pcap_looped : pcap_world := final EventLoop_new pcap_boot.

Definition config_of (md : ReplayMode) : PcapConfig := MkPcapConfig (MkReceiverConfig 128 64 2048) md f64_one.
Definition pcap_made (md : ReplayMode) : pcap_world := final (PcapReceiver_new (config_of md)) pcap_looped.

(** Port 9000 goes to handler 77 with context 5. *)
Definition pcap_subscribed (md : ReplayMode) : pcap_world :=
  final (subscribe true 9000 5 77) (pcap_made md).

Definition pcap_opened (md : ReplayMode) : pcap_world := final (open true "demo.pcap") (pcap_subscribed md).

Definition cut_opened : pcap_world := final (open true "cut.pcap") (pcap_made STEP).
Definition ng_opened : pcap_world := final (open true "demo.pcapng") (pcap_made STEP).

(** The two packets to port 9000 reach the handler with their payloads. *)
Example pcap_run_log :
  s_log (w_sys (final (steps (recorder Sim.add_log) 10) (pcap_opened STEP))) =
    [Delivery 77 5 (6295552 + 24 + 16 + 46) 2 OK (TimeSpec 100 5000);
     Delivery 77 5 (6295552 + 24 + 64 + 16 + 50) 1 OK (TimeSpec 101 6000)].
Proof. vm_compute. reflexivity. Qed.

(** ** The states of the run *)

Lemma u8_list (l : list Z) : forallb (fun b => (0 <=? b) && (b <? 256)) l = true -> Forall is_u8 l.
Proof.
  rewrite forallb_forall, Forall_forall. intros H x Hx. apply list_elem_of_In in Hx.
  specialize (H x Hx). unfold is_u8. zprop. lia.
Qed.

Definition file_addr : Z := 6295552.

(** The fields of the opened receiver, one by one. *)
Lemma opened_fields (md : ReplayMode) :
  m_mapping (w_obj (pcap_opened md)) = Mapping file_addr demo_file /\
  m_fileSize (w_obj (pcap_opened md)) = Z.of_nat (length demo_file) /\
  m_currentPtr (w_obj (pcap_opened md)) = file_addr + 24 /\
  m_swapped (w_obj (pcap_opened md)) = true /\ m_linkType (w_obj (pcap_opened md)) = DLT_EN10MB /\
  m_isPcapNg (w_obj (pcap_opened md)) = false /\ mode (m_pcapConfig (w_obj (pcap_opened md))) = md /\
  m_hotHandler (w_obj (pcap_opened md)) = 0 /\ m_finished (w_obj (pcap_opened md)) = false /\
  m_port_to_fd_map (pcap_base (w_obj (pcap_opened md))) = ∅.
Proof. destruct md; vm_compute; repeat split; reflexivity. Qed.

Lemma opened_file_ok md : file_ok (w_obj (pcap_opened md)).
Proof.
  destruct (opened_fields md) as (Em & Es & _). split; [|rewrite Em; exact Es].
  unfold bytes_ok. rewrite Em. apply u8_list. vm_compute. reflexivity.
Qed.

Lemma opened_ready md : md <> TIMED -> replay_ready (w_obj (pcap_opened md)).
Proof.
  intros Hmd. destruct (opened_fields md) as (_ & _ & _ & _ & _ & Hng & Hm & Hh & _).
  split; [apply opened_file_ok|]. rewrite Hm, Hng. split; [exact Hmd|]. split; [reflexivity|].
  intros H. destruct (H Hh).
Qed.

Lemma demo_records_ok : Forall record_ok demo_records.
Proof. repeat constructor; vm_compute; congruence. Qed.

Lemma opened_ahead md : ahead (pcap_opened md) demo_records [9; 9].
Proof.
  destruct (opened_fields md) as (Em & _ & Ec & Esw & _). split; [apply demo_records_ok|].
  unfold ahead. rewrite Em, Ec, Esw. unfold demo_file, encode_file.
  assert (Hn : is_u32 DLT_EN10MB) by (unfold is_u32, DLT_EN10MB; lia).
  destruct (header_words file_addr true false (replicate 16 0) DLT_EN10MB
    (encode_records true demo_records ++ [9; 9]) eq_refl Hn) as (_ & _ & H). exact H.
Qed.

Lemma opened_end md :
  file_end (w_obj (pcap_opened md)) =
    m_currentPtr (w_obj (pcap_opened md)) + records_size demo_records + Z.of_nat (length [9; 9]).
Proof.
  destruct (opened_fields md) as (Em & Es & Ec & _). unfold file_end, m_mappedData.
  rewrite Em, Es, Ec. vm_compute. reflexivity.
Qed.

(** The first packet, in the opened file. *)
Definition addr1 : Z := file_addr + 24 + 16.
Lemma packet1_stored md : stored (m_mapping (w_obj (pcap_opened md))) addr1 (encode_packet packet1).
Proof.
  destruct (opened_ahead md) as [_ H]. destruct (opened_fields md) as (_ & _ & Ec & Esw & _).
  rewrite Ec, Esw in H. unfold encode_records in H. cbn [fmap list_fmap demo_records concat] in H.
  rewrite <- app_assoc in H. apply stored_app_l in H.
  assert (Hr : record_ok (record_of 100 5 packet1)).
  { pose proof demo_records_ok as Hall. by inversion Hall. }
  destruct (stored_record _ _ _ _ Hr H) as (_ & _ & _ & _ & Hd). exact Hd.
Qed.

(** ** Witnesses: the dispatch *)

Lemma packet1_in_file : in_file (m_mapping (w_obj (pcap_opened STEP))) addr1 48.
Proof.
  destruct (opened_fields STEP) as (Em & _). rewrite Em. vm_compute. split; congruence.
Qed.

Lemma hot_ok_opened md : hot_ok (w_obj (pcap_opened md)).
Proof.
  destruct (opened_fields md) as (_ & _ & _ & _ & _ & _ & _ & Hh & _). intros H. destruct (H Hh).
Qed.

Lemma link_ethernet md (lt : Z) :
  lt = DLT_EN10MB -> m_linkType (w_obj (pcap_opened md)) = DLT_EN10MB -> lt = DLT_EN10MB.
Proof. intros H _. exact H. Qed.

Lemma parseAndDispatch_delivers_witness :
  in_file (m_mapping (w_obj (pcap_opened STEP))) addr1 48 /\ hot_ok (w_obj (pcap_opened STEP)) /\
  parseAndDispatch (recorder Sim.add_log) (TimeSpec 1 2) 48 48 addr1 DLT_EN10MB (pcap_opened STEP) =
    deliver (recorder Sim.add_log) (TimeSpec 1 2) 48 addr1 DLT_EN10MB (pcap_opened STEP).
Proof.
  split; [apply packet1_in_file|]. split; [apply hot_ok_opened|].
  pose proof (parseAndDispatch_delivers (recorder Sim.add_log) (TimeSpec 1 2) 48 48 addr1 DLT_EN10MB (pcap_opened STEP)
    (fo_bytes _ (opened_file_ok STEP)) packet1_in_file ltac:(unfold is_u32; lia) ltac:(lia)
    (link_ethernet STEP DLT_EN10MB eq_refl) (hot_ok_opened STEP)) as H.
  rewrite Z.eqb_refl in H. exact H.
Defined.

Lemma fast_path_is_slow_path_witness :
  in_file (m_mapping (w_obj (pcap_opened STEP))) addr1 48 /\
  parseAndDispatch (recorder Sim.add_log) (TimeSpec 1 2) 48 48 addr1 DLT_EN10MB (pcap_opened STEP) =
    slowPathParse (recorder Sim.add_log) (TimeSpec 1 2) 48 48 addr1 DLT_EN10MB (pcap_opened STEP).
Proof.
  split; [apply packet1_in_file|].
  exact (fast_path_is_slow_path (recorder Sim.add_log) (pcap_opened STEP) addr1 48
    (fo_bytes _ (opened_file_ok STEP)) packet1_in_file ltac:(unfold is_u32; lia) (TimeSpec 1 2) 48 DLT_EN10MB
    ltac:(lia) (link_ethernet STEP DLT_EN10MB eq_refl)).
Defined.

Lemma packet1_ok : packet_ok packet1.
Proof. apply demo_packet_ok; [unfold is_u16; lia|cbn; lia]. Qed.

Lemma encoded_packet_delivered_witness :
  packet_ok packet1 /\ stored (m_mapping (w_obj (pcap_opened STEP))) addr1 (encode_packet packet1) /\
  stored (m_mapping (w_obj (pcap_opened STEP))) (addr1 + 46) [72; 105].
Proof.
  split; [apply packet1_ok|]. split; [apply packet1_stored|].
  exact (proj2 (encoded_packet_delivered (recorder Sim.add_log) (TimeSpec 1 2) addr1 packet1 (pcap_opened STEP)
    packet1_ok (fo_bytes _ (opened_file_ok STEP)) (packet1_stored STEP)
    (link_ethernet STEP _ eq_refl) (hot_ok_opened STEP))).
Defined.

(** ** Witnesses: the files *)

(** The kernel after the calls of [open]. *)
Definition after_open (path : string) (f addr : Z) (bytes : list Z) (y : sim) : sim :=
  snd (madvise addr (Z.of_nat (length bytes)) (snd (mmap_file (Z.of_nat (length bytes)) f
    (snd (fstat_size f (snd (open_rdonly path y))))))).

Lemma demo_opens :
  opens "demo.pcap" (w_sys (pcap_subscribed STEP)) 5 file_addr demo_file
    (after_open "demo.pcap" 5 file_addr demo_file (w_sys (pcap_subscribed STEP))).
Proof. split; [split; [vm_compute; reflexivity|lia]|vm_compute; reflexivity|vm_compute; reflexivity|reflexivity]. Qed.

Lemma nano_opens :
  opens "nano.pcap" (w_sys (pcap_subscribed STEP)) 5 file_addr nano_file
    (after_open "nano.pcap" 5 file_addr nano_file (w_sys (pcap_subscribed STEP))).
Proof. split; [split; [vm_compute; reflexivity|lia]|vm_compute; reflexivity|vm_compute; reflexivity|reflexivity]. Qed.

Lemma owner md : owner_thread true (pcap_subscribed md).
Proof. left. reflexivity. Qed.

Lemma subscribed_fields :
  m_hotHandler (w_obj (pcap_subscribed STEP)) = 0 /\ mode (m_pcapConfig (w_obj (pcap_subscribed STEP))) = STEP /\
  m_swapped (w_obj (pcap_subscribed STEP)) = false /\ m_isNanosecond (w_obj (pcap_subscribed STEP)) = false /\
  m_port_to_fd_map (pcap_base (w_obj (pcap_subscribed STEP))) = ∅.
Proof. vm_compute. repeat split; reflexivity. Qed.

Lemma zeros_u8 n : Forall is_u8 (replicate n 0).
Proof. apply Forall_replicate. unfold is_u8. lia. Qed.

Lemma demo_data_u8 : Forall (fun r => Forall is_u8 (r_data r)) demo_records.
Proof. repeat (constructor; [apply u8_list; vm_compute; reflexivity|]). constructor. Qed.

Lemma ethernet_u32 : is_u32 DLT_EN10MB.
Proof. unfold is_u32, DLT_EN10MB. lia. Qed.

Lemma demo_given : file_given true false (replicate 16 0) DLT_EN10MB demo_records [9; 9].
Proof.
  split; [done|split; [done|apply zeros_u8]|apply ethernet_u32|split; [apply demo_records_ok|apply demo_data_u8]|].
  split; [repeat constructor; lia|cbn; lia].
Qed.

Lemma pcap_file_replayed_witness :
  opens "demo.pcap" (w_sys (pcap_subscribed STEP)) 5 file_addr demo_file
    (after_open "demo.pcap" 5 file_addr demo_file (w_sys (pcap_subscribed STEP))) /\
  exists w', (r ← open true "demo.pcap"; more ← steps (recorder Sim.add_log) 4; mret (r, more)) (pcap_subscribed STEP) =
      Ret (ResultVoid.success, false) w' /\ m_finished (w_obj w') = true.
Proof.
  split; [apply demo_opens|]. destruct subscribed_fields as (Hh & Hm & _).
  destruct (pcap_file_replayed true Sim.add_log "demo.pcap" (pcap_subscribed STEP) 5 file_addr true false
    (replicate 16 0) DLT_EN10MB demo_records [9; 9] _ 4 (owner STEP) demo_opens demo_given) as (p' & E & Hf).
  - rewrite Hm. discriminate.
  - intros H. destruct (H Hh).
  - cbn. lia.
  - eexists. split; [exact E|exact Hf].
Defined.

Lemma swapped_nano_misread_witness :
  opens "nano.pcap" (w_sys (pcap_subscribed STEP)) 5 file_addr nano_file
    (after_open "nano.pcap" 5 file_addr nano_file (w_sys (pcap_subscribed STEP))) /\
  exists w', open true "nano.pcap" (pcap_subscribed STEP) = Ret ResultVoid.success w' /\
    m_swapped (w_obj w') = false /\ m_linkType (w_obj w') = 16777216.
Proof.
  split; [apply nano_opens|]. destruct subscribed_fields as (_ & _ & Hs & Hn & _).
  destruct (swapped_nano_misread true "nano.pcap" (pcap_subscribed STEP) 5 file_addr
    (replicate 16 0) DLT_EN10MB demo_records [] _ (owner STEP) nano_opens eq_refl (zeros_u8 16)
    ethernet_u32 demo_data_u8 (Forall_nil_2 _) Hs Hn) as (p' & E & H1 & _ & H3).
  eexists. split; [exact E|]. split; [exact H1|exact H3].
Defined.

Lemma open_spec_witness :
  opens "demo.pcap" (w_sys (pcap_subscribed STEP)) 5 file_addr demo_file
    (after_open "demo.pcap" 5 file_addr demo_file (w_sys (pcap_subscribed STEP))) /\
  exists magic, load32 (Mapping file_addr demo_file) file_addr = Some magic.
Proof.
  split; [apply demo_opens|].
  destruct (open_spec true "demo.pcap" (pcap_subscribed STEP) 5 file_addr demo_file _ (owner STEP) demo_opens)
    as (magic & _ & _ & E & _).
  - apply u8_list. vm_compute. reflexivity.
  - vm_compute. congruence.
  - exists magic. exact E.
Defined.

Lemma open_fails_witness :
  owner_thread true (pcap_subscribed STEP) /\
  exists y, open true "missing.pcap" (pcap_subscribed STEP) =
    Ret (ResultVoid.fail (ErrorCode ENOENT system_category))
        (World (w_loop (pcap_subscribed STEP)) (set_fd (-1) (w_obj (pcap_subscribed STEP))) y).
Proof.
  split; [apply (owner STEP)|]. pose proof (open_fails true "missing.pcap" (pcap_subscribed STEP) (owner STEP)) as H.
  destruct (open_rdonly "missing.pcap" (w_sys (pcap_subscribed STEP))) as [f y1] eqn:E.
  assert (Ef : f = -1 /\ errno y1 = ENOENT) by (vm_compute in E; injection E as <- <-; split; reflexivity).
  destruct Ef as [-> Ee]. destruct (fstat_size (-1) y1) as [st y2]. destruct H as (H & _).
  rewrite Ee in H. exists y1. apply H. lia.
Defined.

Definition cut_addr : Z := 6295552.

Lemma cut_fields :
  m_mapping (w_obj cut_opened) = Mapping cut_addr cut_file /\
  m_fileSize (w_obj cut_opened) = Z.of_nat (length cut_file) /\
  m_currentPtr (w_obj cut_opened) = cut_addr + 24 /\ m_swapped (w_obj cut_opened) = false /\
  m_linkType (w_obj cut_opened) = DLT_EN10MB /\ m_isPcapNg (w_obj cut_opened) = false /\
  mode (m_pcapConfig (w_obj cut_opened)) = STEP.
Proof. vm_compute. repeat split; reflexivity. Qed.

Lemma cut_record_reads_outside_witness :
  file_ok (w_obj cut_opened) /\ internalStep (recorder Sim.add_log) cut_opened = Crash OutOfBounds.
Proof.
  destruct cut_fields as (Em & Es & Ec & Esw & El & Eng & Emode).
  assert (Hok : file_ok (w_obj cut_opened)).
  { split; [unfold bytes_ok; rewrite Em; apply u8_list; vm_compute; reflexivity|rewrite Em; exact Es]. }
  split; [exact Hok|].
  apply (cut_record_reads_outside (recorder Sim.add_log) cut_opened 1 2 60); [exact Hok| | | | | | |lia| |].
  - rewrite Emode. discriminate.
  - exact Eng.
  - exact El.
  - unfold is_u32. lia.
  - unfold is_u32. lia.
  - unfold is_u32. lia.
  - rewrite Em, Ec, Esw. unfold cut_file.
    destruct (header_words cut_addr false false (replicate 16 0) DLT_EN10MB
      ((enc32 false 1 ++ enc32 false 2 ++ enc32 false 60 ++ enc32 false 60) ++ [1; 2; 3; 4; 5]) eq_refl ethernet_u32)
      as (_ & _ & H).
    apply stored_app_l in H. exact H.
  - rewrite Ec. unfold file_end, m_mappedData. rewrite Em, Es. vm_compute. split; congruence.
Defined.

Lemma rewind_replays_witness :
  replay_ready (w_obj (pcap_opened STEP)) /\ ahead (pcap_opened STEP) demo_records [9; 9] /\
  exists w', (steps (recorder Sim.add_log) 4 ;; rewind true ;; steps (recorder Sim.add_log) 4) (pcap_opened STEP) =
    Ret false w'.
Proof.
  assert (Hr : replay_ready (w_obj (pcap_opened STEP))) by (apply opened_ready; discriminate).
  split; [exact Hr|]. split; [apply opened_ahead|].
  assert (Hc : m_currentPtr (w_obj (pcap_opened STEP)) = m_mappedData (w_obj (pcap_opened STEP)) + sizeof_pcap_file_header).
  { destruct (opened_fields STEP) as (Em & _ & Ec & _). unfold m_mappedData. rewrite Em, Ec. reflexivity. }
  assert (Htid : forall d (y : sim), this_thread_id (Sim.add_log d y) = this_thread_id y) by reflexivity.
  destruct (rewind_replays true Sim.add_log (pcap_opened STEP) demo_records [9; 9] 4 (or_introl eq_refl)
    Htid Hr (opened_ahead STEP) Hc (opened_end STEP)) as (p' & E); [cbn; lia|cbn; lia|].
  eexists. exact E.
Defined.

(** ** Witnesses: subscriptions *)

Lemma pcap_subscribe_spec_witness :
  owner_thread true (pcap_subscribed STEP) /\
  exists w', subscribe true 9001 6 78 (pcap_subscribed STEP) = Ret (Value 9001) w' /\
    subscribed (w_obj w') (htons 9001) = Some (MkSubscription 6 78).
Proof.
  split; [apply (owner STEP)|]. destruct subscribed_fields as (_ & _ & _ & _ & Hm).
  assert (Hp : is_u16 9001) by (unfold is_u16; lia).
  pose proof (pcap_subscribe_spec true 9001 6 78 (pcap_subscribed STEP) (owner STEP) Hp Hm) as H.
  change (78 =? 0) with false in H. cbn iota in H. destruct H as (w' & E & Hs & _).
  exists w'. split; [exact E|exact Hs].
Defined.

Lemma pcap_unsubscribe_fails_witness :
  owner_thread true (pcap_subscribed STEP) /\
  unsubscribe true 9000 (pcap_subscribed STEP) =
    Ret (ResultVoid.fail (ErrorCode ENOENT system_category)) (pcap_subscribed STEP).
Proof.
  split; [apply (owner STEP)|]. destruct subscribed_fields as (_ & _ & _ & _ & Hm).
  exact (pcap_unsubscribe_fails true 9000 (pcap_subscribed STEP) (owner STEP) Hm).
Defined.

(** After its first packet port 9000 is the hot one. *)
Definition pcap_hot : pcap_world := final (steps (recorder Sim.add_log) 1) (pcap_opened STEP).

Lemma hot_fields :
  m_mapping (w_obj pcap_hot) = Mapping file_addr demo_file /\ m_hotPort (w_obj pcap_hot) = htons 9000 /\
  m_hotHandler (w_obj pcap_hot) = 77 /\ m_port_to_fd_map (pcap_base (w_obj pcap_hot)) = ∅.
Proof. vm_compute. repeat split; reflexivity. Qed.

Lemma resubscribe_keeps_hot_witness :
  m_hotPort (w_obj pcap_hot) = htons 9000 /\
  exists w', subscribe true 9000 6 99 pcap_hot = Ret (Value 9000) w' /\
    subscribed (w_obj w') (htons 9000) = Some (MkSubscription 6 99) /\
    parseAndDispatch (recorder Sim.add_log) (TimeSpec 1 2) 48 48 addr1 DLT_EN10MB w' =
      recorder Sim.add_log (m_hotHandler (w_obj pcap_hot)) (m_hotContext (w_obj pcap_hot)) (addr1 + (48 - 2)) 2 OK
        (TimeSpec 1 2) w'.
Proof.
  destruct hot_fields as (Em & Ep & Eh & Ed). split; [exact Ep|].
  assert (Hm : m_mapping (w_obj pcap_hot) = m_mapping (w_obj (pcap_opened STEP))).
  { rewrite Em. symmetry. apply opened_fields. }
  destruct (resubscribe_keeps_hot true (recorder Sim.add_log) (TimeSpec 1 2) addr1 packet1 6 99 pcap_hot
    (or_introl eq_refl) Ed ltac:(discriminate) packet1_ok) as (w' & E & Hs & Hd).
  - rewrite Hm. apply opened_file_ok.
  - rewrite Hm. apply packet1_stored.
  - intros _. reflexivity.
  - exact Ep.
  - rewrite Eh. discriminate.
  - exists w'. split; [exact E|]. split; [exact Hs|exact Hd].
Defined.

(** ** Witnesses: pacing and scheduling *)

(** The first packet has been played, at once. *)
Definition pcap_playing : pcap_world := final (steps (recorder Sim.add_log) 1) (pcap_opened TIMED).

Lemma loop_made_ok : loop_ok (w_loop pcap_looped).
Proof.
  pose proof (EventLoop_new_run pcap_boot) as H. unfold pcap_looped, final.
  assert (Hret : exists w, EventLoop_new pcap_boot = Ret tt w) by (vm_compute; eexists; reflexivity).
  destruct Hret as (w & E). unfold wp in H. rewrite E in *. apply H.
Qed.

Lemma playing_fields :
  w_loop pcap_playing = w_loop pcap_looped /\
  mode (m_pcapConfig (w_obj pcap_playing)) = TIMED /\
  speedMultiplier (m_pcapConfig (w_obj pcap_playing)) = f64_one /\
  m_firstPacket (w_obj pcap_playing) = false /\ m_pcapStartTs (w_obj pcap_playing) = TimeSpec 100 5000 /\
  m_wallStartTs (w_obj pcap_playing) = 3600000000000 /\ clock (w_sys pcap_playing) = 3600000000000.
Proof. vm_compute. repeat split; reflexivity. Qed.

Lemma playing_started :
  normal_speed (w_obj pcap_playing) /\ started (w_obj pcap_playing) /\ loop_ok (w_loop pcap_playing) /\
  m_wallStartTs (w_obj pcap_playing) <= clock (w_sys pcap_playing).
Proof.
  destruct playing_fields as (El & _ & Es & Ef & Et & Ew & Ec). unfold normal_speed, started.
  rewrite El, Es, Ef, Et, Ew, Ec. split; [vm_compute; reflexivity|].
  split; [|split; [apply loop_made_ok|lia]].
  split; [reflexivity|]. split; [unfold file_time, is_u32; cbn; lia|unfold clock_limit; lia].
Qed.

Lemma second_time : file_time (TimeSpec 101 6000).
Proof. unfold file_time, is_u32. cbn. lia. Qed.

Lemma target_time_exact_witness :
  normal_speed (w_obj pcap_playing) /\ started (w_obj pcap_playing) /\
  calculateTargetTimeHighRes (TimeSpec 101 6000) pcap_playing = Ret 3601000001000 pcap_playing.
Proof.
  destruct playing_started as (Hn & Hs & _). split; [exact Hn|]. split; [exact Hs|].
  destruct (target_time_exact (TimeSpec 101 6000) pcap_playing Hn second_time) as [_ H]. rewrite (H Hs).
  destruct playing_fields as (_ & _ & _ & _ & Et & Ew & _). unfold target_of. rewrite Et, Ew. reflexivity.
Defined.

Lemma timed_never_early_witness :
  started (w_obj pcap_playing) /\
  exists w', too_early (TimeSpec 101 6000) pcap_playing =
      Ret (now_of pcap_playing <? target_of (w_obj pcap_playing) (TimeSpec 101 6000)) w' /\
    w_obj w' = w_obj pcap_playing.
Proof.
  destruct playing_started as (Hn & Hs & Hl & Hw). split; [exact Hs|].
  destruct playing_fields as (_ & Hm & _).
  destruct (timed_never_early (TimeSpec 101 6000) pcap_playing Hm Hn second_time Hs Hw Hl) as (w' & E & Ho & _).
  exists w'. split; [exact E|exact Ho].
Defined.

(** The packet of one second later waits, behind a timer for its time. *)
Example playing_waits :
  key_of <$> m_timers (w_loop (final (processBatch (recorder Sim.add_log)) pcap_playing)) =
    [(3601000000000, 1)] /\
  length (s_log (w_sys (final (processBatch (recorder Sim.add_log)) pcap_playing))) = 1%nat.
Proof. split; vm_compute; reflexivity. Qed.

Lemma start_spec_witness :
  loop_ok (w_loop pcap_playing) /\
  exists w', start true pcap_playing = Ret tt w' /\ loop_ok (w_loop w').
Proof.
  destruct playing_started as (_ & _ & Hl & _). split; [exact Hl|].
  pose proof (start_spec true pcap_playing (or_introl eq_refl) Hl) as H.
  assert (Em : m_mappedData (w_obj pcap_playing) =? 0 = false) by (vm_compute; reflexivity).
  rewrite Em in H. destruct playing_fields as (_ & Hm & _).
  destruct (decide (mode (m_pcapConfig (w_obj pcap_playing)) = STEP)) as [E|_]; [rewrite Hm in E; discriminate E|].
  destruct H as (w' & E & _ & Hok & _). exists w'. split; [exact E|exact Hok].
Defined.

(** A capture of 40000 empty packets, at its first record. *)
Definition empty_record : pcap_record := PcapRecord 0 0 0 [].
Definition long_records (n : Z) : list pcap_record := replicate (Z.to_nat n) empty_record.
Definition long_bytes : list Z :=
  encode_records false (long_records 20000 ++ long_records 10000 ++ long_records 10000) ++ [].
Definition long_world : pcap_world :=
  World no_tasks (MkPcapReceiver (pcap_base raw_pcap) (config_of FLOOD) 5 (Mapping file_addr long_bytes)
      (Z.of_nat (length long_bytes)) file_addr DLT_EN10MB ∅ (TimeSpec 0 0) 0 true false false false ∅ 0 false 0 0 0)
    (sim_boot 0).

Lemma long_ok n : Forall record_ok (long_records n).
Proof. apply Forall_replicate. split; vm_compute; repeat split; congruence. Qed.

Lemma flood_schedules_twice_witness :
  mode (m_pcapConfig (w_obj long_world)) = FLOOD /\
  exists w', processBatch (recorder Sim.add_log) long_world = Ret tt w' /\
    m_pendingTasks (w_loop w') = [Some ProcessBatchFlood; Some ProcessBatch].
Proof.
  split; [reflexivity|].
  destruct (flood_schedules_twice Sim.add_log long_world (long_records 20000) (long_records 10000)
    (long_records 10000) []) as (w' & E & Hp & _).
  - split; [split; [|reflexivity]|]; [|split; [discriminate|split; [reflexivity|intros H; destruct (H eq_refl)]]].
    unfold bytes_ok, long_world, long_bytes. cbn [w_obj m_mapping map_bytes]. apply Forall_app.
    split; [|constructor]. apply encode_records_u8. rewrite !Forall_app.
    split; [|split]; apply Forall_replicate; constructor.
  - reflexivity.
  - discriminate.
  - reflexivity.
  - apply length_replicate.
  - apply length_replicate.
  - split; [rewrite !Forall_app; split; [|split]; apply long_ok|]. unfold long_world.
    cbn [w_obj m_mapping m_currentPtr m_swapped]. unfold long_bytes. apply stored_self.
  - exists w'. split; [exact E|exact Hp].
Defined.

(** ** Witnesses: pcapng *)

Lemma tsresol_divisor_spec_witness :
  is_u8 9 /\ tsresol_divisor 9 tt = Ret 1000000000 tt /\ tsresol_divisor 70 tt = Ret 0 tt.
Proof.
  assert (H9 : is_u8 9) by (unfold is_u8; lia). assert (H70 : is_u8 70) by (unfold is_u8; lia).
  split; [exact H9|]. split.
  - exact (proj1 (tsresol_divisor_spec 9 tt H9) ltac:(lia)).
  - exact (proj1 (proj2 (tsresol_divisor_spec 70 tt H70)) ltac:(lia)).
Defined.

Lemma pcapng_timespec_exact_witness :
  is_u64 1700000000123456789 /\
  exists ts, pcapng_timespec 1700000000123456789 1000000000 tt = Ret ts tt /\ tv_sec ts = 1700000000.
Proof.
  assert (H : is_u64 1700000000123456789) by (unfold is_u64; lia). split; [exact H|].
  destruct (pcapng_timespec_exact 1700000000123456789 1000000000 tt H) as (ts & E & Hs & _);
    [unfold max_divisor; lia|].
  exists ts. split; [exact E|]. rewrite Hs. reflexivity.
Defined.

Definition ng_addr : Z := 6295552.

Lemma ng_fields :
  m_mapping (w_obj ng_opened) = Mapping ng_addr ng_file /\
  m_fileSize (w_obj ng_opened) = Z.of_nat (length ng_file) /\
  m_currentPtr (w_obj ng_opened) = ng_addr /\ m_isPcapNg (w_obj ng_opened) = true.
Proof. vm_compute. repeat split; reflexivity. Qed.

Lemma ng_file_ok : file_ok (w_obj ng_opened).
Proof.
  destruct ng_fields as (Em & Es & _). split; [|rewrite Em; exact Es].
  unfold bytes_ok. rewrite Em. apply u8_list. vm_compute. reflexivity.
Qed.

Lemma pcapng_search_ends_witness :
  file_ok (w_obj ng_opened) /\
  exists len w', next_packet_block (S (Z.to_nat (m_fileSize (w_obj ng_opened)))) ng_opened = Ret (Some len) w' /\
    m_currentPtr (w_obj w') + len <= file_end (w_obj w').
Proof.
  split; [apply ng_file_ok|].
  assert (Hc : m_mappedData (w_obj ng_opened) <= m_currentPtr (w_obj ng_opened)).
  { destruct ng_fields as (Em & _ & Ec & _). unfold m_mappedData. rewrite Em, Ec. cbn. lia. }
  destruct (pcapng_search_ends ng_opened ng_file_ok Hc) as [(w' & E & _)|[(len & w' & E & _ & _ & _ & H)|(f & E & _)]].
  - exfalso. vm_compute in E. discriminate E.
  - exists len, w'. split; [exact E|exact H].
  - exfalso. vm_compute in E. discriminate E.
Defined.

Definition ng_at_packet : pcap_world := with_obj (set_cursor (ng_addr + 28)) ng_opened.

Lemma with_cursor_mapping (w : pcap_world) c : m_mapping (w_obj (with_obj (set_cursor c) w)) = m_mapping (w_obj w).
Proof. reflexivity. Qed.

Lemma ng_at_packet_mapping : m_mapping (w_obj ng_at_packet) = Mapping ng_addr ng_file.
Proof. unfold ng_at_packet. rewrite with_cursor_mapping. apply ng_fields. Qed.

Lemma ng_at_packet_reads :
  next_packet_block (S (Z.to_nat (m_fileSize (w_obj ng_opened)))) ng_opened = Ret (Some 32) ng_at_packet /\
  m_currentPtr (w_obj ng_at_packet) + sizeof_PcapNgBlockHeader = ng_addr + 36 /\
  m_interfaces (w_obj ng_at_packet) !! swap32 (m_swapped (w_obj ng_at_packet)) 0 = None.
Proof. vm_compute. repeat split; reflexivity. Qed.

Lemma unknown_interface_divides_by_zero_witness :
  next_packet_block (S (Z.to_nat (m_fileSize (w_obj ng_opened)))) ng_opened = Ret (Some 32) ng_at_packet /\
  stepPcapNg (recorder Sim.add_log) ng_opened = Crash DivisionByZero.
Proof.
  destruct ng_at_packet_reads as (E & Ec & Ei). split; [exact E|].
  apply (unknown_interface_divides_by_zero (recorder Sim.add_log) ng_opened ng_at_packet 32 0);
    [|exact E| | |exact Ei].
  - rewrite ng_at_packet_mapping, <- (proj1 ng_fields). exact (fo_bytes _ ng_file_ok).
  - rewrite ng_at_packet_mapping, Ec. vm_compute. split; congruence.
  - rewrite ng_at_packet_mapping, Ec. vm_compute. reflexivity.
Defined.
