(* ===== verification/BesideWitness.v ===== *)
(** A capture replayed in TIMED mode beside a heartbeat, on the simulated kernel:
    the witness of the composition of [ReplayBeside]. *)
From S2P Require Import Prelude Outcome Result Kernel SimKernel ScopedFd TimerQueue EventLoop Recorder.
From S2P Require Import EventLoopFacts TimerFacts SourceFacts ReactorWitness PacketReceiver PcapFormat Waking.
From S2P Require Import Float64 PcapReceiver PcapDispatch PcapFrames PcapReplay PcapOpen PcapControl.
From S2P Require Import Playback ClassicPlayback ReplayBeside PcapWitness.

(** A heartbeat that schedules itself and defers a task, which steps the replay;
    the task 9 throws. *)
Definition beat (z : Z) : M pcap_world unit :=
  if z =? 1 then runAfter 300 (Some (UserTask 1)) ;; runInLoop (Some (UserTask 2))
  else if z =? 2 then step true (recorder Sim.add_log) ;; mret tt
  else throw (UserException z).

(** [start], and the first heartbeat. *)
Definition beside_start : pcap_world :=
  final (start true ;; runAfter 300 (Some (UserTask 1)) ;; mret tt) (pcap_opened TIMED).

Definition turns (ts : list Z) : M pcap_world unit :=
  for_each ts (fun t => runOnce (run_pcap_task (recorder Sim.add_log) beat) handleRead t ;; mret tt).

(** The heartbeat beats four times before the second packet is due, steps the
    replay each time, and goes on after the end of the file. *)
Example beside_log :
  let w := final (turns (replicate (Z.to_nat 1200) 1000)) beside_start in
  s_calls (w_sys w) =
    [(3600001000000, Delivery 77 5 (6295552 + 24 + 16 + 46) 2 OK (TimeSpec 100 5000));
     (3601002000000, Delivery 77 5 (6295552 + 24 + 64 + 16 + 50) 1 OK (TimeSpec 101 6000))] /\
  clock (w_sys beside_start) = 3600000000000 /\
  m_finished (w_obj w) = true /\ key_of <$> m_timers (w_loop w) = [(3601500000000, 14)].
Proof. vm_compute. repeat split; reflexivity. Qed.

(** ** The state the replay starts in *)

Lemma opened_loop :
  w_loop (pcap_opened TIMED) = w_loop pcap_looped /\
  registered (w_sys (pcap_opened TIMED)) = registered (w_sys pcap_looped) /\
  deadline (w_sys (pcap_opened TIMED)) = deadline (w_sys pcap_looped).
Proof. vm_compute. repeat split; reflexivity. Qed.

Lemma opened_Inv : Inv 0 (pcap_opened TIMED) /\ armed (pcap_opened TIMED).
Proof.
  pose proof (EventLoop_new_run pcap_boot) as H. destruct opened_loop as (El & Er & Ed).
  assert (HI : Inv 0 pcap_looped /\ armed pcap_looped).
  { unfold pcap_looped, final. assert (Hret : exists w, EventLoop_new pcap_boot = Ret tt w) by (vm_compute; by eexists).
    destruct Hret as (w & E). unfold wp in H. rewrite E in H |- *. destruct H as (HI & Ha & _). exact (conj HI Ha). }
  destruct HI as [HI Ha]. destruct (pcap_opened TIMED) as [l p y]. cbn [w_loop w_sys] in *. subst l. split.
  - apply (Inv_world 0 pcap_looped p y HI); [by rewrite Er|done].
  - unfold armed in *. cbn [w_loop w_sys]. by rewrite Ed.
Qed.

Lemma start_safe : safe (start true : M pcap_world unit).
Proof.
  apply safe_bind; [apply safe_mret|]. intros []. apply safe_bind; [apply safe_gets|]. intros p.
  destruct (_ =? _); [apply safe_mret|].
  apply safe_bind; [apply safe_view; intros w; eexists _, _; split; [reflexivity|by split_and!; auto]|]. intros [].
  destruct (decide _); [apply safe_mret|].
  apply safe_bind; [apply runAfter_safe; unfold max_delay; lia|]. intros _. apply safe_mret.
Qed.

Lemma beside_start_Inv : Inv 0 beside_start /\ armed beside_start.
Proof.
  unfold beside_start. destruct opened_Inv as [HI Ha].
  apply final_safe; [|exact HI|exact Ha|vm_compute; eexists _, _; reflexivity].
  apply safe_bind; [apply start_safe|]. intros [].
  apply safe_bind; [apply runAfter_safe; unfold max_delay; lia|]. intros _. apply safe_mret.
Qed.

Lemma beside_fields :
  let p := w_obj beside_start in
  m_mapping p = Mapping file_addr demo_file /\ m_fileSize p = Z.of_nat (length demo_file) /\
  m_currentPtr p = file_addr + 24 /\ m_swapped p = true /\ m_isNanosecond p = false /\
  m_isPcapNg p = false /\ m_hotHandler p = 0 /\ m_firstPacket p = true /\ m_finished p = false /\
  f64_eqb (speedMultiplier (m_pcapConfig p)) f64_one = true.
Proof. vm_compute. repeat split; reflexivity. Qed.

Definition demo_times : list timespec := record_time (w_obj beside_start) <$> demo_records.
Definition demo_calls : list delivery :=
  deliveries (w_obj beside_start) (first_record (w_obj beside_start)) demo_records.

(** A receiver with the fields of [open], at its first record. *)
Lemma fields_holds p q :
  m_mapping p = m_mapping q -> m_fileSize p = m_fileSize q -> m_swapped p = m_swapped q ->
  m_currentPtr q = first_record q ->
  stored (m_mapping q) (m_currentPtr q) (encode_records (m_swapped q) demo_records ++ [9; 9]) ->
  file_end q = m_currentPtr q + records_size demo_records + Z.of_nat (length [9; 9]) ->
  holds_records p demo_records [9; 9].
Proof.
  intros Em Es Esw Ec Hst Hend.
  assert (Hfirst : first_record p = m_currentPtr q) by (rewrite Ec; unfold first_record, m_mappedData; by rewrite Em).
  split; [apply demo_records_ok| | |cbn; lia]; rewrite Hfirst.
  - rewrite Em, Esw. exact Hst.
  - rewrite <- Hend. unfold file_end, m_mappedData. by rewrite Em, Es.
Qed.

Lemma fields_left p :
  reading p -> m_currentPtr p = first_record p ->
  classic_left p demo_records (record_time p <$> demo_records) (deliveries p (first_record p) demo_records) p.
Proof.
  intros Hr Hc. split; [done|]. split; [done|]. exists [], demo_records. rewrite Hc.
  split_and!; [done|done| |done]. change (records_size []) with 0. lia.
Qed.

Lemma beside_cursor : m_currentPtr (w_obj beside_start) = first_record (w_obj beside_start).
Proof. vm_compute. reflexivity. Qed.

Lemma beside_holds : holds_records (w_obj beside_start) demo_records [9; 9].
Proof.
  destruct beside_fields as (Em & Es & Ec & Esw & _). destruct (opened_fields TIMED) as (Em' & Es' & Ec' & Esw' & _).
  apply (fields_holds _ (w_obj (pcap_opened TIMED))).
  - rewrite Em, Em'. reflexivity.
  - rewrite Es, Es'. reflexivity.
  - rewrite Esw, Esw'. reflexivity.
  - vm_compute. reflexivity.
  - exact (proj2 (opened_ahead TIMED)).
  - exact (opened_end TIMED).
Qed.

Lemma beside_reading : reading (w_obj beside_start).
Proof.
  destruct beside_fields as (Em & Es & _ & _ & _ & Hng & Hhot & _).
  split; [split|split; [exact Hng|intros Hne; destruct (Hne Hhot)]].
  - unfold bytes_ok. rewrite Em. apply u8_list. vm_compute. reflexivity.
  - rewrite Em. exact Es.
Qed.

Lemma beside_left : classic_left (w_obj beside_start) demo_records demo_times demo_calls (w_obj beside_start).
Proof. exact (fields_left _ beside_reading beside_cursor). Qed.

Lemma micros_times p : m_isNanosecond p = false -> Forall file_time (record_time p <$> demo_records).
Proof. unfold record_time. intros ->. unfold file_time, is_u32. repeat constructor; cbn; lia. Qed.

Lemma beside_pacing : pacing_ok (w_obj beside_start) demo_times.
Proof.
  destruct beside_fields as (_ & _ & _ & _ & Hn & _ & _ & _ & _ & Hsp).
  split; intros _; [exact (micros_times _ Hn)|]. intros t0 t _ _. left. exact Hsp.
Qed.

(** The heartbeat leaves the replay alone. *)
Lemma beat_safe z :
  safe (AI := replay_invariant (classic_left (w_obj beside_start) demo_records) (w_obj beside_start) demo_times
    demo_calls (clock (w_sys beside_start)) (call_trace (w_sys beside_start))) (beat z).
Proof.
  pose proof (classic_reader (w_obj beside_start) demo_records [9; 9] (U := Z) Sim.add_log beside_holds) as HR.
  unfold beat. destruct (z =? 1).
  - apply safe_bind; [apply runAfter_safe; unfold max_delay; lia|]. intros _. apply runInLoop_safe.
  - destruct (z =? 2); [|apply safe_throw].
    apply safe_bind; [|intros _; apply safe_mret].
    apply (step_safe (classic_left (w_obj beside_start) demo_records) _ _ _ _ _ beside_pacing true). by intros; left.
Qed.

(** What the handlers have seen since the start. *)
Definition beside_order (w' : pcap_world) : Prop :=
  in_file_order (classic_left (w_obj beside_start) demo_records) demo_times demo_calls (clock (w_sys beside_start)) (call_trace (w_sys beside_start)) (w_obj w') (w_sys w').

Lemma replay_beside_application_witness :
  armed beside_start /\
  wp (turns (replicate (Z.to_nat 1200) 1000)) (fun _ w' => beside_order w' /\ armed w') (fun _ => beside_order) beside_start.
Proof.
  pose proof beside_start_Inv as [(Hl & Hs & _) Ha]. split; [exact Ha|].
  pose proof (classic_reader (w_obj beside_start) demo_records [9; 9] (U := Z) Sim.add_log beside_holds) as HR.
  pose proof beside_fields as (_ & _ & _ & _ & _ & _ & _ & Hfirst & Hfin & _).
  eapply wp_conseq.
  - apply (replay_beside_application (classic_left (w_obj beside_start) demo_records) beat handleRead
      (replicate (Z.to_nat 1200) 1000) demo_times demo_calls beside_start beat_safe);
      [intros; apply safe_mret|exact Hl|exact Hs|exact Ha|exact beside_left|exact Hfirst|exact Hfin|exact beside_pacing].
  - intros _ w' [(_ & _ & Ho) Ha']. split; [exact Ho|exact Ha'].
  - intros e w' (_ & _ & Ho). exact Ho.
Defined.
