(* ===== verification/PcapSpeedWitness.v ===== *)
(** A replay at three times the speed, on the simulated kernel, and the
    witness of the property of [PcapSpeed]. *)
From S2P Require Import Prelude Outcome Result Kernel SimKernel ScopedFd TimerQueue EventLoop Recorder.
From S2P Require Import EventLoopFacts TimerFacts ReactorWitness PacketReceiver PcapFormat Float64 FloatRounding.
From S2P Require Import PcapReceiver PcapDispatch PcapReplay PcapOpen PcapControl PcapSpeed PcapWitness.
From Stdlib Require Import QArith Qabs.

Local Open Scope Z_scope.

(** The capture is opened by a receiver at speed 3, and its first packet has
    been played. *)
Definition fast_config : PcapConfig := MkPcapConfig (MkReceiverConfig 128 64 2048) TIMED (f64_of_Z 3).
Definition fast_playing : pcap_world :=
  final (PcapReceiver_new fast_config ;; subscribe true 9000 5 77 ;; open true "demo.pcap" ;;
    steps (recorder Sim.add_log) 1) pcap_looped.

(** The second packet is 1000001000 ns later: its target is a third of that
    after the start. *)
Example fast_target :
  match calculateTargetTimeHighRes (TimeSpec 101 6000) fast_playing with
  | Ret t w => Some (t - m_wallStartTs (w_obj w))
  | _ => None
  end = Some 333333666.
Proof. vm_compute. reflexivity. Qed.

(** A third of a nanosecond less than 10^6 seconds: the quotient is not
    rounded up, the seconds and the nanoseconds belong together. *)
Example seconds_at_a_boundary :
  match scale_difference 2999999 999999999 fast_playing with
  | Ret p _ => Some p
  | _ => None
  end = Some (999999, 999999999).
Proof. vm_compute. reflexivity. Qed.

Lemma fast_fields :
  mode (m_pcapConfig (w_obj fast_playing)) = TIMED /\
  m_firstPacket (w_obj fast_playing) = false /\
  m_pcapStartTs (w_obj fast_playing) = TimeSpec 100 5000 /\ m_wallStartTs (w_obj fast_playing) = 3600000000000 /\
  w_loop fast_playing = w_loop pcap_looped /\ clock (w_sys fast_playing) = 3600000000000.
Proof. vm_compute. repeat split; reflexivity. Qed.

Lemma fast_speed : positive_speed (w_obj fast_playing).
Proof. vm_compute. eexists _, _. reflexivity. Qed.

(** The difference divided by the speed is below 2^53. *)
Lemma fast_quotient : (Qabs (inject_Z 1000001000 / speed_of (w_obj fast_playing)) < inject_Z (2 ^ 53))%Q.
Proof. vm_compute. reflexivity. Qed.

Lemma speed_never_early_witness :
  started (w_obj fast_playing) /\
  exists t w', (Qabs (inject_Z (t - 3600000000000) - inject_Z 1000001000 / speed_of (w_obj fast_playing)) < 1)%Q /\
    too_early (TimeSpec 101 6000) fast_playing = Ret (now_of fast_playing <? t) w' /\ w_obj w' = w_obj fast_playing.
Proof.
  destruct fast_fields as (Em & Ef & Et & Ew & El & Ec).
  assert (Hst : started (w_obj fast_playing)).
  { split; [exact Ef|]. rewrite Et, Ew. split; [unfold file_time, is_u32; cbn; lia|unfold clock_limit; lia]. }
  split; [exact Hst|].
  assert (Hok : loop_ok (w_loop fast_playing)) by (rewrite El; apply loop_made_ok).
  assert (Hd : ns_of (TimeSpec 101 6000) - ns_of (m_pcapStartTs (w_obj fast_playing)) = 1000001000) by (rewrite Et; reflexivity).
  pose proof (speed_never_early (TimeSpec 101 6000) fast_playing Em fast_speed second_time Hst) as H.
  cbv zeta in H. rewrite Hd, Ew, Ec in H.
  destruct (H ltac:(discriminate) Hok ltac:(reflexivity) fast_quotient) as (t & w' & Ht & E & Ho & _).
  exists t, w'. split; [exact Ht|]. split; [exact E|exact Ho].
Defined.
