(* ===== verification/PcapTypesWitness.v ===== *)
(** The witness of the types of the capture replay: the simulated kernel, with
    files that are sequences of bytes, and a handler that would break a type
    if it were called with ill-typed arguments. *)
From S2P Require Import Prelude Outcome Result Kernel SimKernel ScopedFd TimerQueue EventLoop Recorder.
From S2P Require Import ReactorWitness PacketReceiver PcapFormat Float64 PcapReceiver PcapTypes PcapWitness.

#[local] Instance byte_files : FileKernel sim := {
  open_rdonly path s := Sim.do_open path s;
  fstat_size := fstat_size;
  mmap_file len f s :=
    let r := Sim.do_mmap_file len f s in (option_map (fun p => (fst p, map u8 (snd p))) (fst r), snd r);
  madvise := madvise
}.

Lemma mapped_bytes len f (y : sim) addr bytes :
  fst (mmap_file (FileKernel := byte_files) len f y) = Some (addr, bytes) -> Forall is_u8 bytes.
Proof.
  cbn. destruct (fst (Sim.do_mmap_file len f y)) as [[a bs]|]; [|done]. cbn. intros E. injection E as _ <-.
  apply List.Forall_map, Forall_true. intros b. unfold is_u8, u8. apply Z.mod_pos_bound. lia.
Qed.

(** The packets are recorded; a null handler, a status that is not OK or a
    length that does not fit would be stored as a link type that is not
    32-bit. *)
Definition strict_handler (h c data len st : Z) (ts : timespec) : M pcap_world unit :=
  if (h =? 0) || negb (st =? OK) || (2 ^ 16 <=? len) then assign (set_linkType (-1))
  else recorder Sim.add_log h c data len st ts.

Lemma strict_handler_sound h c data len st ts (w : pcap_world) :
  call_typed h len st ts -> typed w -> sound (strict_handler h c data len st ts) (fun _ => typed) typed w.
Proof.
  intros (Hh & Hlen & -> & _) Hw. unfold strict_handler. apply Z.eqb_neq in Hh. rewrite Hh.
  destruct (Z.leb_spec (2 ^ 16) len); [lia|]. exact Hw.
Qed.

Definition demo_ops : list pcap_op :=
  [Subscribe 9000 5 77; Open "demo.pcap"; Start; Step; Step; Rewind; Batch; Unsubscribe 9000].

Lemma replay_types_witness :
  exists w1, PcapReceiver_new (config_of STEP) pcap_looped = Ret tt w1 /\ typed w1 /\
    Forall op_typed demo_ops /\
    sound (for_each demo_ops (run_op (FK := byte_files) false strict_handler)) (fun _ => typed) typed w1.
Proof.
  pose proof (replay_types (FK := byte_files) false strict_handler strict_handler_sound mapped_bytes
    (config_of STEP) pcap_looped) as H. unfold sound at 1 in H.
  assert (Hret : exists w, PcapReceiver_new (config_of STEP) pcap_looped = Ret tt w) by (eexists; vm_compute; reflexivity).
  destruct Hret as (w1 & E). rewrite E in H. destruct H as [Hw1 H]. exists w1. split; [exact E|]. split; [exact Hw1|].
  assert (Hops : Forall op_typed demo_ops) by (repeat constructor; cbn; lia).
  split; [exact Hops|]. exact (H demo_ops Hops).
Defined.

(** Four packets are handed over in this run. *)
Example typed_run :
  match (PcapReceiver_new (config_of STEP) ;; for_each demo_ops (run_op (FK := byte_files) false strict_handler)) pcap_looped with
  | Ret _ w => Some (length (s_log (w_sys w)), m_linkType (w_obj w)) | _ => None end = Some (4%nat, DLT_EN10MB).
Proof. vm_compute. reflexivity. Qed.
