(* ===== verification/PcapNgWitness.v ===== *)
(** A concrete pcapng capture, from the encoder to the handlers, on the
    simulated kernel: two interfaces, one with nanosecond time stamps and one
    with the default resolution, and a block of a type that is skipped. *)
From S2P Require Import Prelude Outcome Result Kernel SimKernel ScopedFd TimerQueue EventLoop Recorder.
From S2P Require Import ReactorWitness PacketReceiver PcapFormat Float64 PcapReceiver PcapDispatch.
From S2P Require Import PcapFrames PcapReplay PcapOpen PcapNg PcapNgReplay PcapWitness.

(** Option 9 with exponent 9: nanoseconds; option 1 is a comment. *)
Definition nano_options : list ng_option := [NgOption 1 [104; 105; 33]; NgOption 9 [9]].

Definition ng_data1 : list Z := encode_packet packet1.
Definition ng_data3 : list Z := encode_packet packet3.

Definition demo_blocks : list ng_block :=
  [NgInterface DLT_EN10MB 65535 nano_options true;
   NgInterface DLT_EN10MB 65535 [] false;
   NgPacket 0 0 3000000007 (caplen_of ng_data1) ng_data1 [];
   NgOther 4 [1; 2; 3; 4];
   NgPacket 1 0 2000005 (caplen_of ng_data1) ng_data1 [0; 0];
   NgPacket 1 0 2000006 (caplen_of ng_data3) ng_data3 [0]].

(** In the byte order that is not the machine's. *)
Definition demo_ng_file : list Z := encode_ng_file true (replicate 12 0) demo_blocks [7].

Definition ng_boot : pcap_world :=
  World no_tasks raw_pcap (Sim.set_files [("demo.pcapng"%string, demo_ng_file)] ∅ (sim_boot 3600000000000)).
Definition ng_looped : pcap_world := final EventLoop_new ng_boot.
Definition ng_made : pcap_world := final (PcapReceiver_new (config_of STEP)) ng_looped.
Definition ng_subscribed : pcap_world := final (subscribe true 9000 5 77) ng_made.

(** The two packets to port 9000, with the time stamps of their interfaces. *)
Example ng_run_log :
  (s_log ∘ w_sys) (final (open true "demo.pcapng" ;; steps (recorder Sim.add_log) 9) ng_subscribed) =
    [Delivery 77 5 (6295552 + 28 + 40 + 20 + 28 + 46) 2 OK (TimeSpec 3 7);
     Delivery 77 5 (6295552 + 28 + 40 + 20 + 80 + 16 + 28 + 46) 2 OK (TimeSpec 2 5000)].
Proof. vm_compute. reflexivity. Qed.

(** A packet of the first interface comes before the block of the second one.
    Played through, the file has its second packet at 2 s and 5 us; after a
    [rewind] behind the first packet the second interface is entered as the
    third, and the packet is read with the resolution of the first. *)
Definition early_blocks : list ng_block :=
  [NgInterface DLT_EN10MB 65535 nano_options true;
   NgPacket 0 0 3000000007 (caplen_of ng_data1) ng_data1 [];
   NgInterface DLT_EN10MB 65535 [] false;
   NgPacket 1 0 2000005 (caplen_of ng_data1) ng_data1 [0; 0]].

Definition early_boot : pcap_world :=
  final (EventLoop_new ;; PcapReceiver_new (config_of STEP) ;; subscribe true 9000 5 77)
    (World no_tasks raw_pcap (Sim.set_files
      [("early.pcapng"%string, encode_ng_file false (replicate 12 0) early_blocks [])] ∅ (sim_boot 3600000000000))).

Example rewind_misnumbers :
  let run replay := map dl_ts ((s_log ∘ w_sys) (final (open true "early.pcapng" ;; replay) early_boot)) in
  run (steps (recorder Sim.add_log) 5) = [TimeSpec 3 7; TimeSpec 2 5000] /\
  run (steps (recorder Sim.add_log) 1 ;; rewind true ;; steps (recorder Sim.add_log) 5) =
    [TimeSpec 3 7; TimeSpec 3 7; TimeSpec 0 2000005].
Proof. split; vm_compute; reflexivity. Qed.

Lemma ng_opens :
  opens "demo.pcapng" (w_sys ng_subscribed) 5 file_addr demo_ng_file
    (after_open "demo.pcapng" 5 file_addr demo_ng_file (w_sys ng_subscribed)).
Proof. split; [split; [vm_compute; reflexivity|lia]|vm_compute; reflexivity|vm_compute; reflexivity|reflexivity]. Qed.

Lemma ng_subscribed_fields :
  m_hotHandler (w_obj ng_subscribed) = 0 /\ mode (m_pcapConfig (w_obj ng_subscribed)) = STEP /\
  m_linkType (w_obj ng_subscribed) = 0 /\ table_of (w_obj ng_subscribed) = NgTable ∅ 0.
Proof. vm_compute. repeat split; reflexivity. Qed.

Lemma demo_options_ok : Forall option_ok nano_options.
Proof.
  repeat constructor; try (vm_compute; congruence); try (cbn; unfold is_u8; lia).
Qed.

Lemma demo_blocks_ok : Forall (block_ok true) (section_header true (replicate 12 0) :: demo_blocks).
Proof.
  assert (H16 : is_u16 DLT_EN10MB) by (unfold is_u16, DLT_EN10MB; lia).
  pose proof demo_options_ok. unfold demo_blocks.
  repeat (apply Forall_cons; split); [..|apply Forall_nil_2];
    (split; [vm_compute; split; congruence|]); cbn [section_header]; repeat split; auto;
    vm_compute; congruence.
Qed.

Lemma demo_described : described (NgTable ∅ 0) (section_header true (replicate 12 0) :: demo_blocks).
Proof.
  split; [exact I|]. split; [exact I|]. split; [exact I|].
  split; [eexists; split; [vm_compute; reflexivity|vm_compute; congruence]|]. split; [exact I|].
  split; [eexists; split; [vm_compute; reflexivity|vm_compute; congruence]|].
  split; [eexists; split; [vm_compute; reflexivity|vm_compute; congruence]|exact I].
Qed.

Lemma pcapng_file_replayed_witness :
  opens "demo.pcapng" (w_sys ng_subscribed) 5 file_addr demo_ng_file
    (after_open "demo.pcapng" 5 file_addr demo_ng_file (w_sys ng_subscribed)) /\
  exists w', (r ← open true "demo.pcapng"; more ← steps (recorder Sim.add_log) 4; mret (r, more)) ng_subscribed =
      Ret (ResultVoid.success, false) w' /\ m_finished (w_obj w') = true.
Proof.
  split; [apply ng_opens|]. destruct ng_subscribed_fields as (Hh & Hm & Hl & Ht).
  destruct (pcapng_file_replayed true Sim.add_log "demo.pcapng" ng_subscribed 5 file_addr true
    (replicate 12 0) demo_blocks [7] _ 4 (or_introl eq_refl) ng_opens) as (p' & E & Hf).
  - rewrite length_replicate. lia.
  - apply u8_list. vm_compute. reflexivity.
  - exact demo_blocks_ok.
  - rewrite Ht. exact demo_described.
  - cbn. lia.
  - rewrite Hm. discriminate.
  - rewrite Hl. discriminate.
  - intros H. destruct (H Hh).
  - cbn. lia.
  - eexists. split; [exact E|exact Hf].
Defined.
