(* ===== verification/ReplayApp.v ===== *)
(** Program [examples/pcap_replay.cc]: replays a capture file from the command
    line, once or several times, and counts the packets of one port.

    The memory of the program is the context of its packet handler and the
    lines it writes; it is the second half of the kernel state ([AppKernel]).
    [getopt] (from the C library, not under src/) and the texts of error codes
    are parameters; [atoi] is the standard function.  What [getopt] finds is a
    value: an option with its argument, or, for an unknown option or a missing
    argument, the line it writes on the error stream before it returns '?' (the
    program leaves [opterr] at 1, and its option string does not start with a
    colon). *)
From Stdlib Require Import Ascii.
From stdpp Require Import pretty.
From S2P Require Import Prelude Outcome Result Kernel SimKernel ScopedFd TimerQueue EventLoop Recorder.
From S2P Require Import EventLoopFacts TimerFacts Waking AppKernel Float64 PcapFormat PacketReceiver PcapReceiver.

Local Open Scope string_scope.
Local Open Scope Z_scope.

(** [struct ReplayContext] *)
Record ReplayContext := MkReplayContext { rc_quiet : bool; totalPackets : Z; totalBytes : Z }.

(** The context and the lines on the two output streams, oldest first. *)
Record replay_app := MkApp { replayCtx : ReplayContext; cout : list string; cerr : list string }.

Definition app_start : replay_app := MkApp (MkReplayContext false 0 0) [] [].

(** The addresses of [onPacket] and of [replayCtx]. *)
Definition onPacket_ptr : Z := 1.
Definition replayCtx_ptr : Z := 1.

Definition packet_line (size : Z) (ts : timespec) : string :=
  "[Replay] Got " +:+ pretty size +:+ " bytes at PCAP time " +:+ pretty (tv_sec ts).

(** [void onPacket(void* context, const uint8_t*, size_t size, uint32_t, struct timespec ts)] *)
Definition onPacket (size : Z) (ts : timespec) (a : replay_app) : replay_app :=
  let ctx := replayCtx a in
  let ctx := MkReplayContext (rc_quiet ctx) (u64 (totalPackets ctx + 1)) (u64 (totalBytes ctx + size)) in
  MkApp ctx (if rc_quiet ctx then cout a else (cout a ++ [packet_line size ts])%list) (cerr a).

(** A call of a packet handler: [onPacket] is the only function of the program
    whose address is taken. *)
Definition handle_packet (a : replay_app) (d : delivery) : replay_app :=
  if dl_handler d =? onPacket_ptr then onPacket (dl_len d) (dl_ts d) a else a.

(** ** [std::atoi] *)

Definition is_space (c : ascii) : bool :=
  let n := Z.of_nat (nat_of_ascii c) in (n =? 32) || ((9 <=? n) && (n <=? 13)).

Definition digit_of (c : ascii) : option Z :=
  let n := Z.of_nat (nat_of_ascii c) - 48 in if (0 <=? n) && (n <=? 9) then Some n else None.

Fixpoint skip_spaces (s : string) : string :=
  match s with
  | String c s' => if is_space c then skip_spaces s' else s
  | EmptyString => s
  end.

Fixpoint digits (s : string) (acc : Z) : Z :=
  match s with
  | String c s' => match digit_of c with Some d => digits s' (10 * acc + d) | None => acc end
  | EmptyString => acc
  end.

(** The value of the text; a value that is not an [int] is undefined. *)
Definition atoi_value (s : string) : Z :=
  match skip_spaces s with
  | String "-" s' => - digits s' 0
  | String "+" s' => digits s' 0
  | s' => digits s' 0
  end.

(** One result of [getopt]. *)
Inductive getopt_result :=
  | Found (opt : ascii) (optarg : string)
  | Refused (diagnostic : string).

Section ReplayApp.
Context {K : Type} {RK : ReactorKernel K} {MK : MemoryKernel K} {FK : FileKernel K}.
Notation W := (world (task Empty_set) PcapReceiver (K * replay_app)).
Notation Mw := (M W).
Context (ndebug : bool).

Definition atoi (s : string) : Mw Z := s32 (atoi_value s).

(** The results of [getopt(argc, argv, "fn:p:q")] until it returns -1; then
    [optind] and the elements of [argv], which it may have permuted (but for the
    first). *)
Context (getopt : list string -> list getopt_result * Z * list string).
Context (message : error_code -> string).

Definition on_app (f : replay_app -> replay_app) : Mw unit := modify (fun w => with_sys (fst (w_sys w), f (snd (w_sys w))) w).
Definition print (line : string) : Mw unit :=
  on_app (fun a => MkApp (replayCtx a) (cout a ++ [line])%list (cerr a)).
Definition print_error (line : string) : Mw unit :=
  on_app (fun a => MkApp (replayCtx a) (cout a) (cerr a ++ [line])%list).
Definition set_quiet (a : replay_app) : replay_app :=
  MkApp (MkReplayContext true (totalPackets (replayCtx a)) (totalBytes (replayCtx a))) (cout a) (cerr a).

Definition call_handler : Z -> Z -> Z -> Z -> Z -> timespec -> Mw unit := recorder (app_emit handle_packet).

(** The program gives the loop no function of its own. *)
Definition user_task (u : Empty_set) : Mw unit := match u with end.

(** The variables of [main] the options set. *)
Record options := MkOptions { floodMode : bool; iterations : Z; targetPort : Z }.
Definition default_options : options := MkOptions false 1 5001.

(** The loop over the options: [None] when one of them is refused, for which
    [getopt] has given the reason. *)
Fixpoint read_options (opts : list getopt_result) (o : options) : Mw (option options) :=
  match opts with
  | [] => mret (Some o)
  | Found "f"%char _ :: rest => read_options rest (MkOptions true (iterations o) (targetPort o))
  | Found "n"%char optarg :: rest =>
      n ← atoi optarg; read_options rest (MkOptions (floodMode o) n (targetPort o))
  | Found "p"%char optarg :: rest =>
      n ← atoi optarg; read_options rest (MkOptions (floodMode o) (iterations o) (u16 n))
  | Found "q"%char _ :: rest => on_app set_quiet ;; read_options rest o
  | Found _ _ :: _ => mret None
  | Refused diagnostic :: _ => print_error diagnostic ;; mret None
  end.

(** [while (!player.isFinished()) loop.runOnce(floodMode ? 0 : 1).value();] *)
Fixpoint run_until_finished (fuel : nat) (flood : bool) : Mw unit :=
  match fuel with
  | O => crash OutOfFuel
  | S fuel =>
      finished ← isFinished;
      if finished : bool then mret tt
      else
        r ← runOnce (run_pcap_task call_handler user_task) PcapReceiver.handleRead (if flood then 0 else 1);
        ResultVoid.value r ;;
        run_until_finished fuel flood
  end.

(** The body of the loop over the iterations. *)
Definition play_once (fuel : nat) (flood : bool) : Mw unit :=
  rewind ndebug ;; start ndebug ;; run_until_finished fuel flood.

Definition newline : string := String (ascii_of_nat 10) "".

(** The summary. *)
Definition print_summary : Mw unit :=
  ctx ← gets (fun w => replayCtx (snd (w_sys w)));
  print (newline +:+ "--- Replay Complete ---") ;;
  print ("Total Packets Processed: " +:+ pretty (totalPackets ctx)) ;;
  print ("Total Bytes Processed:   " +:+ pretty (totalBytes ctx) +:+ " (" +:+
         pretty (totalBytes ctx / 1024 / 1024) +:+ " MB)").

(** [main] between the constructors and the destructors. *)
Definition replay (fuel : nat) (o : options) (pcapFile : string) : Mw Z :=
  print "Starting Replay..." ;;
  print ("Mode: " +:+ if floodMode o then "FLOOD" else "TIMED") ;;
  print ("Iterations: " +:+ pretty (iterations o)) ;;
  r ← open ndebug pcapFile;
  if negb (ResultVoid.has_value r) then
    print_error ("Failed to open PCAP: " +:+ message (ResultVoid.error r)) ;; mret 1
  else
    res ← subscribe ndebug (targetPort o) replayCtx_ptr onPacket_ptr;
    if negb (Result.has_value res) then
      print_error ("Failed to subscribe: " +:+ message (Result.error res)) ;; mret 1
    else
      for_n (iterations o) (fun _ => play_once fuel (floodMode o)) ;;
      print_summary ;;
      mret 0.

Definition replay_config (o : options) : PcapConfig :=
  MkPcapConfig default_config (if floodMode o then FLOOD else TIMED) f64_one.

(** [int main(int argc, char** argv)]; the receiver, then the loop, are
    destroyed when it returns. *)
Definition main (fuel : nat) (argv : list string) : Mw Z :=
  let '(opts, optind, args) := getopt argv in
  o ← read_options opts default_options;
  match o with
  | None =>
      print_error ("Usage: " +:+ default "" (args !! 0%nat) +:+ " [-f] [-n iterations] [-p port] <file.pcap>") ;;
      mret 1
  | Some o =>
      if Z.of_nat (length args) <=? optind then
        print_error "Expected PCAP file path after options." ;; mret 1
      else
        let pcapFile := default "" (args !! Z.to_nat optind) in
        EventLoop_new ;;
        PcapReceiver_new (replay_config o) ;;
        code ← replay fuel o pcapFile;
        PcapReceiver_delete ;;
        EventLoop_delete ;;
        mret code
  end.
End ReplayApp.

Example atoi_examples :
  atoi_value "42" = 42 /\ atoi_value "  -17x" = -17 /\ atoi_value "+5" = 5 /\ atoi_value "port" = 0.
Proof. by vm_compute. Qed.
