(* ===== verification/ReplayCapture.v ===== *)
(** The captures [pcap_replay] plays, in either format: the bytes of the file,
    the calls of [onPacket] a pass over it owes, and the interface of
    [Playback] for the receiver that has opened it. *)
From S2P Require Import Prelude Outcome Result Kernel SimKernel ScopedFd TimerQueue EventLoop Recorder.
From S2P Require Import EventLoopFacts PcapFormat Float64 PacketReceiver PcapReceiver PcapDispatch PcapFrames.
From S2P Require Import PcapReplay PcapOpen PcapNg PcapNgReplay PcapControl Playback ClassicPlayback NgPlayback.
From S2P Require Import Waking AppKernel ReplayApp.

(** ** The handlers of the calls *)

(** Every call owed by a receiver with one subscription is a call of its
    handler with its context. *)
Definition sent_to (h ctx : Z) (d : delivery) : Prop := dl_handler d = h /\ dl_context d = ctx.

Lemma delivery_subscribed p port ctx h ts caplen packet lt :
  m_portTable p = {[port := MkSubscription ctx h]} ->
  Forall (sent_to h ctx) (option_list (delivery_of ts caplen packet lt p)).
Proof.
  intros Ht. unfold delivery_of. destruct (locate_udp _ _ _) as [off|]; [|constructor]. cbn [mbind option_bind].
  destruct (subscribed p _) as [s|] eqn:Es; [|constructor]. cbn [mbind option_bind].
  destruct (_ && _); [|constructor]. repeat constructor; cbn;
    unfold subscribed in Es; rewrite Ht in Es; destruct ({[port := _]} !! _) as [s'|] eqn:El; try done;
    apply lookup_singleton_Some in El as [_ <-]; cbn in Es; destruct (h =? 0); by simplify_eq.
Qed.

Lemma deliveries_subscribed p a rs port ctx h :
  m_portTable p = {[port := MkSubscription ctx h]} -> Forall (sent_to h ctx) (deliveries p a rs).
Proof.
  intros Ht. revert a. induction rs as [|r rs IH]; intros a; [constructor|]. cbn [deliveries].
  apply Forall_app. split; [|apply IH]. destruct (_ =? _); [by eapply delivery_subscribed|constructor].
Qed.

Lemma ng_calls_subscribed p sw t a bs port ctx h :
  m_portTable p = {[port := MkSubscription ctx h]} -> Forall (sent_to h ctx) (ng_calls p sw t a bs).
Proof.
  intros Ht. revert t a. induction bs as [|b bs IH]; intros t a; [constructor|]. cbn [ng_calls].
  apply Forall_app. split; [|apply IH]. destruct b; [constructor| |constructor]. cbn [block_calls].
  destruct (_ !! _); [|constructor]. destruct (_ =? _); [by eapply delivery_subscribed|constructor].
Qed.

Lemma ng_calls_ext p p' sw t a bs :
  m_mapping p' = m_mapping p -> m_portTable p' = m_portTable p -> ng_calls p' sw t a bs = ng_calls p sw t a bs.
Proof.
  intros Hm Ht. revert t a. induction bs as [|b bs IH]; intros t a; [done|]. cbn [ng_calls]. rewrite IH. f_equal.
  destruct b; try done. cbn [block_calls]. destruct (_ !! _); [|done]. destruct (_ =? _); [|done].
  unfold delivery_of, subscribed. by rewrite Hm, Ht.
Qed.

(** ** Captures *)

Inductive capture :=
| ClassicFile (sw nano : bool) (rest : list Z) (network : Z) (rs : list pcap_record) (tail : list Z)
| NgFile (sw : bool) (rest : list Z) (bs : list ng_block) (tail : list Z).

Definition capture_bytes (c : capture) : list Z :=
  match c with
  | ClassicFile sw nano rest network rs tail => encode_file sw nano rest network rs tail
  | NgFile sw rest bs tail => encode_ng_file sw rest bs tail
  end.

Definition ng_blocks (sw : bool) (rest : list Z) (bs : list ng_block) : list ng_block :=
  section_header sw rest :: bs.

(** A pcapng file that can be played [passes] times. *)
Record ng_given (passes : nat) (sw : bool) (rest : list Z) (bs : list ng_block) (tail : list Z) : Prop := {
  gn_rest : (8 <= length rest)%nat;
  gn_bytes : Forall is_u8 (encode_ng_file sw rest bs tail);
  gn_blocks : Forall (block_ok sw) (ng_blocks sw rest bs);
  gn_described : described (NgTable ∅ 0) (ng_blocks sw rest bs);
  gn_tail : (length tail < 8)%nat;
  gn_room : interfaces (ng_blocks sw rest bs) * Z.max 1 (Z.of_nat passes) < 2 ^ 32
}.

Definition capture_given (passes : nat) (c : capture) : Prop :=
  match c with
  | ClassicFile sw nano rest network rs tail => file_given sw nano rest network rs tail
  | NgFile sw rest bs tail => ng_given passes sw rest bs tail
  end.

(** The records, or packet blocks, of a capture. *)
Definition capture_packets (c : capture) : nat :=
  match c with
  | ClassicFile _ _ _ _ rs _ => length rs
  | NgFile sw rest bs _ => packets (ng_blocks sw rest bs)
  end.

(** Their time stamps. *)
Definition capture_times (c : capture) : list timespec :=
  match c with
  | ClassicFile _ nano _ _ rs _ => (fun r => pcap_timespec nano (r_sec r) (r_frac r)) <$> rs
  | NgFile sw rest bs _ => ng_times (NgTable ∅ 0) (ng_blocks sw rest bs)
  end.

Lemma capture_times_length c : length (capture_times c) = capture_packets c.
Proof. destruct c; [apply length_fmap|apply ng_times_length]. Qed.

(** A receiver of the file [bytes], mapped at [addr], with the subscription of
    the program. *)
Definition player (addr : Z) (bytes : list Z) (nano : bool) (network port : Z) : PcapReceiver :=
  MkPcapReceiver (MkPacketReceiver default_config 0 ∅ 0 0 0 0 []) (MkPcapConfig default_config FLOOD f64_one) (-1)
    (Mapping addr bytes) 0 0 network {[htons port := MkSubscription replayCtx_ptr onPacket_ptr]} (TimeSpec 0 0) 0
    true false false nano ∅ 0 false 0 0 0.

(** The calls owed for a pass over the file mapped at [addr]. *)
Definition capture_calls (addr : Z) (c : capture) (port : Z) : list delivery :=
  match c with
  | ClassicFile sw nano rest network rs tail =>
      deliveries (player addr (capture_bytes c) nano network port) (addr + sizeof_pcap_file_header) rs
  | NgFile sw rest bs tail =>
      ng_calls (player addr (capture_bytes c) true 0 port) sw (NgTable ∅ 0) addr (ng_blocks sw rest bs)
  end.

Lemma capture_calls_handler addr c port :
  Forall (fun d => dl_handler d = onPacket_ptr) (capture_calls addr c port).
Proof.
  apply (Forall_impl (sent_to onPacket_ptr replayCtx_ptr)); [|by intros d [? _]].
  destruct c; [by eapply deliveries_subscribed|by eapply ng_calls_subscribed].
Qed.

(** ** Opening a capture *)

Section Opened.
Context {U Y : Type} {RK : ReactorKernel Y} {MK : MemoryKernel Y} {FK : FileKernel Y}.
Notation W := (world (task U) PcapReceiver Y).
Context (ndebug : bool) (emit : delivery -> Y -> Y).
Implicit Types (w : W) (p : PcapReceiver) (c : capture).

(** The receiver [open] leaves. *)
Definition opened_as (f addr : Z) c p : PcapReceiver :=
  match c with
  | ClassicFile sw nano _ network _ _ => classic sw nano network (mapped_at f addr (capture_bytes c) p)
  | NgFile sw _ _ _ => set_format true sw true (mapped_at f addr (capture_bytes c) p)
  end.

(** A receiver that has not opened a file yet, nor delivered a packet. *)
Definition unopened p : Prop :=
  m_hotHandler p = 0 /\ m_finished p = false /\ m_linkType p = 0 /\ table_of p = NgTable ∅ 0.

Definition subscribe_onPacket (port : Z) p : PcapReceiver :=
  set_portTable (<[htons port := MkSubscription replayCtx_ptr onPacket_ptr]> (m_portTable p)) p.

Lemma open_capture path w f addr c y' passes :
  owner_thread ndebug w -> opens path (w_sys w) f addr (capture_bytes c) y' -> capture_given passes c ->
  open ndebug path w = Ret ResultVoid.success (World (w_loop w) (opened_as f addr c (w_obj w)) y').
Proof.
  intros Ho Hop Hc. destruct c as [sw nano rest network rs tail|sw rest bs tail].
  - by apply (open_classic ndebug path w f addr sw nano rest network rs tail y').
  - destruct Hc. by apply (open_ng ndebug path w f addr sw rest bs tail y').
Qed.

(** The capture can be played [passes] times. *)
Lemma capture_rewindable path w f addr c y' passes port :
  owner_thread ndebug w -> opens path (w_sys w) f addr (capture_bytes c) y' -> capture_given passes c ->
  unopened (w_obj w) -> m_portTable (w_obj w) = ∅ ->
  let p := subscribe_onPacket port (opened_as f addr c (w_obj w)) in
  exists I R, (forall k, Reader U Y emit (I k)) /\
    Rewindable U Y ndebug I R (capture_times c) [] (capture_calls addr c port) /\ R passes p.
Proof.
  intros Ho Hop Hc (Hhot & Hfin & Hlt & Htable) Hport p.
  assert (Hok : hot_ok p) by (intros Hne; unfold p in Hne; destruct c; by cbn in Hne).
  destruct c as [sw nano rest network rs tail|sw rest bs tail]; cbn [opened_as capture_bytes] in *.
  - destruct (open_classic ndebug path w f addr sw nano rest network rs tail y' Ho Hop Hc) as (_ & Hfo & Hst & Hend).
    assert (HR : holds_records p rs tail) by (destruct Hc as [_ _ _ [? _] [_ ?]]; by split).
    assert (Hcalls : capture_calls addr (ClassicFile sw nano rest network rs tail) port = deliveries p (first_record p) rs).
    { symmetry. apply deliveries_ext; try done. cbn. by rewrite Hport. }
    rewrite Hcalls. exists (fun _ => classic_left p rs), (fun _ q => exists tss ds, classic_left p rs tss ds q).
    split; [intros _; by eapply classic_reader|]. split; [apply (classic_rewindable ndebug p rs)|].
    exists (record_time p <$> rs), (deliveries p (first_record p) rs). split; [split_and!; [by destruct Hfo|done..]|].
    split; [done|]. exists [], rs. split_and!; try done. change (records_size []) with 0. by rewrite Z.add_0_r.
  - destruct Hc as [Hrest Hb Hblocks Hdesc Htail Hroom].
    destruct (open_ng ndebug path w f addr sw rest bs tail y' Ho Hop Hrest Hb Hblocks) as (_ & Hfo & Hst & Hend).
    fold (ng_blocks sw rest bs) in *. pose proof (interfaces_nonneg (ng_blocks sw rest bs)).
    assert (HB : holds_blocks p (ng_blocks sw rest bs) tail) by (split; try done; nia).
    assert (Hcalls : capture_calls addr (NgFile sw rest bs tail) port = owed p [] (ng_blocks sw rest bs)).
    { unfold owed, behind. cbn [encode_blocks fmap list_fmap concat length]. change (Z.of_nat 0) with 0. rewrite Z.add_0_r.
      symmetry. apply ng_calls_ext; [done|]. cbn. by rewrite Hport. }
    rewrite Hcalls. exists (ng_left p (ng_blocks sw rest bs)), (ng_between p (ng_blocks sw rest bs)).
    split; [intros k; by eapply ng_reader|]. split; [by apply (ng_rewindable p (ng_blocks sw rest bs) tail)|].
    assert (Ht : table_of p = NgTable ∅ 0) by exact Htable.
    split; [|split; [done|]].
    + split; [by destruct Hfo|]. split_and!; try done. cbn. by rewrite Hlt.
    + rewrite Ht. cbn [nt_count]. split; [by left|]. nia.
Qed.
End Opened.
