(* ===== verification/ReplayFacts.v ===== *)
(** The program [pcap_replay]: what [main] does before and after the passes,
    in either mode, and the FLOOD mode: every pass over the file ends, and the
    handler is called once per pass for every packet it is owed. *)
From stdpp Require Import pretty.
From S2P Require Import Prelude Outcome Result Kernel SimKernel ScopedFd TimerQueue EventLoop Recorder.
From S2P Require Import EventLoopFacts TimerFacts SourceFacts DispatchFacts Waking AppKernel.
From S2P Require Import PcapFormat Float64 PacketReceiver PcapReceiver PcapDispatch PcapFrames PcapReplay PcapOpen.
From S2P Require Import PcapNg PcapNgReplay PacketFacts PcapControl Playback FloodRun ReplayApp ReplayCapture.

(** ** The counters *)

Definition payload_bytes (ds : list delivery) : Z := foldr (fun d n => dl_len d + n) 0 ds.

Lemma payload_bytes_app ds1 ds2 : payload_bytes (ds1 ++ ds2) = payload_bytes ds1 + payload_bytes ds2.
Proof. induction ds1 as [|d ds1 IH]; [done|]. unfold payload_bytes in *. cbn [app foldr]. lia. Qed.

Lemma handled_totals a ds :
  Forall (fun d => dl_handler d = onPacket_ptr) ds ->
  is_u64 (totalPackets (replayCtx a)) -> is_u64 (totalBytes (replayCtx a)) ->
  let ctx := replayCtx (foldl handle_packet a ds) in
  totalPackets ctx = u64 (totalPackets (replayCtx a) + Z.of_nat (length ds)) /\
  totalBytes ctx = u64 (totalBytes (replayCtx a) + payload_bytes ds).
Proof.
  intros Hds. revert a. induction Hds as [|d ds Hd Hds IH]; intros a Hp Hb.
  - cbn. by rewrite !Z.add_0_r, !u64_small.
  - cbn [foldl length payload_bytes foldr]. fold (payload_bytes ds).
    assert (Ha : handle_packet a d = onPacket (dl_len d) (dl_ts d) a)
      by (unfold handle_packet; by rewrite Hd, Z.eqb_refl).
    destruct (IH (handle_packet a d)) as [-> ->]; rewrite Ha; cbn [onPacket replayCtx totalPackets totalBytes];
      [unfold is_u64, u64; apply Z.mod_pos_bound; lia..|].
    unfold u64. rewrite !Zplus_mod_idemp_l. split; f_equal; lia.
Qed.

(** The same calls, [n] times over. *)
Lemma repeated_calls n ds :
  Z.of_nat (length (concat (replicate n ds))) = Z.of_nat n * Z.of_nat (length ds) /\
  payload_bytes (concat (replicate n ds)) = Z.of_nat n * payload_bytes ds.
Proof.
  induction n as [|n [IH1 IH2]]; [done|]. cbn [replicate concat]. rewrite length_app, payload_bytes_app, IH2. lia.
Qed.

(** ** The passes *)

Section Passes.
Context {K : Type} {RK : ReactorKernel K} {RL : ReactorLaws K} {WK : WakingKernel K}
  {MK : MemoryKernel K} {FK : FileKernel K} {SL : StartupLaws K}.
Notation Y := (K * replay_app)%type.
Notation W := (world (task Empty_set) PcapReceiver Y).
Context (ndebug : bool) (sp : source_ptr).
(** A file that can be played several times: [n0] packets, for which the
    calls [pass] are owed. *)
Context (I : nat -> nat -> list delivery -> PcapReceiver -> Prop) (R : nat -> PcapReceiver -> Prop)
  (n0 : nat) (pass : list delivery).
Context {PI : forall k, Playable Empty_set Y (app_emit (K := K) handle_packet) (I k)}
  {RI : Rewindable Empty_set Y ndebug I R n0 0%nat pass}.
Implicit Types w : W.

Notation emit := (app_emit (K := K) handle_packet).
Notation live k := (live (I k) sp).
Notation calm := (calm sp).
Notation flooding k := (flooding (I k)).
Notation quiet := (quiet (emit := emit)).

(** A pass ends: one turn of the loop for every packet left, at most, then one
    to find the end. *)
Lemma run_until_finished_ends k fuel n ds w :
  live k n ds w -> (if m_finished (w_obj w) then 0 < fuel else S n < fuel)%nat ->
  exists w', run_until_finished fuel true w = Ret tt w' /\
    live k 0 [] w' /\ m_finished (w_obj w') = true /\ same_setup (w_obj w) (w_obj w') /\
    snd (w_sys w') = foldl handle_packet (snd (w_sys w)) ds.
Proof.
  revert n ds w. induction fuel as [|fuel IH]; intros n ds w Hl Hfuel; [by destruct (m_finished (w_obj w)); lia|].
  cbn [run_until_finished]. unfold isFinished, this. run_steps.
  destruct (m_finished (w_obj w)) eqn:Ef.
  - exists w. assert (n = 0%nat) as -> by (by apply (live_flood _ _ _ _ _ Hl)).
    assert (ds = []) as -> by (eapply play_nothing, Hl). done.
  - destruct (runOnce_moved (I k) user_task PcapReceiver.handleRead sp n ds 0 w Hl Ef)
      as (n1 & ds1 & w1 & E1 & Hl1 & [(d & -> & Hmem) Hset _ _] & Hg).
    rewrite (bind_Ret _ _ _ _ _ E1). run_steps. cbn in Hmem.
    destruct (IH n1 ds1 w1 Hl1) as (w2 & E2 & Hl2 & Hf2 & Hs2 & Hm2).
    { destruct Hg as [->|Hlt]; [lia|]. destruct (m_finished (w_obj w1)); lia. }
    exists w2. split; [exact E2|]. split_and!; [done|done|by etransitivity|].
    by rewrite Hm2, Hmem, foldl_app.
Qed.

(** The state between two passes, with [k] to come. *)
Definition between (k : nat) w : Prop :=
  calm (w_loop w) (w_sys w) /\ armed w /\ R k (w_obj w) /\ owner_thread ndebug w /\
  mode (m_pcapConfig (w_obj w)) = FLOOD /\ m_mappedData (w_obj w) <> 0.

Lemma calm_Inv w : calm (w_loop w) (w_sys w) -> Inv 0 w.
Proof.
  intros [Hok _ [Hreg Hl] _ _ _]. split; [done|]. split; [|by split; [intros i p Hi; lia|]].
  intros f p E. rewrite Hreg in E. apply lookup_singleton_Some in E as [_ <-].
  destruct sp; [done|]. cbn in *. by eexists.
Qed.

(** [start] schedules the first batch of a pass. *)
Lemma start_live k n ds w :
  calm (w_loop w) (w_sys w) -> armed w -> flooding k n ds (w_obj w) -> owner_thread ndebug w ->
  m_firstPacket (w_obj w) = true ->
  exists w', start ndebug w = Ret tt w' /\ live k n ds w' /\ w_obj w' = w_obj w /\ snd (w_sys w') = snd (w_sys w).
Proof.
  intros Hc Ha HF Ho Hfirst. unfold start. rewrite (bind_Ret _ _ _ _ _ (checkThread_passes ndebug w Ho)), bind_this.
  pose proof HF as (HI & Hmode & Hmap & Hfin). destruct (Z.eqb_spec (m_mappedData (w_obj w)) 0); [done|].
  rewrite bind_assign, Hmode, decide_False by done.
  assert (Hw : with_obj (fun p => set_timing (m_pcapStartTs p) (m_wallStartTs p) true p) w = w).
  { destruct w as [l [] y]. cbn in Hfirst. by subst. }
  rewrite Hw. set (e := now_of w + 0 * 1000000).
  destruct (runAfter_frame quiet 0 (Some ProcessBatch) w (calm_ok _ _ _ Hc)) as (y & E & Hq & Hok);
    [unfold max_delay; lia|]. fold e in E, Hok.
  pose proof (safe_armed _ (runAfter_safe 0 (Some ProcessBatch) ltac:(unfold max_delay; lia)) 0 w (calm_Inv w Hc) Ha) as Hsafe.
  unfold wp in Hsafe. rewrite E in Hsafe. rewrite (bind_Ret _ _ _ _ _ E).
  eexists. split; [reflexivity|]. cbn [w_loop w_obj w_sys].
  assert (Hq0 : quiet (w_sys w) y) by (etransitivity; [apply frame_now|done]).
  split; [|split; [done|by destruct Hq0 as (_ & _ & _ & _ & ?)]].
  split; [|apply Hsafe|done|].
  - apply (calm_loop _ (w_loop w)); try done; [by eapply calm_quiet| |apply Hc].
    apply set_insert_Forall.
    + split_and!; [done|done|]. cbn [expiration]. destruct Hq as (Hclk & _).
      rewrite (proj2 (steady_now_clock (w_sys w))) in Hclk. etransitivity; [|exact Hclk]. unfold e, now_of. lia.
    + eapply Forall_impl; [exact (calm_timers _ _ _ Hc)|]. intros t (? & ? & ?).
      split_and!; [done..|]. destruct Hq0 as (Hclk & _). by etransitivity.
  - intros _. left. cbn. intros Hnil.
    destruct (set_insert_key (MkTimer e 0 (Some ProcessBatch) (m_nextTimerId (w_loop w)) false)
      (m_timers (w_loop w))) as (t & Hin & _). rewrite Hnil in Hin. by apply elem_of_nil in Hin.
Qed.

Lemma play_once_ends k fuel w :
  between (S k) w -> (S n0 < fuel)%nat ->
  exists w', play_once ndebug fuel true w = Ret tt w' /\ between k w' /\
    same_setup (w_obj w) (w_obj w') /\ snd (w_sys w') = foldl handle_packet (snd (w_sys w)) pass.
Proof.
  intros (Hc & Ha & HRk & Ho & Hmode & Hmap) Hfuel. unfold play_once.
  destruct (rewind_pass k w Ho HRk) as (p1 & E1 & HI1 & Hs1 & Hf1 & Hfirst).
  rewrite (bind_Ret _ _ _ _ _ E1). set (w1 := World _ p1 _).
  assert (HF1 : flooding k n0 pass p1).
  { unfold flooding, m_mappedData in *. destruct Hs1 as (-> & -> & _). by rewrite Hf1. }
  assert (Ho1 : owner_thread ndebug w1).
  { destruct Ho as [Ho|Ho]; [by left|right]. destruct Hs1 as (_ & _ & Hb). cbn [base PcapReceiver_HasBase w1 w_obj] in *. by rewrite Hb. }
  destruct (start_live k _ _ w1 Hc Ha HF1 Ho1 Hfirst) as (w2 & E2 & Hl2 & Hobj2 & Hm2).
  rewrite (bind_Ret _ _ _ _ _ E2).
  destruct (run_until_finished_ends k fuel _ _ w2 Hl2) as (w3 & E3 & Hl3 & Hf3 & Hs3 & Hm3).
  { rewrite Hobj2. cbn [w1 w_obj]. by rewrite Hf1. }
  rewrite Hobj2 in Hs3. cbn [w1 w_obj] in Hs3.
  assert (Hs : same_setup (w_obj w) (w_obj w3)) by (by etransitivity).
  exists w3. split; [exact E3|]. split; [|split; [done|by rewrite Hm3, Hm2]].
  split_and!; [apply Hl3|apply Hl3|eapply pass_over; [apply Hl3|done]| | |].
  - destruct Ho as [Ho|Ho]; [by left|right]. rewrite (one_thread (w_sys w)), Ho.
    destruct Hs as (_ & _ & Hb). cbn [base PcapReceiver_HasBase]. by rewrite Hb.
  - by destruct Hs as (-> & _).
  - unfold m_mappedData in *. by destruct Hs as (_ & -> & _).
Qed.

(** As many passes as are allowed. *)
Lemma passes_end fuel (js : list Z) w :
  between (length js) w -> (S n0 < fuel)%nat ->
  exists w', for_each js (fun _ => play_once ndebug fuel true) w = Ret tt w' /\
    same_setup (w_obj w) (w_obj w') /\
    snd (w_sys w') = foldl handle_packet (snd (w_sys w)) (concat (replicate (length js) pass)).
Proof.
  intros Hb Hfuel. revert w Hb. induction js as [|j js IH]; intros w Hb; [by exists w|].
  cbn [for_each length replicate concat].
  destruct (play_once_ends _ fuel w Hb Hfuel) as (w1 & E1 & Hb1 & Hs1 & Hm1).
  rewrite (bind_Ret _ _ _ _ _ E1). destruct (IH w1 Hb1) as (w2 & E2 & Hs2 & Hm2).
  exists w2. split; [done|]. split; [by etransitivity|]. by rewrite Hm2, Hm1, foldl_app.
Qed.
End Passes.

(** ** Construction and destruction *)

Section Objects.
Context {U Y L : Type} {RK : ReactorKernel Y} {RL : ReactorLaws Y} {WK : WakingKernel Y}
  {MK : MemoryKernel Y} {FK : FileKernel Y} {SL : StartupLaws Y}.
Notation W := (world (task U) PcapReceiver Y).
(** Some memory that the calls leave alone. *)
Context (mem : Y -> L).
Hypothesis Hmmap : forall len flags y, mem (snd (mmap_anon len flags y)) = mem y.
Hypothesis Hmunmap : forall a len y, mem (snd (munmap a len y)) = mem y.
Hypothesis Hclose : forall f y, mem (snd (close f y)) = mem y.
Implicit Types w : W.

#[export] Instance undisturbed_order : PreOrder (undisturbed (Y := Y)).
Proof.
  split; unfold undisturbed; [intros y; split_and!; done || lia|].
  intros y1 y2 y3 (? & ? & ? & ? & ?) (? & ? & ? & ? & ?). split_and!; [lia|congruence..].
Qed.

(** A new receiver: nothing is mapped, subscribed or cached. *)
Definition new_player (config : PcapConfig) (p : PcapReceiver) : Prop :=
  m_pcapConfig p = config /\ m_port_to_fd_map (pcap_base p) = ∅ /\ m_portTable p = ∅ /\
  m_hotHandler p = 0 /\ m_finished p = false /\ m_linkType p = 0 /\ table_of p = NgTable ∅ 0.

Lemma PcapReceiver_new_run config w :
  config_ok (pc_receiver config) ->
  wp (PcapReceiver_new config) (fun _ w' =>
    w_loop w' = w_loop w /\ new_player config (w_obj w') /\ undisturbed (w_sys w) (w_sys w') /\
    m_ownerThreadId (base (w_obj w')) = this_thread_id (w_sys w) /\ mem (w_sys w') = mem (w_sys w))
    (fun _ _ => True) w.
Proof.
  intros Hc. pose proof (PacketReceiver_new_run (pc_receiver config) w Hc) as H. cbn zeta in H.
  set (mapped := mapped_size _) in H.
  set (f1 := Z.lor MAP_PRIVATE_ANONYMOUS MAP_HUGETLB) in H.
  pose proof (mmap_undisturbed mapped f1 (w_sys w)) as Hu1. pose proof (Hmmap mapped f1 (w_sys w)) as Hm1.
  destruct (mmap_anon mapped f1 (w_sys w)) as [huge y1]. cbn [snd] in *.
  pose proof (mmap_undisturbed mapped MAP_PRIVATE_ANONYMOUS y1) as Hu2.
  pose proof (Hmmap mapped MAP_PRIVATE_ANONYMOUS y1) as Hm2.
  destruct (mmap_anon mapped MAP_PRIVATE_ANONYMOUS y1) as [plain y2]. cbn [snd] in *.
  unfold PcapReceiver_new, wp. destruct ((if huge =? MAP_FAILED then plain else huge) =? MAP_FAILED).
  - rewrite bind_run, H. done.
  - destruct H as (r & E & _ & _ & _ & _ & _ & Ho & Hmap). rewrite (bind_Ret _ _ _ _ _ E).
    cbn. split_and!; try done.
    + destruct (huge =? MAP_FAILED); [by etransitivity|done].
    + destruct (huge =? MAP_FAILED); [by rewrite Hm2|done].
Qed.

(** Time passes, and the memory stays. *)
Definition left_alone w w' : Prop := mem (w_sys w') = mem (w_sys w) /\ clock (w_sys w) <= clock (w_sys w').

#[export] Instance left_alone_order : PreOrder left_alone.
Proof.
  unfold left_alone. split; [intros w; split; [done|lia]|]. intros w1 w2 w3 [? ?] [? ?]. split; [congruence|lia].
Qed.

Lemma left_munmap a len w : left_alone w (with_sys (snd (munmap a len (w_sys w))) w).
Proof. split; [apply Hmunmap|apply munmap_clock]. Qed.

Lemma left_close f w : left_alone w (with_sys (snd (close f (w_sys w))) w).
Proof. split; [apply Hclose|apply close_clock]. Qed.

(** The destructors of the receiver and of the loop return. *)
Lemma PcapReceiver_delete_run w :
  m_port_to_fd_map (pcap_base (w_obj w)) = ∅ ->
  exists w', PcapReceiver_delete w = Ret tt w' /\ left_alone w w'.
Proof.
  intros Hmap. unfold PcapReceiver_delete. rewrite bind_this.
  assert (Htail : forall w1, m_port_to_fd_map (pcap_base (w_obj w1)) = ∅ ->
    exists w', PacketReceiver_delete w1 = Ret tt w' /\ left_alone w1 w').
  { intros w1 H1. unfold PacketReceiver_delete, this_base. run_steps. cbn [base PcapReceiver_HasBase].
    rewrite H1. change (ports_of ∅) with (@nil Z). cbn [for_each]. rewrite bind_mret.
    destruct (_ && _); run_steps; (eexists; split; [reflexivity|]); [apply left_munmap|done]. }
  assert (Hfd : forall w1, m_port_to_fd_map (pcap_base (w_obj w1)) = ∅ ->
    exists w', ((if 0 <=? m_fd (w_obj w) then close_fd (m_fd (w_obj w)) else mret tt) ;;
      PacketReceiver_delete) w1 = Ret tt w' /\ left_alone w1 w').
  { intros w1 H1. destruct (0 <=? m_fd (w_obj w)).
    - unfold close_fd. run_steps. match goal with |- context [PacketReceiver_delete ?w2] => destruct (Htail w2 H1) as (w' & E & Hm) end.
      exists w'. split; [exact E|]. etransitivity; [|exact Hm]. apply left_close.
    - rewrite bind_mret. by apply Htail. }
  destruct (_ && _); run_steps; [|by apply Hfd].
  match goal with |- context [(_ ≫= _) ?w2] => destruct (Hfd w2 Hmap) as (w' & E & Hm) end.
  exists w'. split; [exact E|]. etransitivity; [|exact Hm]. apply left_munmap.
Qed.

Lemma EventLoop_delete_run w :
  exists w', EventLoop_delete w = Ret tt w' /\ left_alone w w'.
Proof.
  unfold EventLoop_delete, ScopedFd.destroy, close_fd. run_steps.
  destruct (0 <=? _); run_steps; destruct (0 <=? _); run_steps; (eexists; split; [reflexivity|]);
    repeat first [done | apply left_close | etransitivity; [|apply left_close]].
Qed.
End Objects.

(** ** The program *)

(** What the program prints before and after the passes. *)
Definition banner (o : options) (a : replay_app) : replay_app :=
  MkApp (replayCtx a) (cout a ++ ["Starting Replay..."; "Mode: " +:+ (if floodMode o then "FLOOD" else "TIMED");
    "Iterations: " +:+ pretty (iterations o)]) (cerr a).
Definition summary (a : replay_app) : replay_app :=
  let bytes := totalBytes (replayCtx a) in
  MkApp (replayCtx a) (cout a ++ [newline +:+ "--- Replay Complete ---";
    "Total Packets Processed: " +:+ pretty (totalPackets (replayCtx a));
    "Total Bytes Processed:   " +:+ pretty bytes +:+ " (" +:+ pretty (bytes / 1024 / 1024) +:+ " MB)"]) (cerr a).

Local Open Scope string_scope.
Local Open Scope Z_scope.

(** The totals after [n] passes. *)
Lemma pass_totals b n calls :
  Forall (fun d => dl_handler d = onPacket_ptr) calls ->
  totalPackets (replayCtx b) = 0 -> totalBytes (replayCtx b) = 0 ->
  let ctx := replayCtx (summary (foldl handle_packet b (concat (replicate n calls)))) in
  totalPackets ctx = u64 (Z.of_nat n * Z.of_nat (length calls)) /\
  totalBytes ctx = u64 (Z.of_nat n * payload_bytes calls).
Proof.
  intros Hcalls Hp Hb. cbn [summary replayCtx].
  destruct (handled_totals b (concat (replicate n calls))) as [-> ->];
    [by apply Forall_concat, Forall_replicate|by rewrite Hp|by rewrite Hb|].
  destruct (repeated_calls n calls) as [-> ->]. by rewrite Hp, Hb.
Qed.

Section Main.
Context {K : Type} {RK : ReactorKernel K} {RL : ReactorLaws K} {WK : WakingKernel K}
  {MK : MemoryKernel K} {FK : FileKernel K} {SL : StartupLaws K}.
Notation Y := (K * replay_app)%type.
Notation W := (world (task Empty_set) PcapReceiver Y).
Context (ndebug : bool) (getopt : list string -> list getopt_result * Z * list string)
  (message : error_code -> string).
Implicit Types w : W.

Lemma opens_lift path k f addr bytes k' a :
  opens path k f addr bytes k' -> opens path ((k, a) : Y) f addr bytes (k', a).
Proof. intros [? ? ? ->]. by split. Qed.

Lemma opens_undisturbed path k f addr bytes k' : opens path k f addr bytes k' -> undisturbed k k'.
Proof.
  intros [_ _ _ ->]. etransitivity; [apply open_undisturbed|]. etransitivity; [apply fstat_undisturbed|].
  etransitivity; [apply mmap_file_undisturbed|]. apply madvise_undisturbed.
Qed.

Lemma calm_undisturbed sp (l : EventLoop (task Empty_set)) (y y' : Y) :
  calm sp l y -> undisturbed y y' -> calm sp l y'.
Proof.
  intros [Hok Hf Hs Ht Hp Hc] (Hclk & _ & Hr & He & Htm). split; [done|by rewrite He, Htm|by rewrite Hr, Htm| |done|].
  - eapply Forall_impl; [exact Ht|]. intros t (? & ? & ?). split_and!; [done..|by etransitivity].
  - by etransitivity.
Qed.

Lemma owner_thread_kept w w' :
  owner_thread ndebug w -> pcap_base (w_obj w') = pcap_base (w_obj w) -> owner_thread ndebug w'.
Proof.
  intros [Ho|Ho] Hb; [by left|right]. rewrite (one_thread (w_sys w)), Ho. cbn [base PcapReceiver_HasBase]. by rewrite Hb.
Qed.

(** The state when the first pass starts: the file has been opened, and can be played as often as the program
    is going to, and the program has subscribed to the port. *)
Record prepared (o : options) w (f addr : Z) (c : capture) k' w3 : Prop := {
  pr_loop : w_loop w3 = w_loop w;
  pr_sys : w_sys w3 = (k', banner o (snd (w_sys w)));
  pr_config : m_pcapConfig (w_obj w3) = replay_config o;
  pr_base : pcap_base (w_obj w3) = pcap_base (w_obj w);
  pr_mapped : m_mappedData (w_obj w3) = addr;
  pr_reader : exists I R, (forall k, Reader Empty_set Y (app_emit handle_packet) (I k)) /\
    Rewindable Empty_set Y ndebug I R (capture_times c) [] (capture_calls addr c (targetPort o)) /\
    R (Z.to_nat (iterations o)) (w_obj w3)
}.

(** The program up to the first pass, then [rest]. *)
Definition prepare (o : options) (pcapFile : string) (rest : M W Z) : M W Z :=
  print "Starting Replay..." ;;
  print ("Mode: " +:+ if floodMode o then "FLOOD" else "TIMED") ;;
  print ("Iterations: " +:+ pretty (iterations o)) ;;
  r ← open ndebug pcapFile;
  if negb (ResultVoid.has_value r) then
    print_error ("Failed to open PCAP: " +:+ message (ResultVoid.error r)) ;; mret 1
  else
    res ← subscribe ndebug (targetPort o) replayCtx_ptr onPacket_ptr;
    if negb (Result.has_value res) then
      print_error ("Failed to subscribe: " +:+ message (Result.error res)) ;; mret 1
    else rest.

Lemma replay_prepares fuel o path :
  replay ndebug message fuel o path =
    prepare o path (for_n (iterations o) (fun _ => play_once ndebug fuel (floodMode o)) ;; print_summary ;; mret 0).
Proof. done. Qed.

Lemma prepare_run o path w f addr k' c :
  new_player (replay_config o) (w_obj w) -> owner_thread ndebug w ->
  opens path (fst (w_sys w)) f addr (capture_bytes c) k' -> capture_given (Z.to_nat (iterations o)) c ->
  exists w3, prepared o w f addr c k' w3 /\ forall rest, prepare o path rest w = rest w3.
Proof.
  intros (Hcfg & Hmap & Hport & Hhot & Hfin & Hlt & Htable) Ho Hop Hgiven.
  set (a := banner o (snd (w_sys w))). set (w1 := World (w_loop w) (w_obj w) (fst (w_sys w), a)).
  pose proof (owner_thread_kept w w1 Ho eq_refl) as Ho1. pose proof (opens_lift _ _ _ _ _ _ a Hop) as Hop1.
  pose proof (open_capture ndebug path w1 f addr c (k', a) _ Ho1 Hop1 Hgiven) as Eo.
  pose proof (capture_rewindable ndebug (app_emit handle_packet) path w1 f addr c (k', a) _ (targetPort o) Ho1 Hop1 Hgiven)
    as HR. specialize (HR ltac:(by split_and!) Hport).
  set (p1 := opened_as f addr c (w_obj w1)) in *. set (w2 := World (w_loop w1) p1 (k', a)) in *.
  assert (Hkept : m_pcapConfig p1 = m_pcapConfig (w_obj w) /\ pcap_base p1 = pcap_base (w_obj w) /\ m_mappedData p1 = addr)
    by (unfold p1; by destruct c).
  destruct Hkept as (Hcfg1 & Hbase1 & Haddr1).
  pose proof (owner_thread_kept w w2 Ho Hbase1) as Ho2.
  pose proof (pcap_subscribe_run ndebug (targetPort o) replayCtx_ptr onPacket_ptr w2 Ho2
    ltac:(cbn [w2 w_obj]; by rewrite Hbase1) ltac:(done)) as Es.
  eexists. split; [|intros rest; unfold prepare, print, on_app; rewrite !bind_modify].
  2: { match goal with |- context [(open ndebug path ≫= _) ?w'] => assert (Hw1 : w' = w1) end.
    { unfold w1, a, banner, with_sys. cbn. by rewrite <- !app_assoc. }
    rewrite Hw1, (bind_Ret _ _ _ _ _ Eo). change (ResultVoid.has_value ResultVoid.success) with true. cbn [negb].
    by rewrite (bind_Ret _ _ _ _ _ Es). }
  split; try done. cbn. by rewrite Hcfg1.
Qed.

Lemma summary_run w :
  (print_summary ;; mret 0 : M W Z) w = Ret 0 (with_sys (fst (w_sys w), summary (snd (w_sys w))) w).
Proof.
  unfold print_summary, print, on_app. run_steps. unfold summary, with_sys. cbn. by rewrite <- !app_assoc.
Qed.

(** The part up to the destructors, in FLOOD mode. *)
Lemma replay_ends fuel o path w sp f addr k' c :
  calm sp (w_loop w) (w_sys w) -> armed w -> new_player (replay_config o) (w_obj w) -> owner_thread ndebug w ->
  floodMode o = true -> opens path (fst (w_sys w)) f addr (capture_bytes c) k' -> addr <> 0 ->
  capture_given (Z.to_nat (iterations o)) c -> (S (capture_packets c) < fuel)%nat ->
  exists w', replay ndebug message fuel o path w = Ret 0 w' /\
    m_port_to_fd_map (pcap_base (w_obj w')) = ∅ /\
    snd (w_sys w') = summary (foldl handle_packet (banner o (snd (w_sys w)))
      (concat (replicate (Z.to_nat (iterations o)) (capture_calls addr c (targetPort o))))).
Proof.
  intros Hc Ha Hnew Ho Hflood Hop Haddr Hgiven Hfuel. pose proof Hnew as (_ & Hmap & _).
  destruct (prepare_run o path w f addr k' c Hnew Ho Hop Hgiven) as (w3 & [Hl Hs Hcfg Hb Hd (I & R & PI & RI & HR)] & E).
  rewrite replay_prepares, E. clear E.
  assert (Hmode : mode (m_pcapConfig (w_obj w3)) = FLOOD) by (rewrite Hcfg; cbn; by rewrite Hflood).
  assert (Hbetween : between ndebug sp (fun k p => R k p /\ untimed p) (length (seqZ 0 (iterations o))) w3).
  { pose proof (opens_undisturbed _ _ _ _ _ _ Hop) as Hu. split; [|split; [|split; [|split; [|split]]]].
    - rewrite Hl, Hs. eapply (calm_undisturbed sp _ (w_sys w)); [exact Hc|exact Hu].
    - destruct Hu as (_ & Hd' & _). unfold armed in *. rewrite Hl, Hs. cbn. cbn in Ha. by rewrite Hd'.
    - rewrite length_seqZ. split; [exact HR|]. unfold untimed. by rewrite Hmode.
    - by apply (owner_thread_kept w w3).
    - done.
    - by rewrite Hd. }
  destruct (passes_end ndebug sp (fun k => counted (I k)) _ (length (capture_times c)) _ fuel (seqZ 0 (iterations o)) w3 Hbetween)
    as (w4 & E4 & Hs4 & Hm4); [by rewrite capture_times_length|].
  unfold for_n. rewrite Hflood, (bind_Ret _ _ _ _ _ E4), summary_run.
  eexists. split; [reflexivity|]. cbn [w_obj w_sys with_sys snd fst]. split.
  - destruct Hs4 as (_ & _ & ->). by rewrite Hb.
  - by rewrite Hm4, Hs, length_seqZ.
Qed.

(** The options only reach the [quiet] flag, and a refused one the error
    stream. *)
Definition heeded (r : option options) w w' : Prop :=
  exists a, w' = with_sys (fst (w_sys w), a) w /\ cout a = cout (snd (w_sys w)) /\
    totalPackets (replayCtx a) = totalPackets (replayCtx (snd (w_sys w))) /\
    totalBytes (replayCtx a) = totalBytes (replayCtx (snd (w_sys w))) /\
    (is_Some r -> cerr a = cerr (snd (w_sys w))).

Lemma read_options_heeded opts o w r w' : read_options opts o w = Ret r w' -> heeded r w w'.
Proof.
  assert (Hid : forall r w, heeded r w w) by (intros r0 [l p [k a]]; by exists a).
  assert (Hatoi : forall arg (kont : Z -> M W (option options)) w r w',
    (atoi arg ≫= kont) w = Ret r w' -> exists n, kont n w = Ret r w').
  { intros arg kont w0 r0 w0'. unfold atoi, s32. destruct (in_s32 _); [rewrite bind_mret; eauto|done]. }
  revert o w. induction opts as [|[c arg|line] opts IH]; intros o w E.
  - injection E as _ <-. apply Hid.
  - assert (Hstop : (mret None : M W (option options)) w = Ret r w' -> heeded r w w') by (intros [= _ <-]; apply Hid).
    destruct c as [[] [] [] [] [] [] [] []]; try exact (Hstop E); cbn [read_options] in E.
    + by apply IH in E.
    + apply Hatoi in E as [n E]. by apply IH in E.
    + apply IH in E as (a & -> & Ho & Hp & Hb & Herr). exists a. by split_and!.
    + apply Hatoi in E as [n E]. by apply IH in E.
  - cbn [read_options] in E. unfold print_error, on_app in E. run_steps_in E. injection E as <- <-.
    eexists. split_and!; [reflexivity|done..|by intros [? [=]]].
Qed.

Lemma read_options_run opts o w r w' :
  read_options opts o w = Ret r w' ->
  exists a, w' = with_sys (fst (w_sys w), a) w /\ cout a = cout (snd (w_sys w)) /\
    totalPackets (replayCtx a) = totalPackets (replayCtx (snd (w_sys w))) /\
    totalBytes (replayCtx a) = totalBytes (replayCtx (snd (w_sys w))).
Proof. intros (a & ? & ? & ? & ? & _)%read_options_heeded. by exists a. Qed.

(** The options before a given one are read first. *)
Lemma read_options_app opts1 opts2 o w o1 w1 :
  read_options opts1 o w = Ret (Some o1) w1 -> read_options (opts1 ++ opts2)%list o w = read_options opts2 o1 w1.
Proof.
  assert (Hatoi : forall arg (k1 k2 : Z -> M W (option options)) w,
    (atoi arg ≫= k1) w = Ret (Some o1) w1 -> (forall n, k1 n w = Ret (Some o1) w1 -> k2 n w = read_options opts2 o1 w1) ->
    (atoi arg ≫= k2) w = read_options opts2 o1 w1).
  { intros arg k1 k2 w0. unfold atoi, s32. destruct (in_s32 _); [rewrite !bind_mret; auto|done]. }
  revert o w. induction opts1 as [|[c arg|line] opts1 IH]; intros o w E; [by injection E as -> ->| |done].
  destruct c as [[] [] [] [] [] [] [] []]; cbn [read_options app] in E |- *; try done.
  - by apply IH.
  - eapply Hatoi; [exact E|]. intros n. apply IH.
  - apply IH, E.
  - eapply Hatoi; [exact E|]. intros n. apply IH.
Qed.

(** The state of the program when the constructors have returned. *)
Lemma constructed o w w1 :
  1 <= clock (w_sys w) ->
  (EventLoop_new ;; PcapReceiver_new (replay_config o)) w = Ret tt w1 ->
  exists sp, calm sp (w_loop w1) (w_sys w1) /\ armed w1 /\ new_player (replay_config o) (w_obj w1) /\
    owner_thread ndebug w1 /\ snd (w_sys w1) = snd (w_sys w) /\
    m_timers (w_loop w1) = [] /\ m_pendingTasks (w_loop w1) = [] /\ clock (w_sys w) <= clock (w_sys w1).
Proof.
  intros Hclk E.
  pose proof (EventLoop_new_run w) as Hl. pose proof (EventLoop_new_fds (L := replay_app) snd
    ltac:(done) ltac:(done) ltac:(done) w) as Hfds.
  unfold wp in Hl, Hfds. rewrite bind_run in E. destruct (EventLoop_new w) as [[] w0| |]; [|done..].
  destruct Hl as ((Hok & _) & Ha & Ht & Hp & _ & Hobj & sp & _ & Hreg & Hd).
  destruct Hfds as (Hep & Htm & Hclk0 & Hmem0).
  pose proof (PcapReceiver_new_run (L := replay_app) snd ltac:(done) (replay_config o) w0) as Hr.
  unfold wp in Hr. rewrite E in Hr.
  destruct Hr as (Hloop & Hnew & Hu & Hown & Hmem); [repeat split; done|].
  exists sp. split_and!; [| |done| |by rewrite Hmem|by rewrite Hloop|by rewrite Hloop|].
  - rewrite Hloop. eapply calm_undisturbed; [|exact Hu]. rewrite Htm in Hreg.
    split; [done|done|by split; [|apply deref_leads]|by rewrite Ht|by rewrite Hp|by etransitivity].
  - unfold armed. by rewrite Hloop, Ht.
  - right. by rewrite Hown, (one_thread (w_sys w0)).
  - destruct Hu as (? & _). lia.
Qed.

(** [main] around the part between the constructors and the destructors. *)
Lemma main_parts fuel argv w opts optind args o wo w1 :
  getopt argv = (opts, optind, args) -> optind < Z.of_nat (length args) ->
  read_options opts default_options w = Ret (Some o) wo ->
  (EventLoop_new ;; PcapReceiver_new (replay_config o)) wo = Ret tt w1 ->
  main ndebug getopt message fuel argv w =
    (code ← replay ndebug message fuel o (default "" (args !! Z.to_nat optind));
     PcapReceiver_delete ;; EventLoop_delete ;; mret code) w1.
Proof.
  intros Hget Hopt Hread Hnew.
  unfold main. rewrite Hget, (bind_Ret _ _ _ _ _ Hread). destruct (Z.leb_spec (Z.of_nat (length args)) optind); [lia|].
  rewrite bind_run in Hnew. rewrite bind_run. destruct (EventLoop_new wo) as [[] wl| |]; [|done..].
  by rewrite (bind_Ret _ _ _ _ _ Hnew).
Qed.

Lemma destroyed (code : Z) w2 :
  m_port_to_fd_map (pcap_base (w_obj w2)) = ∅ ->
  exists w', (PcapReceiver_delete ;; EventLoop_delete ;; mret code : M W Z) w2 = Ret code w' /\
    snd (w_sys w') = snd (w_sys w2) /\ clock (w_sys w2) <= clock (w_sys w').
Proof.
  intros Hmap.
  destruct (PcapReceiver_delete_run (L := replay_app) snd ltac:(done) ltac:(done) w2 Hmap) as (w3 & E3 & Hm3 & Hc3).
  destruct (EventLoop_delete_run (L := replay_app) snd ltac:(done) w3) as (w4 & E4 & Hm4 & Hc4).
  exists w4. rewrite (bind_Ret _ _ _ _ _ E3), (bind_Ret _ _ _ _ _ E4). split_and!; [done|by rewrite Hm4, Hm3|lia].
Qed.

Lemma main_around fuel argv w opts optind args o wo w1 code w2 :
  getopt argv = (opts, optind, args) -> optind < Z.of_nat (length args) ->
  read_options opts default_options w = Ret (Some o) wo ->
  (EventLoop_new ;; PcapReceiver_new (replay_config o)) wo = Ret tt w1 ->
  replay ndebug message fuel o (default "" (args !! Z.to_nat optind)) w1 = Ret code w2 ->
  m_port_to_fd_map (pcap_base (w_obj w2)) = ∅ ->
  exists w', main ndebug getopt message fuel argv w = Ret code w' /\ snd (w_sys w') = snd (w_sys w2) /\
    clock (w_sys w2) <= clock (w_sys w').
Proof.
  intros Hget Hopt Hread Hnew E2 Hmap. destruct (destroyed code w2 Hmap) as (w' & E & Hw').
  exists w'. by rewrite (main_parts fuel argv w opts optind args o wo w1 Hget Hopt Hread Hnew), (bind_Ret _ _ _ _ _ E2).
Qed.

(** C2 The program in FLOOD mode ends: whatever the number of iterations, the
    file, the port and the speed of the clock, [main] returns 0, every pass over
    the file being over after at most one turn of the loop per packet and two
    more.  The handler has been called, in every pass, for exactly the packets
    it is owed, and the totals printed are the number of passes times those of
    one pass, modulo 2^64.  The file is a classic capture of any records, or a
    pcapng capture of any blocks whose packets name interfaces the file has
    described, as long as all the passes enter fewer than 2^32 interfaces in
    the receiver's table, which [rewind] does not clear. *)
Theorem replay_flood_ends fuel argv w opts optind args o wo w1 f addr k' c :
  let n := Z.max 0 (iterations o) in
  let calls := capture_calls addr c (targetPort o) in
  snd (w_sys w) = app_start -> 1 <= clock (w_sys w) ->
  getopt argv = (opts, optind, args) -> optind < Z.of_nat (length args) ->
  read_options opts default_options w = Ret (Some o) wo -> floodMode o = true ->
  (EventLoop_new ;; PcapReceiver_new (replay_config o)) wo = Ret tt w1 ->
  opens (default "" (args !! Z.to_nat optind)) (fst (w_sys w1)) f addr (capture_bytes c) k' -> addr <> 0 ->
  capture_given (Z.to_nat (iterations o)) c -> (S (capture_packets c) < fuel)%nat ->
  exists w', main ndebug getopt message fuel argv w = Ret 0 w' /\
    snd (w_sys w') = summary (foldl handle_packet (banner o (snd (w_sys wo)))
      (concat (replicate (Z.to_nat n) calls))) /\
    totalPackets (replayCtx (snd (w_sys w'))) = u64 (n * Z.of_nat (length calls)) /\
    totalBytes (replayCtx (snd (w_sys w'))) = u64 (n * payload_bytes calls).
Proof.
  intros n calls Hstart Hclk Hget Hopt Hread Hflood Hnew Hop Haddr Hgiven Hfuel.
  destruct (read_options_run _ _ _ _ _ Hread) as (a & Hwo & _ & Hpk & Hby). rewrite Hstart in Hpk, Hby.
  assert (Hclk' : 1 <= clock (w_sys wo)) by (by rewrite Hwo).
  destruct (constructed o wo w1 Hclk' Hnew) as (sp & Hc & Ha & Hp & Ho & Hmem & _).
  destruct (replay_ends fuel o _ w1 sp f addr k' c Hc Ha Hp Ho Hflood Hop Haddr Hgiven Hfuel)
    as (w2 & E2 & Hmap & Hm2). fold calls in Hm2.
  destruct (main_around fuel argv w opts optind args o wo w1 0 w2 Hget Hopt Hread Hnew E2 Hmap) as (w4 & E4 & Hm4 & _).
  exists w4. split; [done|].
  replace (Z.to_nat n) with (Z.to_nat (iterations o)) by lia. rewrite Hm4, Hm2, Hmem. split; [done|].
  replace n with (Z.of_nat (Z.to_nat (iterations o))) by lia.
  apply pass_totals; [apply capture_calls_handler|cbn; rewrite Hwo; cbn; by rewrite Hpk|cbn; rewrite Hwo; cbn; by rewrite Hby].
Qed.

(** A file that cannot be opened. *)
Lemma replay_unopened fuel o path w f k :
  owner_thread ndebug w -> open_rdonly path (fst (w_sys w)) = (f, k) -> f < 0 -> errno k <> 0 ->
  exists w', replay ndebug message fuel o path w = Ret 1 w' /\ w_loop w' = w_loop w /\ fst (w_sys w') = k /\
    m_fd (w_obj w') = f /\ pcap_base (w_obj w') = pcap_base (w_obj w) /\
    cerr (snd (w_sys w')) = (cerr (snd (w_sys w)) ++
      ["Failed to open PCAP: " +:+ message (ErrorCode (errno k) system_category)])%list.
Proof.
  intros Ho Eo Hf He. unfold replay, print, on_app. rewrite !bind_modify.
  match goal with |- context [(open ndebug path ≫= _) ?w'] => set (w1 := w') end.
  assert (E : open ndebug path w1 = Ret (ResultVoid.fail (ErrorCode (errno k) system_category))
    (World (w_loop w) (set_fd f (w_obj w)) (k, snd (w_sys w1)))).
  { unfold open. rewrite (bind_Ret _ _ _ _ _ (checkThread_passes ndebug w1 (owner_thread_kept w w1 Ho eq_refl))).
    run_steps. cbn [open_rdonly app_file lift fst snd w_sys w1 with_sys]. rewrite Eo. cbn [fst snd].
    destruct (Z.ltb_spec f 0); [done|lia]. }
  rewrite (bind_Ret _ _ _ _ _ E). unfold ResultVoid.has_value, ResultVoid.fail, ec_bool. cbn [m_ec ec_value].
  apply Z.eqb_neq in He. rewrite He. cbn [negb]. unfold print_error, on_app. run_steps. eexists. by split_and!.
Qed.

(** A receiver without a file and without sockets has no descriptor. *)
Lemma PcapReceiver_delete_live {DT : DescriptorTable K} w w' :
  m_fd (w_obj w) < 0 -> m_port_to_fd_map (pcap_base (w_obj w)) = ∅ -> PcapReceiver_delete w = Ret tt w' ->
  w_loop w' = w_loop w /\ live_fds (w_sys w') = live_fds (w_sys w).
Proof.
  intros Hfd Hmap E.
  assert (Hbase : forall w1 w2, m_port_to_fd_map (pcap_base (w_obj w1)) = ∅ -> PacketReceiver_delete w1 = Ret tt w2 ->
    w_loop w2 = w_loop w1 /\ live_fds (w_sys w2) = live_fds (w_sys w1)).
  { intros w1 w2 H1. unfold PacketReceiver_delete, this_base. run_steps. cbn [base PcapReceiver_HasBase].
    rewrite H1. change (ports_of ∅) with (@nil Z). cbn [for_each]. rewrite bind_mret.
    destruct (_ && _); run_steps; intros [= <-]; [|done]. split; [done|cbn; apply live_munmap]. }
  unfold PcapReceiver_delete in E. rewrite bind_this in E. destruct (Z.leb_spec 0 (m_fd (w_obj w))); [lia|].
  destruct (_ && _); run_steps_in E; [|by apply Hbase].
  apply Hbase in E; [|done]. destruct E as [-> ->]. split; [done|cbn; apply live_munmap].
Qed.

(** Destroying a loop closes its two descriptors. *)
Lemma EventLoop_delete_live {DT : DescriptorTable K} w w' :
  let ep := fd (m_epoll_fd (w_loop w)) in let tf := fd (m_timer_fd (w_loop w)) in
  0 <= ep -> 0 <= tf -> EventLoop_delete w = Ret tt w' ->
  live_fds (w_sys w') = live_fds (w_sys w) ∖ {[tf]} ∖ {[ep]}.
Proof.
  intros ep tf He Ht. unfold EventLoop_delete, ScopedFd.destroy, close_fd. run_steps.
  change (id (w_loop w)) with (w_loop w). fold ep tf.
  destruct (Z.leb_spec 0 tf); [|lia]. run_steps. destruct (Z.leb_spec 0 ep); [|lia]. run_steps. intros [= <-].
  cbn. by rewrite !live_close.
Qed.

(** The program has no descriptor but those of its loop, until it opens a
    file. *)
Lemma destroyed_live {DT : DescriptorTable K} o wo w1 w2 w3 code :
  (EventLoop_new ;; PcapReceiver_new (replay_config o)) wo = Ret tt w1 ->
  live_fds (w_sys w2) = live_fds (w_sys w1) -> w_loop w2 = w_loop w1 -> m_fd (w_obj w2) < 0 ->
  m_port_to_fd_map (pcap_base (w_obj w2)) = ∅ ->
  (PcapReceiver_delete ;; EventLoop_delete ;; mret code : M W Z) w2 = Ret code w3 ->
  live_fds (w_sys w3) = live_fds (w_sys wo).
Proof.
  intros E1 Hlive Hloop Hfd Hmap E3. apply bind_Ret_inv in E1 as ([] & w0 & E0 & E1).
  pose proof (EventLoop_new_live wo) as H0. unfold wp in H0. rewrite E0 in H0. destruct H0 as (He & Ht & Hne & Hnt & H0).
  pose proof (PcapReceiver_new_run (L := gset Z) live_fds ltac:(intros; apply (live_mmap (Y := Y))) (replay_config o) w0) as H1.
  unfold wp in H1. rewrite E1 in H1. destruct H1 as (Hl1 & _ & _ & _ & H1); [repeat split; done|].
  apply bind_Ret_inv in E3 as ([] & w4 & E4 & E3). apply bind_Ret_inv in E3 as ([] & w5 & E5 & E3).
  injection E3 as <-. destruct (PcapReceiver_delete_live w2 w4 Hfd Hmap E4) as [Hl4 H4].
  pose proof (EventLoop_delete_live w4 w5) as H5. rewrite Hl4, Hloop, Hl1 in H5.
  rewrite (H5 He Ht E5), H4, Hlive, H1, H0. set_solver.
Qed.

(** The state in which [main] returns before it has made anything: with lines
    on the error stream, and the [quiet] flag that the options before may have
    set; the kernel has not been called. *)
Definition refused_with (lines : list string) w w' : Prop :=
  w_loop w' = w_loop w /\ w_obj w' = w_obj w /\ fst (w_sys w') = fst (w_sys w) /\
  cout (snd (w_sys w')) = cout (snd (w_sys w)) /\ cerr (snd (w_sys w')) = (cerr (snd (w_sys w)) ++ lines)%list.

Lemma heeded_refused o w wo : heeded (Some o) w wo -> refused_with [] w wo.
Proof. intros (a & -> & Ho & _ & _ & He). split_and!; try done. cbn. rewrite app_nil_r. by apply He. Qed.

Lemma refused_line lines line w wo :
  refused_with lines w wo -> exists w', print_error line wo = Ret tt w' /\ refused_with (lines ++ [line]) w w'.
Proof.
  intros (Hl & Ho & Hk & Hc & He). eexists. split; [reflexivity|]. split_and!; try done. cbn. by rewrite He, <- app_assoc.
Qed.

(** C22 The error paths of [main].  An option that [getopt] refuses (an unknown
    one, or one without its argument), after options it accepts, ends the
    program with status 1 and two lines on the error stream, the diagnostic of
    [getopt] and the usage; no file after the options, with status 1 and one
    line; in both cases nothing is written to the other stream and the kernel
    has not been called.  A file that cannot be opened ends it with status 1
    and the text of the system's error code, and the descriptors that are open
    then are those that were open before: those of the loop have been closed
    again. *)
Theorem replay_refuses {DT : DescriptorTable K} fuel argv w opts optind args :
  getopt argv = (opts, optind, args) ->
  (forall good line rest o wo, opts = (good ++ Refused line :: rest)%list ->
     read_options good default_options w = Ret (Some o) wo ->
     exists w', main ndebug getopt message fuel argv w = Ret 1 w' /\ refused_with
       [line; "Usage: " +:+ default "" (args !! 0%nat) +:+ " [-f] [-n iterations] [-p port] <file.pcap>"] w w') /\
  (forall o wo, read_options opts default_options w = Ret (Some o) wo -> Z.of_nat (length args) <= optind ->
     exists w', main ndebug getopt message fuel argv w = Ret 1 w' /\
       refused_with ["Expected PCAP file path after options."] w w') /\
  (forall o wo w1, read_options opts default_options w = Ret (Some o) wo -> optind < Z.of_nat (length args) ->
     1 <= clock (w_sys w) -> (EventLoop_new ;; PcapReceiver_new (replay_config o)) wo = Ret tt w1 ->
     let r := open_rdonly (default "" (args !! Z.to_nat optind)) (fst (w_sys w1)) in
     fst r < 0 -> errno (snd r) <> 0 ->
     exists w', main ndebug getopt message fuel argv w = Ret 1 w' /\
       cerr (snd (w_sys w')) = (cerr (snd (w_sys w)) ++
         ["Failed to open PCAP: " +:+ message (ErrorCode (errno (snd r)) system_category)])%list /\
       live_fds (w_sys w') = live_fds (w_sys w)).
Proof.
  intros Hget. split; [|split].
  - intros good line rest o wo -> E. pose proof (heeded_refused _ _ _ (read_options_heeded _ _ _ _ _ E)) as H.
    unfold main. set (usage := "Usage: " +:+ _).
    destruct (refused_line _ line w wo H) as (wd & Ed & Hd). destruct (refused_line _ usage w wd Hd) as (wu & Eu & Hu).
    exists wu. split; [|exact Hu]. rewrite Hget, bind_run, (read_options_app _ _ _ _ _ _ E). cbn [read_options].
    rewrite (bind_Ret _ _ _ _ _ Ed). cbn [mret M_ret]. by rewrite (bind_Ret _ _ _ _ _ Eu).
  - intros o wo E Hle. pose proof (heeded_refused _ _ _ (read_options_heeded _ _ _ _ _ E)) as H.
    unfold main. rewrite Hget, (bind_Ret _ _ _ _ _ E). destruct (Z.leb_spec (Z.of_nat (length args)) optind); [|lia].
    destruct (refused_line _ "Expected PCAP file path after options." w wo H) as (wu & Eu & Hu).
    exists wu. split; [by rewrite (bind_Ret _ _ _ _ _ Eu)|exact Hu].
  - intros o wo w1 E Hlt Hclk Hnew. set (path := default "" _).
    pose proof (heeded_refused _ _ _ (read_options_heeded _ _ _ _ _ E)) as (_ & _ & Hk & _ & Herr).
    destruct (open_rdonly path (fst (w_sys w1))) as [f k] eqn:Eo. cbn zeta. cbn [fst snd]. intros Hf He.
    assert (Hclk' : 1 <= clock (w_sys wo)) by (cbn in *; by rewrite Hk).
    destruct (constructed o wo w1 Hclk' Hnew) as (_ & _ & _ & (_ & Hmap & _) & Ho & Hmem & _).
    destruct (replay_unopened fuel o path w1 f k Ho Eo Hf He) as (w2 & E2 & Hl2 & Hk2 & Hfd2 & Hb2 & Hm2).
    rewrite <- Hb2 in Hmap.
    destruct (destroyed 1 w2 Hmap) as (w4 & E4 & Hm4 & _).
    exists w4. split; [by rewrite (main_parts fuel argv w opts optind args o wo w1 Hget Hlt E Hnew), (bind_Ret _ _ _ _ _ E2)|].
    split; [by rewrite Hm4, Hm2, Hmem, Herr, app_nil_r|].
    transitivity (live_fds (w_sys wo)); [|cbn; by rewrite Hk].
    eapply (destroyed_live o wo w1 w2 w4 1 Hnew); [|done|by rewrite Hfd2|done|done].
    cbn. rewrite Hk2. destruct (live_open path (fst (w_sys w1))) as [Hlive _]. rewrite Eo in Hlive. cbn [fst snd] in Hlive.
    rewrite Hlive. destruct (Z.leb_spec 0 f); [lia|done].
Qed.
End Main.
