(* ===== verification/TimedFacts.v ===== *)
(** The program [pcap_replay] in TIMED mode: it plays every pass over the file
    no faster than its time stamps say, and once the clock has passed them
    all the pass ends. *)
From stdpp Require Import pretty.
From S2P Require Import Prelude Outcome Result Kernel SimKernel ScopedFd TimerQueue EventLoop Recorder.
From S2P Require Import EventLoopFacts TimerFacts SourceFacts DispatchFacts TurnRule Waking AppKernel.
From S2P Require Import PcapFormat Float64 PacketReceiver PcapReceiver PcapDispatch PcapFrames PcapReplay PcapOpen.
From S2P Require Import PcapNg PcapNgReplay PacketFacts PcapControl Playback FloodRun PacedRun ReplayApp ReplayCapture ReplayFacts.

(** ** The time a pass takes *)

(** The distance of the latest time stamp from the first. *)
Definition span (tss : list timespec) : Z :=
  match tss with
  | [] => 0
  | t0 :: _ => foldr (fun t m => Z.max (ns_of t - ns_of t0) m) 0 tss
  end.

Lemma max_reached tss t0 from now :
  from <= now -> Forall (fun t => from + (ns_of t - ns_of t0) <= now) tss ->
  from + foldr (fun t m => Z.max (ns_of t - ns_of t0) m) 0 tss <= now.
Proof. intros Hn Hall. induction Hall as [|t tss Ht Hall IH]; cbn [foldr]; lia. Qed.

Lemma span_reached tss p from now :
  from <= now -> match tss with [] => True | t :: _ => m_pcapStartTs p = t /\ from <= m_wallStartTs p end ->
  Forall (fun t => target_of p t <= now) tss -> from + span tss <= now.
Proof.
  intros Hn Ho Hall. destruct tss as [|t0 tss]; [cbn; lia|]. destruct Ho as [Hs Hw]. apply max_reached; [done|].
  eapply Forall_impl; [exact Hall|]. intros t Ht. unfold target_of in Ht. rewrite Hs in Ht. lia.
Qed.

(** ** The outcomes of a computation that waits *)

(** It comes to an end, or it is still running after the turns it was given, or
    the loop could not wait. *)
Definition in_time {S A} (o : outcome S A) (Q : A -> S -> Prop) : Prop :=
  match o with
  | Ret a s => Q a s
  | Throw e _ => exists ec, e = BadResultAccess ec
  | Crash f => f = OutOfFuel
  end.

Lemma in_time_bind {S A B} (m : M S A) (k : A -> M S B) Q Q' s :
  in_time (m s) Q -> (forall a s', Q a s' -> in_time (k a s') Q') -> in_time ((m ≫= k) s) Q'.
Proof. intros Hm Hk. rewrite bind_run. destruct (m s) as [a s'|e s'|f]; [by apply Hk|done..]. Qed.

(** ** The passes *)

Section Passes.
Context {K : Type} {RK : ReactorKernel K} {RL : ReactorLaws K} {WK : WakingKernel K}
  {MK : MemoryKernel K} {FK : FileKernel K} {SL : StartupLaws K}.
Notation Y := (K * replay_app)%type.
Notation W := (world (task Empty_set) PcapReceiver Y).
Context (ndebug : bool) (sp : source_ptr).
(** A file that can be played several times: packets with the time stamps
    [tss], for which the calls [pass] are owed. *)
Context (I : nat -> list timespec -> list delivery -> PcapReceiver -> Prop) (R : nat -> PcapReceiver -> Prop)
  (tss : list timespec) (pass : list delivery).
Context {PI : forall k, Reader Empty_set Y (app_emit (K := K) handle_packet) (I k)}
  {RI : Rewindable Empty_set Y ndebug I R tss [] pass}.
Implicit Types w : W.

Notation emit := (app_emit (K := K) handle_packet).
Notation quiet := (quiet (emit := emit)).
Notation run_task := (run_pcap_task call_handler user_task).

(** The program in a pass that started at the instant [c0] with the
    application's memory [m0]. *)
Notation in_pass k p0 c0 m0 := (in_pass (emit := emit) (I k) sp p0 tss pass c0 m0).
Notation waiting k p0 c0 m0 := (waiting (emit := emit) (I k) sp p0 tss pass c0 m0).
Notation setup p0 c0 := (paced_setup p0 tss c0).

Lemma run_timed k p0 c0 m0 fuel w :
  setup p0 c0 -> in_pass k p0 c0 m0 w ->
  in_time (run_until_finished fuel false w) (fun _ w' => in_pass k p0 c0 m0 w' /\ m_finished (w_obj w') = true).
Proof.
  intros HS. revert w. induction fuel as [|fuel IH]; intros w Hw; [done|]. cbn [run_until_finished].
  unfold isFinished, this. run_steps. destruct (m_finished (w_obj w)) eqn:Ef; [by split|].
  destruct (turn_paced (I k) user_task PcapReceiver.handleRead sp p0 tss pass c0 m0 HS 1 w Hw) as (res & w1 & E & Hw1 & _).
  rewrite (bind_Ret _ _ _ _ _ E). unfold ResultVoid.value. destruct (ec_bool (m_ec res)); [by eexists|].
  run_steps. by apply IH.
Qed.


(** When a pass has ended all its calls have been made, and the time of its
    time stamps has passed. *)
Lemma pass_ended k p0 c0 m0 w :
  in_pass k p0 c0 m0 w -> m_finished (w_obj w) = true ->
  I k [] [] (w_obj w) /\ snd (w_sys w) = foldl handle_packet m0 pass /\ c0 + span tss <= clock (w_sys w) /\
  m_timers (w_loop w) = [] /\ idle sp c0 (w_loop w) (w_sys w) /\ same_setup p0 (w_obj w).
Proof.
  intros (past & future & [[Ha (ds1 & ds2 & Hds & HI & Hm) Hs Ho Hp Hf] Hidle Hrest _]) Hfin.
  specialize (Hf Hfin). subst future. rewrite app_nil_r in Ha. subst past.
  pose proof (read_nothing _ _ HI) as ->. rewrite app_nil_r in Hds. subst ds1.
  unfold resting in Hrest. rewrite Hfin in Hrest. split_and!; try done.
  apply (span_reached tss (w_obj w)); [apply Hidle| |done]. destruct tss; [done|]. destruct Ho as (? & ? & ?). split; [done|lia].
Qed.




(** The state between two passes, with [k] to come. *)
Record between (k : nat) w : Prop := {
  bt_idle : idle sp 1 (w_loop w) (w_sys w);
  bt_timers : m_timers (w_loop w) = [];
  bt_left : R k (w_obj w);
  bt_owner : owner_thread ndebug w;
  bt_mode : mode (m_pcapConfig (w_obj w)) = TIMED;
  bt_speed : normal_speed (w_obj w);
  bt_mapped : m_mappedData (w_obj w) <> 0
}.

Lemma idle_from c c' (l : EventLoop (task Empty_set)) (y : Y) : idle sp c l y -> c' <= clock y -> idle sp c' l y.
Proof. by intros [? ? ? ? _]. Qed.

(** A pass starts: the first batch is scheduled. *)
Lemma pass_starts k w :
  Forall file_time tss -> between (S k) w ->
  exists w', (rewind ndebug ;; start ndebug) w = Ret tt w' /\ setup (w_obj w') (clock (w_sys w)) /\
    waiting k (w_obj w') (clock (w_sys w)) (snd (w_sys w)) [] tss w' /\ m_finished (w_obj w') = false /\
    owner_thread ndebug w' /\ same_setup (w_obj w) (w_obj w').
Proof.
  intros Htss [Hidle Htm HR Ho Hmode Hspeed Hmap].
  destruct (rewind_pass k w Ho HR) as (p1 & E1 & HI1 & Hs1 & Hf1 & Hfirst). rewrite (bind_Ret _ _ _ _ _ E1).
  set (w1 := World (w_loop w) p1 (w_sys w)).
  assert (Ho1 : owner_thread ndebug w1) by (apply (owner_thread_kept ndebug w); [done|apply Hs1]).
  assert (Hset : mode (m_pcapConfig p1) = TIMED /\ normal_speed p1 /\ m_mappedData p1 <> 0).
  { destruct Hs1 as (Hc & Hm & _). unfold normal_speed, m_mappedData in *. by rewrite Hc, Hm. }
  destruct Hset as (Hmode1 & Hspeed1 & Hmap1).
  unfold start. rewrite (bind_Ret _ _ _ _ _ (checkThread_passes ndebug w1 Ho1)), bind_this. cbn [w1 w_obj].
  destruct (Z.eqb_spec (m_mappedData p1) 0); [done|]. rewrite bind_assign, Hmode1, decide_False by done.
  assert (Hw : with_obj (fun p => set_timing (m_pcapStartTs p) (m_wallStartTs p) true p) w1 = w1).
  { unfold w1, with_obj. cbn. destruct p1. cbn in Hfirst. by subst. }
  rewrite Hw. set (e := now_of w1 + 0 * 1000000).
  destruct (runAfter_frame quiet 0 (Some ProcessBatch) w1 (id_ok _ _ _ _ Hidle)) as (y & E & Hq & Hok);
    [unfold max_delay; lia|]. fold e in E, Hok. rewrite (bind_Ret _ _ _ _ _ E).
  assert (Hq0 : quiet (w_sys w) y) by (etransitivity; [apply frame_now|done]).
  assert (Ha : armed w1) by (unfold armed, w1; cbn [w_loop]; by rewrite Htm).
  pose proof (safe_armed _ (runAfter_safe 0 (Some ProcessBatch) ltac:(unfold max_delay; lia)) 0%nat w1
    (idle_Inv sp 1 w1 Hidle) Ha) as Hsafe.
  unfold wp in Hsafe. rewrite E in Hsafe. eexists. split; [reflexivity|]. cbn [w_loop w_obj w_sys].
  pose proof (id_clock _ _ _ _ Hidle). destruct Hq0 as (Hclk & Hq0).
  split; [by split|]. split; [|split; [done|split; [|done]]].
  - split; [| |unfold resting; cbn [w_obj w_loop w1]; rewrite Hf1; eexists; by split; [apply scheduled_alone|]|apply Hsafe].
    + split; cbn [w_obj w_sys]; [done| |done|done|by apply Forall_nil|cbn [w1 w_obj]; congruence].
      exists [], pass. split; [done|]. split; [done|]. apply Hq0.
    + apply idle_scheduled; [|done]. eapply idle_quiet; [|by split]. by eapply idle_from.
  - by apply (owner_thread_kept ndebug w1).
Qed.

Lemma play_once_timed k fuel w :
  Forall file_time tss -> between (S k) w ->
  in_time (play_once ndebug fuel false w) (fun _ w' => between k w' /\ same_setup (w_obj w) (w_obj w') /\
    snd (w_sys w') = foldl handle_packet (snd (w_sys w)) pass /\ clock (w_sys w) + span tss <= clock (w_sys w')).
Proof.
  intros Htss Hb. destruct (pass_starts k w Htss Hb) as (w1 & E1 & HS & Hw1 & _ & Ho1 & Hs1).
  assert (Hplay : play_once ndebug fuel false w = run_until_finished fuel false w1).
  { unfold play_once. rewrite <- bind_assoc. by rewrite (bind_Ret _ _ _ _ _ E1). }
  rewrite Hplay. pose proof (run_timed k _ _ _ fuel w1 HS ltac:(by exists [], tss)) as Hrun.
  destruct (run_until_finished fuel false w1) as [[] w2|e w2|f]; cbn [in_time] in *; [|done..].
  destruct Hrun as [Hpass Hfin].
  destruct (pass_ended k _ _ _ w2 Hpass Hfin) as (HI & Hm & Hc & Htm & Hidle & Hs2).
  assert (Hs : same_setup (w_obj w) (w_obj w2)) by (by etransitivity).
  destruct Hb as [Hidle0 _ _ Ho Hmode Hspeed Hmap].
  split; [|done]. split; try done.
  - eapply idle_from; [exact Hidle|]. pose proof (id_clock _ _ _ _ Hidle). pose proof (id_clock _ _ _ _ Hidle0). lia.
  - by eapply pass_over.
  - apply (owner_thread_kept ndebug w); [done|apply Hs].
  - destruct Hs as (-> & _). done.
  - unfold normal_speed. by destruct Hs as (-> & _).
  - unfold m_mappedData in *. by destruct Hs as (_ & -> & _).
Qed.


(** [n] passes, one after the other: each of them is a run of the body of the
    loop over the iterations, has made exactly the calls owed, and has taken at
    least the time the time stamps span. *)
Inductive passes_played (fuel : nat) : nat -> W -> W -> Prop :=
  | no_pass w : passes_played fuel 0 w w
  | one_pass n w w1 w2 :
      play_once ndebug fuel false w = Ret tt w1 ->
      snd (w_sys w1) = foldl handle_packet (snd (w_sys w)) pass ->
      clock (w_sys w) + span tss <= clock (w_sys w1) ->
      passes_played fuel n w1 w2 -> passes_played fuel (S n) w w2.

(** All of them together. *)
Lemma passes_sum fuel n w w' :
  passes_played fuel n w w' ->
  snd (w_sys w') = foldl handle_packet (snd (w_sys w)) (concat (replicate n pass)) /\
  clock (w_sys w) + Z.of_nat n * span tss <= clock (w_sys w').
Proof.
  induction 1 as [w|n w w1 w2 _ Hm Hc _ [IHm IHc]]; [split; [done|lia]|].
  cbn [replicate concat]. split; [by rewrite foldl_app, <- Hm|lia].
Qed.

Lemma passes_timed fuel (js : list Z) w :
  Forall file_time tss -> between (length js) w ->
  in_time (for_each js (fun _ => play_once ndebug fuel false) w) (fun _ w' => same_setup (w_obj w) (w_obj w') /\
    passes_played fuel (length js) w w').
Proof.
  intros Htss Hb. revert w Hb. induction js as [|j js IH]; intros w Hb; [split; [done|constructor]|].
  cbn [for_each length]. pose proof (play_once_timed _ fuel w Htss Hb) as Hp. rewrite bind_run.
  destruct (play_once ndebug fuel false w) as [[] w1|e w1|f] eqn:E; [|done..].
  destruct Hp as (Hb1 & Hs1 & Hm1 & Hc1). pose proof (IH w1 Hb1) as H.
  destruct (for_each _ _ w1) as [[] w2|e w2|f]; cbn [in_time] in *; [|done..]. destruct H as (Hs2 & Hp2).
  split; [by etransitivity|by econstructor].
Qed.
End Passes.

(** ** The program *)

Section Main.
Context {K : Type} {RK : ReactorKernel K} {RL : ReactorLaws K} {WK : WakingKernel K}
  {MK : MemoryKernel K} {FK : FileKernel K} {SL : StartupLaws K}.
Notation Y := (K * replay_app)%type.
Notation W := (world (task Empty_set) PcapReceiver Y).
Context (ndebug : bool) (getopt : list string -> list getopt_result * Z * list string)
  (message : error_code -> string).
Implicit Types w : W.

(** The state before the first pass. *)
Lemma prepared_between o w w3 sp f addr k' c path :
  calm sp (w_loop w) (w_sys w) -> m_timers (w_loop w) = [] -> m_pendingTasks (w_loop w) = [] ->
  owner_thread ndebug w -> floodMode o = false ->
  opens path (fst (w_sys w)) f addr (capture_bytes c) k' -> addr <> 0 -> prepared ndebug o w f addr c k' w3 ->
  exists I R, (forall k, Reader Empty_set Y (app_emit handle_packet) (I k)) /\
    Rewindable Empty_set Y ndebug I R (capture_times c) [] (capture_calls addr c (targetPort o)) /\
    between ndebug sp R (Z.to_nat (iterations o)) w3 /\ clock (w_sys w) <= clock (w_sys w3).
Proof.
  intros Hc Htm Hpend Ho Hflood Hop Haddr [Hl Hs Hcfg Hb Hd (I & R & PI & RI & HR)].
  exists I, R. split; [done|]. split; [done|].
  pose proof (opens_undisturbed _ _ _ _ _ _ Hop) as Hu.
  pose proof (calm_undisturbed sp _ (w_sys w) (k', banner o (snd (w_sys w))) Hc Hu) as Hc3.
  split; [split|rewrite Hs; apply Hu].
  - rewrite Hl, Hs. destruct Hc3. by split.
  - by rewrite Hl.
  - done.
  - by apply (owner_thread_kept ndebug w).
  - rewrite Hcfg. cbn. by rewrite Hflood.
  - unfold normal_speed. by rewrite Hcfg.
  - by rewrite Hd.
Qed.

(** C3 The program in TIMED mode (its default), at any speed of the clock, with
    any number of iterations and any port, and with a complete capture (a
    classic file of any records, or a pcapng file of any blocks whose packets
    name interfaces the file has described, [capture_given]) whose time stamps
    are in the range of the formats ([file_time]), never faults: [main] is
    still running, or an exception says that the loop could not wait, or it
    returns 0.  When it returns, it has opened the file and played it as often
    as it was asked to, pass after pass, and every one of the passes has made
    exactly the calls it owes, in the order of the file, and has taken at least
    the time its time stamps span. *)
Theorem replay_timed_paced fuel argv w opts optind args o wo w1 f addr k' c :
  let path := default ""%string (args !! Z.to_nat optind) in
  let n := Z.max 0 (iterations o) in
  let calls := capture_calls addr c (targetPort o) in
  snd (w_sys w) = app_start -> 1 <= clock (w_sys w) ->
  getopt argv = (opts, optind, args) -> optind < Z.of_nat (length args) ->
  read_options opts default_options w = Ret (Some o) wo -> floodMode o = false ->
  (EventLoop_new ;; PcapReceiver_new (replay_config o)) wo = Ret tt w1 ->
  opens path (fst (w_sys w1)) f addr (capture_bytes c) k' -> addr <> 0 ->
  capture_given (Z.to_nat (iterations o)) c -> Forall file_time (capture_times c) ->
  in_time (main ndebug getopt message fuel argv w) (fun status w' => status = 0 /\
    (exists w3 w4, prepare ndebug message o path (mret 0) w1 = Ret 0 w3 /\ clock (w_sys w) <= clock (w_sys w3) /\
       passes_played ndebug (capture_times c) calls fuel (Z.to_nat n) w3 w4 /\
       clock (w_sys w4) <= clock (w_sys w') /\ snd (w_sys w') = summary (snd (w_sys w4))) /\
    snd (w_sys w') = summary (foldl handle_packet (banner o (snd (w_sys wo))) (concat (replicate (Z.to_nat n) calls))) /\
    totalPackets (replayCtx (snd (w_sys w'))) = u64 (n * Z.of_nat (length calls)) /\
    totalBytes (replayCtx (snd (w_sys w'))) = u64 (n * payload_bytes calls) /\
    clock (w_sys w) + n * span (capture_times c) <= clock (w_sys w')).
Proof.
  intros path n calls Hstart Hclk Hget Hopt Hread Hflood Hnew Hop Haddr Hgiven Htimes.
  destruct (read_options_run _ _ _ _ _ Hread) as (a & Hwo & _ & Hpk & Hby). rewrite Hstart in Hpk, Hby.
  assert (Hclk' : 1 <= clock (w_sys wo)) by (by rewrite Hwo).
  destruct (constructed ndebug o wo w1 Hclk' Hnew) as (sp & Hc & _ & Hp & Ho & Hmem & Htm & Hpend & Hc1).
  pose proof Hp as (_ & Hmap & _).
  destruct (prepare_run ndebug message o _ w1 f addr k' c Hp Ho Hop Hgiven) as (w3 & Hprep & E).
  destruct (prepared_between o w1 w3 sp f addr k' c _ Hc Htm Hpend Ho Hflood Hop Haddr Hprep) as (I & R & PI & RI & Hb & Hc3).
  rewrite (main_parts ndebug getopt message fuel argv w opts optind args o wo w1 Hget Hopt Hread Hnew), replay_prepares.
  fold path. rewrite bind_run, E, Hflood. rewrite <- bind_run.
  assert (Hn : Z.to_nat n = Z.to_nat (iterations o) /\ n = Z.of_nat (Z.to_nat (iterations o))) by lia. destruct Hn as [-> Hn].
  rewrite bind_assoc. eapply in_time_bind.
  { unfold for_n. apply (passes_timed ndebug sp I R (capture_times c) calls fuel _ w3 Htimes). by rewrite length_seqZ. }
  intros [] w4 (Hs4 & Hp4). rewrite length_seqZ in *. pose proof (passes_sum _ _ _ _ _ _ _ Hp4) as [Hm4 Hc4].
  rewrite (bind_Ret _ _ _ _ _ (summary_run w4)). set (w5 := with_sys _ w4).
  destruct (destroyed 0 w5) as (w6 & E6 & Hm6 & Hc6).
  { cbn [w5 w_obj with_sys]. destruct Hs4 as (_ & _ & ->). by rewrite (pr_base _ _ _ _ _ _ _ _ Hprep). }
  rewrite E6. cbn [in_time]. split; [done|].
  cbn in Hc6. rewrite Hwo in Hc1. cbn in Hc1, Hc3.
  split; [exists w3, w4; split; [apply E|]; split; [cbn; lia|]; by split|].
  assert (Happ : snd (w_sys w6) = summary (foldl handle_packet (banner o (snd (w_sys wo)))
    (concat (replicate (Z.to_nat (iterations o)) calls)))).
  { rewrite Hm6. cbn [w5 w_sys with_sys snd fst]. by rewrite Hm4, (pr_sys _ _ _ _ _ _ _ _ Hprep), <- Hmem. }
  rewrite Happ. split; [done|]. rewrite Hn.
  destruct (pass_totals (banner o (snd (w_sys wo))) (Z.to_nat (iterations o)) calls) as [-> ->];
    [apply capture_calls_handler|cbn; rewrite Hwo; cbn; by rewrite Hpk|cbn; rewrite Hwo; cbn; by rewrite Hby|].
  split; [done|]. split; [done|]. cbn in Hc4 |- *. lia.
Qed.

End Main.
