(* ===== verification/ReplayWitness.v ===== *)
(** The program [pcap_replay] run on the simulated kernel, and the witnesses of
    its properties. *)
From Stdlib Require Import Ascii.
From stdpp Require Import pretty.
From S2P Require Import Prelude Outcome Result Kernel SimKernel ScopedFd TimerQueue EventLoop Recorder.
From S2P Require Import EventLoopFacts TimerFacts ReactorWitness Waking AppKernel PcapFormat Float64 PacketReceiver.
From S2P Require Import PcapReceiver PcapDispatch PcapFrames PcapReplay PcapOpen ReplayApp ReplayFacts PcapWitness.
From S2P Require Import PcapNg PcapNgReplay PcapControl NgPlayback PacedRun ReplayCapture PcapNgWitness TimedFacts.

Local Open Scope string_scope.
Local Open Scope Z_scope.

Notation replay_world := (world (task Empty_set) PcapReceiver (sim * replay_app)).

(** The command lines, and what [getopt] makes of them. *)
Definition flood_args : list string := ["pcap_replay"; "-f"; "-n"; "3"; "-p"; "9000"; "demo.pcap"].
Definition flood_ng_args : list string := ["pcap_replay"; "-f"; "-n"; "3"; "-p"; "9000"; "demo.pcapng"].
Definition timed_args : list string := ["pcap_replay"; "-p"; "9000"; "demo.pcap"].
Definition missing_args : list string := ["pcap_replay"; "none.pcap"].
Definition unknown_args : list string := ["pcap_replay"; "-q"; "-x"; "demo.pcap"].
Definition unknown_line : string := "pcap_replay: invalid option -- 'x'".
Definition demo_getopt (argv : list string) : list getopt_result * Z * list string :=
  if decide (argv = flood_args \/ argv = flood_ng_args) then ([Found "f"%char ""; Found "n"%char "3"; Found "p"%char "9000"], 6, argv)
  else if decide (argv = unknown_args) then ([Found "q"%char ""; Refused unknown_line], 3, argv)
  else if decide (argv = timed_args) then ([Found "p"%char "9000"], 3, argv)
  else ([], 1, argv).
Definition demo_message (ec : error_code) : string := "error " +:+ pretty (ec_value ec).

Definition replay_boot : replay_world :=
  World (MkEventLoop (MkScopedFd (-1)) (MkScopedFd (-1)) [] ∅ ∅ 0 [] [] ∅ 1) raw_pcap
    (Sim.set_files [("demo.pcap", demo_file); ("demo.pcapng", demo_ng_file)] ∅ (sim_boot 3600000000000), app_start).

(** Three passes over the file, in which two packets are for port 9000. *)
Example replay_run :
  match main true demo_getopt demo_message 6 flood_args replay_boot with
  | Ret code w => Some (code, snd (w_sys w), s_closed (fst (w_sys w)))
  | _ => None
  end = Some (0, MkApp (MkReplayContext false 6 9)
    (["Starting Replay..."; "Mode: FLOOD"; "Iterations: 3"] ++
     concat (replicate 3 ["[Replay] Got 2 bytes at PCAP time 100"; "[Replay] Got 1 bytes at PCAP time 101"]) ++
     [newline +:+ "--- Replay Complete ---"; "Total Packets Processed: 6";
      "Total Bytes Processed:   9 (0 MB)"])%list [], [5; 4; 3]).
Proof. vm_compute. reflexivity. Qed.

(** A pcapng file, whose interfaces are entered again in every pass: six in
    the end, of which the packets use the first two. *)
Example replay_ng_run :
  match main true demo_getopt demo_message 5 flood_ng_args replay_boot with
  | Ret code w => Some (code, replayCtx (snd (w_sys w)), m_interfaceCount (w_obj w))
  | _ => None
  end = Some (0, MkReplayContext false 6 12, 6).
Proof. vm_compute. reflexivity. Qed.

(** In TIMED mode the two packets are played a second apart: it takes a
    thousand turns of a millisecond. *)
Example replay_timed_run :
  match main true demo_getopt demo_message 1003 timed_args replay_boot with
  | Ret code w => Some (code, replayCtx (snd (w_sys w)), clock (w_sys w) - clock (w_sys replay_boot))
  | _ => None
  end = Some (0, MkReplayContext false 2 3, 1002000000) /\
  main true demo_getopt demo_message 1002 timed_args replay_boot = Crash OutOfFuel.
Proof. split; vm_compute; reflexivity. Qed.

Definition timed_options : options := MkOptions false 1 9000.
Definition flood_options : options := MkOptions true 3 9000.
Definition replay_made (o : options) : replay_world :=
  final (EventLoop_new ;; PcapReceiver_new (replay_config o)) replay_boot.

Lemma replay_made_run o :
  (EventLoop_new ;; PcapReceiver_new (replay_config o)) replay_boot = Ret tt (replay_made o).
Proof. destruct o as [[] n p]; vm_compute; reflexivity. Qed.

Lemma flood_opens :
  opens "demo.pcap" (fst (w_sys (replay_made flood_options))) 5 file_addr demo_file
    (after_open "demo.pcap" 5 file_addr demo_file (fst (w_sys (replay_made flood_options)))).
Proof. split; [split; [vm_compute; reflexivity|lia]|vm_compute; reflexivity..|vm_compute; reflexivity]. Qed.

Definition demo_capture : capture := ClassicFile true false (replicate 16 0) DLT_EN10MB demo_records [9; 9].

Lemma timed_opens :
  opens "demo.pcap" (fst (w_sys (replay_made timed_options))) 5 file_addr (capture_bytes demo_capture)
    (after_open "demo.pcap" 5 file_addr demo_file (fst (w_sys (replay_made timed_options)))).
Proof. split; [split; [vm_compute; reflexivity|lia]|vm_compute; reflexivity..|vm_compute; reflexivity]. Qed.

Lemma demo_times : Forall file_time (capture_times demo_capture).
Proof. repeat constructor; vm_compute; congruence. Qed.

Lemma replay_timed_paced_witness :
  in_time (main true demo_getopt demo_message 1003 timed_args replay_boot) (fun status w' => status = 0 /\
    clock (w_sys replay_boot) + 1000002000 <= clock (w_sys w') /\
    exists w3 w4, passes_played true (capture_times demo_capture) (capture_calls file_addr demo_capture 9000) 1003 1 w3 w4).
Proof.
  assert (Hclk : 1 <= clock (w_sys replay_boot)) by (vm_compute; discriminate).
  assert (Hargs : 3 < Z.of_nat (length timed_args)) by reflexivity. assert (Haddr : file_addr <> 0) by discriminate.
  pose proof (replay_timed_paced true demo_getopt demo_message 1003 timed_args replay_boot
    [Found "p"%char "9000"] 3 timed_args timed_options replay_boot (replay_made timed_options) 5 file_addr
    (after_open "demo.pcap" 5 file_addr demo_file (fst (w_sys (replay_made timed_options)))) demo_capture
    eq_refl Hclk eq_refl Hargs eq_refl eq_refl (replay_made_run timed_options)
    timed_opens Haddr demo_given demo_times) as H.
  revert H. destruct (main true demo_getopt demo_message 1003 timed_args replay_boot) as [status w'|e w'|f];
    [|intros H; exact H|intros H; exact H].
  intros (H1 & (w3 & w4 & _ & _ & Hp & _) & _ & _ & _ & H2). split; [exact H1|]. split; [exact H2|].
  exists w3, w4. exact Hp.
Defined.





Lemma flood_ng_opens :
  opens "demo.pcapng" (fst (w_sys (replay_made flood_options))) 5 file_addr demo_ng_file
    (after_open "demo.pcapng" 5 file_addr demo_ng_file (fst (w_sys (replay_made flood_options)))).
Proof. split; [split; [vm_compute; reflexivity|lia]|vm_compute; reflexivity..|vm_compute; reflexivity]. Qed.

Lemma demo_ng_given : ng_given 3 true (replicate 12 0) demo_blocks [7].
Proof.
  split; [rewrite length_replicate; lia| |exact demo_blocks_ok|exact demo_described|cbn; lia|vm_compute; reflexivity].
  apply u8_list. vm_compute. reflexivity.
Qed.

(** The classic file, then the pcapng file. *)
Lemma replay_flood_ends_witness :
  (exists w', main true demo_getopt demo_message 6 flood_args replay_boot = Ret 0 w' /\
    totalPackets (replayCtx (snd (w_sys w'))) = u64 (3 * 2)) /\
  exists w', main true demo_getopt demo_message 6 flood_ng_args replay_boot = Ret 0 w' /\
    totalPackets (replayCtx (snd (w_sys w'))) = u64 (3 * 2).
Proof.
  split.
  - destruct (replay_flood_ends true demo_getopt demo_message 6 flood_args replay_boot
      [Found "f"%char ""; Found "n"%char "3"; Found "p"%char "9000"] 6 flood_args flood_options replay_boot
      (replay_made flood_options) 5 file_addr
      (after_open "demo.pcap" 5 file_addr demo_file (fst (w_sys (replay_made flood_options))))
      (ClassicFile true false (replicate 16 0) DLT_EN10MB demo_records [9; 9])) as (w' & E & _ & Hp & _);
      [reflexivity|vm_compute; discriminate|reflexivity|reflexivity|reflexivity|reflexivity|apply replay_made_run
      |exact flood_opens|discriminate|exact demo_given|cbn; lia|].
    exists w'. split; [exact E|]. rewrite Hp. vm_compute. reflexivity.
  - destruct (replay_flood_ends true demo_getopt demo_message 6 flood_ng_args replay_boot
      [Found "f"%char ""; Found "n"%char "3"; Found "p"%char "9000"] 6 flood_ng_args flood_options replay_boot
      (replay_made flood_options) 5 file_addr
      (after_open "demo.pcapng" 5 file_addr demo_ng_file (fst (w_sys (replay_made flood_options))))
      (NgFile true (replicate 12 0) demo_blocks [7])) as (w' & E & _ & Hp & _);
      [reflexivity|vm_compute; discriminate|reflexivity|reflexivity|reflexivity|reflexivity|apply replay_made_run
      |exact flood_ng_opens|discriminate|exact demo_ng_given|vm_compute; lia|].
    exists w'. split; [exact E|]. rewrite Hp. vm_compute. reflexivity.
Defined.

Lemma replay_refuses_witness :
  (exists w', main true demo_getopt demo_message 1 missing_args replay_boot = Ret 1 w' /\
     cerr (snd (w_sys w')) = ["Failed to open PCAP: error 2"] /\ live_fds (w_sys w') = live_fds (w_sys replay_boot)) /\
  exists w', main true demo_getopt demo_message 1 unknown_args replay_boot = Ret 1 w' /\
    cerr (snd (w_sys w')) = [unknown_line; "Usage: pcap_replay [-f] [-n iterations] [-p port] <file.pcap>"].
Proof.
  split.
  - destruct (replay_refuses true demo_getopt demo_message 1 missing_args replay_boot [] 1 missing_args eq_refl)
      as (_ & _ & H).
    specialize (H default_options replay_boot (replay_made default_options) eq_refl).
    destruct H as (w' & E & Hc & Hl).
    + cbn. lia.
    + vm_compute. discriminate.
    + apply replay_made_run.
    + vm_compute. reflexivity.
    + vm_compute. discriminate.
    + exists w'. split; [exact E|]. split; [rewrite Hc; vm_compute; reflexivity|exact Hl].
  - destruct (replay_refuses true demo_getopt demo_message 1 unknown_args replay_boot
      [Found "q"%char ""; Refused unknown_line] 3 unknown_args eq_refl) as (H & _ & _).
    destruct (H [Found "q"%char ""] unknown_line [] default_options
      (final (read_options [Found "q"%char ""] default_options) replay_boot) eq_refl eq_refl) as (w' & E & Hr).
    exists w'. split; [exact E|]. destruct Hr as (_ & _ & _ & _ & Hr). exact Hr.
Defined.
